(* ===== verification/_CoqProject ===== *)
-Q . S2P
Prelude.v
Net.v
Deque.v
RingBuffer.v
Inbox.v
Pid.v
Messages.v
Process.v
Trace.v
Actor.v
Delivery.v
SafeMap.v
Context.v
Tree.v
Engine.v
Opts.v
Repeater.v
EventStream.v
Wire.v
ActorWire.v
RemoteWire.v
Stream.v
Router.v
Writer.v
Reconnect.v
Links.v
Remote.v
Nodes.v
Requests.v
Serialize.v
MemberSet.v
Agent.v
Cluster.v
AgentNet.v
SelfManaged.v
Provider.v
Gossip.v
ClusterWire.v
Consul.v
OnEngine.v
Chat.v
Trade.v
TcpServer.v
Persistence.v
Examples.v
Mdns.v
Samples.v
