(* ===== verification/Prelude.v ===== *)
(** * Hollywood: a verification library for the actor engine

    Hollywood is an actor engine in Go with a network transport and a cluster on
    top.  This library translates its core logic into executable definitions and
    proves what each part promises.  Source paths are relative to [src/].

    ** The parts and how they interact

    An actor is a process ([actor/process.go]) that consumes its inbox
    ([actor/inbox.go], over [ringbuffer/ringbuffer.go]) and is found through the
    registry of an engine ([actor/engine.go], [actor/registry.go]).  The engine
    routes a message to a local inbox, to a pending response
    ([actor/response.go]) or to the remote ([remote/remote.go]); what cannot be
    delivered becomes an event for the event stream ([actor/event_stream.go]).
    The remote hands messages to the router actor ([remote/stream_router.go]),
    which keeps one stream writer per address ([remote/stream_writer.go]); a
    writer packs batches into envelopes, encoded by the generated codecs
    ([remote/remote_vtproto.pb.go], [actor/actor_vtproto.pb.go]), and the reader
    of the other node ([remote/stream_reader.go]) unpacks them into local sends.
    The cluster ([cluster/]) runs an agent and a provider actor on every node:
    the provider learns who is a member, the agent follows it and keeps the kinds
    and the activated actors.

    ** Files

    - [Prelude]: outcomes of Go code ([result]: a value or a runtime panic), 64-
      and 32-bit integers with wrap-around ([i64], [i32], [u64]), slices with
      checked accesses, generic lemmas and tactics.
    - [Net]: decimal numbers and [host:port] addresses, as Go's standard library
      writes and reads them.
    - [Deque], [RingBuffer]: the specification of a double-ended queue on lists
      and the interface [MailboxQueue]; the ring buffer, which refines it.
    - [Inbox]: the inbox as a step relation at the grain of atomic operations,
      for any number of goroutines, verified against [MailboxQueue].
    - [Pid]: PIDs and the PID set.  [Messages]: the values Go's [any] ranges over.
    - [Process]: invocation, recovery from panics, restarts, shutdown; user code
      is a parameter that may panic at any message.  [Trace]: the stack trace of a
      restart.  [Actor]: inbox and process running together, under any interleaving
      with senders.  [Delivery]: the senders' lookup in the registry next to that.
    - [SafeMap], [Context]: the map behind a lock; children of a context.  [Tree]:
      the actors of an engine as a tree that is shut down, as a step relation.
    - [Engine]: registry, routing, spawning, poison pills, responses.  [Opts]: the
      functional options of a spawn.  [Repeater]: repeated sends.
    - [EventStream]: subscriptions, logging and fan-out.
    - [Wire], [ActorWire], [RemoteWire]: what the generated codecs share, and the
      codecs of the actor and remote messages, field by field.
    - [Stream]: batches, packed and unpacked.  [Router], [Writer], [Remote]: the
      router, the lifecycle of writers, the remote, and the path of a message from
      node to node.  [Reconnect]: a lost connection, next to the router.  [Links]: all
      the connections of a node, interleaved, as a step relation.  [Nodes]:
      two engines with their remotes, from a send on one to the mailboxes of the
      other.  [Requests]: a request between them and its answer.  [Serialize]: the
      serializers and the type registry.
    - [MemberSet], [Agent], [SelfManaged], [Cluster], [Consul]: the cluster.  An
      activation takes what it draws, the member picked and the id [Engine.Spawn]
      makes for an empty one, as an argument; the caller's side of a request is the
      [call_] definitions of [Cluster], type assertions included.
      [AgentNet]: the agents of several nodes, the letters between them and the
      announcements of [Cluster.Spawn], as a step relation with an executable
      counterpart.
      [ClusterWire]: the codec of its messages, as the templates the generator
      expands, over the interface [VT] of a message type.
      [Provider]: the self-managed provider as the receiver of a process, with its
      restarts.  [Gossip]: the providers of several nodes and the messages between
      them, as a step relation.
    - The examples, as clients of the library: [OnEngine] (what they share),
      [Chat], [Trade], [TcpServer], [Persistence] (middleware around a receiver),
      [Examples] (member selection, monitor, discovery events, benchmark), [Mdns]
      (the discovery actor) and [Samples] (a module per small program).

    Definitions keep the names of the functions they translate; where a Go method
    has several definitions they are its loops and branches.  State is a record
    that is passed and returned.  A mutex-protected operation is one atomic
    function; the inbox, which is lock-free, is a step relation, and so are the
    parts named above whose goroutines interleave.  Calls on
    other components are either calls of their definitions ([Engine], [Router],
    [Writer], [Remote]) or returned in order as effects ([Process], [Agent],
    [SelfManaged]).  Iteration over a Go map takes its order as an argument or as
    an instance of [MemberSet.Range], so theorems hold for every order.

    ** What the theorems show

    - Mailboxes: a ring buffer answers as a queue on lists across growth and
      wrap-around; under any interleaving an inbox that is not restarted while its
      old run loop is still going has one consumer, and it delivers in order what
      nobody jumps ahead of or clears; whatever is queued has a goroutine that is on
      its way to it or in the run loop, and goroutines make progress.  With a
      process behind it ([Actor]): the receiver is given what was sent, in order and,
      once nothing can go on, all of it; a poisoned actor ends up down.  With the
      lookup in the registry as a step of its own ([Delivery]) everything sent is
      received, left in a stopped inbox or a dead letter, and a pill that comes too
      late leaves whoever waits for it waiting.
    - Processes: each message of a batch is received exactly once across
      restarts, restarts are bounded, poison pills stop in the right order; what
      goes wrong when the budget is spent or a handler panics while stopping; an
      actor that keeps failing ends the program, a provider told of dead addresses
      among them, unless the shutdown before that waits for a child that never stops.  A tree of actors shuts down children
      first and with every context cancelled, unless an actor gets a second pill.
    - Engine: every send has exactly one effect; any history that leaves the event
      stream registered keeps the registry consistent and terminates; spawning, poison, request and response on every
      branch; how a lost event stream or a dead subscriber makes it diverge; what
      options ask for is what a spawn does; repeated sends are bounded by the ticks.
    - Codecs: marshalling writes exactly the computed size and never leaves its
      buffer, parsing inverts it, and no input makes a parser panic or loop.
    - Remote: what is sent on one engine to actors of another is in their mailboxes
      in order, after router, writer, wire and reader; a request between nodes comes
      back as its result, and what a second or a late answer does; a lost connection is
      dialled again, or the address is cut off for good if a message overtakes the shutdown
      of its writer, and under any interleaving, with TLS or without, an address goes
      through an eight-phase automaton and no other way, up to the panic of a writer
      that dials, where a run ends ([Links]); connecting, failing to connect and
      shutting down on every branch; the lifecycle refines a four-phase automaton.
    - Cluster: the agent's membership is what its provider says, announcements and
      clean-up included; activation on every branch, and where ids stop being
      unique; unreachable members are forgotten; queries answer with exactly what
      the agent knows, in the type the caller asserts; what is registered with
      Consul comes back.  Between nodes, whatever the network does: providers know
      only nodes, with their own data, and a node is learnt of by a handshake with it
      or from who had one; agents list only actors that were spawned, and agents that
      activate on each other wait until one times out.  Where nothing is lost and
      nobody leaves: dialled nodes come to know each other, and agents settle on the
      same ids once nobody calls.  Cluster messages survive their codec.
    - Examples: what they deliver, and how they fail: strangers crash the chat
      server, the trade engine never finds its children, TCP sessions outlive
      their connections; a player's stored state
      outlives the program, but only a clean stop stores it; metrics count every call and time
      the ones that return; a program prints the same
      however its messages are batched; the benchmark's verdict is whether a message
      was lost or is on its way.

    ** Fuel

    [Process.Start] and the loops of the codecs recurse on fuel.  The codec
    theorems need none: [Wire.unmarshal] and [Wire.skip] take the length of the
    input plus one, which is proved enough, and [Wire.varint_n] ten bytes, enough
    for 64 bits.  A process needs more fuel than the batch is long, or than the
    restart budget.  [Engine.BroadcastEvent] may broadcast again; with a
    registered event stream one level is proved enough, and without one no fuel
    is, which is a theorem.

    ** Not modelled

    The network, drpc, gRPC, zeroconf, Consul, the protobuf library and the hash
    of [LookupKey] are parameters; what a ticker or a [select] chooses is an input.
    Time stamps and diagnostic logging are left out; a sleep is recorded by its length.  The Strict variants of the codecs have the text
    of the others up to their names.  The gRPC and drpc stubs, reflection and
    descriptors of the generated files, and the flags, signals and logging of main
    functions are not modelled. *)


From stdpp Require Export base tactics numbers list gmap strings option fin_maps.
From stdpp Require Export list_numbers.
From Stdlib Require Export ZArith Lia.
#[global] Open Scope Z_scope.

(** ** Outcomes of Go code

    A Go function either returns or panics.  The runtime panics the sources can
    raise are enumerated; user panics carry a value and live in [Process]. *)

Inductive go_panic :=
  | NilDeref          (** nil pointer dereference, call of a nil func, nil map write *)
  | IndexOutOfRange   (** slice index or slice expression out of range *)
  | DivideByZero      (** integer divide by zero *)
  | MakeSliceLen      (** [make] with a negative length *)
  | TypeAssertion     (** failed single-value type assertion *)
  | CloseOfClosed     (** close of a closed channel *)
  | CloseOfNil        (** close of a nil channel *).

#[export] Instance go_panic_eq_dec : EqDecision go_panic.
Proof. solve_decision. Defined.

Inductive result (A : Type) :=
  | Ok (a : A)
  | Panic (p : go_panic).
Arguments Ok {A} _.
Arguments Panic {A} _.

#[export] Instance result_ret : MRet result := fun A a => Ok a.
#[export] Instance result_bind : MBind result := fun A B f m =>
  match m with Ok a => f a | Panic p => Panic p end.

#[export] Instance result_eq_dec A `{EqDecision A} : EqDecision (result A).
Proof. solve_decision. Defined.

(** ** Machine integers

    Go's [int] and [int64] are 64-bit two's complement, [int32] 32-bit and
    [uint64] 64-bit unsigned; a value is a [Z] and arithmetic wraps. *)

Definition two63 : Z := 9223372036854775808.
Definition two64 : Z := 18446744073709551616.
Definition two31 : Z := 2147483648.
Definition two32 : Z := 4294967296.

Definition i64 (z : Z) : Z := (z + two63) mod two64 - two63.
Definition i32 (z : Z) : Z := (z + two31) mod two32 - two31.
Definition u64 (z : Z) : Z := z mod two64.

Lemma i64_id z : - two63 <= z < two63 -> i64 z = z.
Proof. unfold i64, two63, two64. intros ?. rewrite Z.mod_small by lia. lia. Qed.

Lemma i64_range z : - two63 <= i64 z < two63.
Proof. unfold i64, two63, two64. pose proof (Z.mod_pos_bound (z + 9223372036854775808) 18446744073709551616). lia. Qed.

Lemma i32_id z : - two31 <= z < two31 -> i32 z = z.
Proof. unfold i32, two31, two32. intros ?. rewrite Z.mod_small by lia. lia. Qed.

Lemma u64_id z : 0 <= z < two64 -> u64 z = z.
Proof. unfold u64, two64. intros ?. by rewrite Z.mod_small by lia. Qed.

Lemma i64_sub a b : i64 (i64 a - b) = i64 (a - b).
Proof.
  unfold i64. replace ((a + two63) mod two64 - two63 - b + two63) with ((a + two63) mod two64 - b) by lia.
  rewrite Zminus_mod_idemp_l. do 2 f_equal. lia.
Qed.

Lemma i64_add_l a b : i64 (i64 a + b) = i64 (a + b).
Proof. replace (i64 a + b) with (i64 a - - b) by lia. rewrite i64_sub. f_equal. lia. Qed.

(** The nearest [float64] of an integer: 53 bits, ties to even. *)
Definition float64_of (z : Z) : Z :=
  let a := Z.abs z in
  if a <? 2 ^ 53 then z else
  let u := 2 ^ (Z.log2 a - 52) in
  let q := a / u in let r := a mod u in
  let q := if (2 * r <? u) || ((2 * r =? u) && Z.even q) then q else q + 1 in
  Z.sgn z * (q * u).

Lemma float64_of_id z : - 2 ^ 53 < z < 2 ^ 53 -> float64_of z = z.
Proof. intros H. unfold float64_of. by destruct (Z.ltb_spec (Z.abs z) (2 ^ 53)); [|lia]. Qed.

(** Go's [%] truncates towards zero and panics on a zero divisor. *)
Definition go_rem (a b : Z) : result Z :=
  if b =? 0 then Panic DivideByZero else Ok (Z.rem a b).

Lemma go_rem_pos a b : 0 <= a -> 0 < b -> go_rem a b = Ok (a mod b).
Proof.
  intros Ha Hb. unfold go_rem.
  destruct (Z.eqb_spec b 0) as [->|_]; [lia|].
  by rewrite Z.rem_mod_nonneg by lia.
Qed.

(** ** Slices *)

Section slices.
Context {A : Type}.
Implicit Types (l : list A) (i : Z).

Definition zlen l : Z := Z.of_nat (length l).

Definition slice_get l i : result A :=
  if i <? 0 then Panic IndexOutOfRange else
  match l !! Z.to_nat i with
  | Some x => Ok x
  | None => Panic IndexOutOfRange
  end.

Definition slice_set l i (x : A) : result (list A) :=
  if (i <? 0) || (zlen l <=? i) then Panic IndexOutOfRange
  else Ok (<[Z.to_nat i := x]> l).

(** [make([]A, n)] with the zero value [z] of [A]. *)
Definition go_make (z : A) (n : Z) : result (list A) :=
  if n <? 0 then Panic MakeSliceLen else Ok (replicate (Z.to_nat n) z).

(** [l[i:]]. *)
Definition slice_from l i : result (list A) :=
  if (i <? 0) || (zlen l <? i) then Panic IndexOutOfRange
  else Ok (drop (Z.to_nat i) l).

Lemma slice_get_ok l i x :
  0 <= i -> l !! Z.to_nat i = Some x -> slice_get l i = Ok x.
Proof.
  intros Hi Hx. unfold slice_get.
  destruct (Z.ltb_spec i 0); [lia|]. by rewrite Hx.
Qed.

Lemma slice_get_total l i :
  0 <= i < zlen l -> exists x, l !! Z.to_nat i = Some x /\ slice_get l i = Ok x.
Proof.
  unfold zlen. intros Hi.
  assert (Hlt : (Z.to_nat i < length l)%nat) by lia.
  destruct (lookup_lt_is_Some_2 l (Z.to_nat i) Hlt) as [x Hx].
  exists x. split; [done|]. apply slice_get_ok; [lia|done].
Qed.

Lemma slice_set_ok l i x :
  0 <= i < zlen l -> slice_set l i x = Ok (<[Z.to_nat i := x]> l).
Proof.
  intros Hi. unfold slice_set.
  destruct (Z.ltb_spec i 0), (Z.leb_spec (zlen l) i); simpl; (lia || done).
Qed.

Lemma go_make_ok z n : 0 <= n -> go_make z n = Ok (replicate (Z.to_nat n) z).
Proof. intros. unfold go_make. destruct (Z.ltb_spec n 0); [lia|done]. Qed.
End slices.

(** ** Counted loops

    [for i := lo; i < hi; i++ { body }] over a loop state. *)

Fixpoint for_loop {S} (n : nat) (i : Z) (body : Z -> S -> result S) (s : S) : result S :=
  match n with
  | O => Ok s
  | Datatypes.S n' => s' ← body i s; for_loop n' (i + 1) body s'
  end.

Definition for_range {S} (lo hi : Z) (body : Z -> S -> result S) (s : S) : result S :=
  for_loop (Z.to_nat (hi - lo)) lo body s.

(** The invariant rule of a counted loop: it terminates without a panic. *)
Lemma for_loop_ind {S} (P : Z -> S -> Prop) body n i s :
  P i s ->
  (forall j t, i <= j < i + Z.of_nat n -> P j t ->
     exists t', body j t = Ok t' /\ P (j + 1) t') ->
  exists s', for_loop n i body s = Ok s' /\ P (i + Z.of_nat n) s'.
Proof.
  revert i s. induction n as [|n IH]; intros i s Hs Hbody; simpl.
  - exists s. split; [done|]. rewrite Z.add_0_r. exact Hs.
  - assert (Hi : i <= i < i + Z.of_nat (Datatypes.S n)) by lia.
    destruct (Hbody i s Hi Hs) as (t & Ht & HPt). rewrite Ht. simpl.
    destruct (IH (i + 1) t HPt) as (s' & Hs' & HP').
    { intros j u Hj. apply Hbody. lia. }
    exists s'. split; [done|].
    replace (i + Z.of_nat (Datatypes.S n)) with (i + 1 + Z.of_nat n) by lia. exact HP'.
Qed.

Lemma for_range_ind {S} (P : Z -> S -> Prop) body lo hi s :
  lo <= hi ->
  P lo s ->
  (forall j t, lo <= j < hi -> P j t -> exists t', body j t = Ok t' /\ P (j + 1) t') ->
  exists s', for_range lo hi body s = Ok s' /\ P hi s'.
Proof.
  intros Hle Hs Hbody. unfold for_range.
  destruct (for_loop_ind P body (Z.to_nat (hi - lo)) lo s Hs) as (s' & Hs' & HP).
  { intros j t Hj. apply Hbody. lia. }
  exists s'. split; [done|].
  replace hi with (lo + Z.of_nat (Z.to_nat (hi - lo))) by lia. exact HP.
Qed.

(** ** Lemmas on [mod] shared by the index arithmetic *)

Lemma mod_add_inj a i j m :
  0 <= i < m -> 0 <= j < m -> (a + i) mod m = (a + j) mod m -> i = j.
Proof.
  intros Hi Hj Heq.
  assert (Hd : (i - j) mod m = 0).
  { replace (i - j) with ((a + i) - (a + j)) by lia.
    rewrite Zminus_mod, Heq, Z.sub_diag. apply Zmod_0_l. }
  apply Z.mod_divide in Hd; [|lia]. destruct Hd as [k Hk].
  destruct (Z.lt_trichotomy k 0) as [?|[->|?]]; [nia|lia|nia].
Qed.

Lemma mod_add_l a b m : m <> 0 -> (a mod m + b) mod m = (a + b) mod m.
Proof. intros. by rewrite Z.add_mod_idemp_l. Qed.

(** ** Sets *)

Lemma union_singleton_difference `{Countable K} (k : K) (s : gset K) :
  k ∉ s -> ({[k]} ∪ s) ∖ {[k]} = s.
Proof.
  intros Hk. apply set_eq. intros x. rewrite elem_of_difference, elem_of_union, elem_of_singleton.
  split; [tauto|]. intros Hx. split; [tauto|]. by intros ->.
Qed.

(** ** Lists *)

Lemma Forall2_impl_in {A B} (P Q : A -> B -> Prop) xs ys :
  Forall2 P xs ys -> (forall x y, x ∈ xs -> P x y -> Q x y) -> Forall2 Q xs ys.
Proof.
  induction 1 as [|x y xs ys Hxy _ IH]; intros HQ; constructor.
  - apply HQ; [by left|done].
  - apply IH. intros x' y' Hin. apply HQ. by right.
Qed.

(** What is in a list after one of its places was set. *)
Lemma elem_of_insert {A} (i : nat) (x y : A) (xs : list A) : y ∈ <[i := x]> xs -> y = x \/ y ∈ xs.
Proof.
  intros [j Hj]%list_elem_of_lookup. apply list_lookup_insert_Some in Hj as [(_ & -> & _)|[_ Hj]]; [by left|right].
  by apply list_elem_of_lookup; exists j.
Qed.

(** ** Strings *)

Lemma string_app_assoc (s t u : string) : (s +:+ t) +:+ u = s +:+ (t +:+ u).
Proof. induction s as [|a s IH]; [done|]. exact (f_equal (String a) IH). Qed.

(** ** Automation *)

Create HintDb go discriminated.
#[export] Hint Resolve i64_range : go.

(** Split a result-monad equation [x ← m; k = Ok y] into its two steps. *)
Ltac bind_inv H :=
  match type of H with
  | mbind _ ?m = Ok _ =>
      let E := fresh "E" in destruct m eqn:E; cbn [mbind result_bind] in H; [|discriminate H]
  end.
