(* ===== verification/Net.v ===== *)
(** * Numbers and addresses as text

    What the cluster uses of Go's [strconv] and [net]: decimal integers and the
    splitting of host:port addresses, with the lemmas that read them back. *)

From S2P Require Import Prelude.

Definition digit_char (d : Z) : Ascii.ascii := Ascii.ascii_of_nat (48 + Z.to_nat d).
Definition char_code (c : Ascii.ascii) : Z := Z.of_nat (Ascii.nat_of_ascii c).
Definition colon : Ascii.ascii := Ascii.ascii_of_nat 58.
Definition lbracket : Ascii.ascii := Ascii.ascii_of_nat 91.
Definition rbracket : Ascii.ascii := Ascii.ascii_of_nat 93.
Definition minus : Ascii.ascii := Ascii.ascii_of_nat 45.
Definition plus : Ascii.ascii := Ascii.ascii_of_nat 43.

(** The digits of a number below [10 ^ fuel]. *)
Fixpoint decimal (fuel : nat) (n : Z) : list Ascii.ascii :=
  match fuel with
  | O => []
  | S fuel => (if n <? 10 then [] else decimal fuel (n / 10)) ++ [digit_char (n mod 10)]
  end.

(** [strconv.Itoa] on 64-bit integers, which have at most 19 digits. *)
Definition Itoa (n : Z) : string :=
  String.string_of_list_ascii (if n <? 0 then minus :: decimal 19 (- n) else decimal 19 n).

Definition max_uint64 : Z := two64 - 1.

(** [strconv.ParseUint] in base 10: [None] is a syntax error; a number out of
    range stops the scan with the largest value and an error ([false]). *)
Fixpoint parse_uint (ds : list Ascii.ascii) (n : Z) : option (Z * bool) :=
  match ds with
  | [] => Some (n, true)
  | c :: ds =>
      let d := char_code c - 48 in
      if (d <? 0) || (9 <? d) then None
      else if max_uint64 / 10 + 1 <=? n then Some (max_uint64, false)
      else if max_uint64 <? n * 10 + d then Some (max_uint64, false)
      else parse_uint ds (n * 10 + d)
  end.

(** [strconv.Atoi]: the value it returns, and whether there is no error. *)
Definition Atoi (s : string) : Z * bool :=
  let l := String.list_ascii_of_string s in
  let '(neg, ds) := match l with
    | c :: ds => if Ascii.eqb c minus then (true, ds) else if Ascii.eqb c plus then (false, ds) else (false, l)
    | [] => (false, l)
    end in
  match ds, parse_uint ds 0 with
  | [], _ | _, None => (0, false)
  | _, Some (n, ok) =>
      if neg : bool then if two63 <? n then (- two63, false) else (- n, ok)
      else if two63 <=? n then (two63 - 1, false) else (n, ok)
  end.

(** [bytealg.IndexByteString] and [bytealg.LastIndexByteString]. *)
Fixpoint index_byte (c : Ascii.ascii) (l : list Ascii.ascii) : option nat :=
  match l with
  | [] => None
  | x :: l => if Ascii.eqb x c then Some O else S <$> index_byte c l
  end.
Fixpoint last_index_byte (c : Ascii.ascii) (l : list Ascii.ascii) : option nat :=
  match l with
  | [] => None
  | x :: l => match last_index_byte c l with
              | Some i => Some (S i)
              | None => if Ascii.eqb x c then Some O else None
              end
  end.

(** [net.SplitHostPort]; [None] is an error, with which it returns two empty
    strings. *)
Definition SplitHostPort (hostport : string) : option (string * string) :=
  let l := String.list_ascii_of_string hostport in
  i ← last_index_byte colon l;
  '(host, j, k) ← (match l with
    | c :: _ =>
        if Ascii.eqb c lbracket then
          e ← index_byte rbracket l;
          if decide (S e = i) then Some (drop 1 (take e l), 1%nat, S e) else None
        else
          match index_byte colon (take i l) with
          | Some _ => None
          | None => Some (take i l, O, O)
          end
    | [] => None
    end);
  match index_byte lbracket (drop j l), index_byte rbracket (drop k l) with
  | None, None => Some (String.string_of_list_ascii host, String.string_of_list_ascii (drop (S i) l))
  | _, _ => None
  end.

(** ** Decimal numbers read back *)

Lemma char_code_digit d : 0 <= d < 10 -> char_code (digit_char d) = 48 + d.
Proof.
  intros Hd. unfold char_code, digit_char. rewrite Ascii.nat_ascii_embedding by lia. lia.
Qed.

Lemma parse_digit d ds n :
  0 <= d < 10 -> 0 <= n -> n * 10 + d < two63 ->
  parse_uint (digit_char d :: ds) n = parse_uint ds (n * 10 + d).
Proof.
  intros Hd Hn Hlt. cbn [parse_uint]. rewrite char_code_digit by done.
  replace (48 + d - 48) with d by lia.
  assert (Hc : max_uint64 / 10 + 1 = 1844674407370955162) by reflexivity.
  unfold max_uint64, two63, two64 in *.
  destruct (Z.ltb_spec d 0); [lia|]. destruct (Z.ltb_spec 9 d); [lia|]. cbn [orb].
  rewrite Hc. destruct (Z.leb_spec 1844674407370955162 n); [lia|].
  destruct (Z.ltb_spec (18446744073709551616 - 1) (n * 10 + d)); [lia|done].
Qed.

Lemma parse_decimal fuel : forall n ds,
  0 <= n < 10 ^ Z.of_nat fuel -> n < two63 ->
  parse_uint (decimal fuel n ++ ds) 0 = parse_uint ds n.
Proof.
  induction fuel as [|fuel IH]; intros n ds Hn Hlt; cbn [decimal].
  { simpl in Hn. by replace n with 0 by lia. }
  rewrite Nat2Z.inj_succ, Z.pow_succ_r in Hn by lia.
  pose proof (Z.div_mod n 10 ltac:(done)) as Hdm. pose proof (Z.mod_pos_bound n 10 ltac:(done)) as Hm.
  rewrite <-app_assoc. cbn [app]. destruct (Z.ltb_spec n 10) as [Hs|Hb].
  - cbn [app]. rewrite parse_digit; [|done|done|unfold two63; lia].
    f_equal. rewrite Z.mod_small by lia. lia.
  - rewrite IH; [|split; [apply Z.div_pos; lia|apply Z.div_lt_upper_bound; lia]
                 |apply Z.le_lt_trans with n; [apply Z.div_le_upper_bound; lia|done]].
    rewrite parse_digit; [f_equal; lia|done|apply Z.div_pos; lia|lia].
Qed.

Lemma decimal_cons fuel n : (0 < fuel)%nat -> 0 <= n -> exists d ds, 0 <= d < 10 /\ decimal fuel n = digit_char d :: ds.
Proof.
  revert n. induction fuel as [|fuel IH]; intros n Hf Hn; [lia|]. cbn [decimal].
  destruct (Z.ltb_spec n 10).
  - exists (n mod 10), []. split; [apply Z.mod_pos_bound; lia|done].
  - destruct fuel as [|fuel'].
    { exists (n mod 10), []. split; [apply Z.mod_pos_bound; lia|done]. }
    destruct (IH (n / 10)) as (d & ds & Hd & ->); [lia|apply Z.div_pos; lia|].
    exists d, (ds ++ [digit_char (n mod 10)]). done.
Qed.

Definition is_digit (c : Ascii.ascii) : Prop := 48 <= char_code c <= 57.

Lemma decimal_digits fuel n : 0 <= n -> Forall is_digit (decimal fuel n).
Proof.
  revert n. induction fuel as [|fuel IH]; intros n Hn; cbn [decimal]; [done|].
  apply Forall_app. split.
  - destruct (n <? 10); [done|]. apply IH, Z.div_pos; lia.
  - apply Forall_singleton. unfold is_digit. pose proof (Z.mod_pos_bound n 10 ltac:(done)).
    rewrite char_code_digit by done. lia.
Qed.

Lemma digit_not c d : is_digit c -> ~ is_digit d -> Ascii.eqb c d = false.
Proof. intros Hc Hd. destruct (Ascii.eqb_spec c d) as [->|]; done. Qed.

(** [Atoi] inverts [Itoa]. *)
Lemma Atoi_Itoa n : 0 <= n < two63 -> Atoi (Itoa n) = (n, true).
Proof.
  intros Hn. unfold Atoi, Itoa. destruct (Z.ltb_spec n 0); [lia|].
  rewrite String.list_ascii_of_string_of_list_ascii.
  destruct (decimal_cons 19 n) as (d & ds & Hd & Hdec); [lia|lia|]. rewrite Hdec.
  assert (Hdig : is_digit (digit_char d)) by (unfold is_digit; rewrite char_code_digit by done; lia).
  rewrite !digit_not by (try done; unfold is_digit; by intros []). cbv iota beta.
  rewrite <-Hdec, <-(app_nil_r (decimal 19 n)), parse_decimal by (unfold two63 in *; simpl; lia).
  cbn [parse_uint]. destruct (Z.leb_spec two63 n); [lia|done].
Qed.

(** ** Addresses *)

(** A host without colons and brackets: a name or an IPv4 address. *)
Definition plain_char (c : Ascii.ascii) : Prop := c <> colon /\ c <> lbracket /\ c <> rbracket.
Definition plain_host (host : string) : Prop := Forall plain_char (String.list_ascii_of_string host).

Lemma digit_plain c : is_digit c -> plain_char c.
Proof. intros Hc. repeat split; intros ->; by destruct Hc. Qed.

Lemma index_byte_none c l : Forall (fun x => x <> c) l -> index_byte c l = None.
Proof.
  induction 1 as [|x l Hx _ IH]; cbn [index_byte]; [done|].
  destruct (Ascii.eqb_spec x c); [done|]. by rewrite IH.
Qed.

Lemma last_index_none c l : Forall (fun x => x <> c) l -> last_index_byte c l = None.
Proof.
  induction 1 as [|x l Hx _ IH]; cbn [last_index_byte]; [done|].
  rewrite IH. by destruct (Ascii.eqb_spec x c).
Qed.

Lemma last_index_app c l1 l2 : Forall (fun x => x <> c) l2 ->
  last_index_byte c (l1 ++ c :: l2) = Some (length l1).
Proof.
  intros H2. induction l1 as [|x l1 IH]; cbn [app last_index_byte length].
  - rewrite (last_index_none c l2 H2). by rewrite Ascii.eqb_refl.
  - by rewrite IH.
Qed.

Lemma plain_not l c : Forall plain_char l -> c = colon \/ c = lbracket \/ c = rbracket -> Forall (fun x => x <> c) l.
Proof.
  intros Hl Hc. eapply Forall_impl; [exact Hl|]. intros x (H1 & H2 & H3) ->. by destruct Hc as [->|[->| ->]].
Qed.

Lemma list_ascii_app s1 s2 :
  String.list_ascii_of_string (s1 +:+ s2) = String.list_ascii_of_string s1 ++ String.list_ascii_of_string s2.
Proof. induction s1 as [|c s1 IH]; simpl; [done|]. by rewrite <-IH. Qed.

(** host:port with a plain host and a decimal port. *)
Lemma SplitHostPort_plain host port :
  plain_host host -> 0 <= port ->
  SplitHostPort (host +:+ ":" +:+ Itoa port) = Some (host, Itoa port).
Proof.
  intros Hh Hp. unfold SplitHostPort. rewrite !list_ascii_app.
  change (String.list_ascii_of_string ":") with [colon]. cbn [app].
  set (h := String.list_ascii_of_string host). set (p := String.list_ascii_of_string (Itoa port)).
  assert (Hpp : Forall plain_char p).
  { unfold p, Itoa. destruct (Z.ltb_spec port 0); [lia|]. rewrite String.list_ascii_of_string_of_list_ascii.
    eapply Forall_impl; [by apply decimal_digits|]. apply digit_plain. }
  rewrite last_index_app by (apply plain_not; auto). cbn [mbind option_bind].
  assert (Hbr : forall c, c = lbracket \/ c = rbracket -> index_byte c (h ++ colon :: p) = None).
  { intros c Hc. apply index_byte_none, Forall_app. split; [apply plain_not; [done|tauto]|].
    constructor; [by destruct Hc as [->| ->]|]. apply plain_not; [done|tauto]. }
  assert (Htake : take (length h) (h ++ colon :: p) = h) by apply take_app_length.
  assert (Hdrop : drop (S (length h)) (h ++ colon :: p) = p).
  { change (colon :: p) with ([colon] ++ p). rewrite app_assoc. apply drop_app_length'.
    rewrite length_app. simpl. lia. }
  assert (Hmid : (match h ++ colon :: p with
    | c :: _ =>
        if Ascii.eqb c lbracket then
          e ← index_byte rbracket (h ++ colon :: p);
          if decide (S e = length h) then Some (drop 1 (take e (h ++ colon :: p)), 1%nat, S e) else None
        else
          match index_byte colon (take (length h) (h ++ colon :: p)) with
          | Some _ => None
          | None => Some (take (length h) (h ++ colon :: p), O, O)
          end
    | [] => None
    end) = Some (h, O, O)).
  { rewrite Htake, (index_byte_none colon h) by (apply plain_not; auto).
    destruct h as [|c h'] eqn:Eh; cbn [app]; [done|].
    destruct (Ascii.eqb_spec c lbracket) as [->|]; [|done].
    unfold plain_host in Hh. fold h in Hh. rewrite Eh in Hh. apply Forall_cons in Hh as [(_ & Hc & _) _]. done. }
  rewrite Hmid. cbn [mbind option_bind drop]. rewrite !Hbr by auto. rewrite Hdrop.
  unfold h, p. by rewrite !String.string_of_list_ascii_of_string.
Qed.
