(* ===== verification/Deque.v ===== *)
(** * The mailbox queue: abstract specification and interface

    The inbox does not depend on how its queue is laid out.  [spec_step] is the
    contract of a double-ended queue on plain lists, in pop order, and
    [MailboxQueue] is the interface the inbox is verified against; [RingBuffer]
    discharges it. *)

From S2P Require Import Prelude.

Section spec.
Context {T : Type} (zero : T).

(** The calls a client can make. *)
Inductive op :=
  | OPush (x : T)
  | OPushFront (x : T)
  | OPop
  | OPopN (n : Z)
  | OLen
  | OClear.

(** What a call returns. *)
Inductive reply :=
  | RUnit
  | RItem (x : T) (ok : bool)
  | RItems (xs : list T) (ok : bool)
  | RLen (n : Z).

Definition spec_step (o : op) (l : list T) : reply * list T :=
  match o with
  | OPush x => (RUnit, l ++ [x])
  | OPushFront x => (RUnit, x :: l)
  | OPop => (match l with [] => RItem zero false | x :: _ => RItem x true end, tl l)
  | OPopN n => (RItems (take (Z.to_nat n) l) (negb (zlen l =? 0)), drop (Z.to_nat n) l)
  | OLen => (RLen (zlen l), l)
  | OClear => (RUnit, [])
  end.

Fixpoint spec_run (os : list op) (l : list T) : list reply * list T :=
  match os with
  | [] => ([], l)
  | o :: os =>
      let '(r, l) := spec_step o l in
      let '(rs, l) := spec_run os l in (r :: rs, l)
  end.

Definition op_valid (o : op) : Prop :=
  match o with OPopN n => 0 <= n | _ => True end.

Lemma spec_step_len o l : zlen (spec_step o l).2 <= zlen l + 1.
Proof.
  unfold zlen. destruct o; simpl; rewrite ?length_app, ?length_drop; simpl; try lia.
  destruct l; simpl; lia.
Qed.
End spec.

Arguments op : clear implicits.
Arguments reply : clear implicits.

(** What a mailbox queue promises its inbox.  [mq_room] says that the next push
    still fits the machine's index width. *)
Class MailboxQueue (T Q : Type) := {
  mq_push : T -> Q -> result Q;
  mq_push_front : T -> Q -> result Q;
  mq_popn : Z -> Q -> result ((list T * bool) * Q);
  mq_len : Q -> Z;
  mq_clear : Q -> Q;
  mq_wf : Q -> Prop;
  mq_room : Q -> Prop;
  mq_abs : Q -> list T;
  mq_push_law : forall x q, mq_wf q -> mq_room q ->
    exists q', mq_push x q = Ok q' /\ mq_wf q' /\ mq_abs q' = mq_abs q ++ [x];
  mq_push_front_law : forall x q, mq_wf q -> mq_room q ->
    exists q', mq_push_front x q = Ok q' /\ mq_wf q' /\ mq_abs q' = x :: mq_abs q;
  mq_popn_law : forall n q, mq_wf q -> 0 <= n ->
    exists q', mq_popn n q = Ok ((take (Z.to_nat n) (mq_abs q), negb (mq_len q =? 0)), q')
      /\ mq_wf q' /\ mq_abs q' = drop (Z.to_nat n) (mq_abs q);
  mq_len_law : forall q, mq_wf q -> mq_len q = zlen (mq_abs q);
  mq_clear_law : forall q, mq_wf q -> mq_wf (mq_clear q) /\ mq_abs (mq_clear q) = [];
}.

(** The reference implementation: a plain list. *)
#[refine] Instance list_queue T : MailboxQueue T (list T) := {|
  mq_push x q := Ok (q ++ [x]);
  mq_push_front x q := Ok (x :: q);
  mq_popn n q := Ok ((take (Z.to_nat n) q, negb (zlen q =? 0)), drop (Z.to_nat n) q);
  mq_len := zlen;
  mq_clear _ := [];
  mq_wf _ := True;
  mq_room _ := True;
  mq_abs q := q;
|}.
Proof. all: naive_solver. Defined.
