(* ===== verification/RingBuffer.v ===== *)
(** * The growable ring buffer ([ringbuffer/ringbuffer.go])

    [RingBuffer] is the mailbox behind every actor inbox.  The operations are
    translated statement by statement over int64 indices; each runs under the
    buffer's mutex in the source, so an operation is one atomic function here.
    [contents] reads the elements off in pop order, and every operation is shown
    to refine the corresponding operation on that list. *)

From S2P Require Import Prelude Deque.

Section ring_buffer.
Context {T : Type} (zero : T).

Record buffer := mkBuffer {
  items : list T;
  head : Z;
  tail : Z;
  mod_ : Z;
}.

Record RingBuffer := mkRingBuffer {
  len : Z;
  content : buffer;
}.

Definition New (size : Z) : result RingBuffer :=
  its ← go_make zero size;
  Ok (mkRingBuffer 0 (mkBuffer its 0 0 size)).

(** [newBuff[i] = items[(tail + i) % mod]] for every [i < mod]. *)
Definition push_grow (c : buffer) : result buffer :=
  let size := i64 (mod_ c * 2) in
  newBuff ← go_make zero size;
  newBuff ← for_range 0 (mod_ c) (fun i nb =>
    idx ← go_rem (i64 (tail c + i)) (mod_ c);
    v ← slice_get (items c) idx;
    slice_set nb i v) newBuff;
  Ok (mkBuffer newBuff 0 (mod_ c) size).

Definition Push (item : T) (rb : RingBuffer) : result RingBuffer :=
  let c := content rb in
  t ← go_rem (i64 (tail c + 1)) (mod_ c);
  let c := mkBuffer (items c) (head c) t (mod_ c) in
  c ← (if tail c =? head c then push_grow c else Ok c);
  its ← slice_set (items c) (tail c) item;
  Ok (mkRingBuffer (i64 (len rb + 1)) (mkBuffer its (head c) (tail c) (mod_ c))).

Definition Len (rb : RingBuffer) : Z := len rb.

Definition Pop (rb : RingBuffer) : result ((T * bool) * RingBuffer) :=
  if len rb =? 0 then Ok ((zero, false), rb) else
  let c := content rb in
  h ← go_rem (i64 (head c + 1)) (mod_ c);
  item ← slice_get (items c) h;
  its ← slice_set (items c) h zero;
  Ok ((item, true), mkRingBuffer (i64 (len rb - 1)) (mkBuffer its h (tail c) (mod_ c))).

(** [newBuff[i+1] = items[(head + 1 + i) % mod]] for every [i < len]. *)
Definition push_front_grow (rb : RingBuffer) : result buffer :=
  let c := content rb in
  let size := i64 (mod_ c * 2) in
  newBuff ← go_make zero size;
  newBuff ← for_range 0 (len rb) (fun i nb =>
    idx ← go_rem (i64 (i64 (head c + 1) + i)) (mod_ c);
    v ← slice_get (items c) idx;
    slice_set nb (i + 1) v) newBuff;
  Ok (mkBuffer newBuff 0 (len rb) size).

Definition PushFront (item : T) (rb : RingBuffer) : result RingBuffer :=
  c ← (if i64 (mod_ (content rb) - 1) <=? len rb then push_front_grow rb
       else Ok (content rb));
  its ← slice_set (items c) (head c) item;
  h ← go_rem (i64 (i64 (head c - 1) + mod_ c)) (mod_ c);
  Ok (mkRingBuffer (i64 (len rb + 1)) (mkBuffer its h (tail c) (mod_ c))).

(** Copy [n] elements out of the buffer, zeroing the slots they leave. *)
Definition pop_copy (c : buffer) (n : Z) (out : list T) : result (list T * list T) :=
  for_range 0 n (fun i '(out, its) =>
    pos ← go_rem (i64 (i64 (head c + 1) + i)) (mod_ c);
    v ← slice_get its pos;
    out ← slice_set out i v;
    its ← slice_set its pos zero;
    Ok (out, its)) (out, items c).

Definition PopN (n : Z) (rb : RingBuffer) : result ((list T * bool) * RingBuffer) :=
  if len rb =? 0 then Ok (([], false), rb) else
  let c := content rb in
  let n := if len rb <=? n then len rb else n in
  out ← go_make zero n;
  '(out, its) ← pop_copy c n out;
  h ← go_rem (i64 (head c + n)) (mod_ c);
  Ok ((out, true), mkRingBuffer (i64 (len rb - n)) (mkBuffer its h (tail c) (mod_ c))).

Definition Clear (rb : RingBuffer) : RingBuffer :=
  let c := content rb in
  mkRingBuffer 0 (mkBuffer (items c) 0 0 (mod_ c)).

(** ** Representation *)

Definition slot (c : buffer) (p : Z) : T := default zero (items c !! Z.to_nat p).

(** The elements in pop order. *)
Definition contents (rb : RingBuffer) : list T :=
  (fun i => slot (content rb) ((head (content rb) + 1 + i) mod mod_ (content rb)))
    <$> seqZ 0 (len rb).

Definition max_mod : Z := 4611686018427387904. (* 2^62: doubling it overflows int64 *)

Record wf (rb : RingBuffer) : Prop := {
  wf_mod : 0 < mod_ (content rb) <= max_mod;
  wf_items : zlen (items (content rb)) = mod_ (content rb);
  wf_head : 0 <= head (content rb) < mod_ (content rb);
  wf_len : 0 <= len rb < mod_ (content rb);
  wf_tail : tail (content rb) = (head (content rb) + len rb) mod mod_ (content rb);
}.

End ring_buffer.

Arguments buffer : clear implicits.
Arguments RingBuffer : clear implicits.

(** ** Reading a window of a circular slice *)

Section read.
Context {T : Type} (zero : T).
Implicit Types (its : list T) (h m n : Z).

Definition window its h m n : list T :=
  (fun i => default zero (its !! Z.to_nat ((h + 1 + i) mod m))) <$> seqZ 0 n.

Lemma contents_window rb :
  contents zero rb
  = window (items (content rb)) (head (content rb)) (mod_ (content rb)) (len rb).
Proof. done. Qed.

Lemma window_length its h m n : 0 <= n -> zlen (window its h m n) = n.
Proof. intros. unfold zlen, window. rewrite length_fmap, length_seqZ. lia. Qed.

Lemma window_mod its h m n : 0 < m -> window its (h mod m) m n = window its h m n.
Proof.
  intros Hm. unfold window. apply list_fmap_ext. intros k i _.
  do 3 f_equal. rewrite <-!Z.add_assoc. apply mod_add_l. lia.
Qed.

Lemma window_app its h m a b :
  0 <= a -> 0 <= b -> 0 < m ->
  window its h m (a + b) = window its h m a ++ window its ((h + a) mod m) m b.
Proof.
  intros Ha Hb Hm. rewrite window_mod by lia. unfold window.
  rewrite seqZ_app by lia. rewrite fmap_app. f_equal.
  replace (0 + a) with (a + 0) by lia. rewrite <-fmap_add_seqZ, <-list_fmap_compose.
  apply list_fmap_ext. intros k i _. simpl. do 4 f_equal. lia.
Qed.

Lemma window_one its h m :
  window its h m 1 = [default zero (its !! Z.to_nat ((h + 1) mod m))].
Proof. unfold window. simpl. by rewrite Z.add_0_r. Qed.

Lemma window_snoc its h m n :
  0 <= n -> 0 < m ->
  window its h m (n + 1)
  = window its h m n ++ [default zero (its !! Z.to_nat ((h + 1 + n) mod m))].
Proof.
  intros. rewrite window_app, window_one, mod_add_l by lia.
  by replace (h + n + 1) with (h + 1 + n) by lia.
Qed.

Lemma window_insert_out its h m n p x :
  0 <= p < m -> 0 < m -> n <= m ->
  (forall i, 0 <= i < n -> (h + 1 + i) mod m <> p) ->
  window (<[Z.to_nat p := x]> its) h m n = window its h m n.
Proof.
  intros Hp Hm Hn Hout. unfold window. apply list_fmap_ext. intros k i Hi.
  apply lookup_seqZ in Hi as [-> Hi].
  rewrite list_lookup_insert_ne; [done|].
  pose proof (Hout (0 + Z.of_nat k)). pose proof (Z.mod_pos_bound (h + 1 + (0 + Z.of_nat k)) m).
  lia.
Qed.

Lemma window_insert_last its h m n x :
  0 < m -> 0 <= n < m -> zlen its = m ->
  window (<[Z.to_nat ((h + 1 + n) mod m) := x]> its) h m (n + 1)
  = window its h m n ++ [x].
Proof.
  intros Hm Hn Hlen. pose proof (Z.mod_pos_bound (h + 1 + n) m Hm).
  rewrite window_snoc by lia. rewrite window_insert_out; [|lia..|].
  - rewrite list_lookup_insert_eq; [done|]. unfold zlen in Hlen. lia.
  - intros i Hi Heq. apply mod_add_inj in Heq; lia.
Qed.

Lemma window_insert_first its h m n x :
  0 < m -> 0 <= n < m -> zlen its = m -> 0 <= h < m ->
  window (<[Z.to_nat h := x]> its) ((h - 1 + m) mod m) m (n + 1)
  = x :: window its h m n.
Proof.
  intros Hm Hn Hlen Hh. replace (n + 1) with (1 + n) by lia.
  rewrite window_mod by lia. rewrite window_app, window_one by lia.
  rewrite window_mod by lia. replace (h - 1 + m + 1) with (h + 1 * m) by lia.
  rewrite Z.mod_add, (Z.mod_small h) by lia.
  rewrite list_lookup_insert_eq by (unfold zlen in Hlen; lia).
  simpl. f_equal.
  rewrite <-(window_mod _ (h + 1 * m)), Z.mod_add, (Z.mod_small h) by lia.
  apply window_insert_out; [lia..|].
  intros i Hi Heq.
  assert (Hh' : h = (h + 0) mod m) by (rewrite Z.add_0_r, Z.mod_small by lia; done).
  rewrite Hh' in Heq at 2. rewrite <-Z.add_assoc in Heq.
  apply mod_add_inj in Heq; lia.
Qed.
End read.

(** ** Each operation refines its list counterpart *)

Section refinement.
Context {T : Type} (zero : T).
Implicit Types (rb : RingBuffer T) (c : buffer T).

(** Shape of a buffer whose indices are in range. *)
Definition buf_ok c : Prop :=
  0 < mod_ c <= max_mod /\ zlen (items c) = mod_ c.

Lemma slot_get c p :
  buf_ok c -> 0 <= p < mod_ c -> slice_get (items c) p = Ok (slot zero c p).
Proof.
  intros [_ Hl] Hp. destruct (slice_get_total (items c) p) as (x & Hx & ->); [lia|].
  unfold slot. by rewrite Hx.
Qed.

(** The index expression [(a + i) % mod] at int64. *)
Lemma idx_ok a i m :
  0 < m <= max_mod -> 0 <= a -> 0 <= i -> a + i < 2 * m ->
  go_rem (i64 (a + i)) m = Ok ((a + i) mod m).
Proof.
  unfold max_mod. intros. rewrite i64_id by (unfold two63; lia).
  apply go_rem_pos; lia.
Qed.

(** The copy loop of [Push]: after [k] rounds the first [k] cells hold the
    old buffer read from [tail] on. *)
Lemma push_grow_ok c :
  buf_ok c -> mod_ c < max_mod -> 0 <= tail c < mod_ c ->
  exists nb, push_grow zero c = Ok (mkBuffer nb 0 (mod_ c) (mod_ c * 2)) /\
    zlen nb = mod_ c * 2 /\
    forall j, 0 <= j < mod_ c ->
      nb !! Z.to_nat j = Some (slot zero c ((tail c + j) mod mod_ c)).
Proof.
  intros Hok Hmax Ht. pose proof Hok as [Hm Hl].
  unfold push_grow. cbv zeta. rewrite (i64_id (mod_ c * 2)) by (unfold max_mod, two63 in *; lia).
  rewrite go_make_ok by lia. cbn [mbind result_bind].
  edestruct (for_range_ind (fun k nb => zlen nb = mod_ c * 2 /\
    forall j, 0 <= j < k -> nb !! Z.to_nat j = Some (slot zero c ((tail c + j) mod mod_ c))))
    as (nb & -> & Hnb).
  4: { exists nb. done. }
  - lia.
  - split; [unfold zlen; rewrite length_replicate; lia|lia].
  - intros j t Hj [Hlen Hpre]. rewrite idx_ok by lia. cbn [mbind result_bind].
    rewrite slot_get; [|done|apply Z.mod_pos_bound; lia]. cbn [mbind result_bind].
    rewrite slice_set_ok by lia. eexists. split; [done|]. split.
    { unfold zlen in *. by rewrite length_insert. }
    intros k Hk. destruct (decide (k = j)) as [->|Hne].
    + apply list_lookup_insert_eq. unfold zlen in Hlen. lia.
    + rewrite list_lookup_insert_ne by lia. apply Hpre. lia.
Qed.

Lemma push_front_grow_ok rb :
  wf rb -> mod_ (content rb) < max_mod ->
  exists nb, push_front_grow zero rb
      = Ok (mkBuffer nb 0 (len rb) (mod_ (content rb) * 2)) /\
    zlen nb = mod_ (content rb) * 2 /\
    forall j, 0 <= j < len rb -> nb !! Z.to_nat (j + 1)
      = Some (slot zero (content rb) ((head (content rb) + 1 + j) mod mod_ (content rb))).
Proof.
  intros [Hm Hl Hh Hn Ht] Hmax. set (c := content rb) in *.
  unfold push_front_grow. fold c. cbv zeta.
  rewrite (i64_id (mod_ c * 2)) by (unfold max_mod, two63 in *; lia).
  rewrite go_make_ok by lia. cbn [mbind result_bind].
  edestruct (for_range_ind (fun k nb => zlen nb = mod_ c * 2 /\
    forall j, 0 <= j < k -> nb !! Z.to_nat (j + 1)
      = Some (slot zero c ((head c + 1 + j) mod mod_ c)))) as (nb & -> & Hnb).
  4: { exists nb. done. }
  - lia.
  - split; [unfold zlen; rewrite length_replicate; lia|lia].
  - intros j t Hj [Hlen Hpre].
    rewrite (i64_id (head c + 1)) by (unfold max_mod, two63 in *; lia).
    rewrite idx_ok by lia. cbn [mbind result_bind].
    rewrite slot_get; [|done|apply Z.mod_pos_bound; lia]. cbn [mbind result_bind].
    rewrite slice_set_ok by lia. eexists. split; [done|]. split.
    { unfold zlen in *. by rewrite length_insert. }
    intros k Hk. destruct (decide (k = j)) as [->|Hne].
    + apply list_lookup_insert_eq. unfold zlen in Hlen. lia.
    + rewrite list_lookup_insert_ne by lia. apply Hpre. lia.
Qed.
(** A fresh buffer laid out from cell 1 reads like the old one. *)
Lemma window_relaid its h m n its' m' :
  0 < m' -> n < m' ->
  (forall j, 0 <= j < n ->
     its' !! Z.to_nat (j + 1) = Some (default zero (its !! Z.to_nat ((h + 1 + j) mod m)))) ->
  window zero its' 0 m' n = window zero its h m n.
Proof.
  intros Hm Hn Heq. unfold window. apply list_fmap_ext. intros k i Hi.
  apply lookup_seqZ in Hi as [-> Hi]. rewrite (Z.mod_small (0 + 1 + _)) by lia.
  replace (0 + 1 + (0 + Z.of_nat k)) with (Z.of_nat k + 1) by lia.
  rewrite Heq by lia. done.
Qed.

Definition room rb : Prop := mod_ (content rb) * 2 <= max_mod.

Lemma wf_buf_ok rb : wf rb -> buf_ok (content rb).
Proof. intros [? ? ? ? ?]. done. Qed.

Lemma Push_small rb x :
  wf rb -> len rb + 1 < mod_ (content rb) ->
  exists rb', Push zero x rb = Ok rb' /\ wf rb' /\
    contents zero rb' = contents zero rb ++ [x] /\
    mod_ (content rb') = mod_ (content rb).
Proof.
  intros [Hm Hl Hh Hn Ht] Hroom. rewrite !contents_window.
  destruct rb as [n [its h t m]]; simpl in *.
  pose proof (Z.mod_pos_bound (h + n) m ltac:(lia)) as Ht0.
  unfold Push; simpl. rewrite idx_ok by lia. cbn [mbind result_bind]; simpl.
  assert (Ht' : (t + 1) mod m = (h + 1 + n) mod m).
  { rewrite Ht, mod_add_l by lia. f_equal. lia. }
  rewrite Ht'. pose proof (Z.mod_pos_bound (h + 1 + n) m ltac:(lia)) as Ht1.
  destruct (Z.eqb_spec ((h + 1 + n) mod m) h) as [Heq|Hne].
  { exfalso. rewrite <-(Z.mod_small h m) in Heq at 2 by lia.
    rewrite <-Z.add_assoc, <-(Z.add_0_r h) in Heq at 1.
    replace (h + 0 + (1 + n)) with (h + (1 + n)) in Heq by lia.
    rewrite <-(Z.add_0_r h) in Heq at 2.
    apply mod_add_inj in Heq; lia. }
  cbn [mbind result_bind]; simpl. rewrite slice_set_ok by lia. cbn [mbind result_bind].
  rewrite i64_id by (unfold max_mod, two63 in *; lia).
  eexists. split; [done|]. split; [|split; [|done]].
  - split; simpl; [lia| |lia|lia|].
    + unfold zlen in *. by rewrite length_insert.
    + f_equal. lia.
  - simpl. apply window_insert_last; lia.
Qed.

Lemma Push_full rb x :
  wf rb -> room rb -> len rb + 1 = mod_ (content rb) ->
  exists rb', Push zero x rb = Ok rb' /\ wf rb' /\
    contents zero rb' = contents zero rb ++ [x] /\
    mod_ (content rb') = 2 * (len rb + 1).
Proof.
  intros [Hm Hl Hh Hn Ht] Hroom Hfull. unfold room in Hroom. rewrite !contents_window.
  destruct rb as [n [its h t m]]; simpl in *.
  pose proof (Z.mod_pos_bound (h + n) m ltac:(lia)) as Ht0.
  unfold Push; simpl. rewrite idx_ok by lia. cbn [mbind result_bind]; simpl.
  assert (Ht' : (t + 1) mod m = h).
  { rewrite Ht, mod_add_l by lia. replace (h + n + 1) with (h + 1 * m) by lia.
    rewrite Z.mod_add by lia. apply Z.mod_small. lia. }
  rewrite Ht', Z.eqb_refl.
  destruct (push_grow_ok (mkBuffer its h h m)) as (nb & -> & Hnl & Hnb);
    [split; simpl; lia|simpl in *; lia..|].
  cbn [mbind result_bind]; simpl in *. rewrite slice_set_ok by lia.
  cbn [mbind result_bind].
  rewrite i64_id by (unfold max_mod, two63 in *; lia).
  eexists. split; [done|]. split; [|split]; simpl; [| |lia].
  - split; simpl; [lia| |lia|lia|].
    + unfold zlen in *. rewrite length_insert. lia.
    + rewrite Z.mod_small by lia. lia.
  - assert (Hidx : m = (0 + 1 + n) mod (m * 2)) by (rewrite Z.mod_small by lia; lia).
    replace (Z.to_nat m) with (Z.to_nat ((0 + 1 + n) mod (m * 2))) by (by rewrite <-Hidx).
    rewrite contents_window; simpl. rewrite (window_insert_last zero nb 0 (m * 2) n) by lia.
    f_equal. apply window_relaid; [lia..|]. intros j Hj. rewrite Hnb by lia.
    unfold slot; simpl. do 5 f_equal. lia.
Qed.
Lemma PushFront_small rb x :
  wf rb -> len rb + 1 < mod_ (content rb) ->
  exists rb', PushFront zero x rb = Ok rb' /\ wf rb' /\
    contents zero rb' = x :: contents zero rb /\
    mod_ (content rb') = mod_ (content rb).
Proof.
  intros [Hm Hl Hh Hn Ht] Hroom. rewrite !contents_window.
  destruct rb as [n [its h t m]]; simpl in *.
  unfold PushFront; simpl. rewrite (i64_id (m - 1)) by (unfold max_mod, two63 in *; lia).
  destruct (Z.leb_spec (m - 1) n); [lia|]. cbn [mbind result_bind]; simpl.
  rewrite slice_set_ok by lia. cbn [mbind result_bind].
  rewrite (i64_id (h - 1)) by (unfold max_mod, two63 in *; lia).
  rewrite (i64_id (h - 1 + m)) by (unfold max_mod, two63 in *; lia).
  rewrite go_rem_pos by lia. cbn [mbind result_bind].
  rewrite i64_id by (unfold max_mod, two63 in *; lia).
  eexists. split; [done|]. split; [|split; [|done]].
  - pose proof (Z.mod_pos_bound (h - 1 + m) m ltac:(lia)).
    split; simpl; [lia| |lia|lia|].
    + unfold zlen in *. by rewrite length_insert.
    + rewrite Ht, mod_add_l by lia. replace (h - 1 + m + (n + 1)) with (h + n + 1 * m) by lia.
      by rewrite Z.mod_add by lia.
  - simpl. apply window_insert_first; lia.
Qed.

Lemma PushFront_full rb x :
  wf rb -> room rb -> len rb + 1 = mod_ (content rb) ->
  exists rb', PushFront zero x rb = Ok rb' /\ wf rb' /\
    contents zero rb' = x :: contents zero rb /\
    mod_ (content rb') = 2 * (len rb + 1).
Proof.
  intros Hwf Hroom Hfull. pose proof Hwf as [Hm Hl Hh Hn Ht].
  unfold room in Hroom. rewrite !contents_window.
  destruct (push_front_grow_ok rb Hwf) as (nb & Hg & Hnl & Hnb); [lia|].
  destruct rb as [n [its h t m]]; simpl in *.
  unfold PushFront; simpl. rewrite (i64_id (m - 1)) by (unfold max_mod, two63 in *; lia).
  destruct (Z.leb_spec (m - 1) n); [|lia]. rewrite Hg. cbn [mbind result_bind]; simpl.
  rewrite slice_set_ok by lia. cbn [mbind result_bind].
  rewrite (i64_id (0 - 1)) by (unfold two63; lia).
  rewrite (i64_id (0 - 1 + _)) by (unfold max_mod, two63 in *; lia).
  rewrite go_rem_pos by lia. cbn [mbind result_bind].
  rewrite i64_id by (unfold max_mod, two63 in *; lia).
  eexists. split; [done|]. split; [|split]; simpl; [| |lia].
  - split; simpl; [lia| | |lia|].
    + unfold zlen in *. rewrite length_insert. lia.
    + rewrite Z.mod_small; lia.
    + rewrite mod_add_l by lia. replace (0 - 1 + m * 2 + (n + 1)) with (n + 1 * (m * 2)) by lia.
      rewrite Z.mod_add, Z.mod_small by lia. done.
  - etransitivity; [apply (window_insert_first zero nb 0 (m * 2) n x); lia|]. f_equal.
    apply window_relaid; [lia..|]. intros j Hj. by rewrite Hnb by lia.
Qed.
Lemma Push_ok rb x :
  wf rb -> room rb ->
  exists rb', Push zero x rb = Ok rb' /\ wf rb' /\
    contents zero rb' = contents zero rb ++ [x] /\
    mod_ (content rb') <= Z.max (mod_ (content rb)) (2 * (len rb + 1)).
Proof.
  intros Hwf Hroom. destruct (Z.lt_ge_cases (len rb + 1) (mod_ (content rb))) as [Hlt|Hge].
  - destruct (Push_small rb x Hwf Hlt) as (rb' & ? & ? & ? & ?). exists rb'. naive_solver lia.
  - destruct (Push_full rb x Hwf Hroom) as (rb' & ? & ? & ? & ?).
    { destruct Hwf. lia. }
    exists rb'. naive_solver lia.
Qed.

Lemma PushFront_ok rb x :
  wf rb -> room rb ->
  exists rb', PushFront zero x rb = Ok rb' /\ wf rb' /\
    contents zero rb' = x :: contents zero rb /\
    mod_ (content rb') <= Z.max (mod_ (content rb)) (2 * (len rb + 1)).
Proof.
  intros Hwf Hroom. destruct (Z.lt_ge_cases (len rb + 1) (mod_ (content rb))) as [Hlt|Hge].
  - destruct (PushFront_small rb x Hwf Hlt) as (rb' & ? & ? & ? & ?). exists rb'. naive_solver lia.
  - destruct (PushFront_full rb x Hwf Hroom) as (rb' & ? & ? & ? & ?).
    { destruct Hwf. lia. }
    exists rb'. naive_solver lia.
Qed.

(** The copy loop of [PopN]: the elements come out in order and the cells
    that hold the remaining ones are untouched. *)
Lemma pop_copy_ok c k out :
  buf_ok c -> 0 <= head c < mod_ c -> 0 <= k < mod_ c -> zlen out = k ->
  exists its', pop_copy zero c k out = Ok (window zero (items c) (head c) (mod_ c) k, its') /\
    zlen its' = mod_ c /\
    forall p, 0 <= p < mod_ c ->
      (forall i, 0 <= i < k -> (head c + 1 + i) mod mod_ c <> p) ->
      its' !! Z.to_nat p = items c !! Z.to_nat p.
Proof.
  intros [Hm Hl] Hh Hk Hout. unfold pop_copy.
  set (P := fun j (st : list T * list T) =>
    zlen st.1 = k /\ take (Z.to_nat j) st.1 = window zero (items c) (head c) (mod_ c) j /\
    zlen st.2 = mod_ c /\
    forall p, 0 <= p < mod_ c ->
      (forall i, 0 <= i < j -> (head c + 1 + i) mod mod_ c <> p) ->
      st.2 !! Z.to_nat p = items c !! Z.to_nat p).
  edestruct (for_range_ind P) as ([o its'] & -> & Hfin).
  4: { destruct Hfin as (Ho & Htake & Hits & Hrest). simpl in *.
    exists its'. rewrite take_ge in Htake by (unfold zlen in Ho; lia).
    by rewrite Htake. }
  - lia.
  - split; [done|]. split; [done|]. split; [done|]. done.
  - intros j [o its'] Hj (Ho & Htake & Hits & Hrest). simpl in Ho, Htake, Hits, Hrest.
    rewrite (i64_id (head c + 1)) by (unfold max_mod, two63 in *; lia).
    rewrite idx_ok by lia. cbn [mbind result_bind].
    set (pos := (head c + 1 + j) mod mod_ c).
    assert (Hpos : 0 <= pos < mod_ c) by (apply Z.mod_pos_bound; lia).
    assert (Hget : slice_get its' pos = Ok (slot zero c pos)).
    { destruct (slice_get_total its' pos) as (x & Hx & ->); [lia|].
      unfold slot. rewrite Hrest in Hx; [by rewrite Hx|done|].
      intros i Hi Heq. apply mod_add_inj in Heq; lia. }
    rewrite Hget. cbn [mbind result_bind]. rewrite !slice_set_ok by lia.
    cbn [mbind result_bind]. eexists. split; [done|]. unfold P; simpl. split_and!.
    + unfold zlen in *. by rewrite length_insert.
    + replace (Z.to_nat (j + 1)) with (S (Z.to_nat j)) by lia.
      rewrite window_snoc, <-Htake by lia.
      rewrite (take_S_r _ _ (slot zero c pos)); [|apply list_lookup_insert_eq; unfold zlen in Ho; lia].
      by rewrite take_insert_ge by lia.
    + unfold zlen in *. by rewrite length_insert.
    + intros p Hp Hne. rewrite list_lookup_insert_ne.
      * apply Hrest; [done|]. intros i Hi. apply Hne. lia.
      * pose proof (Hne j ltac:(lia)). fold pos in H. lia.
Qed.
Lemma contents_len rb : wf rb -> zlen (contents zero rb) = len rb.
Proof. intros [? ? ? ? ?]. apply window_length. lia. Qed.

Lemma contents_nil rb : wf rb -> len rb = 0 <-> contents zero rb = [].
Proof.
  intros Hwf. pose proof (contents_len rb Hwf) as Hl. unfold zlen in Hl.
  destruct (contents zero rb); simpl in *; split; (done || lia).
Qed.

(** Taking [k] elements splits the window. *)
Lemma window_split its h m n k :
  0 <= k <= n -> 0 < m ->
  window zero its h m k = take (Z.to_nat k) (window zero its h m n) /\
  window zero its ((h + k) mod m) m (n - k) = drop (Z.to_nat k) (window zero its h m n).
Proof.
  intros Hk Hm. assert (Hn : n = k + (n - k)) by lia.
  pose proof (window_app zero its h m k (n - k)) as Happ. rewrite <-Hn in Happ.
  pose proof (window_length zero its h m k ltac:(lia)) as Hlen. unfold zlen in Hlen.
  rewrite Happ by lia. split.
  - rewrite take_app_length'; [done|lia].
  - rewrite drop_app_length'; [done|lia].
Qed.

(** Changing only cells outside a window does not change it. *)
Lemma window_agree its its' h m n :
  0 < m ->
  (forall i, 0 <= i < n -> its' !! Z.to_nat ((h + 1 + i) mod m) = its !! Z.to_nat ((h + 1 + i) mod m)) ->
  window zero its' h m n = window zero its h m n.
Proof.
  intros Hm Heq. unfold window. apply list_fmap_ext. intros k i Hi.
  apply lookup_seqZ in Hi as [-> Hi]. by rewrite Heq by lia.
Qed.

Lemma PopN_ok rb k :
  wf rb -> 0 <= k ->
  exists rb', PopN zero k rb
      = Ok ((take (Z.to_nat k) (contents zero rb), negb (len rb =? 0)), rb') /\
    wf rb' /\ contents zero rb' = drop (Z.to_nat k) (contents zero rb) /\
    mod_ (content rb') = mod_ (content rb).
Proof.
  intros Hwf Hk. pose proof Hwf as [Hm Hl Hh Hn Ht].
  unfold PopN. destruct (Z.eqb_spec (len rb) 0) as [H0|H0].
  { apply contents_nil in H0; [|done]. rewrite H0.
    rewrite take_nil, drop_nil. exists rb. done. }
  set (n := if len rb <=? k then len rb else k).
  assert (Hnk : 0 <= n <= len rb /\ n = Z.min k (len rb)).
  { unfold n. destruct (Z.leb_spec (len rb) k); lia. }
  rewrite go_make_ok by lia. cbn [mbind result_bind].
  destruct (pop_copy_ok (content rb) n (replicate (Z.to_nat n) zero))
    as (its' & -> & Hlen' & Hrest); [by apply wf_buf_ok|lia..| |].
  { unfold zlen. rewrite length_replicate. lia. }
  cbn [mbind result_bind]. rewrite idx_ok by lia. cbn [mbind result_bind].
  rewrite i64_id by (unfold max_mod, two63 in *; lia). rewrite contents_window.
  destruct (window_split (items (content rb)) (head (content rb)) (mod_ (content rb)) (len rb) n)
    as [Htk Hdr]; [lia..|].
  assert (Hmin : forall l : list T, zlen l = len rb ->
    take (Z.to_nat n) l = take (Z.to_nat k) l /\ drop (Z.to_nat n) l = drop (Z.to_nat k) l).
  { unfold zlen. intros l Hll. destruct (Z.le_gt_cases (len rb) k).
    - rewrite !take_ge, !drop_ge by lia. done.
    - by replace n with k by lia. }
  destruct (Hmin _ (window_length zero (items (content rb)) (head (content rb))
    (mod_ (content rb)) (len rb) ltac:(lia))) as [Hmt Hmd].
  pose proof (Z.mod_pos_bound (head (content rb) + n) (mod_ (content rb)) ltac:(lia)).
  eexists. split; [by rewrite Htk, Hmt|]. split; [|split; [|done]].
  - split; simpl; [done|done|done|lia|].
    rewrite mod_add_l by lia. rewrite Ht. f_equal. lia.
  - rewrite contents_window; simpl. rewrite <-Hmd, <-Hdr. apply window_agree; [lia|].
    intros i Hi. apply Hrest; [apply Z.mod_pos_bound; lia|].
    rewrite <-Z.add_assoc, mod_add_l by lia.
    replace (head (content rb) + n + (1 + i)) with (head (content rb) + 1 + (n + i)) by lia.
    intros j Hj Heq. apply mod_add_inj in Heq; lia.
Qed.

Lemma Pop_ok rb :
  wf rb ->
  exists rb', Pop zero rb
      = Ok (match contents zero rb with [] => (zero, false) | x :: _ => (x, true) end, rb') /\
    wf rb' /\ contents zero rb' = tl (contents zero rb) /\
    mod_ (content rb') = mod_ (content rb).
Proof.
  intros Hwf. pose proof Hwf as [Hm Hl Hh Hn Ht]. unfold Pop.
  destruct (Z.eqb_spec (len rb) 0) as [H0|H0].
  { apply contents_nil in H0; [|done]. rewrite H0. exists rb. naive_solver. }
  rewrite idx_ok by lia. cbn [mbind result_bind].
  pose proof (Z.mod_pos_bound (head (content rb) + 1) (mod_ (content rb)) ltac:(lia)).
  rewrite slot_get by (done || by apply wf_buf_ok). cbn [mbind result_bind].
  rewrite slice_set_ok by lia. cbn [mbind result_bind].
  rewrite i64_id by (unfold max_mod, two63 in *; lia). rewrite contents_window.
  pose proof (window_app zero (items (content rb)) (head (content rb))
    (mod_ (content rb)) 1 (len rb - 1)) as Happ.
  replace (1 + (len rb - 1)) with (len rb) in Happ by lia. rewrite Happ by lia.
  rewrite window_one. eexists. split; [done|]. split; [|split; [|done]].
  - split; simpl; [done| |done|lia|].
    + unfold zlen in *. by rewrite length_insert.
    + rewrite mod_add_l by lia. rewrite Ht. f_equal. lia.
  - rewrite contents_window; simpl. apply window_insert_out; [lia..|].
    intros i Hi. rewrite <-Z.add_assoc, mod_add_l by lia. intros Heq.
    replace (head (content rb) + 1 + (1 + i)) with (head (content rb) + 1 + 1 + i) in Heq by lia.
    rewrite <-(Z.add_0_r (head (content rb) + 1)) in Heq at 2.
    rewrite <-Z.add_assoc in Heq. apply mod_add_inj in Heq; lia.
Qed.

Lemma Clear_ok rb :
  wf rb -> wf (Clear rb) /\ contents zero (Clear rb) = [] /\
    mod_ (content (Clear rb)) = mod_ (content rb).
Proof.
  intros [Hm Hl Hh Hn Ht]. split; [|done].
  split; simpl; [done|done|lia|lia|]. rewrite Z.mod_small; lia.
Qed.

Lemma New_ok size :
  0 < size <= max_mod ->
  exists rb, New zero size = Ok rb /\ wf rb /\ contents zero rb = [] /\
    mod_ (content rb) = size.
Proof.
  intros Hs. unfold New. rewrite go_make_ok by lia. cbn [mbind result_bind].
  eexists. split; [done|]. split; [|done].
  split; simpl; [done|unfold zlen; rewrite length_replicate; lia|lia|lia|].
  rewrite Z.mod_small; lia.
Qed.
End refinement.

(** The ring buffer is a mailbox queue. *)
#[refine, export] Instance ring_queue {T} (zero : T) : MailboxQueue T (RingBuffer T) := {|
  mq_push := Push zero;
  mq_push_front := PushFront zero;
  mq_popn := PopN zero;
  mq_len := Len;
  mq_clear := Clear;
  mq_wf := wf;
  mq_room := room;
  mq_abs := contents zero;
|}.
Proof.
  - intros x q Hwf Hroom. destruct (Push_ok zero q x Hwf Hroom) as (q' & ? & ? & ? & _). eauto.
  - intros x q Hwf Hroom. destruct (PushFront_ok zero q x Hwf Hroom) as (q' & ? & ? & ? & _). eauto.
  - intros n q Hwf Hn. destruct (PopN_ok zero q n Hwf Hn) as (q' & ? & ? & ? & _). eauto.
  - intros q Hwf. by rewrite contents_len.
  - intros q Hwf. destruct (Clear_ok zero q Hwf) as (? & ? & _). done.
Defined.

(** ** Histories *)

Section histories.
Context {T : Type} (zero : T).

Definition impl_step (o : op T) (rb : RingBuffer T) : result (reply T * RingBuffer T) :=
  match o with
  | OPush x => rb' ← Push zero x rb; Ok (RUnit, rb')
  | OPushFront x => rb' ← PushFront zero x rb; Ok (RUnit, rb')
  | OPop => '((x, ok), rb') ← Pop zero rb; Ok (RItem x ok, rb')
  | OPopN n => '((xs, ok), rb') ← PopN zero n rb; Ok (RItems xs ok, rb')
  | OLen => Ok (RLen (Len rb), rb)
  | OClear => Ok (RUnit, Clear rb)
  end.

Fixpoint impl_run (os : list (op T)) (rb : RingBuffer T) : result (list (reply T) * RingBuffer T) :=
  match os with
  | [] => Ok ([], rb)
  | o :: os =>
      '(r, rb) ← impl_step o rb;
      '(rs, rb) ← impl_run os rb;
      Ok (r :: rs, rb)
  end.

(** One step of the simulation, with the capacity it may grow to. *)
Lemma impl_step_sim o rb :
  wf rb -> room rb -> op_valid o ->
  exists rb', impl_step o rb = Ok ((spec_step zero o (contents zero rb)).1, rb') /\
    wf rb' /\ contents zero rb' = (spec_step zero o (contents zero rb)).2 /\
    mod_ (content rb') <= Z.max (mod_ (content rb)) (2 * (len rb + 1)).
Proof.
  intros Hwf Hroom Hv. pose proof (contents_len zero rb Hwf) as Hlen.
  destruct o as [x|x| |n| |]; simpl in *.
  - destruct (Push_ok zero rb x Hwf Hroom) as (rb' & -> & ? & ? & ?). eauto.
  - destruct (PushFront_ok zero rb x Hwf Hroom) as (rb' & -> & ? & ? & ?). eauto.
  - destruct (Pop_ok zero rb Hwf) as (rb' & -> & ? & ? & Hmod). exists rb'.
    destruct (contents zero rb); simpl; (split; [done|]); naive_solver lia.
  - destruct (PopN_ok zero rb n Hwf Hv) as (rb' & -> & ? & ? & Hmod). exists rb'.
    rewrite Hlen; simpl. split; [done|]. naive_solver lia.
  - exists rb. rewrite Hlen. split; [done|]. naive_solver lia.
  - destruct (Clear_ok zero rb Hwf) as (? & ? & Hmod). exists (Clear rb).
    split; [done|]. naive_solver lia.
Qed.

Lemma impl_run_sim os rb bound :
  wf rb -> Forall op_valid os ->
  mod_ (content rb) <= bound -> 2 * (len rb + zlen os + 1) <= bound ->
  2 * bound <= max_mod ->
  exists rb', impl_run os rb = Ok ((spec_run zero os (contents zero rb)).1, rb') /\
    wf rb' /\ contents zero rb' = (spec_run zero os (contents zero rb)).2 /\
    mod_ (content rb') <= bound.
Proof.
  unfold zlen. revert rb. induction os as [|o os IH]; intros rb Hwf Hv Hmod Hlen Hmax.
  { exists rb. done. }
  inversion Hv as [|? ? Hv1 Hv2]; subst. simpl in *.
  destruct (impl_step_sim o rb) as (rb1 & -> & Hwf1 & Hc1 & Hm1); [done|unfold room; lia|done|].
  cbn [mbind result_bind].
  assert (Hl1 : len rb1 <= len rb + 1).
  { rewrite <-(contents_len zero rb1), <-(contents_len zero rb), Hc1 by done.
    apply spec_step_len. }
  destruct (IH rb1) as (rb2 & -> & Hwf2 & Hc2 & Hm2); [done|done|lia|lia|done|].
  cbn [mbind result_bind]. exists rb2. rewrite Hc1 in *.
  destruct (spec_step zero o (contents zero rb)) as [r l]; simpl in *.
  destruct (spec_run zero os l) as [rs l']; simpl in *. done.
Qed.

(** C1: A history of calls on a new ring buffer, of any length that fits the
    index width, never panics and answers every call exactly as a double-ended
    queue on lists does, growth and wrap-around included; the final buffer
    holds the list's elements and its capacity is at most twice the larger of
    the initial size and the number of calls plus one. *)
Theorem ring_buffer_refines_deque (size : Z) (os : list (op T))
  (Hsize : 0 < size) (Hvalid : Forall op_valid os)
  (Hbound : 2 * Z.max size (2 * (zlen os + 1)) <= max_mod) :
  exists rb rb', New zero size = Ok rb /\
    impl_run os rb = Ok ((spec_run zero os []).1, rb') /\
    contents zero rb' = (spec_run zero os []).2 /\
    mod_ (content rb') <= Z.max size (2 * (zlen os + 1)).
Proof.
  unfold max_mod in *.
  destruct (New_ok zero size) as (rb & Hnew & Hwf & Hc & Hm); [unfold max_mod; lia|].
  pose proof (contents_len zero rb Hwf) as Hl. rewrite Hc in Hl.
  destruct (impl_run_sim os rb (Z.max size (2 * (zlen os + 1))))
    as (rb' & Hrun & _ & Hc' & Hm'); [done|done|lia| |unfold max_mod; lia|].
  { unfold zlen in *. simpl in Hl. lia. }
  rewrite Hc in Hrun, Hc'. eauto 10.
Qed.
End histories.

Lemma ring_buffer_refines_deque_witness :
  exists rb rb', New 0 2 = Ok rb /\
    impl_run 0 [OPush 1; OPush 2; OPushFront 3; OPush 4; OPopN 2; OPop; OPush 5; OClear; OPop] rb
      = Ok ([RUnit; RUnit; RUnit; RUnit; RItems [3; 1] true; RItem 2 true; RUnit; RUnit; RItem 0 false], rb') /\
    contents 0 rb' = [] /\ mod_ (content rb') <= 20.
Proof.
  apply (ring_buffer_refines_deque 0 2
    [OPush 1; OPush 2; OPushFront 3; OPush 4; OPopN 2; OPop; OPush 5; OClear; OPop]).
  - lia.
  - repeat constructor. simpl. lia.
  - vm_compute. discriminate.
Defined.

(** The error branches: a non-positive size makes [New] or the first [Push]
    panic, and [PopN] with a negative count on a non-empty buffer panics. *)
Theorem ring_buffer_invalid_sizes {T} (zero x : T) (rb : RingBuffer T) (n : Z)
  (Hwf : wf rb) (Hne : contents zero rb <> []) (Hn : n < 0) :
  New zero n = Panic MakeSliceLen /\
  (rb0 ← New zero 0; Push zero x rb0) = Panic DivideByZero /\
  PopN zero n rb = Panic MakeSliceLen.
Proof.
  pose proof (contents_nil zero rb Hwf) as Hnil. pose proof (wf_len _ Hwf) as Hlen.
  assert (Hl : len rb <> 0) by tauto.
  unfold New, PopN, go_make. destruct (Z.ltb_spec n 0); [|lia].
  split_and!; [done|done|].
  destruct (Z.eqb_spec (len rb) 0); [done|].
  destruct (Z.leb_spec (len rb) n); [lia|].
  by destruct (Z.ltb_spec n 0); [|lia].
Qed.

Lemma ring_buffer_invalid_sizes_witness :
  PopN 0 (-1) (mkRingBuffer 1 (mkBuffer [0; 7] 0 1 2)) = Panic MakeSliceLen.
Proof.
  apply (ring_buffer_invalid_sizes 0 0 (mkRingBuffer 1 (mkBuffer [0; 7] 0 1 2)) (-1)).
  - split; simpl; unfold max_mod, zlen; simpl; lia || done.
  - done.
  - lia.
Defined.
