(* ===== verification/Inbox.v ===== *)
(** * The inbox ([actor/inbox.go])

    The inbox is a lock-free state machine: any number of goroutines push
    messages and try to move [procStatus] from [idle] to [running]; the one that
    succeeds schedules a goroutine that runs the batch loop until the queue is
    empty, goes back to [idle] and looks at the queue once more.

    Every atomic access of the source (a ring-buffer call, an atomic load, swap
    or compare-and-swap) is one step of [thread_step]; a configuration is the
    shared inbox and the program counters of the goroutines inside it, and
    [step] interleaves them arbitrarily.  The queue is any [MailboxQueue]. *)

From S2P Require Import Prelude Deque RingBuffer.

Definition defaultThroughput : Z := 300.
Definition messageBatchSize : Z := 1024 * 4.

(** [procStatus]. *)
Inductive status := stopped | starting | idle | running.
#[export] Instance status_eq_dec : EqDecision status.
Proof. solve_decision. Defined.

Section inbox.
Context {T Q : Type} `{MQ : MailboxQueue T Q}.
(** [Scheduler.Throughput()]. *)
Variable throughput : Z.

Record Inbox := mkInbox { rb : Q; procStatus : status }.

(** [NewInbox], on the queue it allocates. *)
Definition NewInbox (q : Q) : Inbox := mkInbox q stopped.

Definition set_rb (q : Q) (b : Inbox) : Inbox := mkInbox q (procStatus b).
Definition set_status (s : status) (b : Inbox) : Inbox := mkInbox (rb b) s.

(** [atomic.CompareAndSwapInt32(&in.procStatus, old, new)]. *)
Definition cas (old new : status) (b : Inbox) : bool * Inbox :=
  if decide (procStatus b = old) then (true, set_status new b) else (false, b).

(** Where a goroutine stands inside the inbox code. *)
Inductive pc :=
  | CSend (m : T)            (** [Send]: about to push *)
  | CSendPriority (m : T)    (** [SendPriority]: about to push in front *)
  | CSchedule                (** [schedule]: about to compare-and-swap *)
  | CLoad (i : Z)            (** [run]: about to load [procStatus] *)
  | CPop (i : Z)             (** [run]: about to pop a batch *)
  | CInvoke (i : Z) (ms : list T)  (** [run]: about to call [proc.Invoke] *)
  | CGoIdle                  (** [process]: [run] returned *)
  | CCheckLen                (** [process]: went idle, about to read the length *)
  | CStart                   (** [Start] *)
  | CSetIdle                 (** [Start]: compare-and-swap succeeded *)
  | CStop                    (** [Stop] *)
  | CClear                   (** [Clear] *).

(** The shared memory: the inbox, and two logs the proofs speak about: the
    messages pushed so far and the batches handed to [Invoke]. *)
Record shared := mkShared {
  inbox : Inbox;
  sent : list T;
  delivered : list T;
}.

Definition on_inbox (f : Inbox -> Inbox) (sh : shared) : shared :=
  mkShared (f (inbox sh)) (sent sh) (delivered sh).

(** [run]'s loop head: [if i > t { i = 0; runtime.Gosched() }; i++]. *)
Definition loop_head (i : Z) : Z := (if throughput <? i then 0 else i) + 1.

(** One atomic step of a goroutine: the new shared memory, and the goroutines
    it leaves behind (its own continuation, or the one it schedules). *)
Definition thread_step (p : pc) (sh : shared) : result (shared * list pc) :=
  let b := inbox sh in
  match p with
  | CSend m =>
      q ← mq_push m (rb b);
      Ok (mkShared (set_rb q b) (sent sh ++ [m]) (delivered sh), [CSchedule])
  | CSendPriority m =>
      q ← mq_push_front m (rb b);
      Ok (mkShared (set_rb q b) (sent sh ++ [m]) (delivered sh), [CSchedule])
  | CSchedule =>
      let '(ok, b') := cas idle running b in
      Ok (on_inbox (fun _ => b') sh, if ok : bool then [CLoad 0] else [])
  | CLoad i =>
      if decide (procStatus b = stopped) then Ok (sh, [CGoIdle])
      else Ok (sh, [CPop (loop_head i)])
  | CPop i =>
      '((ms, ok), q) ← mq_popn messageBatchSize (rb b);
      Ok (on_inbox (set_rb q) sh,
          if (ok : bool) && (0 <? zlen ms) then [CInvoke i ms] else [CGoIdle])
  | CInvoke i ms => Ok (mkShared b (sent sh) (delivered sh ++ ms), [CLoad i])
  | CGoIdle =>
      let '(ok, b') := cas running idle b in
      Ok (on_inbox (fun _ => b') sh, if ok : bool then [CCheckLen] else [])
  | CCheckLen => Ok (sh, if 0 <? mq_len (rb b) then [CSchedule] else [])
  | CStart =>
      let '(ok, b') := cas stopped starting b in
      Ok (on_inbox (fun _ => b') sh, if ok : bool then [CSetIdle] else [])
  | CSetIdle => Ok (on_inbox (set_status idle) sh, [CSchedule])
  | CStop => Ok (on_inbox (set_status stopped) sh, [])
  | CClear => Ok (on_inbox (fun b => set_rb (mq_clear (rb b)) b) sh, [])
  end.

Record config := mkConfig { threads : list pc; mem : shared }.

Definition is_call (p : pc) : bool :=
  match p with
  | CSend _ | CSendPriority _ | CStart | CStop | CClear => true
  | _ => false
  end.

Fixpoint count (f : pc -> bool) (ts : list pc) : nat :=
  match ts with
  | [] => 0
  | p :: ts => (if f p then 1 else 0) + count f ts
  end%nat.

(** The goroutines inside [process] that may still touch messages. *)
Definition is_runner (p : pc) : bool :=
  match p with CLoad _ | CPop _ | CInvoke _ _ | CGoIdle => true | _ => false end.
Definition is_starter (p : pc) : bool :=
  match p with CSetIdle => true | _ => false end.
(** The goroutines that will still look whether to schedule. *)
Definition is_waker (p : pc) : bool :=
  match p with CSchedule | CCheckLen => true | _ => false end.

Definition runners (c : config) : nat := count is_runner (threads c).
Definition starters (c : config) : nat := count is_starter (threads c).
Definition stat (c : config) : status := procStatus (inbox (mem c)).
Definition queue (c : config) : list T := mq_abs (rb (inbox (mem c))).

(** A goroutine at [p] takes a step in a configuration where [ok] allows it.
    The queue has room for one more element. *)
Inductive tstep (ok : pc -> config -> Prop) : config -> config -> Prop :=
  | tstep_thread l1 p l2 sh sh' ps :
      ok p (mkConfig (l1 ++ p :: l2) sh) ->
      mq_room (rb (inbox sh)) ->
      thread_step p sh = Ok (sh', ps) ->
      tstep ok (mkConfig (l1 ++ p :: l2) sh) (mkConfig (l1 ++ ps ++ l2) sh').

(** The environment calls into the inbox from a new goroutine. *)
Inductive cstep : config -> config -> Prop :=
  | cstep_call p ts sh :
      is_call p = true -> cstep (mkConfig ts sh) (mkConfig (p :: ts) sh).

Definition step ok (c c' : config) : Prop := tstep ok c c' \/ cstep c c'.

(** Nothing is ruled out. *)
Definition any_step (p : pc) (c : config) : Prop := True.

(** The inbox is only (re)started once the previous run loop has left it: a
    [Start] that finds [stopped] finds no runner and no other starter. *)
Definition quiet_restart (p : pc) (c : config) : Prop :=
  p = CStart -> stat c = stopped -> runners c = O /\ starters c = O.

(** ... and no message is sent with priority or cleared. *)
Definition plain (p : pc) (c : config) : Prop :=
  quiet_restart p c /\ match p with CSendPriority _ | CClear => False | _ => True end.

Definition initial (q : Q) : config :=
  mkConfig [] (mkShared (NewInbox q) [] []).

Definition reachable ok (q : Q) (c : config) : Prop := rtc (step ok) (initial q) c.
End inbox.

Arguments config : clear implicits.
Arguments shared : clear implicits.
Arguments Inbox : clear implicits.
Arguments pc : clear implicits.

Section invariants.
Context {T Q : Type} `{MQ : MailboxQueue T Q}.
Variable throughput : Z.
Implicit Types (c : config T Q) (ts : list (pc T)).
#[local] Abbreviation thread_step := (thread_step throughput).
#[local] Abbreviation tstep := (tstep throughput).
#[local] Abbreviation step := (step throughput).
#[local] Abbreviation reachable := (reachable throughput).

Lemma count_app f ts1 ts2 : count f (ts1 ++ ts2) = (count f ts1 + count f ts2)%nat.
Proof. induction ts1 as [|p ts1 IH]; simpl; [done|]. rewrite IH. lia. Qed.

(** The messages of the batches being invoked. *)
Fixpoint inflight ts : list T :=
  match ts with
  | [] => []
  | CInvoke _ ms :: ts => ms ++ inflight ts
  | _ :: ts => inflight ts
  end.

Lemma inflight_app ts1 ts2 : inflight (ts1 ++ ts2) = inflight ts1 ++ inflight ts2.
Proof.
  induction ts1 as [|p ts1 IH]; simpl; [done|].
  destruct p; rewrite IH; by rewrite ?(assoc_L (++)).
Qed.

Lemma inflight_no_runner ts : count is_runner ts = O -> inflight ts = [].
Proof. induction ts as [|p ts IH]; simpl; [done|]. destruct p; simpl; (done || lia). Qed.

(** The control invariant: [procStatus] determines who is inside. *)
Definition ctl (s : status) (nrun nstart : nat) : Prop :=
  match s with
  | stopped => nrun + nstart <= 1
  | starting => nrun = 0 /\ nstart = 1
  | idle => nrun = 0 /\ nstart = 0
  | running => nrun = 1 /\ nstart = 0
  end%nat.

(** The whole invariant, over the shared memory and the number of goroutines
    running, starting and about to look at the queue. *)
Definition core (sh : shared T Q) (nrun nstart nwake : nat) : Prop :=
  mq_wf (rb (inbox sh)) /\
  ctl (procStatus (inbox sh)) nrun nstart /\
  (procStatus (inbox sh) = idle -> mq_abs (rb (inbox sh)) <> [] -> 0 < nwake)%nat.

Definition inv c : Prop :=
  core (mem c) (runners c) (starters c) (count is_waker (threads c)).

Lemma pop_batch q : mq_wf q ->
  exists q', mq_popn messageBatchSize q
      = Ok ((take (Z.to_nat messageBatchSize) (mq_abs q), negb (mq_len q =? 0)), q') /\
    mq_wf q' /\ mq_abs q' = drop (Z.to_nat messageBatchSize) (mq_abs q).
Proof. intros. apply mq_popn_law; [done|]. unfold messageBatchSize. lia. Qed.

(** A batch is empty exactly when the queue is. *)
Lemma batch_empty q : mq_wf q ->
  negb (mq_len q =? 0) && (0 <? zlen (take (Z.to_nat messageBatchSize) (mq_abs q))) = false ->
  mq_abs q = [].
Proof.
  intros Hwf. rewrite mq_len_law by done. unfold zlen, messageBatchSize.
  destruct (mq_abs q) as [|x l]; [done|]. simpl. done.
Qed.
Ltac settle :=
  simpl in *; split_and!; try done; subst; simpl in *;
  repeat match goal with s : status |- _ => destruct s; simpl in * end;
  first [done | lia | intros; (congruence || lia)].

(** What one goroutine's step does to the invariant, the others being [nr],
    [ns] and [nw] in number. *)
Lemma thread_step_core p sh sh' ps nr ns nw :
  core sh (count is_runner [p] + nr) (count is_starter [p] + ns) (count is_waker [p] + nw) ->
  (p = CStart -> procStatus (inbox sh) = stopped -> nr = 0 /\ ns = 0)%nat ->
  mq_room (rb (inbox sh)) ->
  thread_step p sh = Ok (sh', ps) ->
  core sh' (count is_runner ps + nr) (count is_starter ps + ns) (count is_waker ps + nw).
Proof.
  intros (Hwf & Hctl & Hwake) Hok Hroom Hstep.
  destruct sh as [[q s] snt dlv]; unfold core in *; simpl in *.
  destruct p as [m|m| |i|i|i ms| | | | | |]; simpl in *; unfold cas, on_inbox in Hstep; simpl in Hstep.
  - destruct (mq_push_law m q Hwf Hroom) as (q' & Hq & Hwf' & Habs).
    rewrite Hq in Hstep. injection Hstep as <- <-. simpl. split_and!; (done || lia).
  - destruct (mq_push_front_law m q Hwf Hroom) as (q' & Hq & Hwf' & Habs).
    rewrite Hq in Hstep. injection Hstep as <- <-. simpl. split_and!; (done || lia).
  - case_decide; injection Hstep as <- <-; by settle.
  - case_decide; injection Hstep as <- <-; by settle.
  - destruct (pop_batch q Hwf) as (q' & Hq & Hwf' & Habs). rewrite Hq in Hstep.
    cbn [mbind result_bind] in Hstep.
    destruct (negb _ && _) in Hstep; injection Hstep as <- <-; by settle.
  - injection Hstep as <- <-. by settle.
  - case_decide; injection Hstep as <- <-; by settle.
  - injection Hstep as <- <-. destruct (Z.ltb_spec 0 (mq_len q)) as [|Hle]; [by settle|].
    split_and!; [done|done|]. intros _ Hne. exfalso. apply Hne.
    rewrite mq_len_law in Hle by done. unfold zlen in Hle.
    simpl. destruct (mq_abs q); simpl in Hle; [done|lia].
  - destruct s; injection Hstep as <- <-; try by settle.
    destruct Hok as [-> ->]; [done..|by settle].
  - injection Hstep as <- <-. by settle.
  - injection Hstep as <- <-. by settle.
  - destruct (mq_clear_law q Hwf) as [Hwf' Habs].
    injection Hstep as <- <-. simpl. rewrite Habs. done.
Qed.

Lemma core_eq sh a b d a' b' d' :
  core sh a b d -> a = a' -> b = b' -> d = d' -> core sh a' b' d'.
Proof. by intros ? -> -> ->. Qed.

Lemma tstep_inv c c' : inv c -> tstep quiet_restart c c' -> inv c'.
Proof.
  intros Hinv Hs. destruct Hs as [l1 p l2 sh sh' ps Hok Hroom Hstep].
  unfold inv, quiet_restart, runners, starters, stat in *; simpl in *.
  rewrite !count_app in *; simpl in *.
  eapply core_eq; [eapply (thread_step_core p sh sh' ps
    (count is_runner l1 + count is_runner l2) (count is_starter l1 + count is_starter l2)
    (count is_waker l1 + count is_waker l2)); [|intros Hp Hst|done..]|lia..].
  - eapply core_eq; [exact Hinv|simpl; lia..].
  - destruct (Hok Hp Hst). lia.
Qed.

Lemma cstep_inv c c' : inv c -> cstep c c' -> inv c'.
Proof.
  intros Hinv Hs. destruct Hs as [p ts sh Hcall].
  unfold inv, runners, starters in *; simpl in *.
  destruct p; try discriminate Hcall; exact Hinv.
Qed.

Lemma initial_inv q : mq_wf q -> inv (initial (T:=T) q).
Proof.
  intros Hwf. split; [exact Hwf|]. split; [|discriminate].
  unfold runners, starters, stat; simpl. lia.
Qed.

Lemma reachable_inv q c : mq_wf q -> reachable quiet_restart q c -> inv c.
Proof.
  intros Hwf Hr.
  pose proof (initial_inv q Hwf) as Hinit. revert Hinit.
  induction Hr as [c|c1 c2 c3 [Hs|Hs] _ IH]; intros Hinv; [done|apply IH..].
  - by eapply tstep_inv.
  - by eapply cstep_inv.
Qed.

(** Conservation: what was sent is what was delivered, plus what is being
    invoked, plus what is queued, in this order. *)
Definition fifo c : Prop :=
  sent (mem c) = delivered (mem c) ++ inflight (threads c) ++ queue c.

Lemma tstep_fifo c c' : inv c -> fifo c -> tstep plain c c' -> fifo c'.
Proof.
  intros Hinv Hf Hs. destruct Hs as [l1 p l2 sh sh' ps [_ Hok] Hroom Hstep].
  destruct Hinv as (Hwf & Hctl & _).
  unfold fifo, runners, starters, stat, queue in *; simpl in *.
  rewrite !inflight_app in *; simpl in *. rewrite count_app in Hctl; simpl in Hctl.
  destruct sh as [[q s] snt dlv]; simpl in *.
  assert (Hone : is_runner p = true -> inflight l1 = [] /\ inflight l2 = []).
  { intros Hp. rewrite Hp in Hctl.
    assert (count is_runner l1 = O /\ count is_runner l2 = O) as [? ?].
    { destruct s; simpl in Hctl; lia. }
    by rewrite !inflight_no_runner. }
  destruct p as [m|m| |i|i|i ms| | | | | |]; simpl in *; unfold cas, on_inbox in Hstep; simpl in Hstep;
    try done.
  - destruct (mq_push_law m q Hwf Hroom) as (q' & Hq & Hwf' & Habs).
    rewrite Hq in Hstep. injection Hstep as <- <-. simpl. by rewrite Habs, Hf, !(assoc_L (++)).
  - case_decide; by simplify_eq/=.
  - case_decide; by simplify_eq/=.
  - destruct (pop_batch q Hwf) as (q' & Hq & Hwf' & Habs). rewrite Hq in Hstep.
    cbn [mbind result_bind] in Hstep. destruct Hone as [H1 H2]; [done|].
    rewrite H1, H2 in *. destruct (negb _ && _) eqn:Hb in Hstep; injection Hstep as <- <-; simpl in *.
    + by rewrite Habs, Hf, !app_nil_r, take_drop.
    + apply batch_empty in Hb; [|done]. by rewrite Habs, Hf, Hb, drop_nil.
  - injection Hstep as <- <-. simpl. destruct Hone as [H1 H2]; [done|].
    rewrite H1, H2 in *. simpl in *. by rewrite Hf, app_nil_r, !(assoc_L (++)).
  - case_decide; by simplify_eq/=.
  - injection Hstep as <- <-. by case_match.
  - case_decide; by simplify_eq/=.
  - by injection Hstep as <- <-.
  - by injection Hstep as <- <-.
Qed.

Lemma cstep_fifo c c' : fifo c -> cstep c c' -> fifo c'.
Proof.
  intros Hf Hs. destruct Hs as [p ts sh Hcall]. unfold fifo in *; simpl in *.
  destruct p; try discriminate Hcall; exact Hf.
Qed.

Lemma plain_quiet c c' : tstep plain c c' -> tstep quiet_restart c c'.
Proof. intros []. econstructor; [|done..]. by destruct H. Qed.

Lemma reachable_plain q c : mq_wf q -> mq_abs q = [] -> reachable plain q c -> inv c /\ fifo c.
Proof.
  intros Hwf Hq Hr.
  assert (Hinit : inv (initial q) /\ fifo (initial q)).
  { split; [by apply initial_inv|]. unfold fifo, queue; simpl. by rewrite Hq. }
  revert Hinit. induction Hr as [c|c1 c2 c3 [Hs|Hs] _ IH]; intros [Hinv Hf]; [done|apply IH..].
  - split; [by eapply tstep_inv, plain_quiet|by eapply tstep_fifo].
  - split; [by eapply cstep_inv|by eapply cstep_fifo].
Qed.

(** *** Termination

    Without new calls every goroutine leaves.  [work] counts the queued
    messages and the pending calls; while it is constant the status is
    constantly [stopped] or constantly not, the queue constantly empty or
    constantly not, and [weight] decreases. *)

Definition cost (p : pc T) : nat :=
  match p with
  | CSend _ | CSendPriority _ | CStart => 2
  | CSetIdle | CStop | CClear => 1
  | _ => 0
  end.

Definition weight (is_stopped is_empty : bool) (p : pc T) : nat :=
  match is_stopped, is_empty, p with
  | true, _, CSchedule => 1 | true, _, CGoIdle => 1 | true, _, CCheckLen => 2
  | true, _, CPop _ => 2 | true, _, CLoad _ => 2 | true, _, CInvoke _ _ => 3
  | false, false, CPop _ => 1 | false, false, CLoad _ => 2 | false, false, CSchedule => 3
  | false, false, CCheckLen => 4 | false, false, CGoIdle => 5 | false, false, CInvoke _ _ => 3
  | false, true, CCheckLen => 1 | false, true, CGoIdle => 2 | false, true, CPop _ => 3
  | false, true, CLoad _ => 4 | false, true, CSchedule => 5 | false, true, CInvoke _ _ => 5
  | _, _, _ => 0
  end.

Fixpoint total (f : pc T -> nat) ts : nat :=
  match ts with [] => 0 | p :: ts => f p + total f ts end.

Lemma total_app f ts1 ts2 : total f (ts1 ++ ts2) = (total f ts1 + total f ts2)%nat.
Proof. induction ts1 as [|p ts1 IH]; simpl; [done|]. rewrite IH. lia. Qed.

Definition is_nil {A} (l : list A) : bool := match l with [] => true | _ => false end.

Definition flags (sh : shared T Q) : bool * bool :=
  (bool_decide (procStatus (inbox sh) = stopped), is_nil (mq_abs (rb (inbox sh)))).
Definition qlen (sh : shared T Q) : nat := length (mq_abs (rb (inbox sh))).
Definition weigh (sh : shared T Q) ts : nat := total (weight (flags sh).1 (flags sh).2) ts.

(** One goroutine's step decreases the work, or keeps the flags and decreases
    the weight. *)
Lemma thread_step_decreases p sh sh' ps :
  mq_wf (rb (inbox sh)) -> mq_room (rb (inbox sh)) ->
  thread_step p sh = Ok (sh', ps) ->
  mq_wf (rb (inbox sh')) /\
  ((qlen sh' + total cost ps < qlen sh + cost p)%nat \/
   (qlen sh' + total cost ps = qlen sh + cost p)%nat /\ flags sh' = flags sh /\
   (weigh sh ps < weigh sh [p])%nat).
Proof.
  intros Hwf Hroom Hstep. destruct sh as [[q s] snt dlv].
  unfold qlen, weigh, flags, on_inbox in *; simpl in *.
  destruct p as [m|m| |i|i|i ms| | | | | |]; simpl in *; unfold cas, on_inbox in Hstep; simpl in Hstep.
  - destruct (mq_push_law m q Hwf Hroom) as (q' & Hq & Hwf' & Habs).
    rewrite Hq in Hstep. injection Hstep as <- <-. simpl.
    rewrite Habs, length_app; simpl. split; [done|lia].
  - destruct (mq_push_front_law m q Hwf Hroom) as (q' & Hq & Hwf' & Habs).
    rewrite Hq in Hstep. injection Hstep as <- <-. simpl. rewrite Habs. simpl. split; [done|lia].
  - split; [by destruct s; injection Hstep as <- <-|right].
    destruct s; injection Hstep as <- <-; simpl; destruct (mq_abs q); simpl; split_and!; (done || lia).
  - split; [by destruct s; injection Hstep as <- <-|right].
    destruct s; injection Hstep as <- <-; simpl; destruct (mq_abs q); simpl; split_and!; (done || lia).
  - destruct (pop_batch q Hwf) as (q' & Hq & Hwf' & Habs). rewrite Hq in Hstep.
    cbn [mbind result_bind] in Hstep.
    destruct (negb _ && _) eqn:Hb in Hstep; injection Hstep as <- <-; simpl;
      rewrite Habs, length_drop; (split; [done|]).
    + left. apply andb_true_iff in Hb as [Hb1 Hb2].
      rewrite mq_len_law in Hb1 by done. unfold zlen, messageBatchSize in *.
      destruct (mq_abs q); simpl in *; [done|lia].
    + apply batch_empty in Hb; [|done]. rewrite Hb, drop_nil. right. simpl.
      destruct s; simpl; split_and!; (done || lia).
  - injection Hstep as <- <-. simpl. split; [done|right].
    destruct s, (mq_abs q); simpl; split_and!; (done || lia).
  - split; [by destruct s; injection Hstep as <- <-|right].
    destruct s; injection Hstep as <- <-; simpl; destruct (mq_abs q); simpl; split_and!; (done || lia).
  - injection Hstep as <- <-. simpl. split; [done|right].
    rewrite mq_len_law by done. unfold zlen.
    destruct s, (mq_abs q); simpl; split_and!; (done || lia).
  - split; [by destruct s; injection Hstep as <- <-|left].
    destruct s; injection Hstep as <- <-; simpl; lia.
  - injection Hstep as <- <-. simpl. split; [done|left]. lia.
  - injection Hstep as <- <-. simpl. split; [done|left]. lia.
  - destruct (mq_clear_law q Hwf) as [Hwf' Habs].
    injection Hstep as <- <-. simpl. rewrite Habs. split; [done|left]. simpl. lia.
Qed.

(** Without new calls the inbox is free of livelock: from any
    configuration with a well-formed queue, under any interleaving and with
    any pending calls, the goroutines inside the inbox take only finitely many
    steps. *)
Lemma inbox_goroutines_leave c :
  mq_wf (rb (inbox (mem c))) -> sn (tstep any_step) c.
Proof.
  destruct c as [ts sh]; simpl.
  remember (qlen sh + total cost ts)%nat as w eqn:Hw.
  revert ts sh Hw. induction (lt_wf w) as [w _ IHw]. intros ts sh Hw.
  remember (weigh sh ts) as v eqn:Hv.
  revert ts sh Hw Hv. induction (lt_wf v) as [v _ IHv]. intros ts sh Hw Hv Hwf.
  constructor. intros c' Hs. unfold flip in Hs.
  remember (mkConfig ts sh) as c0 eqn:Hc.
  destruct Hs as [l1 p l2 sh0 sh' ps _ Hroom Hstep]. injection Hc as <- <-. subst w v.
  destruct (thread_step_decreases _ _ _ _ Hwf Hroom Hstep) as [Hwf' [Hlt|(Heq & Hfl & Hlt)]].
  - eapply IHw; [|done..]. rewrite !total_app; simpl. lia.
  - eapply IHv; [|by rewrite !total_app in *; simpl in *; lia|done|done].
    unfold weigh in *. rewrite Hfl, !total_app in *; simpl in *. lia.
Qed.

(** A goroutine can always take its step: the code never blocks. *)
Lemma thread_step_total p sh :
  mq_wf (rb (inbox sh)) -> mq_room (rb (inbox sh)) ->
  exists sh' ps, thread_step p sh = Ok (sh', ps).
Proof.
  intros Hwf Hroom. destruct sh as [[q s] snt dlv]; simpl in *.
  destruct p; simpl; try (unfold cas; case_decide; eauto); eauto.
  - destruct (mq_push_law m q Hwf Hroom) as (q' & -> & _). simpl. eauto.
  - destruct (mq_push_front_law m q Hwf Hroom) as (q' & -> & _). simpl. eauto.
  - destruct (pop_batch q Hwf) as (q' & -> & _). cbn [mbind result_bind]. eauto.
Qed.

(** The goroutine that sees to a queued message, by the status of the inbox. *)
Definition attends (s : status) : pc T -> bool :=
  match s with
  | stopped => fun _ => false | starting => is_starter | idle => is_waker | running => is_runner
  end.

Lemma count_elem f ts : (0 < count f ts)%nat -> exists p, p ∈ ts /\ f p = true.
Proof.
  induction ts as [|p ts IH]; simpl; [lia|]. destruct (f p) eqn:Hp.
  - intros _. exists p. split; [left|done].
  - intros Hw. destruct IH as (p' & Hin & Hp'); [lia|]. exists p'. split; [by right|done].
Qed.

Lemma inv_attended c : inv c -> stat c <> stopped -> queue c <> [] -> exists p, p ∈ threads c /\ attends (stat c) p = true.
Proof.
  intros (_ & Hctl & Hwake) Hns Hq. unfold stat, runners, starters in *.
  destruct (procStatus (inbox (mem c))); simpl in *; [done|apply count_elem..]; [lia|by apply Hwake|lia].
Qed.

Lemma no_threads_idle c : inv c -> threads c = [] -> stat c <> stopped -> stat c = idle /\ queue c = [].
Proof.
  intros Hinv Hts Hns.
  assert (Hq : queue c = []).
  { destruct (queue c) as [|x l] eqn:E; [done|]. destruct (inv_attended c Hinv Hns) as (p & Hp & _); [by rewrite E|].
    rewrite Hts in Hp. by apply elem_of_nil in Hp. }
  split; [|done]. destruct Hinv as (_ & Hctl & _). unfold runners, starters in Hctl. rewrite Hts in Hctl.
  unfold stat in *. destruct (procStatus (inbox (mem c))); simpl in *; (done || lia).
Qed.

(** A goroutine other than a caller of [Start] can go on; and if there are none, so can
    these. *)
Lemma inv_progress c : inv c -> mq_room (rb (inbox (mem c))) -> threads c <> [] -> exists c', tstep quiet_restart c c'.
Proof.
  intros (Hwf & _) Hroom Hne. destruct c as [ts sh]. cbn [threads mem] in *.
  assert (exists l1 p l2, ts = l1 ++ p :: l2 /\ quiet_restart p (mkConfig ts sh)) as (l1 & p & l2 & -> & Hok).
  { destruct (decide (Forall (fun p => match p with CStart => true | _ => false end = true) ts)) as [Hall|Hsome].
    - destruct ts as [|p ts]; [done|]. exists [], p, ts. split; [done|]. intros _ _.
      unfold runners, starters. cbn [threads]. clear -Hall.
      induction Hall as [|x l Hx _ [IH1 IH2]]; [done|]. destruct x; try done.
    - apply not_Forall_Exists in Hsome; [|intros x; apply _]. apply Exists_exists in Hsome as (p & Hp & Hns).
      apply list_elem_of_split in Hp as (l1 & l2 & ->). exists l1, p, l2. split; [done|]. intros ->. by destruct Hns. }
  destruct (thread_step_total p sh Hwf Hroom) as (sh' & ps & Hs). eexists. by econstructor.
Qed.

(** C6: One consumer: as long as the inbox is only restarted after the previous
    run loop has left it, at most one goroutine is inside the run loop, and
    [procStatus] says so: exactly one when it is [running], none when it is
    [idle] or [starting]. *)
Theorem inbox_single_consumer (q : Q) c
  (Hwf : mq_wf q) (Hreach : reachable quiet_restart q c) :
  (runners c <= 1)%nat /\
  (stat c = running -> runners c = 1%nat) /\
  (stat c = idle \/ stat c = starting -> runners c = 0%nat).
Proof.
  destruct (reachable_inv q c Hwf Hreach) as (_ & Hctl & _).
  unfold stat in *. destruct (procStatus (inbox (mem c))); simpl in Hctl;
    split_and!; intros; destruct_or?; (lia || congruence).
Qed.

(** C7: No lost wake-up.  Whatever is sent, with or without priority, cleared,
    stopped and restarted, under any interleaving, as long as the inbox is only
    restarted after the previous run loop has left it: whenever messages are queued
    and the inbox is not stopped, a goroutine is at work that will see to them, one
    that will look at the queue and schedule if the inbox is idle, the run loop if it
    is running, the goroutine that starts it if it is starting.  Without new calls
    the goroutines take finitely many steps; until all of them have left one of them
    can go on (given room in the queue); and when they have, the inbox is stopped, or
    idle with nothing queued. *)
Theorem inbox_no_lost_wakeup (q : Q) c
  (Hwf : mq_wf q) (Hreach : reachable quiet_restart q c) :
  (stat c <> stopped -> queue c <> [] -> exists p, p ∈ threads c /\ attends (stat c) p = true) /\
  sn (tstep any_step) c /\
  (mq_room (rb (inbox (mem c))) ->
   (exists c', tstep quiet_restart c c') \/
   threads c = [] /\ (stat c = stopped \/ stat c = idle /\ queue c = [])).
Proof.
  pose proof (reachable_inv q c Hwf Hreach) as Hinv. split_and!.
  - by apply inv_attended.
  - apply inbox_goroutines_leave, Hinv.
  - intros Hroom. destruct (threads c) as [|p ts] eqn:Hts; [right|left].
    + split; [done|]. destruct (decide (stat c = stopped)) as [Hs|Hs]; [by left|right].
      destruct (no_threads_idle c Hinv Hts Hs) as [Hidle Hq]. done.
    + apply inv_progress; [done|done|by rewrite Hts].
Qed.

(** C8: Delivery.  As long as nothing is sent with priority, nothing is cleared and
    the inbox is only restarted after the previous run loop has left it: at every
    moment, under any interleaving, the messages sent are those delivered, then those
    of the batch being invoked, then those queued, in sending order; and once every
    goroutine has left an inbox that is not stopped, all of them have been delivered,
    exactly once. *)
Theorem inbox_delivers_in_order (q : Q) c
  (Hwf : mq_wf q) (Hempty : mq_abs q = []) (Hreach : reachable plain q c) :
  sent (mem c) = delivered (mem c) ++ inflight (threads c) ++ queue c /\
  (threads c = [] -> stat c <> stopped ->
   queue c = [] /\ delivered (mem c) = sent (mem c) /\ stat c = idle).
Proof.
  destruct (reachable_plain q c Hwf Hempty Hreach) as [Hinv Hfifo].
  split; [done|]. intros Hts Hns. destruct (no_threads_idle c Hinv Hts Hns) as [Hidle Hq].
  unfold fifo in Hfifo. rewrite Hts, Hq, app_nil_r in Hfifo. done.
Qed.
End invariants.

(** ** Replaying a schedule

    An executable scheduler over the ring buffer: [Run n] steps the [n]-th
    goroutine, [Call p] starts one. *)

Inductive act (T : Type) := Call (p : pc T) | Run (n : nat).
Arguments Call {T} _.
Arguments Run {T} _.

Section replay.
Context {T : Type} (zero : T).
#[local] Existing Instance ring_queue.
#[local] Abbreviation config := (config T (RingBuffer T)).

Definition quiet_b (p : pc T) (c : config) : bool :=
  match p with
  | CStart => if decide (stat c = stopped)
              then Nat.eqb (runners c) 0 && Nat.eqb (starters c) 0 else true
  | _ => true
  end.

Definition plain_b (p : pc T) (c : config) : bool :=
  quiet_b p c && match p with CSendPriority _ | CClear => false | _ => true end.

Definition exec (okb : pc T -> config -> bool) (a : act T) (c : config) : option config :=
  match a with
  | Call p => if is_call p then Some (mkConfig (p :: threads c) (mem c)) else None
  | Run n =>
      match threads c !! n with
      | Some p =>
          if okb p c && (mod_ (content (rb (inbox (mem c)))) * 2 <=? max_mod) then
            match @thread_step T (RingBuffer T) (ring_queue zero) defaultThroughput p (mem c) with
            | Ok (sh, ps) =>
                Some (mkConfig (take n (threads c) ++ ps ++ drop (S n) (threads c)) sh)
            | Panic _ => None
            end
          else None
      | None => None
      end
  end.

Definition replay okb (acts : list (act T)) (c : config) : option config :=
  foldl (fun oc a => oc ≫= exec okb a) (Some c) acts.

Lemma exec_sound okb ok a c c' :
  (forall p c, okb p c = true -> ok p c) ->
  exec okb a c = Some c' -> @step T _ (ring_queue zero) defaultThroughput ok c c'.
Proof.
  intros Hok Hex. destruct c as [ts sh], a as [p|n]; simpl in *.
  - destruct (is_call p) eqn:Hc; simplify_eq. right. by constructor.
  - destruct (ts !! n) as [p|] eqn:Hn; [|done].
    destruct (okb p _ && _) eqn:Hb; [|done]. apply andb_true_iff in Hb as [Hb Hroom].
    destruct (thread_step _ p sh) as [[sh' ps]|] eqn:Hst; simplify_eq. left.
    pose proof (take_drop_middle ts n p Hn) as Hts. rewrite <-Hts at 1.
    apply (tstep_thread defaultThroughput ok (take n ts) p (drop (S n) ts)); [|by apply Z.leb_le in Hroom|done].
    rewrite Hts. by apply Hok.
Qed.

Lemma replay_sound okb ok acts c c' :
  (forall p c, okb p c = true -> ok p c) ->
  replay okb acts c = Some c' -> rtc (@step T _ (ring_queue zero) defaultThroughput ok) c c'.
Proof.
  intros Hok. unfold replay. revert c. induction acts as [|a acts IH]; intros c; simpl.
  { intros [= <-]. reflexivity. }
  destruct (exec okb a c) as [c1|] eqn:He.
  - intros Hr. eapply rtc_l; [by eapply exec_sound|by apply IH].
  - intros Hr. exfalso. revert Hr. clear. induction acts as [|b acts IH]; simpl; done.
Qed.

Lemma quiet_b_sound p c : quiet_b p c = true -> quiet_restart p c.
Proof.
  unfold quiet_b, quiet_restart. intros Hb -> Hst. rewrite decide_True in Hb by done.
  apply andb_true_iff in Hb as [H1 H2]. by apply Nat.eqb_eq in H1, H2.
Qed.

Lemma plain_b_sound p c : plain_b p c = true -> plain p c.
Proof.
  unfold plain_b. intros [Hq Hp]%andb_true_iff. split; [by apply quiet_b_sound|].
  destruct p; done.
Qed.
End replay.

Section witnesses.
#[local] Existing Instance ring_queue.

Definition q0 : RingBuffer Z := mkRingBuffer 0 (mkBuffer [0; 0; 0; 0] 0 0 4).

Lemma q0_wf : wf q0.
Proof. split; simpl; unfold zlen, max_mod; simpl; (lia || done). Qed.

(** Start the inbox and send 7; a batch is being invoked. *)
Definition sched_invoke : list (act Z) :=
  [Call CStart; Run 0; Run 0; Call (CSend 7); Run 0; Run 0; Run 0; Run 0].
(** The same, but stop just before the sender schedules. *)
Definition sched_queued : list (act Z) :=
  [Call CStart; Run 0; Run 0; Call (CSend 7); Run 0].
(** Send two messages and let everybody leave. *)
Definition sched_drain : list (act Z) :=
  sched_invoke ++ [Call (CSend 8); Run 0; Run 0; Run 0; Run 0; Run 0; Run 0; Run 0; Run 0;
                   Run 0; Run 0; Run 0; Run 0; Run 0; Run 0; Run 0].

Lemma inbox_single_consumer_witness :
  exists c, replay 0 (quiet_b) sched_invoke (initial q0) = Some c /\
    runners c = 1%nat /\ stat c = running /\ (runners c <= 1)%nat.
Proof.
  eexists. split; [vm_compute; reflexivity|]. split; [reflexivity|]. split; [reflexivity|].
  eapply (inbox_single_consumer (MQ := ring_queue 0) defaultThroughput q0).
  - exact q0_wf.
  - eapply (replay_sound 0 quiet_b quiet_restart sched_invoke);
      [apply quiet_b_sound|vm_compute; reflexivity].
Defined.

Lemma inbox_no_lost_wakeup_witness :
  exists c, replay 0 quiet_b sched_queued (initial q0) = Some c /\ stat c = idle /\ queue (MQ := ring_queue 0) c = [7] /\
    (exists p, p ∈ threads c /\ is_waker p = true) /\
    exists c', tstep (MQ := ring_queue 0) defaultThroughput quiet_restart c c'.
Proof.
  eexists. split; [vm_compute; reflexivity|]. split; [reflexivity|]. split; [reflexivity|].
  destruct (inbox_no_lost_wakeup (MQ := ring_queue 0) defaultThroughput q0
    (mkConfig [CSchedule; CSchedule] (mkShared (set_rb (mkRingBuffer 1 (mkBuffer [0; 7; 0; 0] 0 1 4)) (set_status idle (NewInbox q0))) [7] [])))
    as (H1 & _ & H2).
  - exact q0_wf.
  - eapply (replay_sound 0 quiet_b quiet_restart sched_queued);
      [apply quiet_b_sound|vm_compute; reflexivity].
  - split; [apply H1; [discriminate|vm_compute; discriminate]|].
    destruct H2 as [Hstep|[Hnone _]]; [vm_compute; discriminate|exact Hstep|discriminate Hnone].
Defined.

Lemma inbox_delivers_in_order_witness :
  exists c, replay 0 plain_b sched_drain (initial q0) = Some c /\
    delivered (mem c) = sent (mem c) /\ sent (mem c) = [7; 8].
Proof.
  eexists. split; [vm_compute; reflexivity|]. split; [|reflexivity].
  eapply (inbox_delivers_in_order (MQ := ring_queue 0) defaultThroughput q0).
  - exact q0_wf.
  - reflexivity.
  - eapply (replay_sound 0 plain_b plain sched_drain);
      [apply plain_b_sound|vm_compute; reflexivity].
  - reflexivity.
  - discriminate.
Defined.

(** Without that discipline there are two consumers: if the inbox is
    stopped and started again while its run loop is still invoking a batch
    (which happens when an actor panics in its [Stopped] handler during
    cleanup), two goroutines end up invoking batches of the same actor
    concurrently. *)
Theorem inbox_restart_two_consumers :
  exists c, reachable (MQ := ring_queue 0) defaultThroughput any_step q0 c /\
    runners c = 2%nat /\
    exists i j, threads c = [CInvoke i [8]; CInvoke j [7]].
Proof.
  set (acts := sched_invoke ++ [Run 1; Call CStop; Run 0; Call CStart; Run 0; Run 0; Run 0;
                                Call (CSend 8); Run 0; Run 0; Run 0; Run 0]).
  eexists. split.
  - eapply (replay_sound 0 (fun _ _ => true) any_step acts); [done|vm_compute; reflexivity].
  - split; [reflexivity|]. do 2 eexists. vm_compute. reflexivity.
Qed.
End witnesses.
