(* ===== verification/Pid.v ===== *)
(** * Process identifiers and PID sets ([actor/pid.go], [actor/pid_map.go])

    A [PID] is the generated message of [actor.proto]: an address, an id and the
    unknown fields kept by the codec.  [PIDSet] is the insertion-ordered set with
    swap-removal. *)

From S2P Require Import Prelude.
From Stdlib Require Export Strings.Byte.

#[export] Instance byte_eq_dec : EqDecision byte := Byte.byte_eq_dec.

Record PID := mkPID {
  Address : string;
  ID : string;
  unknownFields : list byte;
}.

#[export] Instance PID_eq_dec : EqDecision PID.
Proof. solve_decision. Defined.

Definition pidSeparator : string := "/".

Definition NewPID (address id : string) : PID := mkPID address id [].

Definition PID_String (pid : PID) : string := Address pid +:+ pidSeparator +:+ ID pid.

Definition Equals (pid other : PID) : bool :=
  bool_decide (Address pid = Address other) && bool_decide (ID pid = ID other).

Definition Child (pid : PID) (id : string) : PID :=
  NewPID (Address pid) (ID pid +:+ pidSeparator +:+ id).

(** [LookupKey] hashes the concatenation of the address and the id; the hash
    ([xxh3.Hash] on bytes) is a third-party function. *)
Definition LookupKey (hash : string -> Z) (pid : PID) : Z := hash (Address pid +:+ ID pid).

(** ** [Equals] as an equivalence *)

Definition pid_equiv : relation PID := fun p q => Equals p q = true.

Lemma Equals_spec p q : Equals p q = true <-> Address p = Address q /\ ID p = ID q.
Proof. unfold Equals. by rewrite andb_true_iff, !bool_decide_eq_true. Qed.

#[export] Instance pid_equiv_equivalence : Equivalence pid_equiv.
Proof.
  unfold pid_equiv. split.
  - intros p. by apply Equals_spec.
  - intros p q. rewrite !Equals_spec. by intros [-> ->].
  - intros p q r. rewrite !Equals_spec. by intros [-> ->] [-> ->].
Qed.

#[export] Instance LookupKey_proper hash : Proper (pid_equiv ==> eq) (LookupKey hash).
Proof. intros p q [HA HI]%Equals_spec. unfold LookupKey. by rewrite HA, HI. Qed.

#[export] Instance Child_proper : Proper (pid_equiv ==> eq ==> pid_equiv) Child.
Proof.
  intros p q [HA HI]%Equals_spec id ? <-. apply Equals_spec. unfold Child; simpl.
  by rewrite HA, HI.
Qed.

(** ** PID sets *)

Definition pidKey : Type := string * string.

Module PIDSet.

(** [lookup] is [None] until [ensureInit] has allocated the map. *)
Record PIDSet := mkPIDSet {
  pids : list PID;
  lookup_map : option (gmap pidKey Z);
}.

Definition key (pid : PID) : pidKey := (Address pid, ID pid).

(** Reading a nil map finds nothing. *)
Definition the_map (p : PIDSet) : gmap pidKey Z := default ∅ (lookup_map p).

Definition ensureInit (p : PIDSet) : PIDSet :=
  match lookup_map p with
  | None => mkPIDSet (pids p) (Some ∅)
  | Some _ => p
  end.

Definition indexOf (p : PIDSet) (v : PID) : Z := default (-1) (the_map p !! key v).

Definition Contains (p : PIDSet) (v : PID) : bool := bool_decide (is_Some (the_map p !! key v)).

Definition Add (p : PIDSet) (v : PID) : PIDSet :=
  let p := ensureInit p in
  if Contains p v then p else
  let ps := pids p ++ [v] in
  mkPIDSet ps (Some (<[key v := zlen ps - 1]> (the_map p))).

(** [Remove] also reports whether the element existed. *)
Definition Remove (p : PIDSet) (v : PID) : result (bool * PIDSet) :=
  let p := ensureInit p in
  let i := indexOf p v in
  if i =? -1 then Ok (false, p) else
  let m := delete (key v) (the_map p) in
  '(ps, m) ← (if i <? zlen (pids p) - 1 then
      lastPID ← slice_get (pids p) (zlen (pids p) - 1);
      ps ← slice_set (pids p) i lastPID;
      Ok (ps, <[key lastPID := i]> m)
    else Ok (pids p, m));
  Ok (true, mkPIDSet (take (Z.to_nat (zlen ps - 1)) ps) (Some m)).

Definition NewPIDSet (ps : list PID) : PIDSet := foldl Add (mkPIDSet [] None) ps.
Definition Len (p : PIDSet) : Z := zlen (pids p).
Definition Clear (p : PIDSet) : PIDSet := mkPIDSet [] (Some ∅).
Definition Empty (p : PIDSet) : bool := Len p =? 0.
Definition Values (p : PIDSet) : list PID := pids p.
Definition Get (p : PIDSet) (index : Z) : result PID := slice_get (pids p) index.
Definition Clone (p : PIDSet) : PIDSet := NewPIDSet (pids p).

(** [ForEach f] calls [f] with every index and PID in order. *)
Definition ForEach {S} (f : Z -> PID -> S -> S) (p : PIDSet) (s : S) : S :=
  (foldl (fun '(i, s) pid => (i + 1, f i pid s)) (0, s) (pids p)).2.

(** ** The invariant: [lookup] inverts [pids] *)

Definition wf (p : PIDSet) : Prop :=
  forall k i, the_map p !! k = Some i <->
    0 <= i /\ exists v, pids p !! Z.to_nat i = Some v /\ key v = k.

Lemma wf_empty : wf (mkPIDSet [] None).
Proof.
  intros k i. unfold the_map; simpl. rewrite lookup_empty. split; [done|].
  intros (_ & v & Hv & _). done.
Qed.

Lemma wf_inj p i j v w :
  wf p -> pids p !! i = Some v -> pids p !! j = Some w -> key v = key w -> i = j.
Proof.
  intros Hwf Hv Hw Hk.
  assert (Hi : the_map p !! key v = Some (Z.of_nat i)).
  { apply Hwf. split; [lia|]. exists v. by rewrite Nat2Z.id. }
  assert (Hj : the_map p !! key v = Some (Z.of_nat j)).
  { apply Hwf. split; [lia|]. exists w. by rewrite Nat2Z.id. }
  rewrite Hi in Hj. injection Hj. lia.
Qed.

Lemma ensureInit_same p :
  pids (ensureInit p) = pids p /\ the_map (ensureInit p) = the_map p.
Proof. destruct p as [ps [m|]]; done. Qed.

Lemma Contains_ensureInit p v : Contains (ensureInit p) v = Contains p v.
Proof. destruct p as [ps [m|]]; done. Qed.

Lemma wf_ensureInit p : wf p -> wf (ensureInit p).
Proof. destruct p as [ps [m|]]; done. Qed.

Lemma Contains_spec p v : wf p -> Contains p v = true <-> exists w, w ∈ pids p /\ key w = key v.
Proof.
  intros Hwf. unfold Contains. rewrite bool_decide_eq_true. split.
  - intros [i Hi]. apply Hwf in Hi as (_ & w & Hw & Hk). exists w.
    split; [|done]. by eapply list_elem_of_lookup_2.
  - intros (w & [i Hi]%list_elem_of_lookup_1 & Hk). exists (Z.of_nat i). apply Hwf.
    split; [lia|]. exists w. by rewrite Nat2Z.id.
Qed.

Lemma Add_new p v : wf p -> Contains p v = false -> wf (Add p v) /\ pids (Add p v) = pids p ++ [v].
Proof.
  intros Hwf Hc. unfold Add. destruct (ensureInit_same p) as [Hp Hm].
  rewrite Contains_ensureInit, Hc. simpl. rewrite Hp, Hm. split; [|done].
  intros k i. unfold Contains in Hc. unfold the_map at 1; simpl. unfold zlen. rewrite length_app; simpl.
  apply bool_decide_eq_false in Hc.
  destruct (decide (key v = k)) as [<-|Hne].
  - rewrite lookup_insert_eq. split.
    + intros [= <-]. split; [lia|]. exists v. split; [|done].
      rewrite lookup_app_r by lia. by replace (_ - length (pids p))%nat with 0%nat by lia.
    + intros (Hi & w & Hw & Hk). f_equal.
      destruct (decide (Z.to_nat i < length (pids p))%nat).
      * rewrite lookup_app_l in Hw by lia. exfalso. apply Hc. exists i. apply Hwf.
        split; [done|]. eauto.
      * apply lookup_lt_Some in Hw. rewrite length_app in Hw; simpl in Hw. lia.
  - rewrite lookup_insert_ne by done. rewrite (Hwf k i). split; intros (Hi & w & Hw & Hk).
    + split; [done|]. exists w. split; [|done]. by apply lookup_app_l_Some.
    + split; [done|]. exists w. split; [|done].
      apply lookup_app_Some in Hw as [Hw|[_ Hw]]; [done|].
      apply list_lookup_singleton_Some in Hw as [_ <-]. done.
Qed.

Lemma Add_old p v : Contains p v = true -> pids (Add p v) = pids p /\ the_map (Add p v) = the_map p.
Proof.
  intros Hc. unfold Add. destruct (ensureInit_same p) as [Hp Hm].
  by rewrite Contains_ensureInit, Hc.
Qed.

Lemma wf_ext p q : pids p = pids q -> the_map p = the_map q -> wf p -> wf q.
Proof. intros Hp Hm Hwf k i. by rewrite <-Hm, <-Hp. Qed.

Lemma wf_Add p v : wf p -> wf (Add p v).
Proof.
  intros Hwf. destruct (Contains p v) eqn:Hc; [|by apply Add_new].
  destruct (Add_old p v Hc). by eapply wf_ext.
Qed.

(** Removing the element at [i]: the last one takes its place. *)
Definition swap_remove (ps : list PID) (i : nat) : list PID :=
  match last ps with
  | Some l => take (length ps - 1) (<[i := l]> ps)
  | None => []
  end.

Lemma Remove_absent p v : Contains p v = false -> wf p -> Remove p v = Ok (false, ensureInit p).
Proof.
  intros Hc Hwf. unfold Remove, indexOf. destruct (ensureInit_same p) as [_ Hm]. rewrite Hm.
  unfold Contains in Hc. apply bool_decide_eq_false in Hc.
  destruct (the_map p !! key v) eqn:E; [|done]. exfalso. apply Hc. eauto.
Qed.

Lemma swap_wf p v i w l :
  wf p -> pids p !! i = Some w -> key w = key v ->
  (i < length (pids p) - 1)%nat -> pids p !! (length (pids p) - 1)%nat = Some l ->
  wf (mkPIDSet (take (length (pids p) - 1) (<[i := l]> (pids p)))
               (Some (<[key l := Z.of_nat i]> (delete (key v) (the_map p))))).
Proof.
  intros Hwf Hi Hk Hlt Hl k j. unfold the_map at 1; simpl.
  assert (Hps : forall u, take (length (pids p) - 1) (<[i:=l]> (pids p)) !! Z.to_nat j = Some u <->
    (Z.to_nat j < length (pids p) - 1)%nat /\
    (Z.to_nat j = i /\ u = l \/ Z.to_nat j <> i /\ pids p !! Z.to_nat j = Some u)).
  { intros u. rewrite lookup_take_Some, list_lookup_insert_Some.
    split; [intros [[(-> & -> & _)|[? ?]] ?]|intros [? [[-> ->]|[? ?]]]]; split; auto.
    left. split_and!; [done..|lia]. }
  setoid_rewrite Hps. clear Hps.
  destruct (decide (key l = k)) as [<-|Hlk]; [|destruct (decide (key v = k)) as [<-|Hvk]].
  - rewrite lookup_insert_eq. split.
    + intros [= <-]. split; [lia|]. exists l. rewrite Nat2Z.id. auto.
    + intros (Hj & u & (Hjn & [[Hji _]|[Hne Hu]]) & Hkey); [f_equal; lia|].
      pose proof (wf_inj p _ _ u l Hwf Hu Hl Hkey). lia.
  - rewrite lookup_insert_ne, lookup_delete_eq by done. split; [done|].
    intros (Hj & u & (Hjn & [[_ ->]|[Hne Hu]]) & Hkey); [done|].
    exfalso. apply Hne. eapply wf_inj; [done..|congruence].
  - rewrite lookup_insert_ne, lookup_delete_ne by done. rewrite (Hwf k j).
    split; intros (Hj & u & Hu & Hkey); (split; [done|]); exists u; (split; [|done]).
    + assert (Z.to_nat j <> i) by (intros Heq; rewrite Heq in Hu; congruence).
      assert (Z.to_nat j <> length (pids p) - 1)%nat by (intros Heq; rewrite Heq in Hu; congruence).
      apply lookup_lt_Some in Hu as ?. split; [lia|auto].
    + destruct Hu as (_ & [[_ ->]|[_ Hu]]); [done|done].
Qed.

Lemma last_wf p v w :
  wf p -> pids p !! (length (pids p) - 1)%nat = Some w -> key w = key v ->
  wf (mkPIDSet (take (length (pids p) - 1) (pids p)) (Some (delete (key v) (the_map p)))).
Proof.
  intros Hwf Hw Hk k j. unfold the_map at 1; simpl. setoid_rewrite lookup_take_Some.
  destruct (decide (key v = k)) as [<-|Hvk].
  - rewrite lookup_delete_eq. split; [done|]. intros (Hj & u & [Hu Hlt] & Hkey).
    rewrite <-Hk in Hkey. pose proof (wf_inj p _ _ u w Hwf Hu Hw Hkey). lia.
  - rewrite lookup_delete_ne by done. rewrite (Hwf k j).
    split; intros (Hj & u & Hu & Hkey); (split; [done|]); exists u; (split; [|done]).
    + split; [done|]. apply lookup_lt_Some in Hu as ?.
      assert (Z.to_nat j <> length (pids p) - 1)%nat by (intros Heq; rewrite Heq in Hu; congruence).
      lia.
    + by destruct Hu.
Qed.

Lemma Remove_present p v i w :
  wf p -> pids p !! i = Some w -> key w = key v ->
  exists p', Remove p v = Ok (true, p') /\ wf p' /\ pids p' = swap_remove (pids p) i.
Proof.
  intros Hwf Hi Hk. unfold Remove, indexOf.
  destruct (ensureInit_same p) as [Hp Hm]. rewrite Hp, Hm.
  assert (Hl : the_map p !! key v = Some (Z.of_nat i)).
  { apply Hwf. split; [lia|]. exists w. by rewrite Nat2Z.id. }
  rewrite Hl; simpl. destruct (Z.eqb_spec (Z.of_nat i) (-1)); [lia|].
  pose proof (lookup_lt_Some _ _ _ Hi) as Hlt.
  assert (Hlast : exists l, last (pids p) = Some l /\ pids p !! (length (pids p) - 1)%nat = Some l).
  { destruct (lookup_lt_is_Some_2 (pids p) (length (pids p) - 1)) as [l Hll]; [lia|].
    exists l. split; [|done]. rewrite last_lookup. by replace (pred (length (pids p))) with (length (pids p) - 1)%nat by lia. }
  destruct Hlast as (l & Hlast & Hll). unfold swap_remove. rewrite Hlast.
  destruct (Z.ltb_spec (Z.of_nat i) (zlen (pids p) - 1)) as [Hlt2|Hge]; unfold zlen in *.
  - rewrite (slice_get_ok _ _ l); [|lia|by replace (Z.to_nat _) with (length (pids p) - 1)%nat by lia].
    cbn [mbind result_bind]. rewrite slice_set_ok by (unfold zlen; lia). cbn [mbind result_bind].
    rewrite Nat2Z.id, length_insert. eexists. split; [done|]. split; [|simpl; f_equal; lia].
    replace (Z.to_nat (Z.of_nat (length (pids p)) - 1)) with (length (pids p) - 1)%nat by lia.
    eapply swap_wf; [done..|lia|done].
  - cbn [mbind result_bind]. assert (i = length (pids p) - 1)%nat as -> by lia.
    eexists. split; [done|]. rewrite list_insert_id by done.
    split; [|simpl; f_equal; lia].
    replace (Z.to_nat (Z.of_nat (length (pids p)) - 1)) with (length (pids p) - 1)%nat by lia.
    eapply last_wf; [done|exact Hll|]. congruence.
Qed.

(** ** The abstract set *)

Definition keys (p : PIDSet) : gset pidKey := list_to_set (key <$> pids p).

Lemma keys_spec p k : k ∈ keys p <-> exists v, v ∈ pids p /\ key v = k.
Proof.
  unfold keys. rewrite elem_of_list_to_set, list_elem_of_fmap.
  split; intros (v & H1 & H2); exists v; split; congruence || done.
Qed.

Lemma keys_Contains p v : wf p -> Contains p v = true <-> key v ∈ keys p.
Proof. intros Hwf. rewrite Contains_spec by done. symmetry. apply keys_spec. Qed.

Lemma keys_eq p q : pids p = pids q -> keys p = keys q.
Proof. unfold keys. by intros ->. Qed.

(** No key occurs twice. *)
Lemma wf_NoDup p : wf p -> NoDup (key <$> pids p).
Proof.
  intros Hwf. apply NoDup_alt. intros i j k Hi Hj.
  apply list_lookup_fmap_Some in Hi as (v & -> & Hv).
  apply list_lookup_fmap_Some in Hj as (w & Hk & Hw).
  by eapply wf_inj.
Qed.

Lemma Len_keys p : wf p -> Len p = Z.of_nat (size (keys p)).
Proof.
  intros Hwf. unfold Len, zlen, keys.
  rewrite size_list_to_set by by apply wf_NoDup. by rewrite length_fmap.
Qed.

Lemma keys_Add p v : wf p -> keys (Add p v) = {[key v]} ∪ keys p.
Proof.
  intros Hwf. destruct (Contains p v) eqn:Hc.
  - destruct (Add_old p v Hc) as [Hp _]. rewrite (keys_eq _ p Hp).
    apply keys_Contains in Hc; [|done].
    symmetry. apply subseteq_union_1_L. by apply singleton_subseteq_l.
  - destruct (Add_new p v Hwf Hc) as [_ Hp]. unfold keys. rewrite Hp, fmap_app, list_to_set_app_L.
    simpl. by rewrite (right_id_L ∅ (∪)), (comm_L (∪)).
Qed.

(** Swap removal permutes the others. *)
Lemma swap_remove_perm ps i v : ps !! i = Some v -> v :: swap_remove ps i ≡ₚ ps.
Proof.
  intros Hi. unfold swap_remove. destruct ps as [|l ps _] using rev_ind; [done|].
  rewrite last_snoc, length_app; simpl. rewrite Nat.add_sub.
  apply lookup_app_Some in Hi as [Hi|[Hge Hi]].
  - apply lookup_lt_Some in Hi as Hlt. rewrite insert_app_l, take_app_length' by (rewrite ?length_insert; done).
    rewrite <-(take_drop_middle ps i v Hi) at 2. rewrite insert_take_drop by done.
    solve_Permutation.
  - apply list_lookup_singleton_Some in Hi as [Hi0 ->].
    assert (i = length ps) as -> by lia.
    rewrite insert_app_r_alt, Nat.sub_diag, take_app_length by lia. solve_Permutation.
Qed.

Inductive op := OAdd (v : PID) | ORemove (v : PID) | OContains (v : PID) | OLen | OClear | OClone.

Definition step (o : op) (p : PIDSet) : result (Z * PIDSet) :=
  match o with
  | OAdd v => Ok (0, Add p v)
  | ORemove v => '(b, p) ← Remove p v; Ok (Z.b2z b, p)
  | OContains v => Ok (Z.b2z (Contains p v), p)
  | OLen => Ok (Len p, p)
  | OClear => Ok (0, Clear p)
  | OClone => Ok (0, Clone p)
  end.

Definition spec (o : op) (s : gset pidKey) : Z * gset pidKey :=
  match o with
  | OAdd v => (0, {[key v]} ∪ s)
  | ORemove v => (Z.b2z (bool_decide (key v ∈ s)), s ∖ {[key v]})
  | OContains v => (Z.b2z (bool_decide (key v ∈ s)), s)
  | OLen => (Z.of_nat (size s), s)
  | OClear => (0, ∅)
  | OClone => (0, s)
  end.

Lemma Contains_decide p v : wf p -> Contains p v = bool_decide (key v ∈ keys p).
Proof.
  intros Hwf. destruct (Contains p v) eqn:Hc; symmetry.
  - apply bool_decide_eq_true. by apply keys_Contains.
  - apply bool_decide_eq_false. intros Hin. apply keys_Contains in Hin; [congruence|done].
Qed.

Lemma Remove_ok p v : wf p ->
  exists p', Remove p v = Ok (Contains p v, p') /\ wf p' /\ keys p' = keys p ∖ {[key v]}.
Proof.
  intros Hwf. destruct (Contains p v) eqn:Hc.
  - apply Contains_spec in Hc as (w & [i Hi]%list_elem_of_lookup_1 & Hk); [|done].
    destruct (Remove_present p v i w Hwf Hi Hk) as (p' & -> & Hwf' & Hp').
    exists p'. split_and!; [done|done|]. unfold keys. rewrite Hp'.
    pose proof (swap_remove_perm _ _ _ Hi) as Hperm.
    pose proof (wf_NoDup p Hwf) as Hnd. rewrite <-Hperm in Hnd. simpl in Hnd.
    apply NoDup_cons in Hnd as [Hnin _].
    assert (Heq : list_to_set (key <$> pids p) =@{gset pidKey} list_to_set (key <$> w :: swap_remove (pids p) i)).
    { apply list_to_set_perm_L. by rewrite Hperm. }
    rewrite Heq. simpl. rewrite Hk in *.
    apply (not_elem_of_list_to_set (C := gset pidKey)) in Hnin.
    symmetry. by apply union_singleton_difference.
  - rewrite Remove_absent by done. eexists. split_and!; [done|by apply wf_ensureInit|].
    rewrite (keys_eq _ p (proj1 (ensureInit_same p))).
    rewrite Contains_decide in Hc by done. apply bool_decide_eq_false in Hc.
    symmetry. apply difference_disjoint_L. by apply disjoint_singleton_r.
Qed.

Lemma keys_none m : keys (mkPIDSet [] m) = ∅.
Proof. done. Qed.

Lemma NewPIDSet_wf ps p : wf p -> wf (foldl Add p ps) /\
  keys (foldl Add p ps) = list_to_set (key <$> ps) ∪ keys p.
Proof.
  revert p. induction ps as [|v ps IH]; intros p Hwf; simpl.
  { split; [done|]. by rewrite (left_id_L ∅ (∪)). }
  destruct (IH (Add p v) (wf_Add p v Hwf)) as [H1 H2]. split; [done|].
  rewrite H2, keys_Add by done. by rewrite (assoc_L (∪)), (comm_L (∪) (list_to_set _)).
Qed.

Lemma step_ok o p : wf p ->
  exists p', step o p = Ok ((spec o (keys p)).1, p') /\ wf p' /\ keys p' = (spec o (keys p)).2.
Proof.
  intros Hwf. destruct o as [v|v|v| | |]; simpl.
  - exists (Add p v). split_and!; [done|by apply wf_Add|by apply keys_Add].
  - destruct (Remove_ok p v Hwf) as (p' & -> & Hwf' & Hk'). simpl.
    rewrite Contains_decide by done. eauto.
  - rewrite Contains_decide by done. eauto.
  - rewrite Len_keys by done. eauto.
  - exists (Clear p). split_and!; [done| |done]. intros k i. unfold the_map; simpl.
    rewrite lookup_empty. split; [done|]. intros (_ & v & Hv & _). done.
  - exists (Clone p). destruct (NewPIDSet_wf (pids p) (mkPIDSet [] None) wf_empty) as [H1 H2].
    split_and!; [done|done|]. unfold Clone, NewPIDSet. rewrite H2, keys_none. by rewrite (right_id_L ∅ (∪)).
Qed.

Fixpoint run (os : list op) (p : PIDSet) : result (list Z * PIDSet) :=
  match os with
  | [] => Ok ([], p)
  | o :: os => '(r, p) ← step o p; '(rs, p) ← run os p; Ok (r :: rs, p)
  end.

Fixpoint spec_run (os : list op) (s : gset pidKey) : list Z * gset pidKey :=
  match os with
  | [] => ([], s)
  | o :: os => let '(r, s) := spec o s in let '(rs, s) := spec_run os s in (r :: rs, s)
  end.

(** C31: Any sequence of calls on a PID set built from a list answers as a
    mathematical set of (address, id) pairs does, without panicking: swap
    removal keeps the index map exact; and no pair is ever stored twice. *)
Theorem pid_set_refines_set (ps : list PID) (os : list op) :
  let s := list_to_set (key <$> ps) in
  exists p', run os (NewPIDSet ps) = Ok ((spec_run os s).1, p') /\
    keys p' = (spec_run os s).2 /\ NoDup (key <$> pids p').
Proof.
  cbv zeta. destruct (NewPIDSet_wf ps (mkPIDSet [] None) wf_empty) as [Hwf Hk].
  fold (NewPIDSet ps) in *.
  assert (Hks : keys (NewPIDSet ps) = list_to_set (key <$> ps)).
  { by rewrite Hk, keys_none, (right_id_L ∅ (∪)). }
  rewrite <-Hks. clear Hk Hks. generalize dependent (NewPIDSet ps). clear ps.
  induction os as [|o os IH]; intros p Hwf; simpl.
  { exists p. split_and!; [done|done|by apply wf_NoDup]. }
  destruct (step_ok o p Hwf) as (p1 & -> & Hwf1 & Hk1). cbn [mbind result_bind].
  destruct (IH p1 Hwf1) as (p2 & -> & Hk2 & Hnd). cbn [mbind result_bind].
  exists p2. rewrite Hk1 in *. destruct (spec o (keys p)) as [r s]; simpl in *.
  destruct (spec_run os s) as [rs s']; simpl in *. done.
Qed.
End PIDSet.
