(* ===== verification/Messages.v ===== *)
(** * Values that travel through the engine ([actor/types.go], [actor/event.go],
    [actor/event_stream.go], [remote/stream_router.go])

    Go's [any] is an inductive type: one constructor per message type the engine
    and the remote define, and [AUser] for every other type, given by its name
    and contents.  Timestamps and stack traces are left out of the events. *)

From stdpp Require Import countable.
From S2P Require Import Prelude Pid.

(** The value of a panic, as [recover] returns it. *)
Inductive pvalue :=
  | PVInternalError (From Err : string)   (** [*InternalError] *)
  | PVRuntime (e : go_panic)              (** a runtime error *)
  | PVUser (ty : string) (data : list Z)  (** any other value *).
#[export] Instance pvalue_eq_dec : EqDecision pvalue.
Proof. solve_decision. Defined.

(** A non-nil [*PID] whose identity matters: the pointer and what it points to. *)
Record pid_ptr := mkPtr { loc : Z; deref : PID }.
#[export] Instance pid_ptr_eq_dec : EqDecision pid_ptr.
Proof. solve_decision. Defined.

(** The [context.CancelFunc] of a poison pill: nil, or the one of a context. *)
Definition cancel_func : Type := option Z.

Inductive any :=
  | ANil                                  (** a nil interface value *)
  | AUser (ty : string) (data : list Z)
  | APoisonPill (graceful : bool) (cancel : cancel_func)
  | AInitialized
  | AStarted
  | AStopped
  | AEventSub (pid : pid_ptr)
  | AEventUnsub (pid : pid_ptr)
  | AActorStartedEvent (pid : PID)
  | AActorInitializedEvent (pid : PID)
  | AActorStoppedEvent (pid : PID)
  | AActorRestartedEvent (pid : PID) (reason : pvalue) (restarts : Z)
  | AActorMaxRestartsExceededEvent (pid : PID)
  | AActorDuplicateIdEvent (pid : PID)
  | AEngineRemoteMissingEvent (target : PID) (sender : option PID) (message : any)
  | ARemoteUnreachableEvent (listenAddr : string)
  | ADeadLetterEvent (target : option PID) (message : any) (sender : option PID)
  | AStreamDeliver (sender target : option PID) (msg : any) (priority : bool).

(** A value of a user's type, under the name of the type. *)
Definition as_user `{Countable A} (ty : string) (x : A) : any := AUser ty [Z.pos (encode x)].
Definition of_user `{Countable A} (m : any) : option A :=
  match m with AUser _ [Z.pos p] => decode p | _ => None end.

Lemma of_as_user `{Countable A} ty (x : A) : of_user (as_user ty x) = Some x.
Proof. apply decode_encode. Qed.

Definition is_pill (m : any) : bool :=
  match m with APoisonPill _ _ => true | _ => false end.

(** The lifecycle messages the process itself hands to its receiver. *)
Definition is_lifecycle (m : any) : bool :=
  match m with AInitialized | AStarted | AStopped => true | _ => false end.

Record Envelope := mkEnvelope { Msg : any; Sender : option PID }.

(** ** Events that log themselves *)

Inductive Level := LevelDebug | LevelError.

(** An attribute value handed to [slog]. *)
Inductive attr := LStr (s : string) | LPID (p : PID) | LReason (v : pvalue) | LInt32 (n : Z).

(** The [Log] method of the event types, [None] for a type that is not an
    [EventLogger]; [stack] is the stack trace of a restart. *)
Definition Log (stack : string) (m : any) : option (Level * string * list (string * attr)) :=
  match m with
  | AActorStartedEvent p => Some (LevelDebug, "Actor started", [("pid", LPID p)])
  | AActorInitializedEvent p => Some (LevelDebug, "Actor initialized", [("pid", LPID p)])
  | AActorStoppedEvent p => Some (LevelDebug, "Actor stopped", [("pid", LPID p)])
  | AActorRestartedEvent p reason restarts =>
      Some (LevelError, "Actor crashed and restarted",
        [("pid", LStr (ID p)); ("stack", LStr stack); ("reason", LReason reason); ("restarts", LInt32 restarts)])
  | AActorMaxRestartsExceededEvent p => Some (LevelError, "Actor crashed too many times", [("pid", LStr (ID p))])
  | AActorDuplicateIdEvent p => Some (LevelError, "Actor name already claimed", [("pid", LStr (ID p))])
  | AEngineRemoteMissingEvent target _ _ => Some (LevelError, "Engine has no remote", [("sender", LStr (ID target))])
  | _ => None
  end%string.
