(* ===== verification/Process.v ===== *)
(** * Actor processes: invocation, restart and shutdown ([actor/process.go])

    A process runs user code (its receiver) on batches of envelopes and turns
    panics of that code into restarts.  User code is a parameter: a producer and
    a receive function that may panic at any message; everything around it is
    translated from the source.  What a process does to the outside (broadcasts,
    inbox and registry calls, cancellations) is logged in [trace] in order. *)

From S2P Require Import Prelude Deque RingBuffer Inbox Pid Messages.

(** How a call ends. *)
Inductive outcome (A : Type) :=
  | Returns (a : A)
  | Panics (v : pvalue)
  | Blocks                (** waits for something that never happens *)
  | OutOfFuel.
Arguments Returns {A} _.
Arguments Panics {A} _.
Arguments Blocks {A}.
Arguments OutOfFuel {A}.

(** What a receiver may do through its context while it handles a message. *)
Inductive ctx_effect :=
  | ESpawnChild (pid : PID)
  | ESend (target : option PID) (msg : any).

(** What a process does, in order. *)
Inductive event :=
  | TProduce                                      (** [p.Producer()] *)
  | TReceive (msg : any) (sender : option PID)    (** the receive function is called *)
  | TEffect (e : ctx_effect)
  | TBroadcast (msg : any)
  | TSleep                                        (** [time.Sleep(RestartDelay)] *)
  | TInboxStart
  | TInboxStop
  | TRegistryRemove (pid : PID)
  | TParentDelete (id : string)
  | TPoisonChild (pid : PID)
  | TCancel (c : Z).

Section process.
(** [R]: the state of a receiver. *)
Context {R : Type}.

(** [ReceiveFunc]: the effects, the new state, and the panic if there is one. *)
Definition ReceiveFunc : Type :=
  R -> any -> option PID -> R * list ctx_effect * option pvalue.
Definition MiddlewareFunc : Type := ReceiveFunc -> ReceiveFunc.

(** [Opts], with the user's [Producer] and [Receive]; the producer is told how
    often it ran before, and may panic. *)
Record Opts := mkOpts {
  Producer : Z -> R + pvalue;
  Receive : ReceiveFunc;
  MaxRestarts : Z;
  Middleware : list MiddlewareFunc;
  pid : PID;
  parentCtx : option PID;
}.

Record process := mkProcess {
  receiver : option R;
  message : any;
  sender : option PID;
  children : gmap string PID;
  restarts : Z;
  mbuffer : list Envelope;
  inbox_status : status;
  produced : Z;
  trace : list event;
}.

Variable opts : Opts.
(** [Context.Children()]: the children in the (unspecified) map order. *)
Variable range_children : gmap string PID -> list PID.
(** Whether the context returned by [Poison(child)] is ever done. *)
Variable poison_done : PID -> bool.

Definition set_receiver r p := mkProcess (Some r) (message p) (sender p) (children p)
  (restarts p) (mbuffer p) (inbox_status p) (produced p) (trace p).
Definition set_message m p := mkProcess (receiver p) m (sender p) (children p)
  (restarts p) (mbuffer p) (inbox_status p) (produced p) (trace p).
Definition set_sender s p := mkProcess (receiver p) (message p) s (children p)
  (restarts p) (mbuffer p) (inbox_status p) (produced p) (trace p).
Definition set_children c p := mkProcess (receiver p) (message p) (sender p) c
  (restarts p) (mbuffer p) (inbox_status p) (produced p) (trace p).
Definition set_restarts n p := mkProcess (receiver p) (message p) (sender p) (children p)
  n (mbuffer p) (inbox_status p) (produced p) (trace p).
Definition set_mbuffer b p := mkProcess (receiver p) (message p) (sender p) (children p)
  (restarts p) b (inbox_status p) (produced p) (trace p).
Definition set_inbox s p := mkProcess (receiver p) (message p) (sender p) (children p)
  (restarts p) (mbuffer p) s (produced p) (trace p).
Definition set_produced n p := mkProcess (receiver p) (message p) (sender p) (children p)
  (restarts p) (mbuffer p) (inbox_status p) n (trace p).
Definition log es p := mkProcess (receiver p) (message p) (sender p) (children p)
  (restarts p) (mbuffer p) (inbox_status p) (produced p) (trace p ++ es).

(** ** Sequencing *)

Definition M : Type := process -> process * outcome unit.

Definition ret : M := fun p => (p, Returns tt).
Definition seq (m k : M) : M := fun p =>
  match m p with
  | (p, Returns _) => k p
  | r => r
  end.
Definition update (f : process -> process) : M := fun p => (f p, Returns tt).
Definition emit (e : event) : M := update (log [e]).
Definition panic (v : pvalue) : M := fun p => (p, Panics v).

(** [defer func() { if v := recover(); v != nil { h(v) } }()] around [m]. *)
Definition recover (m : M) (h : pvalue -> M) : M := fun p =>
  match m p with
  | (p, Panics v) => h v p
  | r => r
  end.

(** [defer d()] around [m]: [d] runs whether [m] returns or panics, and its own
    panic wins. *)
Definition deferred (m d : M) : M := fun p =>
  match m p with
  | (p, Returns _) => d p
  | (p, Panics v) => seq d (panic v) p
  | r => r
  end.

(** ** The code *)

Definition applyMiddleware (rcv : ReceiveFunc) (middleware : list MiddlewareFunc) : ReceiveFunc :=
  foldr (fun mw f => mw f) rcv middleware.

(** The context effects of user code that touch the process itself. *)
Definition apply_effect (e : ctx_effect) (p : process) : process :=
  match e with
  | ESpawnChild c => set_children (<[ID c := c]> (children p)) p
  | ESend _ _ => p
  end.

(** Call a receive function with the context as it stands. *)
Definition call (f : ReceiveFunc) : M := fun p =>
  match receiver p with
  | None => (p, Panics (PVRuntime NilDeref))
  | Some r =>
      let '(r', es, v) := f r (message p) (sender p) in
      let p := log (TReceive (message p) (sender p) :: (TEffect <$> es)) p in
      let p := foldl (flip apply_effect) (set_receiver r' p) es in
      match v with
      | Some v => (p, Panics v)
      | None => (p, Returns tt)
      end
  end.

Definition call_receive : M := call (Receive opts).
Definition call_middleware : M := call (applyMiddleware (Receive opts) (Middleware opts)).

Definition broadcast (m : any) : M := emit (TBroadcast m).

(** [inbox.Start]: only a stopped inbox is started (and scheduled). *)
Definition inbox_start : M := fun p =>
  if decide (inbox_status p = stopped)
  then (log [TInboxStart] (set_inbox running p), Returns tt)
  else (p, Returns tt).
Definition inbox_stop : M := seq (update (set_inbox stopped)) (emit TInboxStop).

(** [for _, pid := range children { <-engine.Poison(pid).Done() }] *)
Fixpoint poison_children (cs : list PID) : M :=
  match cs with
  | [] => ret
  | c :: cs =>
      seq (emit (TPoisonChild c))
          (if poison_done c then poison_children cs else fun p => (p, Blocks))
  end.

(** Calling a [context.CancelFunc]. *)
Definition call_cancel (cancel : cancel_func) : M :=
  match cancel with
  | Some c => emit (TCancel c)
  | None => panic (PVRuntime NilDeref)
  end.

Definition cleanup (cancel : cancel_func) : M :=
  deferred
    (seq (match parentCtx opts with
          | Some _ => emit (TParentDelete (ID (pid opts)))
          | None => ret
          end)
    (seq (fun p => if (0 <? Z.of_nat (size (children p)))
                   then poison_children (range_children (children p)) p else ret p)
    (seq inbox_stop
    (seq (emit (TRegistryRemove (pid opts)))
    (seq (update (set_message AStopped))
    (seq call_middleware
         (broadcast (AActorStoppedEvent (pid opts)))))))))
    (call_cancel cancel).

Definition invokeMsg (msg : Envelope) : M :=
  if is_pill (Msg msg) then ret else
  seq (update (fun p => set_sender (Sender msg) (set_message (Msg msg) p)))
      (if (0 <? zlen (Middleware opts)) then call_middleware else call_receive).

Fixpoint invoke_all (msgs : list Envelope) : M :=
  match msgs with
  | [] => ret
  | m :: ms => seq (invokeMsg m) (invoke_all ms)
  end.

(** The loop of [Invoke]; it also returns [nproc], which its deferred function
    reads when the loop panics. *)
Fixpoint invoke_loop (msgs rest : list Envelope) (nproc processed : nat) (p : process)
  : (process * outcome unit) * nat :=
  match rest with
  | [] => ((p, Returns tt), nproc)
  | msg :: rest =>
      let nproc := S nproc in
      match Msg msg with
      | APoisonPill graceful cancel =>
          (seq (if graceful then invoke_all (drop processed msgs) else ret)
               (cleanup cancel) p, nproc)
      | _ =>
          match invokeMsg msg p with
          | (p, Returns _) => invoke_loop msgs rest nproc (S processed) p
          | r => (r, nproc)
          end
      end
  end.

Section with_start.
(** [p.Start()], tied by the recursion below. *)
Variable start : M.

(** [tryRestart] once the panic is known not to be an [*InternalError]. *)
Definition restart_counted (v : pvalue) : M := fun p =>
  if restarts p =? MaxRestarts opts then
    seq (broadcast (AActorMaxRestartsExceededEvent (pid opts))) (cleanup None) p
  else
    seq (update (fun p => set_restarts (i32 (restarts p + 1)) p))
    (seq (fun p => broadcast (AActorRestartedEvent (pid opts) v (restarts p)) p)
    (seq (emit TSleep) start)) p.

Definition tryRestart (v : pvalue) : M :=
  match v with
  | PVInternalError _ _ => seq (emit TSleep) start
  | _ => restart_counted v
  end.

Definition Invoke (msgs : list Envelope) : M := fun p =>
  let '(r, nproc) := invoke_loop msgs msgs 0 0 p in
  match r with
  | (p, Panics v) =>
      seq (update (set_message AStopped))
      (seq call_receive
      (seq (update (set_mbuffer (drop nproc msgs)))
           (tryRestart v))) p
  | r => r
  end.

(** The body of [Start] after the producer ran. *)
Definition start_body : M :=
  recover
    (seq (update (set_message AInitialized))
    (seq call_middleware
    (seq (broadcast (AActorInitializedEvent (pid opts)))
    (seq (update (set_message AStarted))
    (seq call_middleware
    (seq (broadcast (AActorStartedEvent (pid opts)))
    (seq (fun p => if (0 <? zlen (mbuffer p))
                   then seq (Invoke (mbuffer p)) (update (set_mbuffer [])) p else ret p)
         inbox_start)))))))
    (fun v => seq (update (set_message AStopped)) (seq call_receive (tryRestart v))).
End with_start.

Definition produce : M := fun p =>
  match Producer opts (produced p) with
  | inr v => (log [TProduce] p, Panics v)
  | inl r => (log [TProduce] (set_produced (produced p + 1) (set_receiver r p)), Returns tt)
  end.

(** [Start], [Invoke] and [tryRestart] call one another; [fuel] bounds how
    deep restarts nest. *)
Fixpoint Start (fuel : nat) : M :=
  match fuel with
  | O => fun p => (p, OutOfFuel)
  | Datatypes.S fuel => seq produce (start_body (Start fuel))
  end.

(** [newProcess]. *)
Definition newProcess : process := mkProcess None ANil None ∅ 0 [] stopped 0 [].

Definition Shutdown : M := cleanup None.
End process.

Arguments process : clear implicits.
Arguments Opts : clear implicits.
Arguments ReceiveFunc : clear implicits.
Arguments MiddlewareFunc : clear implicits.
Arguments M : clear implicits.

(** ** A weakest-precondition calculus for [M] *)

Section wp.
Context {R : Type}.
Implicit Types (m k d : M R) (p : process R) (Q : process R -> outcome unit -> Prop).

Definition wp m Q p : Prop := Q (m p).1 (m p).2.

Lemma wp_mono m Q Q' p : wp m Q p -> (forall p' o, Q p' o -> Q' p' o) -> wp m Q' p.
Proof. unfold wp. auto. Qed.

Lemma wp_seq m k Q p :
  wp m (fun p' o => match o with Returns _ => wp k Q p' | Panics v => Q p' (Panics v)
                    | Blocks => Q p' Blocks | OutOfFuel => Q p' OutOfFuel end) p ->
  wp (seq m k) Q p.
Proof. unfold wp, seq. destruct (m p) as [p' []]; simpl; done. Qed.

Lemma wp_update f Q p : Q (f p) (Returns tt) -> wp (update f) Q p.
Proof. done. Qed.

Lemma wp_emit e Q p : Q (log [e] p) (Returns tt) -> wp (emit e) Q p.
Proof. done. Qed.

Lemma wp_recover m h Q p :
  wp m (fun p' o => match o with Panics v => wp (h v) Q p' | Returns a => Q p' (Returns a)
                    | Blocks => Q p' Blocks | OutOfFuel => Q p' OutOfFuel end) p ->
  wp (recover m h) Q p.
Proof. unfold wp, recover. destruct (m p) as [p' []]; simpl; done. Qed.

Lemma wp_deferred m d Q p :
  wp m (fun p' o => match o with Returns _ => wp d Q p'
                    | Panics v => wp (seq d (panic v)) Q p'
                    | Blocks => Q p' Blocks | OutOfFuel => Q p' OutOfFuel end) p ->
  wp (deferred m d) Q p.
Proof. unfold wp, deferred. destruct (m p) as [p' []]; simpl; done. Qed.
End wp.

(** The user messages a trace shows being received. *)
Definition received (t : list event) : list Envelope :=
  omap (fun e => match e with
                 | TReceive m s => if is_lifecycle m then None else Some (mkEnvelope m s)
                 | _ => None
                 end) t.

Lemma received_app t1 t2 : received (t1 ++ t2) = received t1 ++ received t2.
Proof. apply omap_app. Qed.

Lemma received_effects es : received (TEffect <$> es) = [].
Proof. induction es; simpl; done. Qed.

(** Events other than calls to the inbox. *)
Definition not_inbox (e : event) : Prop :=
  match e with TInboxStart | TInboxStop => False | _ => True end.

Lemma not_inbox_effects es : Forall not_inbox (TEffect <$> es).
Proof. apply Forall_fmap. by apply Forall_true. Qed.

Section calls.
Context {R : Type}.
Variable opts : Opts R.
Implicit Types (p : process R) (f : ReceiveFunc R).

(** Everything but the receiver, the children and the trace. *)
Definition same_control p p' : Prop :=
  message p' = message p /\ sender p' = sender p /\ restarts p' = restarts p /\
  mbuffer p' = mbuffer p /\ inbox_status p' = inbox_status p.

Lemma apply_effects_spec es p :
  same_control p (foldl (flip apply_effect) p es) /\
  receiver (foldl (flip apply_effect) p es) = receiver p /\
  trace (foldl (flip apply_effect) p es) = trace p.
Proof.
  revert p. induction es as [|e es IH]; intros p; simpl; [done|].
  destruct (IH (apply_effect e p)) as (Hc & Hr & Ht).
  rewrite Hr, Ht. unfold same_control in *. by destruct e.
Qed.

(** A call logs one reception, with the message and sender of the context,
    then effects, and nothing else changes but the receiver and children. *)
Lemma call_spec f p r :
  receiver p = Some r ->
  exists r' es v p', f r (message p) (sender p) = (r', es, v) /\
    call f p = (p', match v with Some v => Panics v | None => Returns tt end) /\
    same_control p p' /\ receiver p' = Some r' /\
    trace p' = trace p ++ TReceive (message p) (sender p) :: (TEffect <$> es).
Proof.
  intros Hr. unfold call. rewrite Hr.
  destruct (f r (message p) (sender p)) as [[r' es] v] eqn:Hf.
  set (p1 := set_receiver r' (log (TReceive (message p) (sender p) :: (TEffect <$> es)) p)).
  destruct (apply_effects_spec es p1) as (Hc & Hrc & Ht).
  exists r', es, v, (foldl (flip apply_effect) p1 es).
  split; [done|]. split; [by destruct v|]. rewrite Hrc, Ht. done.
Qed.
End calls.

(** ** The restart budget *)

Lemma restart_counted_go {R} (opts : Opts R) rc pd start v p :
  restarts p <> MaxRestarts opts ->
  restart_counted opts rc pd start v p =
  start (log [TSleep] (log [TBroadcast (AActorRestartedEvent (pid opts) v (i32 (restarts p + 1)))]
    (set_restarts (i32 (restarts p + 1)) p))).
Proof. intros Hne. unfold restart_counted. by destruct (Z.eqb_spec (restarts p) (MaxRestarts opts)). Qed.

Section restart_budget.
Context {R : Type}.
Variable opts : Opts R.
Implicit Types (p : process R).

(** The restarts that are left: the counter is compared for equality and wraps
    around at 32 bits. *)
Definition restarts_left p : Z := (MaxRestarts opts - restarts p) mod two32.

(** A counted restart takes one off. *)
Lemma restart_counts_down p :
  - two31 <= MaxRestarts opts < two31 ->
  - two31 <= restarts p < two31 -> restarts p <> MaxRestarts opts ->
  (- two31 <= i32 (restarts p + 1) < two31) /\
  (MaxRestarts opts - i32 (restarts p + 1)) mod two32 = restarts_left p - 1.
Proof.
  intros Hmax Hr Hne. unfold restarts_left. set (z := MaxRestarts opts - restarts p).
  pose proof (Z.mod_pos_bound (restarts p + 1 + two31) two32 ltac:(done)) as Hb.
  split; [unfold i32, two31, two32 in *; lia|].
  assert (Hi : MaxRestarts opts - i32 (restarts p + 1)
    = z - 1 + (restarts p + 1 + two31) / two32 * two32).
  { pose proof (Z.div_mod (restarts p + 1 + two31) two32 ltac:(done)). unfold i32, z. lia. }
  rewrite Hi, Z_mod_plus_full. symmetry. apply Z.mod_unique_pos with (z / two32).
  - pose proof (Z.mod_pos_bound z two32 ltac:(done)) as Hz.
    assert (z mod two32 <> 0); [|lia]. intros Hd.
    apply Z.mod_divide in Hd as [k Hk]; [|done]. unfold z, two31, two32 in *. nia.
  - pose proof (Z.div_mod z two32 ltac:(done)). lia.
Qed.

End restart_budget.

(** ** Delivery across restarts

    The receiver's lifecycle handlers do not panic, its producer always yields a
    receiver and every poisoned child terminates; on user messages it may panic
    whenever it likes, with any value. *)

Section delivery.
Context {R : Type}.
Variable opts : Opts R.
Variable range_children : gmap string PID -> list PID.
Variable poison_done : PID -> bool.

Definition lifecycle_calm (f : ReceiveFunc R) : Prop :=
  forall r m s, is_lifecycle m = true -> (f r m s).2 = None.

Hypothesis Hcalm : lifecycle_calm (Receive opts).
Hypothesis Hcalm_mw : lifecycle_calm (applyMiddleware (Receive opts) (Middleware opts)).
Hypothesis Hproduce : forall n, exists r, Producer opts n = inl r.
Hypothesis Hchildren : forall c, poison_done c = true.

#[local] Abbreviation Start := (Start opts range_children poison_done).
#[local] Abbreviation Invoke := (Invoke opts range_children poison_done).
#[local] Abbreviation tryRestart := (tryRestart opts range_children poison_done).
#[local] Abbreviation cleanup := (cleanup opts range_children poison_done).
#[local] Abbreviation start_body := (start_body opts range_children poison_done).
#[local] Abbreviation invoke_loop := (invoke_loop opts range_children poison_done).
Implicit Types (p : process R) (Q : process R -> outcome unit -> Prop).

Definition alive p : Prop := is_Some (receiver p).

(** What a piece of code appends to the trace, when it leaves the rest of the
    process in order. *)
Definition grows p p' (tr : list event) : Prop :=
  trace p' = trace p ++ tr /\ alive p' /\ restarts p' = restarts p /\ mbuffer p' = mbuffer p.

(** ... and does not touch the inbox. *)
Definition quiet p p' (tr : list event) : Prop :=
  inbox_status p' = inbox_status p /\ Forall not_inbox tr.
Definition extends p p' (tr : list event) : Prop := grows p p' tr /\ quiet p p' tr.

Lemma quiet_trans p1 p2 p3 t1 t2 :
  quiet p1 p2 t1 -> quiet p2 p3 t2 -> quiet p1 p3 (t1 ++ t2).
Proof. intros [H1 F1] [H2 F2]. split; [congruence|by apply Forall_app]. Qed.

(** A lifecycle call neither panics nor counts as a user message. *)
Lemma wp_call_lifecycle f Q p :
  lifecycle_calm f -> alive p -> is_lifecycle (message p) = true ->
  (forall p' tr, extends p p' tr -> received tr = [] -> Q p' (Returns tt)) ->
  wp (call f) Q p.
Proof.
  intros Hf [r Hr] Hm HQ. destruct (call_spec f p r Hr)
    as (r' & es & v & p' & Hfr & Hcall & (_ & _ & Hrs & Hb & Hi) & Hr' & Ht).
  unfold wp. rewrite Hcall. specialize (Hf r (message p) (sender p) Hm).
  rewrite Hfr in Hf. simpl in Hf. subst v. eapply HQ.
  - split; (split; [done|]); [split; [by exists r'|done]|]. constructor; [done|apply not_inbox_effects].
  - simpl. rewrite Hm. apply received_effects.
Qed.

Lemma received_app_nil t1 t2 : received t1 = [] -> received t2 = [] -> received (t1 ++ t2) = [].
Proof. intros H1 H2. by rewrite received_app, H1, H2. Qed.

Lemma poison_children_ok cs p :
  exists tr, poison_children poison_done cs p = (log tr p, Returns tt) /\ received tr = [].
Proof.
  revert p. induction cs as [|c cs IH]; intros p; simpl.
  - exists []. split; [|done]. unfold ret, log. rewrite app_nil_r. by destruct p.
  - unfold seq, emit, update. rewrite Hchildren. destruct (IH (log [TPoisonChild c] p)) as (tr & -> & Htr).
    exists (TPoisonChild c :: tr). split; [|done]. unfold log; simpl. by rewrite <-app_assoc.
Qed.

(** [cleanup(nil)]: the actor is taken out of the engine, and then the nil
    cancel function is called. *)
Lemma wp_cleanup_nil Q p :
  alive p ->
  (forall p' tr, grows p p' tr -> received tr = [] -> TInboxStop ∈ tr ->
     TRegistryRemove (pid opts) ∈ tr -> Q p' (Panics (PVRuntime NilDeref))) ->
  wp (cleanup None) Q p.
Proof using Hcalm Hcalm_mw Hchildren.
  intros Ha HQ. apply wp_deferred.
  assert (Hp1 : exists tr1, (match parentCtx opts with
      | Some _ => emit (TParentDelete (ID (pid opts))) | None => ret end) p
      = (log tr1 p, Returns tt) /\ received tr1 = []).
  { destruct (parentCtx opts); [by eexists|]. exists []. split; [|done].
    unfold ret, log. rewrite app_nil_r. by destruct p. }
  destruct Hp1 as (tr1 & Hp1 & Hr1).
  apply wp_seq. unfold wp at 1. rewrite Hp1. simpl.
  assert (Hp2 : exists tr2, (if 0 <? Z.of_nat (size (children (log tr1 p)))
      then poison_children poison_done (range_children (children (log tr1 p))) (log tr1 p)
      else ret (log tr1 p)) = (log tr2 (log tr1 p), Returns tt) /\ received tr2 = []).
  { destruct (0 <? _); [apply poison_children_ok|]. exists []. split; [|done].
    unfold ret, log; simpl. by rewrite app_nil_r. }
  destruct Hp2 as (tr2 & Hp2 & Hr2).
  apply wp_seq. unfold wp at 1. cbv beta. rewrite Hp2. simpl.
  apply wp_seq. apply wp_seq, wp_update, wp_emit.
  apply wp_seq, wp_emit. apply wp_seq, wp_update. apply wp_seq.
  apply wp_call_lifecycle; [done|done|done|].
  intros p' tr [(Ht & Ha' & Hrs & Hb) _] Hr. apply wp_emit. unfold call_cancel, wp, panic; simpl.
  eapply (HQ _ (tr1 ++ tr2 ++ [TInboxStop; TRegistryRemove (pid opts)] ++ tr
    ++ [TBroadcast (AActorStoppedEvent (pid opts))])).
  - split; [|by split]. simpl. rewrite Ht. simpl. by rewrite <-!app_assoc.
  - repeat apply received_app_nil; done.
  - clear. set_solver.
  - clear. set_solver.
Qed.

Definition user_env (e : Envelope) : Prop :=
  is_pill (Msg e) = false /\ is_lifecycle (Msg e) = false.

(** One user message: it is received once, whether the handler panics or not. *)
Lemma invokeMsg_user e p :
  user_env e -> alive p ->
  exists p' o tr, invokeMsg opts e p = (p', o) /\ extends p p' tr /\ received tr = [e] /\
    (o = Returns tt \/ exists v, o = Panics v).
Proof.
  intros [Hpill Hlc] [r Hr]. unfold invokeMsg. rewrite Hpill.
  set (p0 := set_sender (Sender e) (set_message (Msg e) p)).
  assert (Hcall : forall f, exists p' o tr, call f p0 = (p', o) /\ extends p p' tr /\
    received tr = [e] /\ (o = Returns tt \/ exists v, o = Panics v)).
  { intros f. destruct (call_spec f p0 r Hr)
      as (r' & es & v & p' & _ & Hcall & (_ & _ & Hrs & Hb & Hi) & Hr' & Ht).
    eexists _, _, _. split; [exact Hcall|]. split.
    { split; (split; [done|]); [split; [by exists r'|done]|].
      constructor; [done|apply not_inbox_effects]. }
    split; [simpl; rewrite Hlc; simpl; f_equal; [by destruct e|apply received_effects]|].
    destruct v; eauto. }
  unfold seq, update. destruct (0 <? zlen (Middleware opts)); apply Hcall.
Qed.

Lemma extends_trans p1 p2 p3 t1 t2 :
  extends p1 p2 t1 -> extends p2 p3 t2 -> extends p1 p3 (t1 ++ t2).
Proof.
  intros [(Ht1 & _ & Hr1 & Hb1) Q1] [(Ht2 & Ha & Hr2 & Hb2) Q2].
  split; [|by eapply quiet_trans]. split; [|split; [done|by split; congruence]].
  by rewrite Ht2, Ht1, app_assoc.
Qed.

Lemma invoke_loop_user msgs rest n k p :
  Forall user_env rest -> alive p ->
  exists p' o n' tr, invoke_loop msgs rest n k p = ((p', o), n') /\ extends p p' tr /\
    ((o = Returns tt /\ received tr = rest) \/
     exists v done later, o = Panics v /\ rest = done ++ later /\ done <> [] /\
       received tr = done /\ n' = (n + length done)%nat).
Proof.
  revert n k p. induction rest as [|e rest IH]; intros n k p Hu Ha.
  { exists p, (Returns tt), n, []. split; [done|]. split; [|by left].
    split; [split; [by rewrite app_nil_r|done]|done]. }
  apply Forall_cons in Hu as [He Hu].
  destruct (invokeMsg_user e p He Ha) as (p1 & o1 & tr1 & H1 & Hx1 & Hr1 & Ho1).
  assert (Hstep : invoke_loop msgs (e :: rest) n k p
    = match invokeMsg opts e p with
      | (p, Returns _) => invoke_loop msgs rest (S n) (S k) p
      | r => (r, S n)
      end).
  { destruct He as [Hpill _]. simpl. by destruct (Msg e). }
  rewrite Hstep, H1. clear Hstep.
  destruct Ho1 as [->|[v ->]].
  - destruct (IH (S n) (S k) p1 Hu) as (p2 & o2 & n2 & tr2 & H2 & Hx2 & Ho2); [apply Hx1|].
    exists p2, o2, n2, (tr1 ++ tr2). split; [done|]. split; [by eapply extends_trans|].
    rewrite received_app, Hr1. destruct Ho2 as [[-> Hr2]|(v & done & later & -> & -> & Hne & Hr2 & ->)].
    + left. by rewrite Hr2.
    + right. exists v, (e :: done), later. rewrite Hr2. split_and!; try done. simpl. lia.
  - exists p1, (Panics v), (S n), tr1. split; [done|]. split; [done|]. right.
    exists v, [e], rest. split_and!; try done. simpl. lia.
Qed.

(** What invoking a batch does: every message is received exactly once and in
    order, or the restart budget ran out after a prefix of them. *)
Definition batch_post (msgs : list Envelope) (p p' : process R) (o : outcome unit) : Prop :=
  exists tr, trace p' = trace p ++ tr /\ alive p' /\
    ((o = Returns tt /\ received tr = msgs /\ (inbox_status p = stopped \/ quiet p p' tr)) \/
     (o = Panics (PVRuntime NilDeref) /\ restarts p' = MaxRestarts opts /\
      received tr `prefix_of` msgs /\ TInboxStop ∈ tr /\ TRegistryRemove (pid opts) ∈ tr)).

Lemma batch_post_grow msgs1 msgs2 p p1 p' o tr1 :
  trace p1 = trace p ++ tr1 -> received tr1 = msgs1 -> quiet p p1 tr1 ->
  batch_post msgs2 p1 p' o -> batch_post (msgs1 ++ msgs2) p p' o.
Proof.
  intros Ht Hr Hq (tr & Ht' & Ha & Ho). exists (tr1 ++ tr). rewrite Ht', Ht, app_assoc.
  split; [done|]. split; [done|]. rewrite received_app, Hr.
  destruct Ho as [(-> & -> & Hi)|(-> & Hm & Hp & H1 & H2)]; [left|right].
  { split; [done|]. split; [done|]. destruct Hi as [Hi|Hi]; [left|right].
    - destruct Hq. congruence.
    - by eapply quiet_trans. }
  split_and!; [done|done|by apply prefix_app|set_solver|set_solver].
Qed.

Lemma batch_post_prefix msgs p p1 p' tr1 :
  trace p1 = trace p ++ tr1 -> received tr1 `prefix_of` msgs ->
  batch_post [] p1 p' (Panics (PVRuntime NilDeref)) ->
  batch_post msgs p p' (Panics (PVRuntime NilDeref)).
Proof.
  intros Ht Hr (tr & Ht' & Ha & [[? _]|(_ & Hm & Hp & H1 & H2)]); [done|].
  exists (tr1 ++ tr). rewrite Ht', Ht, app_assoc. split; [done|]. split; [done|]. right.
  apply prefix_nil_inv in Hp. rewrite received_app, Hp, app_nil_r.
  split_and!; [done|done|done|set_solver|set_solver].
Qed.

Definition internal (v : pvalue) : bool :=
  match v with PVInternalError _ _ => true | _ => false end.

(** Out of budget: the process is taken down and the panic escapes. *)
Lemma wp_exhausted start Q p v :
  internal v = false -> alive p -> restarts p = MaxRestarts opts ->
  (forall p', batch_post [] p p' (Panics (PVRuntime NilDeref)) -> Q p' (Panics (PVRuntime NilDeref))) ->
  wp (tryRestart start v) Q p.
Proof using Hcalm Hcalm_mw Hchildren.
  intros Hv Ha Hrs HQ.
  assert (Heq : tryRestart start v p
    = seq (broadcast (AActorMaxRestartsExceededEvent (pid opts))) (cleanup None) p).
  { destruct v; [done| |]; simpl; unfold restart_counted; by rewrite Hrs, Z.eqb_refl. }
  unfold wp. rewrite Heq.
  change (wp (seq (broadcast (AActorMaxRestartsExceededEvent (pid opts))) (cleanup None)) Q p).
  apply wp_seq, wp_emit, wp_cleanup_nil; [done|].
  intros p' tr (Ht & Ha' & Hrs' & _) Hr H1 H2. apply HQ.
  exists (TBroadcast (AActorMaxRestartsExceededEvent (pid opts)) :: tr).
  split; [rewrite Ht; simpl; by rewrite <-app_assoc|]. split; [done|]. right.
  split_and!; [done|simpl in Hrs'; congruence| |by right|by right].
  simpl. rewrite Hr. done.
Qed.

(** Within budget: some events, then [Start] with the buffer kept. *)
Lemma wp_restarts start Q p v :
  (internal v = true \/ restarts p <> MaxRestarts opts) ->
  (forall p1 tr, trace p1 = trace p ++ tr -> received tr = [] -> mbuffer p1 = mbuffer p ->
     quiet p p1 tr -> wp start Q p1) ->
  wp (tryRestart start v) Q p.
Proof.
  intros Hb HQ.
  assert (Hgo : forall w, restarts p <> MaxRestarts opts ->
    wp (restart_counted opts range_children poison_done start w) Q p).
  { intros w Hne. unfold wp, restart_counted.
    destruct (Z.eqb_spec (restarts p) (MaxRestarts opts)); [done|].
    apply wp_seq, wp_update. apply wp_seq. unfold wp at 1, broadcast.
    apply wp_seq, wp_emit. eapply (HQ _ [TBroadcast _; TSleep]); [|done..|by repeat constructor].
    simpl. by rewrite <-app_assoc. }
  destruct v as [from err|e|ty d]; simpl in Hb.
  - apply wp_seq, wp_emit. eapply (HQ _ [TSleep]); [done..|by repeat constructor].
  - apply Hgo. by destruct Hb.
  - apply Hgo. by destruct Hb.
Qed.

Lemma alive_set_message m p : alive (set_message m p) <-> alive p.
Proof. done. Qed.

Lemma Start_post f p msgs :
  mbuffer p = msgs ->
  (forall p1, alive p1 -> msgs <> [] -> wp (Invoke (Start f) msgs) (batch_post msgs p1) p1) ->
  wp (Start (S f)) (batch_post msgs p) p.
Proof.
  intros Hb HIH. destruct (Hproduce (produced p)) as [r Hprod].
  apply wp_seq. unfold wp at 1, produce. rewrite Hprod. simpl.
  apply wp_recover. apply wp_seq, wp_update, wp_seq.
  apply wp_call_lifecycle; [done|by exists r|done|]. intros p1 tr1 [(Ht1 & Ha1 & _ & Hb1) [Hi1 Hq1]] Hr1.
  apply wp_seq, wp_emit, wp_seq, wp_update, wp_seq.
  apply wp_call_lifecycle; [done|done|done|]. intros p2 tr2 [(Ht2 & Ha2 & _ & Hb2) [Hi2 Hq2]] Hr2.
  apply wp_seq, wp_emit, wp_seq. simpl in Ht1, Ht2, Hb1, Hb2, Hi1, Hi2.
  set (p3 := log [TBroadcast (AActorStartedEvent (pid opts))] p2).
  assert (Ht3 : exists tr, trace p3 = trace p ++ tr /\ received tr = [] /\ quiet p p3 tr).
  { exists ([TProduce] ++ tr1 ++ [TBroadcast (AActorInitializedEvent (pid opts))] ++ tr2
      ++ [TBroadcast (AActorStartedEvent (pid opts))]).
    split; [simpl; rewrite Ht2; simpl; rewrite Ht1; by rewrite <-!app_assoc|].
    split; [by repeat apply received_app_nil|]. split; [simpl; congruence|].
    rewrite !Forall_app. by repeat constructor. }
  destruct Ht3 as (tr3 & Ht3 & Hr3 & Hq3).
  assert (Hb3 : mbuffer p3 = msgs) by (simpl; congruence).
  assert (Hfin : forall p4 tr4, trace p4 = trace p ++ tr4 -> alive p4 -> received tr4 = msgs ->
    inbox_status p = stopped \/ quiet p p4 tr4 ->
    wp inbox_start (fun p' o => match o with
      | Returns a => batch_post msgs p p' (Returns a)
      | Panics v => wp (seq (update (set_message AStopped)) (seq (call_receive opts) (tryRestart (Start f) v))) (batch_post msgs p) p'
      | Blocks => batch_post msgs p p' Blocks | OutOfFuel => batch_post msgs p p' OutOfFuel end) p4).
  { intros p4 tr4 Ht4 Ha4 Hr4 Hq4. unfold wp at 1, inbox_start. case_decide as Hst; simpl.
    - exists (tr4 ++ [TInboxStart]). simpl. rewrite Ht4, app_assoc. split; [done|]. split; [done|].
      left. split; [done|]. split; [rewrite received_app; simpl; by rewrite app_nil_r|].
      left. destruct Hq4 as [?|[? _]]; congruence.
    - exists tr4. split; [done|]. split; [done|]. by left. }
  unfold wp at 1. rewrite Hb3. destruct (Z.ltb_spec 0 (zlen msgs)) as [Hlt|Hle].
  - apply wp_seq. eapply wp_mono.
    { apply HIH; [done|]. intros ->. unfold zlen in Hlt. simpl in Hlt. lia. }
    intros p4 o (tr & Ht & Ha & [(-> & Hr & Hq)|(-> & Hm & Hpre & H1 & H2)]).
    + apply wp_update. apply (Hfin _ (tr3 ++ tr)); simpl; [by rewrite Ht, Ht3, app_assoc|done| |].
      * by rewrite received_app, Hr3, Hr.
      * destruct Hq as [Hq|Hq]; [left; destruct Hq3; simpl in *; congruence|right].
        exact (quiet_trans _ _ _ _ _ Hq3 Hq).
    + apply wp_seq, wp_update, wp_seq. apply wp_call_lifecycle; [done|done|done|].
      intros p5 tr5 [(Ht5 & Ha5 & Hrs5 & _) _] Hr5.
      apply wp_exhausted; [done|done|simpl in Hrs5; congruence|].
      intros p' Hpost. eapply (batch_post_prefix msgs p p5 p' (tr3 ++ tr ++ tr5)); [| |done].
      * rewrite Ht5; simpl. by rewrite Ht, Ht3, !app_assoc.
      * rewrite !received_app, Hr3, Hr5, app_nil_r. done.
  - assert (msgs = []) as -> by (unfold zlen in Hle; destruct msgs; [done|simpl in Hle; lia]).
    apply (Hfin _ tr3); [done..|by right].
Qed.

(** The batch lemma, by induction on the length of the batch: a panic consumes
    at least the message it happened on. *)
Lemma Invoke_post n : forall msgs fuel p,
  (length msgs <= n)%nat -> (length msgs < fuel)%nat -> Forall user_env msgs -> alive p ->
  wp (Invoke (Start fuel) msgs) (batch_post msgs p) p.
Proof.
  induction n as [n IH] using lt_wf_ind. intros msgs fuel p Hlen Hfuel Hu Ha.
  destruct (invoke_loop_user msgs msgs 0 0 p Hu Ha)
    as (p1 & o & n1 & tr & Hloop & Hx & Hcase).
  unfold wp, Process.Invoke. rewrite Hloop. destruct Hx as [(Ht & Ha1 & Hrs1 & Hb1) Hq1].
  destruct Hcase as [[-> Hr]|(v & done & later & -> & Hmsgs & Hne & Hr & Hn1)].
  { simpl. exists tr. split; [done|]. split; [done|]. left. split; [done|]. split; [done|by right]. }
  assert (Hdrop : drop n1 msgs = later) by (rewrite Hmsgs, Hn1; apply drop_app_length).
  rewrite Hdrop.
  apply wp_seq, wp_update, wp_seq. apply wp_call_lifecycle; [done|done|done|].
  intros p2 tr2 [(Ht2 & Ha2 & Hrs2 & _) Hq2] Hr2. simpl in Ht2, Hrs2. apply wp_seq, wp_update.
  set (p3 := set_mbuffer later p2).
  assert (Ht3 : trace p3 = trace p ++ (tr ++ tr2)) by (simpl; by rewrite Ht2, Ht, app_assoc).
  assert (Hr3 : received (tr ++ tr2) = done) by (by rewrite received_app, Hr, Hr2, app_nil_r).
  destruct (decide (internal v = true \/ restarts p3 <> MaxRestarts opts)) as [Hgo|Hstop].
  - apply wp_restarts; [done|]. intros p4 tr4 Ht4 Hr4 Hb4 Hq4. destruct fuel as [|f]; [lia|].
    assert (Hl : (length later < length msgs)%nat).
    { rewrite Hmsgs, length_app. destruct done; [done|simpl; lia]. }
    eapply wp_mono.
    { apply (Start_post f p4 later Hb4). intros p5 Ha5 _.
      apply (IH (length later)); [lia|lia|lia|by rewrite Hmsgs, Forall_app in Hu; apply Hu|done]. }
    intros p' o Hpost. rewrite Hmsgs. eapply batch_post_grow; [| | |done].
    + by rewrite Ht4, Ht3, <-app_assoc.
    + by rewrite received_app, Hr3, Hr4, app_nil_r.
    + eapply quiet_trans; [exact (quiet_trans _ _ _ _ _ Hq1 Hq2)|exact Hq4].
  - assert (Hin : internal v = false /\ restarts p3 = MaxRestarts opts).
    { split; [destruct (internal v); [tauto|done]|destruct (decide (restarts p3 = MaxRestarts opts)); tauto]. }
    apply wp_exhausted; [tauto|done|tauto|]. intros p' Hpost.
    eapply batch_post_prefix; [exact Ht3| |done]. rewrite Hr3, Hmsgs. by apply prefix_app_r.
Qed.
End delivery.

(** ** Safety of every execution

    A predicate [I] on processes and a set [ok] of outcomes that the primitives
    respect is respected by the whole process code, whatever the user code
    does. *)

Section safety.
Context {R : Type}.
Variable opts : Opts R.
Variable range_children : gmap string PID -> list PID.
Variable poison_done : PID -> bool.
Variable I : process R -> Prop.
Variable ok : outcome unit -> Prop.

#[local] Abbreviation cleanup := (cleanup opts range_children poison_done).
#[local] Abbreviation invoke_loop := (invoke_loop opts range_children poison_done).
#[local] Abbreviation tryRestart := (tryRestart opts range_children poison_done).
#[local] Abbreviation Invoke := (Invoke opts range_children poison_done).
#[local] Abbreviation start_body := (start_body opts range_children poison_done).

Definition safe (m : M R) : Prop := forall p, I p -> I (m p).1 /\ ok (m p).2.

Definition quiet_event (e : event) : bool := match e with TReceive _ _ => false | _ => true end.

Hypothesis Hret : ok (Returns tt).
Hypothesis Hblocks : forall c, poison_done c = false -> ok Blocks.
Hypothesis Hnil : ok (Panics (PVRuntime NilDeref)).
Hypothesis Hemit : forall e p, quiet_event e = true -> I p -> I (log [e] p).
Hypothesis Hmessage : forall m p, is_pill m = false -> I p -> I (set_message m p).
Hypothesis Hsender : forall s p, I p -> I (set_sender s p).
Hypothesis Hmbuffer : forall b p, I p -> I (set_mbuffer b p).
Hypothesis Hinbox : forall s p, I p -> I (set_inbox s p).
Hypothesis Hcall : safe (call_receive opts).
Hypothesis Hcall_mw : safe (call_middleware opts).

Lemma safe_ret : safe ret.
Proof. by intros p HI. Qed.

Lemma safe_seq m k : safe m -> safe k -> safe (seq m k).
Proof.
  intros Hm Hk p HI. unfold seq. destruct (Hm p HI) as [HI' Hok].
  destruct (m p) as [p' []]; simpl in *; auto.
Qed.

Lemma safe_recover m h : safe m -> (forall v, ok (Panics v) -> safe (h v)) -> safe (recover m h).
Proof.
  intros Hm Hh p HI. unfold recover. destruct (Hm p HI) as [HI' Hok].
  destruct (m p) as [p' []]; simpl in *; [auto|by apply Hh|auto|auto].
Qed.

Lemma safe_deferred m d : safe m -> safe d -> safe (deferred m d).
Proof.
  intros Hm Hd p HI. unfold deferred. destruct (Hm p HI) as [HI' Hok].
  destruct (m p) as [p' [[]|v| |]]; simpl in *; auto.
  unfold seq. destruct (Hd p' HI') as [HI2 Hok2]. destruct (d p') as [p2 []]; simpl in *; auto.
Qed.

Lemma safe_emit e : quiet_event e = true -> safe (emit e).
Proof. intros He p HI. split; [by apply Hemit|done]. Qed.

Lemma safe_update f : (forall p, I p -> I (f p)) -> safe (update f).
Proof. intros Hf p HI. split; [by apply Hf|done]. Qed.

Lemma safe_at (f : process R -> M R) : (forall p, safe (f p)) -> safe (fun p => f p p).
Proof. intros Hf p. apply Hf. Qed.

Lemma safe_poison_children cs : safe (poison_children poison_done cs).
Proof.
  induction cs as [|c cs IH]; simpl; [apply safe_ret|].
  apply safe_seq; [by apply safe_emit|]. destruct (poison_done c) eqn:Hc; [done|].
  intros p HI. split; [done|by eapply Hblocks].
Qed.

Lemma safe_cleanup c : safe (cleanup c).
Proof.
  apply safe_deferred; [|destruct c; [by apply safe_emit|by intros p HI]].
  apply safe_seq; [destruct (parentCtx opts); [by apply safe_emit|apply safe_ret]|].
  apply safe_seq.
  { intros p HI. destruct (0 <? _); [by apply safe_poison_children|by apply safe_ret]. }
  repeat first [apply safe_seq | apply Hcall_mw | by apply safe_emit
    | apply safe_update; intros p HI; (by apply Hinbox || by apply Hmessage)].
Qed.

Lemma safe_invokeMsg e : safe (invokeMsg opts e).
Proof.
  unfold invokeMsg. destruct (is_pill (Msg e)) eqn:Hp; [apply safe_ret|].
  apply safe_seq; [apply safe_update; intros p HI; by apply Hsender, Hmessage|].
  by destruct (0 <? _).
Qed.

Lemma safe_invoke_all ms : safe (invoke_all opts ms).
Proof.
  induction ms as [|m ms IH]; simpl; [apply safe_ret|].
  apply safe_seq; [apply safe_invokeMsg|done].
Qed.

Lemma safe_invoke_loop msgs rest n k p :
  I p -> I (invoke_loop msgs rest n k p).1.1 /\ ok (invoke_loop msgs rest n k p).1.2.
Proof.
  revert n k p. induction rest as [|e rest IH]; intros n k p HI; simpl; [done|].
  destruct (safe_invokeMsg e p HI) as [HI' Hok'].
  destruct (Msg e); try (destruct (invokeMsg opts e p) as [p' [[]| | |]]; simpl in *;
    [by apply IH|done|done|done]).
  apply safe_seq; [destruct graceful; [apply safe_invoke_all|apply safe_ret]|apply safe_cleanup|done].
Qed.

Lemma safe_tryRestart start :
  (forall p, I p -> restarts p <> MaxRestarts opts -> I (set_restarts (i32 (restarts p + 1)) p)) ->
  safe start -> forall v, safe (tryRestart start v).
Proof.
  intros Hrestart Hstart v.
  assert (Hgo : forall w, safe (restart_counted opts range_children poison_done start w)).
  { intros w p HI. unfold restart_counted. destruct (Z.eqb_spec (restarts p) (MaxRestarts opts)).
    - apply safe_seq; [by apply safe_emit|apply safe_cleanup|done].
    - change (I (seq (fun p => broadcast (AActorRestartedEvent (pid opts) w (restarts p)) p) (seq (emit TSleep) start) (set_restarts (i32 (restarts p + 1)) p)).1 /\
        ok (seq (fun p => broadcast (AActorRestartedEvent (pid opts) w (restarts p)) p) (seq (emit TSleep) start) (set_restarts (i32 (restarts p + 1)) p)).2).
      apply safe_seq; [intros q Hq; by apply safe_emit| |by apply Hrestart].
      apply safe_seq; [by apply safe_emit|done]. }
  destruct v; [|apply Hgo..]. apply safe_seq; [by apply safe_emit|done].
Qed.

Section restart.
Variable start : M R.
Hypothesis Htry : forall v, ok (Panics v) -> safe (tryRestart start v).

Lemma safe_Invoke msgs : safe (Invoke start msgs).
Proof.
  intros p HI. unfold Process.Invoke.
  pose proof (safe_invoke_loop msgs msgs 0 0 p HI) as Hl.
  destruct (invoke_loop msgs msgs 0 0 p) as [[p' [u|v| |]] n]; simpl in *; try tauto.
  destruct Hl as [HI' Hok]. revert p' HI'.
  repeat first [apply safe_seq | apply Hcall | by apply Htry
    | apply safe_update; intros p' HI'; (by apply Hmbuffer || by apply Hmessage)].
Qed.

Lemma safe_start_body : safe (start_body start).
Proof.
  apply safe_recover.
  - repeat first [apply safe_seq | apply Hcall_mw | by apply safe_emit
      | apply safe_update; intros p HI; by apply Hmessage].
    + intros p HI. destruct (0 <? _); [|by apply safe_ret].
      apply safe_seq; [apply safe_Invoke|apply safe_update; intros; by apply Hmbuffer|done].
    + intros p HI. unfold inbox_start. case_decide; simpl; [|done].
      split; [by apply (Hemit TInboxStart), Hinbox|done].
  - intros v Hv. repeat first [apply safe_seq | apply Hcall | by apply Htry
      | apply safe_update; intros p HI; by apply Hmessage].
Qed.
End restart.
End safety.

(** *** Poison pills are private *)

Section pills.
Context {R : Type}.
Variable opts : Opts R.
Variable range_children : gmap string PID -> list PID.
Variable poison_done : PID -> bool.

Definition no_pill (e : event) : Prop :=
  match e with TReceive m _ => is_pill m = false | _ => True end.

Definition pill_inv (p : process R) : Prop :=
  Forall no_pill (trace p) /\ is_pill (message p) = false.

Lemma pill_inv_call f : safe pill_inv (fun _ => True) (call f).
Proof.
  intros p [HI Hm]. split; [|done]. destruct (receiver p) as [r|] eqn:Hr.
  - destruct (call_spec f p r Hr) as (r' & es & v & p' & _ & -> & (Hmsg & _) & _ & Ht).
    unfold pill_inv; simpl. rewrite Ht, Hmsg. split; [|done].
    apply Forall_app. split; [done|]. apply Forall_cons. split; [done|].
    apply Forall_fmap. by apply Forall_true.
  - unfold call. by rewrite Hr.
Qed.

Lemma pill_inv_log e p : quiet_event e = true -> pill_inv p -> pill_inv (log [e] p).
Proof.
  intros He [HI Hm]. split; [|done]. simpl. apply Forall_app. split; [done|].
  apply Forall_singleton. by destruct e.
Qed.

Lemma pill_safe fuel msgs :
  safe pill_inv (fun _ => True) (Start opts range_children poison_done fuel) /\
  safe pill_inv (fun _ => True) (Invoke opts range_children poison_done
    (Start opts range_children poison_done fuel) msgs).
Proof.
  assert (Htry : forall start, safe pill_inv (fun _ => True) start ->
    forall v : pvalue, True -> safe pill_inv (fun _ => True) (tryRestart opts range_children poison_done start v)).
  { intros start Hs v _. apply safe_tryRestart; try done;
      [apply pill_inv_log|by intros m q Hm [? _]|apply pill_inv_call]. }
  assert (Hstart : safe pill_inv (fun _ => True) (Start opts range_children poison_done fuel)).
  { induction fuel as [|fuel IH]; simpl; [by intros p HI|]. apply safe_seq.
    - intros p HI. unfold produce. destruct (Producer opts (produced p)); simpl; (split; [|done]).
      + by apply (pill_inv_log TProduce).
      + by apply (pill_inv_log TProduce).
    - apply safe_start_body; try done; [apply pill_inv_log|by intros m q Hm [? _]|apply pill_inv_call..|].
      by apply Htry. }
  split; [done|].
  apply safe_Invoke; try done; [apply pill_inv_log|by intros m q Hm [? _]|apply pill_inv_call..|].
  by apply Htry.
Qed.
End pills.

(** *** Waiting for ever

    Only for a child that does not stop. *)

Section waiting.
Context {R : Type}.
Variable opts : Opts R.
Variable range_children : gmap string PID -> list PID.
Variable poison_done : PID -> bool.

Definition waits_for_child (o : outcome unit) : Prop := o = Blocks -> exists c, poison_done c = false.

Lemma call_waits f : safe (fun _ => True) waits_for_child (call (R:=R) f).
Proof.
  intros p _. split; [done|]. unfold call. destruct (receiver p) as [r|]; [|done].
  by destruct (f r (message p) (sender p)) as [[r' es] [v|]].
Qed.

Lemma waits_Invoke fuel msgs :
  safe (fun _ => True) waits_for_child (Invoke opts range_children poison_done (Start opts range_children poison_done fuel) msgs).
Proof.
  assert (Hb : forall c, poison_done c = false -> waits_for_child Blocks) by (intros c Hc _; by exists c).
  assert (Htry : forall start, safe (fun _ => True) waits_for_child start ->
    forall v : pvalue, waits_for_child (Panics v) ->
      safe (fun _ => True) waits_for_child (tryRestart opts range_children poison_done start v)).
  { intros start Hs v _. by apply safe_tryRestart; try done; apply call_waits. }
  assert (Hstart : safe (fun _ => True) waits_for_child (Start opts range_children poison_done fuel)).
  { induction fuel as [|fuel IH]; simpl; [by intros p HI|]. apply safe_seq.
    - intros p _. unfold produce. by destruct (Producer opts (produced p)).
    - apply safe_start_body; try done; [apply call_waits..|]. by apply Htry. }
  apply safe_Invoke; try done; [apply call_waits..|]. by apply Htry.
Qed.
End waiting.

Lemma crash_unless_waiting {R} (pd : PID -> bool) (run : process R * outcome unit) :
  (forall c, pd c = true) ->
  (exists p' o, run = (p', o) /\
    ((exists v, o = Panics v /\ internal v = false) \/ (o = Blocks /\ exists c, pd c = false))) ->
  exists p' v, run = (p', Panics v) /\ internal v = false.
Proof.
  intros Hpd (p' & o & -> & [(v & -> & Hv)|[_ [c Hc]]]); [by exists p', v|]. by rewrite Hpd in Hc.
Qed.

(** *** Restarts are bounded *)

Section termination.
Context {R : Type}.
Variable opts : Opts R.
Variable range_children : gmap string PID -> list PID.
Variable poison_done : PID -> bool.

(** The user code never panics with an [*InternalError] (only the dialing code
    of the remote does). *)
Definition no_internal (f : ReceiveFunc R) : Prop :=
  forall r m s v, (f r m s).2 = Some v -> internal v = false.

Hypothesis Hrcv : no_internal (Receive opts).
Hypothesis Hmw : no_internal (applyMiddleware (Receive opts) (Middleware opts)).
Hypothesis Hprod : forall n v, Producer opts n = inr v -> internal v = false.
Hypothesis Hmax : - two31 <= MaxRestarts opts < two31.
(** At most this many restarts are left. *)
Variable most : Z.

(** [fuel] restarts are still allowed at most. *)
Definition budget (fuel : nat) (p : process R) : Prop :=
  - two31 <= restarts p < two31 /\ restarts_left opts p < Z.of_nat fuel /\ restarts_left opts p <= most.

Definition counted (o : outcome unit) : Prop :=
  match o with OutOfFuel => False | Panics v => internal v = false | _ => True end.

Lemma budget_call fuel f : no_internal f -> safe (budget fuel) counted (call f).
Proof.
  intros Hf p HI. destruct (receiver p) as [r|] eqn:Hr.
  - destruct (call_spec f p r Hr) as (r' & es & v & p' & Hfr & -> & (_ & _ & Hrs & _) & _).
    unfold budget, restarts_left; simpl. rewrite Hrs. split; [done|]. destruct v as [v|]; [|done].
    simpl. apply (Hf r (message p) (sender p)). by rewrite Hfr.
  - unfold call. by rewrite Hr.
Qed.

Lemma budget_try fuel :
  safe (budget fuel) counted (Start opts range_children poison_done fuel) ->
  forall v, counted (Panics v) ->
    safe (budget (S fuel)) counted
      (tryRestart opts range_children poison_done (Start opts range_children poison_done fuel) v).
Proof.
  intros Hs v Hv p HI. simpl in Hv. unfold tryRestart.
  assert (Hgo : safe (budget (S fuel)) counted
    (restart_counted opts range_children poison_done (Start opts range_children poison_done fuel) v)).
  { clear p HI. intros p HI. destruct (decide (restarts p = MaxRestarts opts)) as [Heq|Hne].
    - unfold restart_counted. rewrite Heq, Z.eqb_refl.
      apply safe_seq; [by apply safe_emit|apply safe_cleanup; try done; by apply budget_call|done].
    - rewrite restart_counted_go by done.
      destruct HI as (Hi & Hl & Hk). destruct (restart_counts_down opts p Hmax Hi Hne) as [Hr Hd].
      edestruct Hs as [(H1 & H1' & H1'') H2]; [|split; [split; [exact H1|]|exact H2]; lia].
      unfold budget, restarts_left in *; simpl. rewrite Hd. split_and!; [apply Hr|apply Hr|lia|lia]. }
  destruct v; [done|by apply Hgo..].
Qed.

Lemma budget_safe fuel : safe (budget fuel) counted (Start opts range_children poison_done fuel).
Proof.
  induction fuel as [|fuel IH]; simpl.
  { intros p (_ & Hl & _). unfold restarts_left, two32 in Hl.
    pose proof (Z.mod_pos_bound (MaxRestarts opts - restarts p) 4294967296). lia. }
  apply safe_seq.
  - intros p HI. unfold produce. destruct (Producer opts (produced p)) eqn:Hp; simpl; [done|].
    split; [done|]. by eapply Hprod.
  - apply safe_start_body; try done; [by apply budget_call|by apply budget_call|by apply budget_try].
Qed.

Lemma budget_Invoke fuel msgs :
  safe (budget (S fuel)) counted
    (Invoke opts range_children poison_done (Start opts range_children poison_done fuel) msgs).
Proof.
  apply safe_Invoke; try done; [by apply budget_call|by apply budget_call|].
  apply budget_try, budget_safe.
Qed.
End termination.

(** One batch after the other. *)
Fixpoint invoke_batches {R} (opts : Opts R) rc pd (fuel : nat) (batches : list (list Envelope)) : M R :=
  match batches with
  | [] => ret
  | b :: bs => seq (Invoke opts rc pd (Start opts rc pd fuel) b) (invoke_batches opts rc pd fuel bs)
  end.

(** *** Failing messages

    The user code panics on some messages, the bombs, in every [good] state of its
    receiver; what the producer makes is good, and all other messages keep it so. *)

Section failing.
Context {R : Type}.
Variable opts : Opts R.
Variable range_children : gmap string PID -> list PID.
Variable poison_done : PID -> bool.
Hypothesis Hrcv : no_internal (Receive opts).
Hypothesis Hmw : no_internal (applyMiddleware (Receive opts) (Middleware opts)).
Hypothesis Hprod : forall n v, Producer opts n = inr v -> internal v = false.
Hypothesis Hmax : - two31 <= MaxRestarts opts < two31.
Variable good : R -> Prop.
Variable bomb : Envelope -> bool.

(** The receive functions a message can go to. *)
Definition handlers (f : ReceiveFunc R) : Prop :=
  f = Receive opts \/ f = applyMiddleware (Receive opts) (Middleware opts).

Hypothesis Hgood : forall n r, Producer opts n = inl r -> good r.
Hypothesis Hkeep : forall f, handlers f -> forall r m s, good r -> is_lifecycle m = true -> good (f r m s).1.1.

#[local] Abbreviation Start := (Start opts range_children poison_done).
#[local] Abbreviation Invoke := (Invoke opts range_children poison_done).
#[local] Abbreviation tryRestart := (tryRestart opts range_children poison_done).
#[local] Abbreviation cleanup := (cleanup opts range_children poison_done).
Implicit Types (p : process R) (Q : process R -> outcome unit -> Prop).

Definition volatile (e : Envelope) : Prop :=
  is_pill (Msg e) = false /\
  forall f, handlers f -> forall r, good r ->
    if bomb e then exists v, (f r (Msg e) (Sender e)).2 = Some v else good (f r (Msg e) (Sender e)).1.1.

Definition bombs (msgs : list Envelope) : Z := zlen (List.filter bomb msgs).

Section bounded.
(** How many restarts may be left when the messages are used up. *)
Variable bound : Z.

Definition fit p : Prop := forall r, receiver p = Some r -> good r.

(** The restarts and the buffered messages are as before. *)
Definition kept p p' : Prop := restarts p' = restarts p /\ mbuffer p' = mbuffer p.

Lemma wp_call_any f Q p :
  handlers f ->
  (forall p' o, kept p p' ->
     ((forall r, good r -> good (f r (message p) (sender p)).1.1) -> fit p -> fit p') ->
     (o = Returns tt \/ exists v, o = Panics v /\ internal v = false) -> Q p' o) ->
  wp (call f) Q p.
Proof using Hrcv Hmw.
  intros Hh HQ. assert (Hf : no_internal f) by by destruct Hh as [->| ->]. unfold wp. destruct (receiver p) as [r|] eqn:Hr.
  - destruct (call_spec f p r Hr) as (r' & es & v & p' & Hfr & -> & (_ & _ & Hrs & Hb & _) & Hr' & _).
    apply HQ; [done| |].
    + intros Hl Hfit r1 Hr1. simpl in Hr1. rewrite Hr' in Hr1. injection Hr1 as <-.
      specialize (Hl r (Hfit r Hr)). by rewrite Hfr in Hl.
    + destruct v as [v|]; [right|by left]. exists v. split; [done|].
      apply (Hf r (message p) (sender p)). by rewrite Hfr.
  - unfold call. rewrite Hr. apply HQ; [done|done|]. right. by eexists.
Qed.

(** [cleanup(nil)] never returns. *)
Lemma wp_cleanup_crash Q p :
  (forall p', kept p p' -> Q p' (Panics (PVRuntime NilDeref))) ->
  (forall p', Q p' Blocks) ->
  wp (cleanup None) Q p.
Proof using Hrcv Hmw good.
  intros HP HB. unfold wp.
  assert (Hs : safe (kept p) (fun o => o <> OutOfFuel) (cleanup None)).
  { apply safe_cleanup; try done. intros q [Hq1 Hq2].
    change (wp (call_middleware opts) (fun p' o => kept p p' /\ o <> OutOfFuel) q).
    apply wp_call_any; [by right|]. intros p' o [H1 H2] _ Ho. split; [split; congruence|].
    destruct Ho as [->|(v & -> & _)]; done. }
  destruct (Hs p) as [Hk Ho]; [done|].
  assert (Hc : (cleanup None p).2 = Panics (PVRuntime NilDeref) \/ (cleanup None p).2 = Blocks \/
    (cleanup None p).2 = OutOfFuel).
  { unfold Process.cleanup, deferred.
    match goal with |- context [match ?m p with _ => _ end] => destruct (m p) as [q [u|v| |]] end;
      unfold call_cancel, seq, panic; simpl; auto. }
  destruct Hc as [Hc|[Hc|Hc]]; [|rewrite Hc; apply HB|done]. rewrite Hc. by apply HP.
Qed.

(** More bombs than restarts to lose; at least as many about to restart. *)
Definition few p (msgs : list Envelope) : Prop :=
  - two31 <= restarts p < two31 /\ Forall volatile msgs /\ restarts_left opts p < bombs msgs + bound.
Definition doomed p : Prop :=
  - two31 <= restarts p < two31 /\ Forall volatile (mbuffer p) /\
  restarts_left opts p <= bombs (mbuffer p) + bound.

Definition bad (J : Prop) p (o : outcome unit) : Prop :=
  match o with
  | Returns _ => few p [] /\ fit p
  | Panics v => (J -> doomed p) /\ internal v = false
  | _ => True
  end.

Lemma few_kept p p' msgs : few p msgs -> kept p p' -> few p' msgs.
Proof. unfold few, restarts_left. by intros (H1 & H2 & H3) [-> _]. Qed.

Lemma doomed_kept p p' : doomed p -> kept p p' -> doomed p'.
Proof. unfold doomed, restarts_left. by intros (H1 & H2 & H3) [-> ->]. Qed.

Lemma few_doomed p : few p (mbuffer p) -> doomed p.
Proof. intros (H1 & H2 & H3). split_and!; auto; lia. Qed.

Lemma restarts_left_nonneg p : 0 <= restarts_left opts p.
Proof. apply Z.mod_pos_bound. done. Qed.

Lemma wp_doomed_restart start v p :
  doomed p -> internal v = false ->
  (forall p', few p' (mbuffer p') -> wp start (bad True) p') ->
  wp (tryRestart start v) (bad True) p.
Proof using Hrcv Hmw Hmax.
  intros D Hv Hst. unfold wp.
  assert (Heq : tryRestart start v p = restart_counted opts range_children poison_done start v p) by by destruct v.
  rewrite Heq. clear Heq. destruct (decide (restarts p = MaxRestarts opts)) as [Hs|Hgo].
  - unfold restart_counted. rewrite Hs, Z.eqb_refl.
    change (wp (seq (broadcast (AActorMaxRestartsExceededEvent (pid opts))) (cleanup None)) (bad True) p).
    apply wp_seq, wp_emit, wp_cleanup_crash; [|done]. intros p' Hk. split; [|done]. intros _.
    by eapply doomed_kept.
  - rewrite restart_counted_go by done.
    destruct D as (Hr & Hf & Hl). destruct (restart_counts_down opts p Hmax Hr Hgo) as [Hi Hd].
    apply Hst. unfold few, restarts_left in *. simpl. rewrite Hd.
    pose proof (restarts_left_nonneg (set_restarts (i32 (restarts p + 1)) p)) as Hn.
    unfold restarts_left in Hn. simpl in Hn. split_and!; [apply Hi|apply Hi|done|lia].
Qed.

(** The handler of a recovered panic. *)
Lemma wp_doomed_handler start v p :
  doomed p -> internal v = false ->
  (forall p', few p' (mbuffer p') -> wp start (bad True) p') ->
  wp (seq (update (set_message AStopped)) (seq (call_receive opts) (tryRestart start v))) (bad True) p.
Proof using Hrcv Hmw Hmax.
  intros D Hv Hst. apply wp_seq, wp_update, wp_seq, wp_call_any; [by left|].
  intros p' o Hk _ [->|(v' & -> & Hv')].
  - apply wp_doomed_restart; [by eapply doomed_kept|done|done].
  - split; [|done]. intros _. by eapply doomed_kept.
Qed.

Lemma invokeMsg_volatile e p :
  volatile e -> fit p ->
  exists p' o, invokeMsg opts e p = (p', o) /\ kept p p' /\
    (o = Returns tt /\ fit p' /\ bomb e = false \/ exists v, o = Panics v /\ internal v = false).
Proof using Hrcv Hmw.
  intros [Hpill He] Hfit. unfold invokeMsg. rewrite Hpill. unfold seq, update.
  set (p0 := set_sender (Sender e) (set_message (Msg e) p)).
  assert (Hc : forall f, handlers f -> exists p' o, call f p0 = (p', o) /\ kept p p' /\
    (o = Returns tt /\ fit p' /\ bomb e = false \/ exists v, o = Panics v /\ internal v = false)).
  { intros f Hor. specialize (He f Hor).
    assert (Hw : wp (call f) (fun p' o => kept p p' /\
      (o = Returns tt /\ fit p' /\ bomb e = false \/ exists v, o = Panics v /\ internal v = false)) p0).
    { destruct (bomb e) eqn:Hb.
      - unfold wp, call. destruct (receiver p0) as [r|] eqn:Hr; [|split; [done|right; by eexists]].
        destruct (call_spec f p0 r Hr) as (r' & es & v & p' & Hfr & Hcall & (_ & _ & Hrs & Hmb & _) & _).
        unfold call in Hcall. rewrite Hr in Hcall. rewrite Hcall.
        destruct (He r (Hfit r Hr)) as [w Hw]. simpl in Hfr. rewrite Hfr in Hw. simpl in Hw. subst v.
        split; [done|]. right. exists w. split; [done|].
        assert (Hni : no_internal f) by by destruct Hor as [->| ->]. apply (Hni r (Msg e) (Sender e)). by rewrite Hfr.
      - apply wp_call_any; [done|]. intros p' o Hk Hfit' [->|Hv]; (split; [done|]); [left|by right].
        split; [done|]. split; [|done]. apply Hfit'; [|exact Hfit]. intros r. apply He. }
    unfold wp in Hw. destruct (call f p0) as [p' o]. exists p', o. by split. }
  destruct (0 <? zlen (Middleware opts)); apply Hc; [by right|by left].
Qed.

Lemma invoke_loop_bombs rest : forall msgs n k p,
  Forall volatile rest -> fit p ->
  exists p' o n', invoke_loop opts range_children poison_done msgs rest n k p = ((p', o), n') /\ kept p p' /\
    (o = Returns tt /\ fit p' /\ bombs rest = 0 \/
     exists v i, o = Panics v /\ internal v = false /\ n' = (n + i)%nat /\ bombs rest <= bombs (drop i rest) + 1).
Proof using Hrcv Hmw.
  induction rest as [|e rest IH]; intros msgs n k p Hrest Hfit; cbn [invoke_loop].
  { exists p, (Returns tt), n. split; [done|]. split; [done|]. by left. }
  apply Forall_cons in Hrest as [He Hrest].
  destruct (invokeMsg_volatile e p He Hfit) as (p1 & o1 & H1 & Hk1 & Ho1).
  assert (Hcons : bombs (e :: rest) = (if bomb e then 1 else 0) + bombs rest).
  { unfold bombs, zlen. simpl. destruct (bomb e); simpl; lia. }
  destruct Ho1 as [(-> & Hfit1 & Hb)|(v & -> & Hv)].
  - destruct (IH msgs (S n) (S k) p1 Hrest Hfit1) as (p' & o & n' & H & Hk & Ho).
    exists p', o, n'. split; [destruct He as [He _]; destruct (Msg e); try done; by rewrite H1|].
    split; [destruct Hk1, Hk; split; congruence|].
    rewrite Hcons, Hb. destruct Ho as [Ho|(v & i & Hv1 & Hv2 & Hn & Hd)]; [by left|right].
    exists v, (S i). split; [done|]. split; [done|]. split; [lia|]. exact Hd.
  - exists p1, (Panics v), (S n). split; [destruct He as [He _]; destruct (Msg e); try done; by rewrite H1|].
    split; [done|]. right. exists v, 1%nat. split; [done|]. split; [done|]. split; [lia|].
    rewrite Hcons. simpl. rewrite drop_0. destruct (bomb e); lia.
Qed.

Lemma doomed_Invoke start msgs p :
  few p msgs -> fit p -> (forall p', few p' (mbuffer p') -> wp start (bad True) p') ->
  wp (Invoke start msgs) (bad (mbuffer p = msgs)) p.
Proof using Hrcv Hmw Hmax.
  intros F Hfit Hst.
  destruct (invoke_loop_bombs msgs msgs 0 0 p (proj1 (proj2 F)) Hfit) as (p1 & o1 & n & Hl & Hk & Ho1).
  unfold wp, Process.Invoke. rewrite Hl.
  destruct Ho1 as [(-> & Hfit1 & Hb)|(v & i & -> & Hv & -> & Hb)].
  { pose proof (few_kept _ _ _ F Hk) as (F1 & F2 & F3). split; [|done]. split; [done|]. split; [done|].
    rewrite Hb in F3. exact F3. }
  apply wp_seq, wp_update, wp_seq, wp_call_any; [by left|].
  intros p2 o Hk2 _ Ho.
  assert (Hk' : kept p p2) by (destruct Hk, Hk2; unfold kept in *; simpl in *; split; congruence).
  pose proof (few_kept _ _ _ F Hk') as F2.
  destruct Ho as [->|(v' & -> & Hv')].
  - apply wp_seq, wp_update. eapply wp_mono; [apply wp_doomed_restart; [|done|done]|].
    + destruct F2 as (H1 & H2 & H3). split; [exact H1|].
      split; [by apply Forall_drop|]. unfold restarts_left in *. simpl in *. lia.
    + intros p' [u|w| |]; simpl; tauto.
  - split; [|done]. intros Hm. apply few_doomed. destruct Hk' as [_ Hmb]. by rewrite Hmb, Hm.
Qed.

Lemma wp_inbox_start Q p :
  few p [] -> fit p -> (forall p', few p' [] -> fit p' -> Q p' (Returns tt)) -> wp inbox_start Q p.
Proof. intros F Fit HQ. unfold wp, inbox_start. by case_decide; apply HQ. Qed.

Lemma doomed_Start fuel p : few p (mbuffer p) -> wp (Start fuel) (bad True) p.
Proof using Hrcv Hmw Hprod Hmax Hgood Hkeep.
  revert p. induction fuel as [|fuel IH]; intros p F; [done|]. simpl.
  assert (Hst : forall p', few p' (mbuffer p') -> wp (Start fuel) (bad True) p') by exact IH.
  apply wp_seq. unfold wp at 1, produce. destruct (Producer opts (produced p)) as [r|v] eqn:Hp; simpl.
  2:{ split; [intros _; by apply (few_doomed p)|by eapply Hprod]. }
  set (p0 := log [TProduce] _). assert (F0 : few p0 (mbuffer p0)) by exact F.
  assert (Fit0 : fit p0) by (intros r0 [= <-]; by eapply Hgood). clearbody p0. clear F.
  assert (Hpan : forall q v, few q (mbuffer q) -> internal v = false ->
    wp (seq (update (set_message AStopped)) (seq (call_receive opts) (tryRestart (Start fuel) v))) (bad True) q).
  { intros q v Fq Hv. apply wp_doomed_handler; [by apply few_doomed|done|done]. }
  apply wp_recover. apply wp_seq, wp_update, wp_seq, wp_call_any; [by right|].
  intros p1 o1 Hk1 Fit1 Ho1. specialize (Fit1 (fun r Hr => Hkeep _ (or_intror eq_refl) r AInitialized _ Hr eq_refl) Fit0). assert (F1 : few p1 (mbuffer p1)).
  { destruct Hk1 as [H1 H2]. rewrite H2. eapply few_kept; [exact F0|by split]. }
  destruct Ho1 as [->|(v & -> & Hv)]; [|by apply Hpan].
  apply wp_seq, wp_emit, wp_seq, wp_update, wp_seq, wp_call_any; [by right|].
  intros p2 o2 Hk2 Fit2 Ho2. specialize (Fit2 (fun r Hr => Hkeep _ (or_intror eq_refl) r AStarted _ Hr eq_refl) Fit1). assert (F2 : few p2 (mbuffer p2)).
  { destruct Hk2 as [H1 H2]. rewrite H2. eapply few_kept; [exact F1|by split]. }
  destruct Ho2 as [->|(v & -> & Hv)]; [|by apply Hpan].
  apply wp_seq, wp_emit, wp_seq. unfold wp at 1.
  set (p3 := log _ p2). assert (F3 : few p3 (mbuffer p3)) by exact F2.
  assert (Fit3 : fit p3) by exact Fit2. clearbody p3.
  destruct (Z.ltb_spec 0 (zlen (mbuffer p3))) as [Hlt|Hle].
  - apply wp_seq. eapply wp_mono; [by apply (doomed_Invoke (Start fuel) (mbuffer p3) p3)|].
    intros p4 [u|v| |]; simpl; [|intros [HD Hv]; apply wp_doomed_handler; [by apply HD|done|done]|done|done].
    intros [F4 Fit4]. by apply wp_update, wp_inbox_start; [..|split].
  - apply wp_inbox_start; [|done|by split]. destruct (mbuffer p3) as [|m l]; [done|]. unfold zlen in Hle. simpl in Hle. lia.
Qed.
End bounded.

Lemma doomed_batches fuel batches p :
  - two31 <= restarts p < two31 -> fit p -> Forall (Forall volatile) batches ->
  restarts_left opts p < bombs (concat batches) -> restarts_left opts p <= Z.of_nat fuel ->
  exists p' o, invoke_batches opts range_children poison_done fuel batches p = (p', o) /\
    ((exists v, o = Panics v /\ internal v = false) \/ (o = Blocks /\ exists c, poison_done c = false)).
Proof using Hrcv Hmw Hprod Hmax Hgood Hkeep.
  intros Hr Hfit Hm. revert p Hr Hfit. induction Hm as [|msgs bs Hmsgs Hbs IH]; intros p Hr Hfit Hmany Hfuel.
  { exfalso. pose proof (restarts_left_nonneg p). by apply Z.lt_nge in Hmany. }
  assert (HB : budget opts (restarts_left opts p) (S fuel) p) by (unfold budget; split_and!; [apply Hr..|lia|lia]).
  pose proof (budget_Invoke opts range_children poison_done Hrcv Hmw Hprod Hmax _ fuel msgs p HB) as [HB' Hc].
  assert (F : few (bombs (concat bs)) p msgs).
  { split; [done|]. split; [done|]. cbn [concat] in Hmany. unfold bombs, zlen in *.
    rewrite List.filter_app, length_app in Hmany. lia. }
  pose proof (doomed_Invoke (bombs (concat bs)) (Start fuel) msgs p F Hfit
    (fun p' => doomed_Start (bombs (concat bs)) fuel p')) as Hb.
  pose proof (waits_Invoke opts range_children poison_done fuel msgs p I) as [_ Hw].
  cbn [invoke_batches]. unfold seq. unfold wp in Hb. destruct (Process.Invoke _ _ _ _ _ _) as [p1 o1].
  simpl in Hb, Hc, HB'. destruct HB' as (Hr1 & _ & Hl). destruct o1 as [[]|v| |]; simpl in Hb, Hc.
  - destruct Hb as [(_ & _ & Hf) Hfit1]. apply IH; [done|done| |lia]. unfold bombs at 1, zlen at 1 in Hf. simpl in Hf. lia.
  - do 2 eexists. split; [done|]. left. exists v. by destruct Hb.
  - do 2 eexists. split; [done|]. right. split; [done|by apply Hw].
  - done.
Qed.
End failing.

(** ** What a poison pill does *)

Section pill_outcome.
Context {R : Type}.
Variable opts : Opts R.
Variable range_children : gmap string PID -> list PID.
Variable poison_done : PID -> bool.

(** User code that does not panic. *)
Definition never_panics (f : ReceiveFunc R) : Prop := forall r m s, (f r m s).2 = None.

Hypothesis Hcalm : never_panics (Receive opts).
Hypothesis Hcalm_mw : never_panics (applyMiddleware (Receive opts) (Middleware opts)).
Hypothesis Hchildren : forall c, poison_done c = true.

Implicit Types (p : process R) (Q : process R -> outcome unit -> Prop).

(** Events other than the calls that take an actor down. *)
Definition no_teardown (e : event) : Prop :=
  match e with TCancel _ | TInboxStart | TInboxStop | TRegistryRemove _ => False | _ => True end.

(** The contexts a trace cancels. *)
Definition cancels (t : list event) : list Z :=
  omap (fun e => match e with TCancel c => Some c | _ => None end) t.

Lemma cancels_app t1 t2 : cancels (t1 ++ t2) = cancels t1 ++ cancels t2.
Proof. apply omap_app. Qed.

Lemma cancels_none t : Forall no_teardown t -> cancels t = [].
Proof. induction 1 as [|e t He _ IH]; simpl; [done|]. by destruct e. Qed.

(** What a trace shows as long as the actor is not taken down: no context is
    cancelled and the registry keeps its entry. *)
Definition keeps (e : event) : Prop :=
  match e with TCancel _ | TRegistryRemove _ => False | _ => True end.
Definition standing (t : list event) : Prop := Forall keeps t.

Lemma standing_spec t : standing t -> cancels t = [] /\ TRegistryRemove (pid opts) ∉ t.
Proof.
  intros S. split; [induction S as [|e t He _ IH]; simpl; [done|]; by destruct e|].
  intros Hin. unfold standing in S. rewrite Forall_forall in S. exact (S _ Hin).
Qed.

Lemma no_teardown_standing t : Forall no_teardown t -> standing t.
Proof. intros F. eapply Forall_impl; [exact F|]. by intros []. Qed.

Lemma seq_returns (m k : M R) p p' : m p = (p', Returns tt) -> seq m k p = k p'.
Proof. unfold seq. by intros ->. Qed.

(** A call leaves the message buffer and the inbox alone. *)
Lemma call_frame f p p' o : call f p = (p', o) ->
  mbuffer p' = mbuffer p /\ inbox_status p' = inbox_status p.
Proof.
  unfold call. destruct (receiver p) as [r|]; [|by intros [= <- _]].
  destruct (f r (message p) (sender p)) as [[r' es] v].
  match goal with |- context [foldl _ ?q es] =>
    destruct (apply_effects_spec es q) as ((_ & _ & _ & Hb & Hi) & _) end.
  destruct v; intros [= <- _]; by rewrite Hb, Hi.
Qed.

(** The code returns normally after appending [tr], which takes nothing down, and the
    user messages in [tr] are [es]. *)
Definition appends (es : list Envelope) (tr : list event) p p' : Prop :=
  trace p' = trace p ++ tr /\ is_Some (receiver p') /\ received tr = es /\
  Forall no_teardown tr.

Lemma appends_trans es1 es2 t1 t2 p1 p2 p3 :
  appends es1 t1 p1 p2 -> appends es2 t2 p2 p3 -> appends (es1 ++ es2) (t1 ++ t2) p1 p3.
Proof.
  intros (H1 & _ & <- & F1) (H2 & Hr & <- & F2). split_and!.
  - by rewrite H2, H1, app_assoc.
  - done.
  - apply received_app.
  - by apply Forall_app.
Qed.

Lemma calm_call f p :
  never_panics f -> is_Some (receiver p) ->
  exists p' tr, call f p = (p', Returns tt) /\ inbox_status p' = inbox_status p /\
    appends (if is_lifecycle (message p) then [] else [mkEnvelope (message p) (sender p)])
      (TReceive (message p) (sender p) :: tr) p p'.
Proof.
  intros Hf [r Hr]. destruct (call_spec f p r Hr)
    as (r' & es & v & p' & Hfr & Hcall & (_ & _ & _ & _ & Hi) & Hr' & Ht).
  specialize (Hf r (message p) (sender p)). rewrite Hfr in Hf. simpl in Hf. subst v.
  exists p', (TEffect <$> es). split; [done|]. split; [done|]. split_and!; [done|by exists r'| |].
  - simpl. rewrite received_effects. by destruct (is_lifecycle _).
  - apply Forall_cons. split; [done|]. apply Forall_fmap. by apply Forall_true.
Qed.

Definition is_user (e : Envelope) : bool := negb (is_pill (Msg e)).

Lemma calm_invokeMsg e p :
  is_lifecycle (Msg e) = false -> is_Some (receiver p) ->
  exists p' tr, invokeMsg opts e p = (p', Returns tt) /\ appends (if is_pill (Msg e) then [] else [e]) tr p p'.
Proof.
  intros Hl Hr. unfold invokeMsg. destruct (is_pill (Msg e)) eqn:Hp.
  { exists p, []. split; [done|]. split_and!; [by rewrite app_nil_r|done..]. }
  set (p0 := set_sender (Sender e) (set_message (Msg e) p)).
  assert (Hc : forall f, never_panics f -> exists p' tr, call f p0 = (p', Returns tt) /\ appends [e] tr p p').
  { intros f Hf. destruct (calm_call f p0 Hf Hr) as (p' & tr & Hcall & _ & Ha).
    simpl in Ha. rewrite Hl in Ha. exists p'. eexists. split; [done|].
    destruct Ha as (H1 & H2 & H3 & H4). split_and!; [exact H1|done| |done].
    rewrite H3. by destruct e. }
  unfold seq, update. destruct (0 <? _); by apply Hc.
Qed.

Lemma calm_invoke_all es p :
  Forall (fun e => is_lifecycle (Msg e) = false) es -> is_Some (receiver p) ->
  exists p' tr, invoke_all opts es p = (p', Returns tt) /\ appends (List.filter is_user es) tr p p'.
Proof.
  revert p. induction es as [|e es IH]; intros p Hl Hr; simpl.
  { exists p, []. split; [done|]. split_and!; [by rewrite app_nil_r|done..]. }
  apply Forall_cons in Hl as [He Hl].
  destruct (calm_invokeMsg e p He Hr) as (p1 & t1 & H1 & A1).
  destruct (IH p1 Hl) as (p2 & t2 & H2 & A2); [apply A1|].
  exists p2, (t1 ++ t2). unfold seq. rewrite H1, H2. split; [done|].
  pose proof (appends_trans _ _ _ _ _ _ _ A1 A2) as A. unfold is_user at 1.
  by destruct (is_pill (Msg e)).
Qed.

Lemma calm_invoke_loop msgs rest n k p pre pill post graceful c :
  rest = pre ++ pill :: post -> Msg pill = APoisonPill graceful c ->
  Forall (fun e => is_pill (Msg e) = false /\ is_lifecycle (Msg e) = false) pre ->
  is_Some (receiver p) ->
  exists p' tr nn, appends pre tr p p' /\
    invoke_loop opts range_children poison_done msgs rest n k p =
      (seq (if graceful then invoke_all opts (drop (k + length pre) msgs) else ret)
           (cleanup opts range_children poison_done c) p', nn).
Proof.
  intros -> Hpill Hpre. revert n k p. induction pre as [|e pre IH]; intros n k p Hr.
  { exists p, [], (S n). split; [split_and!; [by rewrite app_nil_r|done..]|].
    simpl. rewrite Hpill, Nat.add_0_r. done. }
  apply Forall_cons in Hpre as [[He Hl] Hpre].
  destruct (calm_invokeMsg e p Hl Hr) as (p1 & t1 & H1 & A1). rewrite He in A1.
  destruct (IH Hpre (S n) (S k) p1) as (p2 & t2 & nn & A2 & H2); [apply A1|].
  exists p2, (t1 ++ t2), nn. split; [exact (appends_trans _ _ _ _ _ _ _ A1 A2)|].
  simpl. rewrite H1, Nat.add_succ_r. destruct (Msg e); try done. 
Qed.

Lemma calm_poison_children cs p :
  poison_children poison_done cs p = (log (TPoisonChild <$> cs) p, Returns tt).
Proof.
  revert p. induction cs as [|c cs IH]; intros p; simpl.
  - unfold ret, log. rewrite app_nil_r. by destruct p.
  - unfold seq, emit, update. rewrite Hchildren, IH. unfold log; simpl. by rewrite <-app_assoc.
Qed.

(** [cleanup]: children are poisoned, then the inbox stops, then the registry
    entry goes, then the receiver sees [Stopped], then the event is broadcast,
    then the pill's context is cancelled. *)
Lemma calm_cleanup c p :
  is_Some (receiver p) ->
  exists p' tr1 tr2, cleanup opts range_children poison_done (Some c) p = (p', Returns tt) /\
    inbox_status p' = stopped /\
    trace p' = trace p ++ tr1 ++ [TInboxStop; TRegistryRemove (pid opts)] ++
      (TReceive AStopped (sender p) :: tr2) ++ [TBroadcast (AActorStoppedEvent (pid opts)); TCancel c] /\
    received (tr1 ++ tr2) = [] /\ Forall no_teardown (tr1 ++ tr2) /\
    (children p <> ∅ -> (TPoisonChild <$> range_children (children p)) `suffix_of` tr1).
Proof.
  intros Hr.
  set (a := match parentCtx opts with Some _ => [TParentDelete (ID (pid opts))] | None => [] end).
  set (b := if 0 <? Z.of_nat (size (children p))
            then TPoisonChild <$> range_children (children p) else []).
  set (q := set_message AStopped (log [TInboxStop; TRegistryRemove (pid opts)] (set_inbox stopped (log b (log a p))))).
  destruct (calm_call _ q Hcalm_mw Hr) as (p' & tr & Hcall & Hi & Ht & Hr' & Hrec & Hnc).
  eexists (log [TBroadcast (AActorStoppedEvent (pid opts)); TCancel c] p'), (a ++ b), tr.
  split_and!.
  - assert (Ha : (match parentCtx opts with Some _ => emit (TParentDelete (ID (pid opts))) | None => ret end) p
        = (log a p, Returns tt)).
    { unfold a. destruct (parentCtx opts); [done|]. unfold ret, log. rewrite app_nil_r. by destruct p. }
    assert (Hb : (fun p => if 0 <? Z.of_nat (size (children p))
                   then poison_children poison_done (range_children (children p)) p else ret p) (log a p)
        = (log b (log a p), Returns tt)).
    { unfold b. simpl. destruct (0 <? _); [apply calm_poison_children|].
      unfold ret, log; simpl. by rewrite app_nil_r. }
    assert (Hq : seq inbox_stop (seq (emit (TRegistryRemove (pid opts))) (update (set_message AStopped)))
      (log b (log a p)) = (q, Returns tt)).
    { unfold q, seq, inbox_stop, seq, emit, update, log; simpl. by rewrite <-!app_assoc. }
    unfold cleanup, deferred. unfold seq at 1. rewrite Ha. unfold seq at 1. rewrite Hb.
    unfold q, set_message, set_inbox, log in Hcall; simpl in Hcall. rewrite <-!app_assoc in Hcall. simpl in Hcall.
    unfold seq, inbox_stop, seq, emit, update, log, set_message, set_inbox; simpl. rewrite <-!app_assoc. simpl.
    unfold call_middleware. rewrite Hcall. unfold broadcast, emit, update, log; simpl.
    by rewrite <-app_assoc.
  - done.
  - simpl. rewrite Ht. simpl. by rewrite <-!app_assoc.
  - rewrite !received_app.
    assert (received a = []) as -> by (unfold a; by destruct (parentCtx opts)).
    assert (received b = []) as ->.
    { unfold b. destruct (0 <? _); [|done]. clear. induction (range_children _); simpl; done. }
    simpl in Hrec. done.
  - rewrite !Forall_app. split_and!.
    + unfold a. destruct (parentCtx opts); by repeat constructor.
    + unfold b. destruct (0 <? _); [|done]. apply Forall_fmap. by apply Forall_true.
    + by apply Forall_cons in Hnc as [_ ?].
  - intros Hne. exists a. unfold b. destruct (Z.ltb_spec 0 (Z.of_nat (size (children p)))); [done|].
    exfalso. apply Hne, map_size_empty_inv. lia.
Qed.

(** A batch without pills. *)
Lemma calm_Invoke_users start msgs p :
  Forall user_env msgs -> is_Some (receiver p) ->
  exists p' tr, Invoke opts range_children poison_done start msgs p = (p', Returns tt) /\
    appends msgs tr p p'.
Proof.
  intros Hu Hr. unfold Invoke.
  assert (Hloop : forall rest n k p, Forall user_env rest -> is_Some (receiver p) ->
    exists p' tr nn, appends rest tr p p' /\
      invoke_loop opts range_children poison_done msgs rest n k p = ((p', Returns tt), nn)).
  { clear p Hr. induction rest as [|e rest IH]; intros n k p Hrest Hr.
    { exists p, [], n. split; [split_and!; [by rewrite app_nil_r|done..]|done]. }
    apply Forall_cons in Hrest as [[He Hl] Hrest].
    destruct (calm_invokeMsg e p Hl Hr) as (p1 & t1 & H1 & A1). rewrite He in A1.
    destruct (IH (S n) (S k) p1 Hrest) as (p2 & t2 & nn & A2 & H2); [apply A1|].
    exists p2, (t1 ++ t2), nn. split; [exact (appends_trans _ _ _ _ _ _ _ A1 A2)|].
    simpl. rewrite H1. by destruct (Msg e). }
  destruct (Hloop msgs 0%nat 0%nat p Hu Hr) as (p' & tr & nn & A & ->). by exists p', tr.
Qed.

(** A batch with a pill. *)
Lemma calm_Invoke_pill (pre post : list Envelope) (pill : Envelope) (graceful : bool) (c : Z)
    (start : M R) (p : process R) :
  Msg pill = APoisonPill graceful (Some c) ->
  Forall user_env pre ->
  Forall (fun e => is_lifecycle (Msg e) = false) post ->
  is_Some (receiver p) ->
  exists p' tr1 tr2 s,
    Invoke opts range_children poison_done start (pre ++ pill :: post) p = (p', Returns tt) /\
    inbox_status p' = stopped /\
    trace p' = trace p ++ tr1 ++ [TInboxStop; TRegistryRemove (pid opts); TReceive AStopped s] ++ tr2 ++
      [TBroadcast (AActorStoppedEvent (pid opts)); TCancel c] /\
    received tr1 = pre ++ (if graceful then List.filter is_user post else []) /\
    received tr2 = [] /\ Forall no_teardown (tr1 ++ tr2).
Proof.
  intros Hpill Hpre Hpost Halive.
  destruct (calm_invoke_loop (pre ++ pill :: post) _ 0 0 p
    pre pill post graceful (Some c) eq_refl Hpill Hpre Halive) as (p1 & t1 & nn & A1 & Hloop).
  assert (Hg : exists p2 t2, (if graceful then invoke_all opts (drop (0 + length pre) (pre ++ pill :: post)) else ret) p1
      = (p2, Returns tt) /\ appends (if graceful then List.filter is_user post else []) t2 p1 p2).
  { destruct graceful.
    - simpl. rewrite drop_app_length.
      destruct (calm_invoke_all (pill :: post) p1) as (p2 & t2 & H2 & A2).
      + apply Forall_cons. split; [by rewrite Hpill|done].
      + apply A1.
      + exists p2, t2. split; [done|]. simpl in A2. unfold is_user at 1 in A2. by rewrite Hpill in A2.
    - exists p1, []. split; [done|]. split_and!; [by rewrite app_nil_r|apply A1|done..]. }
  destruct Hg as (p2 & t2 & H2 & A2).
  pose proof (appends_trans _ _ _ _ _ _ _ A1 A2) as (Ht & Hr & Hrec & Hnc).
  destruct (calm_cleanup c p2 Hr)
    as (p3 & ta & tb & H3 & Hi & Ht3 & Hr3 & Hn3 & _).
  exists p3, (t1 ++ t2 ++ ta), tb, (sender p2). rewrite received_app in Hr3.
  apply app_eq_nil in Hr3 as [Hra Hrb]. split_and!; [| done | | |done|].
  - unfold Invoke. rewrite Hloop. unfold seq. by rewrite H2, H3.
  - rewrite Ht3, Ht. by rewrite <-!app_assoc.
  - rewrite app_assoc, received_app, Hrec, Hra. by rewrite app_nil_r.
  - rewrite !Forall_app in *. tauto.
Qed.

(** Starting a fresh process: it is produced, initialized, started, and its
    inbox is started last. *)
Lemma calm_Start f :
  (forall n, exists r, Producer opts n = inl r) ->
  exists p', Start opts range_children poison_done (S f) newProcess = (p', Returns tt) /\
    is_Some (receiver p') /\ inbox_status p' = running /\
    received (trace p') = [] /\ standing (trace p').
Proof.
  intros Hproduce. destruct (Hproduce 0) as [r Hprod].
  set (p0 := set_message AInitialized (log [TProduce] (set_produced 1 (set_receiver r newProcess)))).
  destruct (calm_call _ p0 Hcalm_mw ltac:(by exists r)) as (p1 & tr1 & H1 & Hi1 & A1).
  set (p2 := set_message AStarted (log [TBroadcast (AActorInitializedEvent (pid opts))] p1)).
  destruct (calm_call _ p2 Hcalm_mw ltac:(apply A1)) as (p3 & tr2 & H2 & Hi2 & A2).
  destruct (call_frame _ _ _ _ H1) as (Hb1 & Hs1). destruct (call_frame _ _ _ _ H2) as (Hb2 & Hs2).
  destruct A1 as (Ht1 & _ & Hr1 & F1), A2 as (Ht2 & Ha & Hr2 & F2). simpl in Ht1, Ht2, Hr1, Hr2.
  eexists (log [TInboxStart] (set_inbox running (log [TBroadcast (AActorStartedEvent (pid opts))] p3))).
  split.
  - change (Start opts range_children poison_done (S f)) with
      (seq (produce opts) (start_body opts range_children poison_done (Start opts range_children poison_done f))).
    erewrite seq_returns by (unfold produce; simpl; by rewrite Hprod).
    unfold start_body, recover. erewrite seq_returns by done.
    change (0 + 1) with 1. fold p0. rewrite (seq_returns _ _ _ _ H1).
    erewrite seq_returns by done. erewrite seq_returns by done. fold p2.
    rewrite (seq_returns _ _ _ _ H2). erewrite seq_returns by done.
    erewrite seq_returns by (simpl; rewrite Hb2; simpl; by rewrite Hb1).
    unfold inbox_start; simpl. rewrite Hs2; simpl. rewrite Hs1; simpl. done.
  - split; [done|]. split; [done|]. simpl. rewrite Ht2, Ht1; simpl.
    rewrite !received_app; simpl. apply Forall_cons in F1 as [_ F1]. apply Forall_cons in F2 as [_ F2].
    rewrite Hr1, Hr2. split; [done|]. unfold standing. repeat (rewrite Forall_app || rewrite Forall_cons).
    split_and!; try done; by apply no_teardown_standing.
Qed.
End pill_outcome.

(** ** Fuel only bounds

    More fuel never changes an outcome: where a run ends within its fuel, every
    larger fuel gives the same run. *)

Section fuel.
Context {R : Type}.
Variable opts : Opts R.
Variable range_children : gmap string PID -> list PID.
Variable poison_done : PID -> bool.
Implicit Types (m k : M R).

Definition fuel_le m m' : Prop := forall p, (m p).2 <> OutOfFuel -> m' p = m p.

Lemma fuel_le_refl m : fuel_le m m.
Proof. by intros p. Qed.

Lemma fuel_le_seq m m' k k' : fuel_le m m' -> fuel_le k k' -> fuel_le (seq m k) (seq m' k').
Proof.
  intros Hm Hk p. specialize (Hm p). unfold seq. destruct (m p) as [q [u|v| |]]; simpl in *;
    intros Hne; rewrite Hm by done; auto.
Qed.

Lemma fuel_le_recover m m' h h' :
  fuel_le m m' -> (forall v, fuel_le (h v) (h' v)) -> fuel_le (recover m h) (recover m' h').
Proof.
  intros Hm Hh p. specialize (Hm p). unfold recover. destruct (m p) as [q [u|v| |]]; simpl in *;
    intros Hne; rewrite Hm by done; try done. by apply Hh.
Qed.

Lemma fuel_le_tryRestart m m' v : fuel_le m m' ->
  fuel_le (tryRestart opts range_children poison_done m v) (tryRestart opts range_children poison_done m' v).
Proof.
  intros Hm. destruct v as [from err|e|ty d].
  { apply fuel_le_seq; [apply fuel_le_refl|done]. }
  all: intros p; unfold tryRestart, restart_counted; destruct (restarts p =? _); [done|];
    revert p; refine (_ : fuel_le (seq _ _) (seq _ _)); 
    repeat first [exact Hm|apply fuel_le_seq|apply fuel_le_refl].
Qed.

Lemma fuel_le_Invoke m m' msgs : fuel_le m m' ->
  fuel_le (Invoke opts range_children poison_done m msgs) (Invoke opts range_children poison_done m' msgs).
Proof.
  intros Hm p. unfold Invoke.
  destruct (invoke_loop opts range_children poison_done msgs msgs 0 0 p) as [[q [u|v| |]] n]; try done.
  revert q. refine (_ : fuel_le (seq _ _) (seq _ _)).
  repeat first [by apply fuel_le_tryRestart|apply fuel_le_seq|apply fuel_le_refl].
Qed.

Lemma fuel_le_start_body m m' : fuel_le m m' ->
  fuel_le (start_body opts range_children poison_done m) (start_body opts range_children poison_done m').
Proof.
  intros Hm. apply fuel_le_recover.
  - do 6 (apply fuel_le_seq; [apply fuel_le_refl|]). apply fuel_le_seq; [|apply fuel_le_refl].
    intros p. destruct (0 <? zlen (mbuffer p)); [|done].
    revert p. refine (_ : fuel_le (fun p => seq (Invoke _ _ _ _ (mbuffer p)) _ p) _).
    intros p. apply fuel_le_seq; [by apply fuel_le_Invoke|apply fuel_le_refl].
  - intros v. repeat first [by apply fuel_le_tryRestart|apply fuel_le_seq|apply fuel_le_refl].
Qed.

Lemma fuel_le_Start f f' : (f <= f')%nat ->
  fuel_le (Start opts range_children poison_done f) (Start opts range_children poison_done f').
Proof.
  intros Hle. revert f' Hle. induction f as [|f IH]; intros f' Hle; [by intros p|].
  destruct f' as [|f']; [lia|]. simpl. apply fuel_le_seq; [apply fuel_le_refl|].
  apply fuel_le_start_body, IH. lia.
Qed.
End fuel.

(** ** A concrete actor

    Its state is how often it was produced before.  It panics on "boom", and on
    "flaky" in its first life only; a panic on "dial" is an [*InternalError]. *)

Definition demo_receive : ReceiveFunc Z := fun n m s =>
  match m with
  | AUser ty _ =>
      if decide (ty = "boom"%string) then (n, [], Some (PVUser "string" []))
      else if decide (ty = "flaky"%string) then
        (n, [], if n =? 0 then Some (PVUser "string" []) else None)
      else (n, [], None)
  | _ => (n, [], None)
  end.

Definition demo_pid : PID := NewPID "local" "demo/1".

Definition demo_opts (max : Z) (mws : list (MiddlewareFunc Z)) : Opts Z :=
  mkOpts (fun n => inl n) demo_receive max mws demo_pid None.

Definition demo_children (cs : gmap string PID) : list PID := snd <$> map_to_list cs.
Definition demo_done (_ : PID) : bool := true.

(** The started actor. *)
Definition demo_started (max : Z) (mws : list (MiddlewareFunc Z)) : process Z :=
  (Start (demo_opts max mws) demo_children demo_done 1 newProcess).1.

Definition user (ty : string) : Envelope := mkEnvelope (AUser ty []) None.
Definition pill_env (graceful : bool) (c : Z) : Envelope :=
  mkEnvelope (APoisonPill graceful (Some c)) None.

Lemma demo_calm max : lifecycle_calm (Receive (demo_opts max [])).
Proof. by intros n m s Hm; destruct m. Qed.

Lemma demo_no_internal max : no_internal (Receive (demo_opts max [])).
Proof.
  intros n m s v. simpl. unfold demo_receive. destruct m; simpl; try done.
  repeat case_decide; simpl; [by intros [= <-]|destruct (n =? 0); [by intros [= <-]|done]|done].
Qed.

(** ** Correctness of processes *)

(** C9: Delivery across restarts.  Whatever the receiver does with user messages
    (including panicking on any of them), as long as it takes lifecycle messages
    without a panic, the producer makes receivers and children stop, invoking a batch hands every message
    to the receiver exactly once and in order, restarting as needed — unless the
    restart budget runs out, in which case the messages received are a prefix of
    the batch, the inbox is stopped and the registry entry removed. *)
Theorem invoke_exactly_once {R} (opts : Opts R) range_children poison_done
    (msgs : list Envelope) (fuel : nat) (p : process R)
    (Hcalm : lifecycle_calm (Receive opts))
    (Hcalm_mw : lifecycle_calm (applyMiddleware (Receive opts) (Middleware opts)))
    (Hproduce : forall n, exists r, Producer opts n = inl r)
    (Hchildren : forall c, poison_done c = true)
    (Hfuel : (length msgs < fuel)%nat)
    (Huser : Forall user_env msgs)
    (Halive : is_Some (receiver p)) :
  exists p' o tr,
    Invoke opts range_children poison_done (Start opts range_children poison_done fuel) msgs p = (p', o) /\
    trace p' = trace p ++ tr /\
    ((o = Returns tt /\ received tr = msgs) \/
     (o = Panics (PVRuntime NilDeref) /\ restarts p' = MaxRestarts opts /\
      received tr `prefix_of` msgs /\ TInboxStop ∈ tr /\ TRegistryRemove (pid opts) ∈ tr)).
Proof.
  pose proof (Invoke_post opts range_children poison_done Hcalm Hcalm_mw Hproduce Hchildren
    (length msgs) msgs fuel p ltac:(done) Hfuel Huser Halive) as (tr & Ht & _ & Ho).
  eexists _, _, tr. split; [apply surjective_pairing|]. split; [done|]. clear -Ho. tauto.
Qed.

Lemma invoke_exactly_once_witness :
  let msgs := [user "a"; user "boom"; user "b"; user "flaky"; user "c"] in
  exists p' o tr,
    Invoke (demo_opts 3 []) demo_children demo_done
      (Start (demo_opts 3 []) demo_children demo_done 9) msgs (demo_started 3 []) = (p', o) /\
    trace p' = trace (demo_started 3 []) ++ tr /\
    ((o = Returns tt /\ received tr = msgs) \/
     (o = Panics (PVRuntime NilDeref) /\ restarts p' = 3 /\
      received tr `prefix_of` msgs /\ TInboxStop ∈ tr /\ TRegistryRemove demo_pid ∈ tr)).
Proof.
  apply (invoke_exactly_once (demo_opts 3 []) demo_children demo_done).
  - apply demo_calm.
  - apply demo_calm.
  - intros n. by exists n.
  - done.
  - simpl; lia.
  - repeat constructor.
  - by eexists.
Defined.

(** C32: Restarts terminate.  If user code never panics with an [*InternalError],
    then invoking any batch finishes within as many nested restarts as the budget
    has left: it returns, panics, or waits for a child that does not stop.  The
    counter is compared for equality and wraps around, so what is left is the
    difference to [MaxRestarts] modulo 2^32 (a negative [MaxRestarts] allows more
    than two billion restarts), and it only goes down. *)
Theorem restarts_bounded {R} (opts : Opts R) range_children poison_done
    (msgs : list Envelope) (fuel : nat) (p : process R)
    (Hrcv : no_internal (Receive opts))
    (Hmw : no_internal (applyMiddleware (Receive opts) (Middleware opts)))
    (Hprod : forall n v, Producer opts n = inr v -> internal v = false)
    (Hmax : - two31 <= MaxRestarts opts < two31)
    (Hrestarts : - two31 <= restarts p < two31)
    (Hfuel : restarts_left opts p <= Z.of_nat fuel) :
  exists p' o,
    Invoke opts range_children poison_done (Start opts range_children poison_done fuel) msgs p = (p', o) /\
    o <> OutOfFuel /\ (- two31 <= restarts p' < two31) /\ restarts_left opts p' <= restarts_left opts p.
Proof.
  destruct (budget_Invoke opts range_children poison_done Hrcv Hmw Hprod Hmax (restarts_left opts p) fuel msgs p)
    as [(H1 & _ & H2) H3]; [unfold budget; split_and!; [apply Hrestarts..|lia|lia]|].
  eexists _, _. split; [apply surjective_pairing|]. split; [by intros Ho; rewrite Ho in H3|done].
Qed.

Lemma restarts_bounded_witness :
  exists p' o,
    Invoke (demo_opts 3 []) demo_children demo_done (Start (demo_opts 3 []) demo_children demo_done 3)
      [user "boom"; user "boom"; user "boom"; user "boom"; user "boom"] (demo_started 3 []) = (p', o) /\
    o <> OutOfFuel /\ (- two31 <= restarts p' < two31) /\
    restarts_left (demo_opts 3 []) p' <= restarts_left (demo_opts 3 []) (demo_started 3 []).
Proof.
  apply (restarts_bounded (demo_opts 3 []) demo_children demo_done);
    [apply demo_no_internal|apply demo_no_internal|done|by split|by split|].
  vm_compute. discriminate.
Defined.

(** An exhausted budget crashes the program.  When a handler panics and the
    budget is spent, [tryRestart] calls [cleanup(nil)], whose deferred
    [cancel()] is a call of a nil function: the actor is taken down, the rest of
    the batch is never received, and the nil-dereference panic leaves [Invoke]
    (on the goroutine of the inbox, where nothing recovers it). *)
Theorem exhausted_budget_crashes {R} (opts : Opts R) range_children poison_done
    (e : Envelope) (post : list Envelope) (fuel : nat) (p : process R) (r : R) (v : pvalue)
    (Hcalm : lifecycle_calm (Receive opts))
    (Hcalm_mw : lifecycle_calm (applyMiddleware (Receive opts) (Middleware opts)))
    (Hchildren : forall c, poison_done c = true)
    (Hnomw : Middleware opts = [])
    (Huser : user_env e)
    (Hreceiver : receiver p = Some r)
    (Hpanic : (Receive opts r (Msg e) (Sender e)).2 = Some v)
    (Hv : internal v = false)
    (Hspent : restarts p = MaxRestarts opts) :
  exists p' tr,
    Invoke opts range_children poison_done (Start opts range_children poison_done fuel) (e :: post) p
      = (p', Panics (PVRuntime NilDeref)) /\
    trace p' = trace p ++ tr /\ received tr = [e] /\
    TInboxStop ∈ tr /\ TRegistryRemove (pid opts) ∈ tr.
Proof.
  set (p0 := set_sender (Sender e) (set_message (Msg e) p)).
  destruct (call_spec (Receive opts) p0 r Hreceiver)
    as (r' & es & v' & p1 & Hrcv & Hcall & (_ & _ & Hrs & _ & _) & Hr1 & Ht1).
  simpl in Hrcv. rewrite Hrcv in Hpanic. simpl in Hpanic. subst v'.
  assert (Hmsg : invokeMsg opts e p = (p1, Panics v)).
  { unfold invokeMsg, seq, update. destruct Huser as [-> _]. rewrite Hnomw. exact Hcall. }
  assert (Hloop : invoke_loop opts range_children poison_done (e :: post) (e :: post) 0 0 p = ((p1, Panics v), 1%nat)).
  { destruct Huser as [Hp _]. simpl. rewrite Hmsg. by destruct (Msg e). }
  enough (Hw : wp (Invoke opts range_children poison_done (Start opts range_children poison_done fuel) (e :: post))
    (fun p' o => o = Panics (PVRuntime NilDeref) /\ exists tr, trace p' = trace p ++ tr /\
       received tr = [e] /\ TInboxStop ∈ tr /\ TRegistryRemove (pid opts) ∈ tr) p).
  { destruct Hw as [Ho (tr & H)]. eexists _, tr. rewrite <-Ho. split; [apply surjective_pairing|exact H]. }
  unfold wp, Invoke. rewrite Hloop.
  apply wp_seq, wp_update, wp_seq. apply wp_call_lifecycle; [done|by exists r'|done|].
  intros p2 tr2 [(Ht2 & Ha2 & Hrs2 & _) _] Hr2. apply wp_seq, wp_update.
  apply (wp_exhausted opts range_children poison_done Hcalm Hcalm_mw Hchildren); [exact Hv|exact Ha2|simpl in *; congruence|].
  intros p' (tr & Ht & _ & [[? _]|(_ & _ & Hpre & Hi & Hreg)]); [done|]. split; [done|].
  simpl in Ht, Ht1, Ht2. exists ((TReceive (Msg e) (Sender e) :: (TEffect <$> es)) ++ tr2 ++ tr).
  split_and!; [by rewrite Ht, Ht2, Ht1, <-!app_assoc| |set_solver|set_solver].
  apply prefix_nil_inv in Hpre. rewrite !received_app, Hr2, Hpre, !app_nil_r. simpl.
  destruct Huser as [_ ->]. rewrite received_effects. simpl. by destruct e.
Qed.

Lemma exhausted_budget_crashes_witness :
  exists p' tr,
    Invoke (demo_opts 0 []) demo_children demo_done (Start (demo_opts 0 []) demo_children demo_done 5)
      [user "boom"; user "b"] (demo_started 0 []) = (p', Panics (PVRuntime NilDeref)) /\
    trace p' = trace (demo_started 0 []) ++ tr /\ received tr = [user "boom"] /\
    TInboxStop ∈ tr /\ TRegistryRemove demo_pid ∈ tr.
Proof.
  apply (exhausted_budget_crashes (demo_opts 0 []) demo_children demo_done
    (user "boom") [user "b"] 5 (demo_started 0 []) 0 (PVUser "string" [])); try done;
    apply demo_calm.
Defined.

(** A whole life: the process starts and is then invoked on a list of batches. *)
Definition life {R} (opts : Opts R) rc pd (fuel : nat) (batches : list (list Envelope)) : M R :=
  seq (Start opts rc pd fuel) (invoke_batches opts rc pd fuel batches).

(** Persistent failure crashes the program.  Let user code panic on some
    messages, the bombs, in every [good] state (and never with an
    [*InternalError]), let producers make good receivers and every other message,
    lifecycle messages included, keep them good.  If the batches a process is
    invoked on hold more bombs than it has restarts left, invoking them never
    returns: each bomb costs a restart, the counter is never set back however
    many messages were handled in between, and in the end a panic leaves [Invoke]
    on the inbox's goroutine, which ends the program (unless the process waits for
    ever for a child that does not stop). *)
Theorem failing_messages_crash {R} (opts : Opts R) range_children poison_done
    (good : R -> Prop) (bomb : Envelope -> bool) (batches : list (list Envelope)) (fuel : nat) (p : process R)
    (Hrcv : no_internal (Receive opts))
    (Hmw : no_internal (applyMiddleware (Receive opts) (Middleware opts)))
    (Hprod : forall n v, Producer opts n = inr v -> internal v = false)
    (Hmax : - two31 <= MaxRestarts opts < two31)
    (Hgood : forall n r, Producer opts n = inl r -> good r)
    (Hkeep : forall f, handlers opts f -> forall r m s, good r -> is_lifecycle m = true -> good (f r m s).1.1)
    (Hrestarts : - two31 <= restarts p < two31)
    (Hfit : fit good p)
    (Hmsgs : Forall (Forall (volatile opts good bomb)) batches)
    (Hmany : restarts_left opts p < bombs bomb (concat batches))
    (Hfuel : restarts_left opts p <= Z.of_nat fuel) :
  exists p' o, invoke_batches opts range_children poison_done fuel batches p = (p', o) /\
    ((exists v, o = Panics v /\ internal v = false) \/ (o = Blocks /\ exists c, poison_done c = false)).
Proof.
  eapply doomed_batches; eauto.
Qed.

Lemma failing_messages_crash_witness :
  let batches := [[user "boom"; user "a"]; [user "boom"; user "b"; user "boom"]; [user "c"]; [user "boom"]] in
  exists p' o,
    invoke_batches (demo_opts 3 []) demo_children demo_done 3 batches (demo_started 3 []) = (p', o) /\
    ((exists v, o = Panics v /\ internal v = false) \/ (o = Blocks /\ exists c, demo_done c = false)).
Proof.
  apply (failing_messages_crash (demo_opts 3 []) demo_children demo_done (fun _ => True)
    (fun e => match Msg e with AUser ty _ => bool_decide (ty = "boom"%string) | _ => false end)).
  - apply demo_no_internal.
  - apply demo_no_internal.
  - done.
  - by split.
  - done.
  - done.
  - by split.
  - done.
  - repeat constructor; intros f [->| ->] r _; simpl; try done; by eexists.
  - vm_compute. reflexivity.
  - vm_compute. discriminate.
Defined.


Lemma demo_never_panics : never_panics (fun (n : Z) m (s : option PID) => (n, [], None)).
Proof. done. Qed.

Definition calm_opts : Opts Z :=
  mkOpts (fun n => inl n) (fun n m s => (n, [], None)) 3 [] demo_pid (Some (NewPID "local" "parent/1")).


(** Poison pills are private to the engine: in the whole life of a process,
    whatever batches it is invoked on, whatever its user code does and wherever
    it panics, no receive function is ever called with a poison pill. *)
Theorem pills_are_private {R} (opts : Opts R) range_children poison_done (fuel : nat)
    (batches : list (list Envelope)) (graceful : bool) (cancel : cancel_func) (s : option PID) :
  ~ TReceive (APoisonPill graceful cancel) s
      ∈ trace (life opts range_children poison_done fuel batches newProcess).1.
Proof.
  assert (Hs : safe pill_inv (fun _ => True) (life opts range_children poison_done fuel batches)).
  { destruct (pill_safe opts range_children poison_done fuel []) as [Hst _].
    apply safe_seq; [done|]. induction batches as [|b bs IH]; simpl; [by intros p HI|].
    apply safe_seq; [by apply pill_safe|done]. }
  destruct (Hs newProcess) as [[HI _] _]; [by split|].
  intros Hin. rewrite Forall_forall in HI. by specialize (HI _ Hin).
Qed.

(** A panic while a graceful pill drains the mailbox defeats the pill: here
    the message that panics, and the one handled before it, come after the pill;
    the actor restarts, receives both of them, and stays alive: it never stops,
    its registry entry stays, and the context returned by [Poison] is never done. *)
Theorem graceful_pill_lost :
  let r := Invoke (demo_opts 3 []) demo_children demo_done (Start (demo_opts 3 []) demo_children demo_done 5)
    [user "a"; pill_env true 7; user "b"; user "flaky"] (demo_started 3 []) in
  r.2 = Returns tt /\ inbox_status r.1 = running /\
  received (trace r.1) = [user "a"; user "b"; user "flaky"; user "b"; user "flaky"] /\
  Forall (fun e => match e with TInboxStop | TRegistryRemove _ | TCancel _ => False | _ => True end) (trace r.1).
Proof.
  split; [vm_compute; reflexivity|]. split; [vm_compute; reflexivity|].
  split; [vm_compute; reflexivity|]. vm_compute. repeat constructor.
Qed.

(** A middleware that panics when it sees [Stopped]. *)
Definition stop_panics : MiddlewareFunc Z := fun next n m s =>
  match m with AStopped => (n, [], Some (PVUser "string" [])) | _ => next n m s end.

(** A panic in the [Stopped] handler resurrects the actor: after its pill
    stopped the inbox, removed the registry entry and cancelled the context, the
    panic is recovered by [Invoke], which starts the process again with a running
    inbox and no registry entry. *)
Theorem stopped_handler_panic_resurrects :
  let r := Invoke (demo_opts 3 [stop_panics]) demo_children demo_done
    (Start (demo_opts 3 [stop_panics]) demo_children demo_done 5)
    [pill_env false 7] (demo_started 3 [stop_panics]) in
  r.2 = Returns tt /\ inbox_status r.1 = running /\ restarts r.1 = 1 /\
  trace r.1 = trace (demo_started 3 [stop_panics]) ++
    [TInboxStop; TRegistryRemove demo_pid; TReceive AStopped None; TCancel 7;
     TReceive AStopped None;
     TBroadcast (AActorRestartedEvent demo_pid (PVUser "string" []) 1); TSleep;
     TProduce; TReceive AInitialized None; TBroadcast (AActorInitializedEvent demo_pid);
     TReceive AStarted None; TBroadcast (AActorStartedEvent demo_pid); TInboxStart].
Proof. split; [|split; [|split]]; vm_compute; reflexivity. Qed.
