(* ===== verification/Trace.v ===== *)
(** * Stack traces ([actor/process.go], [cleanTrace])

    The trace of a restart event without the frames of the recovery itself.  The
    parser of the gostackparse library is a parameter. *)

From S2P Require Import Prelude Net.

(** What the parser returns for a goroutine. *)
Record frame := mkFrame { Func : string; File : string; Line : Z }.
Record goroutine := mkGoroutine { gID : Z; State : string; Stack : list frame }.

Definition newline : string := String (Ascii.ascii_of_N 10) EmptyString.
Definition tab : string := String (Ascii.ascii_of_N 9) EmptyString.

Definition print_frame (f : frame) : string := Func f +:+ newline +:+ tab +:+ File f +:+ ":" +:+ Itoa (Line f) +:+ newline.
Definition print_trace (g : goroutine) : string :=
  foldl (fun buf f => buf +:+ print_frame f) ("goroutine " +:+ Itoa (gID g) +:+ " [" +:+ State g +:+ "]" +:+ newline) (Stack g).

Definition cleanTrace (Parse : string -> option (list goroutine)) (stack : string) : result string :=
  match Parse stack with
  | None => Ok stack
  | Some [g] => frames ← slice_from (Stack g) 4; Ok (print_trace (mkGoroutine (gID g) (State g) frames))
  | Some _ => Ok stack
  end.

(** A trace that does not parse, or not to one goroutine, stays as it is; else it
    loses the first four frames ([debug.Stack], [tryRestart], the deferred function
    and [panic] itself).  A goroutine with fewer frames would make the clean-up
    panic; no call of the runtime makes such a trace. *)
Theorem clean_trace (Parse : string -> option (list goroutine)) (stack : string) :
  match Parse stack with
  | Some [g] =>
      match Stack g with
      | _ :: _ :: _ :: _ :: frames => cleanTrace Parse stack = Ok (print_trace (mkGoroutine (gID g) (State g) frames))
      | _ => cleanTrace Parse stack = Panic IndexOutOfRange
      end
  | _ => cleanTrace Parse stack = Ok stack
  end.
Proof.
  unfold cleanTrace. destruct (Parse stack) as [[|[i st fs] [|g' gs]]|]; try done. cbn [Stack gID State].
  destruct fs as [|f1 [|f2 [|f3 [|f4 fs]]]]; try done. unfold slice_from, zlen. cbn [length].
  destruct (Z.ltb_spec (Z.of_nat (S (S (S (S (length fs)))))) 4); [lia|done].
Qed.
