(* ===== verification/Actor.v ===== *)
(** * A whole actor: its inbox and its process together

    [Inbox] verifies the mailbox whatever its batches are handed to, [Process]
    verifies what one batch does to the receiver.  Here the two run together, as
    [SpawnProc] sets them up ([actor/registry.go], [actor/process.go],
    [actor/inbox.go]): the spawning goroutine runs [process.Start], which starts
    the inbox last; any number of goroutines send, before, during and after that;
    and the goroutine the inbox schedules calls [process.Invoke] on the batches it
    pops.

    An [Invoke] is one step here.  While it runs, the goroutine that runs it is
    the only one inside the run loop, it touches no memory of the inbox but
    [procStatus], and the messages sent meanwhile are pushed before or after it;
    what user code sends (to its own actor too) is a send of the environment.

    The first group of theorems is about actors whose handlers may panic on any
    user message, the second about taking an actor down with poison pills. *)

From S2P Require Import Prelude Deque RingBuffer Inbox Pid Messages Process.

(** The spawning goroutine is still in [process.Start]; it returned; a panic
    nothing recovers ended the program. *)
Inductive stage_t := Spawning | Live | Crashed.

#[export] Instance stage_eq_dec : EqDecision stage_t.
Proof. solve_decision. Defined.

(** What the code run by a process did to its inbox: [Stop] stores [stopped], a
    [Start] that finds it so goes through [starting] and [idle] and schedules a
    goroutine of its own. *)
Definition replay_inbox {T} (es : list event) (s : status) : status * list (pc T) :=
  foldl (fun '(s, ts) e =>
    match e with
    | TInboxStop => (stopped, ts)
    | TInboxStart => (running, ts ++ [CLoad 0])
    | _ => (s, ts)
    end) (s, []) es.

Lemma replay_inbox_app {T} es1 es2 s :
  Forall not_inbox es1 -> replay_inbox (T:=T) (es1 ++ es2) s = replay_inbox es2 s.
Proof.
  intros Hq. unfold replay_inbox. rewrite foldl_app. f_equal.
  induction Hq as [|e es He _ IH]; simpl; [done|]. by destruct e.
Qed.

Lemma replay_inbox_quiet {T} es s :
  Forall not_inbox es -> replay_inbox (T:=T) es s = (s, []).
Proof. intros Hq. rewrite <-(app_nil_r es). by rewrite replay_inbox_app. Qed.

Section actor.
Context {R Q : Type} `{MQ : MailboxQueue Envelope Q}.
Variable throughput : Z.
Variable opts : Opts R.
Variable range_children : gmap string PID -> list PID.
Variable poison_done : PID -> bool.

#[local] Abbreviation Start := (Start opts range_children poison_done).
#[local] Abbreviation Invoke := (Invoke opts range_children poison_done).
#[local] Abbreviation thread_step := (thread_step throughput).
#[local] Abbreviation tstep := (tstep throughput).

Record actor := mkActor {
  box : config Envelope Q;
  proc : process R;
  stage : stage_t;
}.

(** [newProcess], on the queue [NewInbox] allocates. *)
Definition new_actor (q : Q) : actor := mkActor (initial q) newProcess Spawning.

(** The events a piece of code appended to the trace. *)
Definition new_events (p p' : process R) : list event := drop (length (trace p)) (trace p').

Definition not_invoke (t : pc Envelope) : bool :=
  match t with CInvoke _ _ => false | _ => true end.

(** One step of the goroutines inside the actor. *)
Inductive istep : actor -> actor -> Prop :=
  | i_start fuel ts sh p p' :
      Start fuel p = (p', Returns tt) ->
      istep (mkActor (mkConfig ts sh) p Spawning)
            (mkActor (mkConfig (CStart :: ts) sh) p' Live)
  | i_start_crash fuel b p p' v :
      Start fuel p = (p', Panics v) ->
      istep (mkActor b p Spawning) (mkActor b p' Crashed)
  | i_inbox l1 t l2 sh sh' ts p s :
      s <> Crashed ->
      not_invoke t = true ->
      mq_room (rb (inbox sh)) ->
      thread_step t sh = Ok (sh', ts) ->
      istep (mkActor (mkConfig (l1 ++ t :: l2) sh) p s)
            (mkActor (mkConfig (l1 ++ ts ++ l2) sh') p s)
  | i_invoke fuel l1 i ms l2 sh p p' st ts :
      mq_room (rb (inbox sh)) ->
      Invoke (Start fuel) ms (set_inbox (procStatus (inbox sh)) p) = (p', Returns tt) ->
      replay_inbox (new_events p p') (procStatus (inbox sh)) = (st, ts) ->
      istep (mkActor (mkConfig (l1 ++ CInvoke i ms :: l2) sh) p Live)
            (mkActor (mkConfig (l1 ++ (CLoad i :: ts) ++ l2)
               (mkShared (set_status st (inbox sh)) (sent sh) (delivered sh ++ ms))) p' Live)
  | i_invoke_crash fuel l1 i ms l2 sh p p' v :
      Invoke (Start fuel) ms (set_inbox (procStatus (inbox sh)) p) = (p', Panics v) ->
      istep (mkActor (mkConfig (l1 ++ CInvoke i ms :: l2) sh) p Live)
            (mkActor (mkConfig (l1 ++ CInvoke i ms :: l2) sh) p' Crashed).

(** The methods of a process that call its inbox. *)
Definition process_Send (msg : any) (sender : option PID) : pc Envelope := CSend (mkEnvelope msg sender).
Definition process_SendPriority (msg : any) (sender : option PID) : pc Envelope :=
  CSendPriority (mkEnvelope msg sender).
Definition process_ClearMailbox : pc Envelope := CClear.

(** Another goroutine sends an envelope [ok] allows. *)
Inductive send_step (ok : Envelope -> Prop) : actor -> actor -> Prop :=
  | a_send msg sender ts sh p s :
      ok (mkEnvelope msg sender) -> s <> Crashed ->
      send_step ok (mkActor (mkConfig ts sh) p s) (mkActor (mkConfig (process_Send msg sender :: ts) sh) p s).

Definition astep ok (a a' : actor) : Prop := istep a a' \/ send_step ok a a'.

Definition reachable_actor ok (q : Q) (a : actor) : Prop := rtc (astep ok) (new_actor q) a.

(** What the actor was sent, and what its receive function was called with. *)
Definition mailed (a : actor) : list Envelope := sent (mem (box a)).
Definition handled (a : actor) : list Envelope := received (trace (proc a)).
End actor.

Arguments actor : clear implicits.

(** ** The invariant of an actor that is not being taken down *)

Section invariant.
Context {R Q : Type} `{MQ : MailboxQueue Envelope Q}.
Variable throughput : Z.
Variable opts : Opts R.
Variable range_children : gmap string PID -> list PID.
Variable poison_done : PID -> bool.
Variable ok : Envelope -> Prop.

#[local] Abbreviation Start := (Start opts range_children poison_done).
#[local] Abbreviation Invoke := (Invoke opts range_children poison_done).
#[local] Abbreviation thread_step := (thread_step throughput).
#[local] Abbreviation tstep := (tstep throughput).
#[local] Abbreviation istep := (istep throughput opts range_children poison_done).
Implicit Types (a : actor R Q) (t : pc Envelope) (ts : list (pc Envelope)) (sh : shared Envelope Q).

(** The only goroutines are senders of allowed envelopes, the starter and those
    they left behind. *)
Definition thread_ok t : Prop :=
  match t with CSend e => ok e | CSendPriority _ | CStop | CClear => False | _ => True end.
Definition is_start t : bool := match t with CStart => true | _ => false end.

(** The inbox is started once: it is [stopped] as long as the spawner has not
    called [inbox.Start], and nobody runs or starts meanwhile. *)
Definition booted (s : stage_t) ts sh : Prop :=
  (count is_start ts + (if decide (s = Spawning) then 1 else 0) +
   (if decide (procStatus (inbox sh) = stopped) then 0 else 1) = 1)%nat /\
  (procStatus (inbox sh) = stopped -> count is_runner ts = 0 /\ count is_starter ts = 0)%nat.

Record up a : Prop := {
  up_inv : inv (box a);
  up_fifo : fifo (box a);
  up_sent : Forall ok (mailed a);
  up_threads : Forall thread_ok (threads (box a));
  up_booted : booted (stage a) (threads (box a)) (mem (box a));
  up_handled : handled a = delivered (mem (box a));
  up_proc : match stage a with
            | Spawning => proc a = newProcess
            | Live => is_Some (receiver (proc a))
            | Crashed => False
            end;
}.

Lemma up_new q : mq_wf q -> mq_abs q = [] -> up (new_actor q).
Proof.
  intros Hwf Hq. by split; [apply initial_inv|..].
Qed.

Lemma up_send a a' : up a -> send_step ok a a' -> up a'.
Proof.
  intros U Hs. destruct Hs as [msg sd ts sh p s He Hns]. destruct U; simpl in *.
  split; simpl; [|done|done|by constructor|done|done|done].
  by apply (cstep_inv _ _ up_inv0), cstep_call.
Qed.

Ltac up_side :=
  simpl in *; split;
  [split; [|let Hx := fresh in intros Hx;
     match goal with H : _ = stopped -> _ |- _ => try specialize (H Hx) end];
   simpl in *; repeat case_decide; simplify_eq; (done || lia)
  |split; [by repeat constructor|split; [done|by left]]].

(** What one goroutine's step does to [booted] and to the sent messages. *)
Lemma thread_step_up s l1 t l2 sh sh' ps :
  thread_ok t -> not_invoke t = true -> booted s (l1 ++ t :: l2) sh ->
  thread_step t sh = Ok (sh', ps) ->
  booted s (l1 ++ ps ++ l2) sh' /\ Forall thread_ok ps /\ delivered sh' = delivered sh /\
  (sent sh' = sent sh \/ exists e, ok e /\ sent sh' = sent sh ++ [e]).
Proof.
  unfold booted. rewrite !count_app; simpl. intros Hok Hni [Hb Hs] Hst.
  destruct sh as [[q st] snt dlv]; simpl in *.
  destruct t as [m|m| |i|i|i ms| | | | | |]; simpl in *; unfold cas, on_inbox in Hst; simpl in Hst;
    try done.
  - destruct (mq_push m q); [|done]. injection Hst as <- <-; simpl.
    split; [done|]. split; [by repeat constructor|]. split; [done|]. right. by exists m.
  - destruct (decide (st = idle)) as [->|]; injection Hst as <- <-; by up_side.
  - destruct (decide (st = stopped)) as [->|]; injection Hst as <- <-; by up_side.
  - destruct (mq_popn messageBatchSize q) as [[[ms k] q']|]; [|done]. simpl in Hst.
    destruct (k && _) in Hst; injection Hst as <- <-; by up_side.
  - destruct (decide (st = running)) as [->|]; injection Hst as <- <-; by up_side.
  - destruct (0 <? mq_len q); injection Hst as <- <-; by up_side.
  - destruct (decide (st = stopped)) as [->|]; injection Hst as <- <-; by up_side.
  - assert (st <> stopped) by (intros Hx; destruct (Hs Hx); lia).
    injection Hst as <- <-; by up_side.
Qed.

(** An actor that is up steps inside its inbox the way [Inbox] describes, and
    its [Start] is a quiet one. *)
Lemma up_plain s l1 t l2 sh :
  thread_ok t -> booted s (l1 ++ t :: l2) sh -> plain t (mkConfig (l1 ++ t :: l2) sh).
Proof.
  intros Hok [_ Hs]. split; [|by destruct t]. intros _ Hst. by apply Hs.
Qed.

Lemma up_inbox l1 t l2 sh sh' ps p s :
  up (mkActor (mkConfig (l1 ++ t :: l2) sh) p s) -> not_invoke t = true ->
  mq_room (rb (inbox sh)) -> thread_step t sh = Ok (sh', ps) ->
  up (mkActor (mkConfig (l1 ++ ps ++ l2) sh') p s).
Proof.
  intros [Hinv Hf Hsent Hts Hb Hh Hp] Hni Hroom Hst. unfold mailed, handled in *; simpl in *.
  apply Forall_app in Hts as [H1 H2]. apply Forall_cons in H2 as [Ht H2].
  assert (Hstep : tstep plain (mkConfig (l1 ++ t :: l2) sh) (mkConfig (l1 ++ ps ++ l2) sh')).
  { constructor; [by eapply up_plain|done..]. }
  destruct (thread_step_up s l1 t l2 sh sh' ps Ht Hni Hb Hst) as (Hb' & Hps & Hd & Hsn).
  split; simpl; unfold mailed, handled; simpl.
  - eapply tstep_inv; [exact Hinv|]. by apply plain_quiet.
  - by eapply tstep_fifo.
  - destruct Hsn as [->|(e & He & ->)]; [done|]. apply Forall_app. split; [done|by repeat constructor].
  - by rewrite !Forall_app.
  - done.
  - congruence.
  - done.
Qed.

Lemma up_start ts sh p p' tr :
  up (mkActor (mkConfig ts sh) p Spawning) ->
  trace p' = trace p ++ tr -> received tr = [] -> is_Some (receiver p') ->
  up (mkActor (mkConfig (CStart :: ts) sh) p' Live).
Proof.
  intros [Hinv Hf Hsent Hts Hb Hh Hp] Ht Hr Ha. unfold mailed, handled in *; simpl in *.
  split; simpl; unfold mailed, handled; simpl.
  - by apply (cstep_inv _ _ Hinv), cstep_call.
  - by apply (cstep_fifo _ _ Hf), cstep_call.
  - done.
  - by constructor.
  - destruct Hb as [Hb Hs]. split; [|done]. simpl in *. lia.
  - by rewrite Ht, received_app, Hr, app_nil_r.
  - done.
Qed.

(** A batch being invoked: the inbox is running, and its messages are allowed. *)
Lemma up_invoking l1 i ms l2 sh p s :
  up (mkActor (mkConfig (l1 ++ CInvoke i ms :: l2) sh) p s) ->
  procStatus (inbox sh) = running /\ Forall ok ms /\ inflight l1 = [] /\ inflight l2 = [] /\
  sent sh = delivered sh ++ ms ++ mq_abs (rb (inbox sh)).
Proof.
  intros [(_ & Hctl & _) Hf Hsent Hts Hb Hh Hp]. unfold mailed, fifo, queue, stat in *; simpl in *.
  destruct Hb as [_ Hs]. unfold runners, starters in Hctl; simpl in Hctl.
  rewrite !count_app in *; simpl in *.
  assert (Hrun : procStatus (inbox sh) = running).
  { destruct (procStatus (inbox sh)); simpl in *; try done; [|lia..]. destruct (Hs eq_refl); lia. }
  rewrite Hrun in Hctl; simpl in Hctl.
  assert (H1 : inflight l1 = []) by (apply inflight_no_runner; lia).
  assert (H2 : inflight l2 = []) by (apply inflight_no_runner; lia).
  rewrite inflight_app in Hf; simpl in Hf. rewrite H1, H2, app_nil_r in Hf. simpl in Hf.
  split_and!; [done| |done..]. rewrite Hf, !Forall_app in Hsent. tauto.
Qed.

Lemma up_invoke l1 i ms l2 sh p p' st ts tr :
  up (mkActor (mkConfig (l1 ++ CInvoke i ms :: l2) sh) p Live) ->
  trace p' = trace p ++ tr -> received tr = ms -> is_Some (receiver p') -> Forall not_inbox tr ->
  replay_inbox (new_events p p') (procStatus (inbox sh)) = (st, ts) ->
  ts = [] /\ st = running /\
  up (mkActor (mkConfig (l1 ++ (CLoad i :: ts) ++ l2)
        (mkShared (set_status st (inbox sh)) (sent sh) (delivered sh ++ ms))) p' Live).
Proof.
  intros U Ht Hr Ha Hq Hre.
  destruct (up_invoking _ _ _ _ _ _ _ U) as (Hrun & _ & H1 & H2 & Hsd).
  destruct U as [Hinv Hf Hsent Hts Hb Hh Hp]. unfold mailed, handled in *; simpl in *.
  unfold new_events in Hre. rewrite Ht, drop_app_length, replay_inbox_quiet in Hre by done.
  injection Hre as <- <-. split; [done|]. split; [done|]. rewrite !Forall_app, Forall_cons in Hts.
  split; simpl; unfold mailed, handled; simpl.
  - destruct Hinv as (Hwf & Hctl & Hw).
    unfold inv, core, runners, starters in *; simpl in *.
    rewrite !count_app in *; simpl in *. rewrite Hrun in *. split; [done|]. by split.
  - unfold fifo, queue in *; simpl in *. rewrite !inflight_app; simpl.
    by rewrite H1, H2, Hsd, <-app_assoc.
  - done.
  - rewrite Forall_app, Forall_cons. tauto.
  - destruct Hb as [Hb Hs]. unfold booted in *; simpl in *. rewrite !count_app in *; simpl in *. done.
  - by rewrite Ht, received_app, Hr, Hh.
  - done.
Qed.

Lemma thread_step_delivered t (sh sh' : shared Envelope Q) ps :
  not_invoke t = true -> thread_step t sh = Ok (sh', ps) ->
  delivered sh' = delivered sh /\ sent sh `prefix_of` sent sh'.
Proof.
  intros Hni Hst. destruct sh as [[q s0] snt dlv].
  destruct t as [m|m| |i|i|i ms| | | | | |]; simpl in *; unfold cas, on_inbox in Hst; simpl in Hst; try done;
    repeat case_decide; simplify_eq/=; try done.
  - destruct (mq_push m q); simplify_eq/=. split; [done|by apply prefix_app_r].
  - destruct (mq_push_front m q); simplify_eq/=. split; [done|by apply prefix_app_r].
  - destruct (mq_popn messageBatchSize q) as [[[ms k] q']|]; by simplify_eq/=.
Qed.

Lemma istep_mailed a a' : istep a a' -> mailed a `prefix_of` mailed a'.
Proof.
  destruct 1 as [| |l1 t l2 sh sh' ts p s Hns Hni Hroom Hst| |]; unfold mailed; simpl; try done.
  by eapply thread_step_delivered.
Qed.

(** The code that starts or invokes a process always ends. *)
Definition ends (m : nat -> M R) (p : process R) : Prop :=
  exists fuel p' o, m fuel p = (p', o) /\ (o = Returns tt \/ exists v, o = Panics v).

(** Some goroutine can go on unless all have left a started inbox. *)
Lemma up_progress a :
  ends Start newProcess ->
  (forall ms p, Forall ok ms -> is_Some (receiver p) -> ends (fun fuel => Invoke (Start fuel) ms) p) ->
  up a -> mq_room (rb (inbox (mem (box a)))) ->
  (exists a', istep a a') \/ stage a = Live /\ threads (box a) = [].
Proof.
  intros Hstart Hinvoke U Hroom. pose proof U as [(Hwf & _) _ _ _ _ _ Hp].
  destruct a as [[ts sh] p s]; simpl in *. destruct s; [| |done].
  { left. subst p. destruct Hstart as (fuel & p' & o & Hst & [->|[v ->]]); eexists.
    - by eapply i_start.
    - by eapply i_start_crash. }
  destruct ts as [|t ts]; [by right|left]. destruct (not_invoke t) eqn:Hni.
  { destruct (thread_step_total throughput t sh Hwf Hroom) as (sh' & ps & Hst).
    eexists. by eapply (i_inbox throughput opts range_children poison_done []). }
  destruct t as [| | | | |i ms| | | | | |]; try done.
  destruct (up_invoking [] i ms ts sh p Live U) as (Hrun & Hms & _).
  destruct (Hinvoke ms (set_inbox (procStatus (inbox sh)) p) Hms Hp)
    as (fuel & p' & o & Hi & [->|[v ->]]).
  - destruct (replay_inbox (T:=Envelope) (new_events p p') (procStatus (inbox sh))) as [st ts'] eqn:Hre.
    eexists. by eapply (i_invoke throughput opts range_children poison_done _ []).
  - eexists. by eapply (i_invoke_crash throughput opts range_children poison_done _ []).
Qed.

(** At rest everything sent has been received. *)
Lemma up_at_rest a : up a -> threads (box a) = [] -> stage a = Live -> handled a = mailed a.
Proof.
  intros [(_ & Hctl & Hwake) Hf _ _ [Hb _] Hh _] Hts Hl. unfold fifo, mailed in *.
  unfold runners, starters in *. rewrite Hts, Hl in *; simpl in *.
  assert (Hidle : procStatus (inbox (mem (box a))) = idle).
  { destruct (procStatus (inbox (mem (box a)))); simpl in *; (done || lia). }
  assert (Hq : queue (box a) = []).
  { destruct (queue (box a)) eqn:E; [done|]. specialize (Hwake Hidle).
    unfold queue in E. rewrite E in Hwake. specialize (Hwake ltac:(done)). lia. }
  rewrite Hq, app_nil_r in Hf. by rewrite Hh.
Qed.

(** A property of actors whose internal steps are steps of the inbox, or the one
    start, or lead to where the actor terminates anyway, makes it terminate. *)
Lemma sn_by_inbox (P : actor R Q -> Prop) :
  (forall a, P a -> mq_wf (rb (inbox (mem (box a))))) ->
  (forall a a', P a -> istep a a' ->
     P a' /\ (tstep any_step (box a) (box a') /\ stage a' = stage a \/ stage a = Spawning /\ stage a' = Live) \/
     sn istep a') ->
  forall a, P a -> sn istep a.
Proof.
  intros HPwf HP.
  assert (Hlive : forall c, sn (tstep any_step) c -> forall a, box a = c -> stage a = Live -> P a -> sn istep a).
  { intros c Hsn. induction Hsn as [c _ IH]. intros a <- Hl Pa. constructor. intros a' Hs.
    destruct (HP a a' Pa Hs) as [[Pa' [[Hst Hsg]|[Hsp _]]]|Hsn']; [|congruence|done].
    apply (IH (box a')); [exact Hst|done|congruence|done]. }
  intros a Pa. pose proof (inbox_goroutines_leave throughput (box a) (HPwf a Pa)) as Hsn.
  remember (box a) as c eqn:Hc. revert a Pa Hc. induction Hsn as [c _ IH].
  intros a Pa Hc. subst c. constructor. intros a' Hs.
  destruct (HP a a' Pa Hs) as [[Pa' [[Hst Hsg]|[_ Hl]]]|Hsn']; [by apply (IH (box a'))| |done].
  eapply Hlive; [|done..]. by apply inbox_goroutines_leave, HPwf.
Qed.
End invariant.

(** ** Handlers that may panic *)

Section users.
Context {R Q : Type} `{MQ : MailboxQueue Envelope Q}.
Variable throughput : Z.
Variable opts : Opts R.
Variable range_children : gmap string PID -> list PID.
Variable poison_done : PID -> bool.
Hypothesis Hcalm : lifecycle_calm (Receive opts).
Hypothesis Hcalm_mw : lifecycle_calm (applyMiddleware (Receive opts) (Middleware opts)).
Hypothesis Hproduce : forall n, exists r, Producer opts n = inl r.
Hypothesis Hchildren : forall c, poison_done c = true.

#[local] Abbreviation Start := (Start opts range_children poison_done).
#[local] Abbreviation Invoke := (Invoke opts range_children poison_done).
#[local] Abbreviation istep := (istep throughput opts range_children poison_done).
#[local] Abbreviation tstep := (tstep throughput).
#[local] Abbreviation reachable_actor := (reachable_actor throughput opts range_children poison_done).
Implicit Types (a : actor R Q).

Lemma user_Invoke fuel ms p p' o :
  Invoke (Start fuel) ms p = (p', o) -> o <> OutOfFuel ->
  Forall user_env ms -> is_Some (receiver p) -> batch_post opts ms p p' o.
Proof using Hcalm Hcalm_mw Hproduce Hchildren.
  intros Hi Ho Hu Ha.
  set (f := (S (length ms) + fuel)%nat).
  assert (Hf : Invoke (Start f) ms p = (p', o)).
  { rewrite <-Hi. apply (fuel_le_Invoke opts range_children poison_done (Start fuel));
      [apply fuel_le_Start; lia|]. by rewrite Hi. }
  pose proof (Invoke_post opts range_children poison_done Hcalm Hcalm_mw Hproduce Hchildren
    (length ms) ms f p) as Hw. unfold wp in Hw. rewrite Hf in Hw. apply Hw; (done || lia).
Qed.

Lemma user_Start fuel p' o :
  Start fuel newProcess = (p', o) -> o <> OutOfFuel -> batch_post opts [] newProcess p' o.
Proof using Hcalm Hcalm_mw Hproduce Hchildren.
  intros Hs Ho. destruct fuel as [|f]; [injection Hs as <- <-; done|].
  pose proof (Start_post opts range_children poison_done Hcalm Hcalm_mw Hproduce Hchildren f newProcess [] eq_refl)
    as Hw. unfold wp in Hw. rewrite Hs in Hw. by apply Hw.
Qed.

(** The crash of a program whose actor spent its restart budget. *)
Definition crashed a : Prop :=
  stage a = Crashed /\ handled a `prefix_of` mailed a /\ restarts (proc a) = MaxRestarts opts /\
  TRegistryRemove (pid opts) ∈ trace (proc a).

Lemma set_inbox_trace (p p' : process R) s tr :
  trace p' = trace (set_inbox s p) ++ tr -> trace p' = trace p ++ tr.
Proof. done. Qed.

Lemma crash_of (b : config Envelope Q) (p p' : process R) rest :
  received (trace p) = delivered (mem b) -> sent (mem b) = delivered (mem b) ++ rest ->
  (exists tr, trace p' = trace p ++ tr /\ received tr `prefix_of` rest /\ TRegistryRemove (pid opts) ∈ tr) ->
  restarts p' = MaxRestarts opts ->
  crashed (mkActor b p' Crashed).
Proof.
  intros Hh Hs (tr & Ht & Hpre & Hin) Hr. split; [done|]. unfold handled, mailed; simpl.
  rewrite Ht, received_app, Hh, Hs. split_and!; [by apply prefix_app|done|set_solver].
Qed.

(** An internal step keeps the actor up, as a step of its inbox or by starting
    it, or is the crash. *)
Lemma user_istep a a' : up user_env a -> istep a a' ->
  (up user_env a' /\
   (tstep any_step (box a) (box a') /\ stage a' = stage a \/ stage a = Spawning /\ stage a' = Live)) \/
  crashed a'.
Proof using Hcalm Hcalm_mw Hproduce Hchildren.
  intros U Hs. pose proof U as [Hinv Hf Hsent Hts Hb Hh Hp].
  destruct Hs as [fuel ts sh p p' Hst|fuel b p p' v Hst|l1 t l2 sh sh' ts p s Hns Hni Hroom Hst
    |fuel l1 i ms l2 sh p p' st ts Hroom Hiv Hre|fuel l1 i ms l2 sh p p' v Hiv];
    unfold mailed, handled in *; simpl in *.
  - subst p. destruct (user_Start fuel p' _ Hst) as (tr & Ht & Ha & [(_ & Hr & _)|[? _]]); [done| |done].
    left. split; [by eapply up_start|by right].
  - subst p. destruct (user_Start fuel p' _ Hst) as (tr & Ht & Ha & [(? & _)|(_ & Hm & Hpre & _ & Hreg)]);
      [done..|]. right. destruct b as [ts sh]; simpl in *.
    apply (crash_of _ newProcess _ (inflight ts ++ mq_abs (rb (inbox sh)))); [done|done| |done].
    exists tr. split; [done|]. split; [|done]. apply prefix_nil_inv in Hpre. rewrite Hpre. apply prefix_nil.
  - left. split; [by eapply up_inbox|]. left. split; [by constructor|done].
  - destruct (up_invoking _ _ _ _ _ _ _ _ U) as (Hrun & Hms & _).
    destruct (user_Invoke _ _ _ _ _ Hiv) as (tr & Ht & Ha & [(_ & Hr & [Hq|[_ Hq]])|[? _]]);
      [done..| | |done].
    { simpl in Hq. congruence. }
    apply set_inbox_trace in Ht.
    destruct (up_invoke _ _ _ _ _ _ _ _ _ _ _ U Ht Hr Ha Hq Hre) as (-> & -> & U').
    left. split; [exact U'|]. left. split; [|done]. simpl.
    destruct sh as [[q s0] snt dlv]; simpl in *. subst s0.
    by apply (tstep_thread _ any_step l1 (CInvoke i ms) l2 _ _ [CLoad i]).
  - destruct (up_invoking _ _ _ _ _ _ _ _ U) as (Hrun & Hms & _ & _ & Hsd).
    destruct (user_Invoke _ _ _ _ _ Hiv) as (tr & Ht & Ha & [(? & _)|(_ & Hm & Hpre & _ & Hreg)]); [done..|].
    right. eapply (crash_of _ p); [exact Hh|exact Hsd| |done].
    exists tr. split; [done|]. split; [by apply prefix_app_r|done].
Qed.

Lemma crashed_stuck a a' : stage a = Crashed -> ~ astep throughput opts range_children poison_done user_env a a'.
Proof. intros Hc [Hs|Hs]; destruct Hs; simpl in Hc; congruence. Qed.

Lemma user_reachable q a :
  mq_wf q -> mq_abs q = [] -> reachable_actor user_env q a -> up user_env a \/ crashed a.
Proof using Hcalm Hcalm_mw Hproduce Hchildren.
  intros Hwf Hq Hr. pose proof (up_new (R:=R) user_env q Hwf Hq) as Hnew.
  assert (Hinit : up user_env (new_actor (R:=R) q) \/ crashed (new_actor q)) by by left.
  revert Hinit. clear Hnew.
  induction Hr as [a|a1 a2 a3 Hs _ IH]; intros [U|C]; [by left|by right|apply IH|].
  - destruct Hs as [Hs|Hs]; [|left; by eapply up_send].
    destruct (user_istep a1 a2 U Hs) as [[U' _]|C]; [by left|by right].
  - destruct C as [Hc _]. by destruct (crashed_stuck a1 a2 Hc).
Qed.

Lemma up_internal a a' : up user_env a -> rtc istep a a' -> up user_env a' \/ crashed a'.
Proof using Hcalm Hcalm_mw Hproduce Hchildren.
  intros U Hr. induction Hr as [a|a1 a2 a3 Hs Hr IH]; [by left|].
  destruct (user_istep a1 a2 U Hs) as [[U' _]|C]; [by apply IH|].
  destruct Hr as [|a2 a3 a4 Hs']; [by right|].
  destruct C as [Hc _]. destruct (crashed_stuck a2 a3 Hc). by left.
Qed.

Lemma user_ends :
  ends Start newProcess /\
  (forall ms p, Forall user_env ms -> is_Some (receiver p) -> ends (fun fuel => Invoke (Start fuel) ms) p).
Proof using Hcalm Hcalm_mw Hproduce Hchildren.
  split.
  - pose proof (Start_post opts range_children poison_done Hcalm Hcalm_mw Hproduce Hchildren 0 newProcess [] eq_refl)
      as (tr & _ & _ & Ho); [done|].
    exists 1%nat. eexists _, _. split; [apply surjective_pairing|].
    destruct Ho as [[Ho _]|[Ho _]]; rewrite Ho; eauto.
  - intros ms p Hms Hp.
    pose proof (Invoke_post opts range_children poison_done Hcalm Hcalm_mw Hproduce Hchildren
      (length ms) ms (S (length ms)) p) as (tr & _ & _ & Ho); [lia|lia|done|done|].
    exists (S (length ms)). eexists _, _. split; [apply surjective_pairing|].
    destruct Ho as [[Ho _]|[Ho _]]; rewrite Ho; eauto.
Qed.

Lemma sn_crashed a : stage a = Crashed -> sn istep a.
Proof. intros Hc. constructor. intros a' Hs. destruct (crashed_stuck a a' Hc). by left. Qed.

(** The goroutines of an actor that is up take finitely many steps. *)
Lemma user_sn a : up user_env a -> sn istep a.
Proof using Hcalm Hcalm_mw Hproduce Hchildren.
  apply sn_by_inbox; [by intros a' U; apply U|]. clear a. intros a a' U Hs.
  destruct (user_istep a a' U Hs) as [H|[C _]]; [by left|right; by apply sn_crashed].
Qed.
End users.

(** ** Taking an actor down

    Its user code does not panic; envelopes are user messages and the pills
    [Poison] and [Stop] send, each with its own context. *)

Section pills.
Context {R Q : Type} `{MQ : MailboxQueue Envelope Q}.
Variable throughput : Z.
Variable opts : Opts R.
Variable range_children : gmap string PID -> list PID.
Variable poison_done : PID -> bool.
Hypothesis Hcalm : never_panics (Receive opts).
Hypothesis Hcalm_mw : never_panics (applyMiddleware (Receive opts) (Middleware opts)).
Hypothesis Hproduce : forall n, exists r, Producer opts n = inl r.
Hypothesis Hchildren : forall c, poison_done c = true.

#[local] Abbreviation Start := (Start opts range_children poison_done).
#[local] Abbreviation Invoke := (Invoke opts range_children poison_done).
#[local] Abbreviation istep := (istep throughput opts range_children poison_done).
#[local] Abbreviation tstep := (tstep throughput).
#[local] Abbreviation reachable_actor := (reachable_actor throughput opts range_children poison_done).
Implicit Types (a : actor R Q) (e : Envelope).

Definition mailable e : Prop :=
  is_lifecycle (Msg e) = false /\
  match Msg e with APoisonPill _ None => False | _ => True end.

Lemma user_or_pill e : mailable e ->
  user_env e \/ exists g c, Msg e = APoisonPill g (Some c).
Proof.
  intros [Hl Hm]. unfold user_env. destruct (Msg e); simpl in *; try by left.
  destruct cancel; [by right; eauto|done].
Qed.

(** The first pill of a list of envelopes. *)
Lemma first_pill es : Forall mailable es ->
  Forall user_env es \/
  exists pre pill post g c, es = pre ++ pill :: post /\ Msg pill = APoisonPill g (Some c) /\
    Forall user_env pre /\ Forall (fun e => is_lifecycle (Msg e) = false) post.
Proof.
  induction 1 as [|e es He Hes IH]; [by left|]. destruct (user_or_pill e He) as [Hu|(g & c & Hp)].
  - destruct IH as [IH|(pre & pill & post & g & c & -> & Hp & Hpre & Hpost)]; [left; by constructor|].
    right. exists (e :: pre), pill, post, g, c. split_and!; [done|done|by constructor|done].
  - right. exists [], e, es, g, c. split_and!; [done|done|done|].
    eapply Forall_impl; [exact Hes|]. by intros e' [? _].
Qed.

Lemma first_pill_unique pre1 pill1 post1 pre2 pill2 post2 :
  Forall user_env pre1 -> Forall user_env pre2 ->
  is_pill (Msg pill1) = true -> is_pill (Msg pill2) = true ->
  pre1 ++ pill1 :: post1 = pre2 ++ pill2 :: post2 ->
  pre1 = pre2 /\ pill1 = pill2 /\ post1 = post2.
Proof.
  revert pre2. induction pre1 as [|e pre1 IH]; intros [|e2 pre2] H1 H2 Hp1 Hp2; simpl; intros [= -> Heq].
  - done.
  - apply Forall_cons in H2 as [[Hu _] _]. congruence.
  - apply Forall_cons in H1 as [[Hu _] _]. congruence.
  - apply Forall_cons in H1 as [_ H1]. apply Forall_cons in H2 as [_ H2].
    by destruct (IH pre2 H1 H2 Hp1 Hp2 Heq) as (-> & -> & ->).
Qed.

(** The goroutines that may still be around a stopped inbox. *)
Definition leaving (t : pc Envelope) : Prop :=
  match t with
  | CSend e => mailable e
  | CSchedule | CLoad _ | CGoIdle | CCheckLen => True
  | _ => False
  end.

(** The state of an actor taken down by the first pill it was sent. *)
Record stopped_by (pre : list Envelope) (graceful : bool) (c : Z) (batch rest : list Envelope) a : Prop := {
  sb_handled : handled a = pre ++ (if graceful then List.filter is_user batch else []);
  sb_status : stat (box a) = stopped;
  sb_registry : TRegistryRemove (pid opts) ∈ trace (proc a);
  sb_cancels : cancels (trace (proc a)) = [c];
  sb_queue : queue (box a) = rest;
}.

Definition calm_up a : Prop :=
  up mailable a /\ Forall user_env (delivered (mem (box a))) /\ standing (trace (proc a)).

Definition down a : Prop :=
  stage a = Live /\ mq_wf (rb (inbox (mem (box a)))) /\ Forall leaving (threads (box a)) /\
  exists pre pill g c batch rest,
    mailed a = pre ++ pill :: batch ++ rest /\ Msg pill = APoisonPill g (Some c) /\
    Forall user_env pre /\ stopped_by pre g c batch rest a.

(** Once down, an actor only lets goroutines leave and mail pile up. *)
Lemma down_send a a' : down a -> send_step mailable a a' -> down a'.
Proof.
  intros (Hl & Hwf & Hts & pre & pill & g & c & batch & rest & Hm & Hp & Hu & []) Hs.
  destruct Hs as [msg sd ts sh p s He _]. unfold mailed, handled, queue, stat in *; simpl in *.
  split; [done|]. split; [done|]. split; [by constructor|].
  exists pre, pill, g, c, batch, rest. by split_and!.
Qed.

Lemma down_istep a a' : down a -> istep a a' ->
  down a' /\ tstep any_step (box a) (box a') /\ proc a' = proc a.
Proof.
  intros (Hl & Hwf & Hts & pre & pill & g & c & batch & rest & Hm & Hp & Hu & []) Hs.
  destruct Hs as [fuel ts sh p p' Hst|fuel b p p' v Hst|l1 t l2 sh sh' ts p s Hns Hni Hroom Hst
    |fuel l1 i ms l2 sh p p' st ts Hroom Hiv Hre|fuel l1 i ms l2 sh p p' v Hiv];
    unfold mailed, handled, queue, stat in *; simpl in *; try done.
  2,3: by apply Forall_app in Hts as [_ [? _]%Forall_cons].
  split; [|by split; [constructor|]].
  rewrite !Forall_app, Forall_cons in Hts. destruct Hts as (H1 & Ht & H2).
  destruct sh as [[q s0] snt dlv]; simpl in *. subst s0.
  assert (Hq : mq_wf (rb (inbox sh')) /\ procStatus (inbox sh') = stopped /\ Forall leaving ts /\
    exists new, sent sh' = snt ++ new /\ mq_abs (rb (inbox sh')) = mq_abs q ++ new).
  { destruct t as [m|m| |i|i|i ms| | | | | |]; simpl in *; unfold cas, on_inbox in Hst; simpl in Hst; try done.
    - destruct (mq_push_law m q Hwf Hroom) as (q' & Hpush & Hwf' & Habs).
      rewrite Hpush in Hst. injection Hst as <- <-. simpl.
      split_and!; [done|done|by repeat constructor|by exists [m]].
    - injection Hst as <- <-; simpl. split_and!; [done..|exists []; by rewrite !app_nil_r].
    - injection Hst as <- <-; simpl. split_and!; [done|done|by repeat constructor|exists []; by rewrite !app_nil_r].
    - injection Hst as <- <-; simpl. split_and!; [done..|exists []; by rewrite !app_nil_r].
    - injection Hst as <- <-; simpl. split_and!; [done..| |exists []; by rewrite !app_nil_r].
      destruct (0 <? _); by repeat constructor. }
  destruct Hq as (Hwf' & Hst' & Hts' & new & Hsn & Hab). split; [done|]. split; [done|].
  split; [by simpl; rewrite !Forall_app|].
  exists pre, pill, g, c, batch, (rest ++ new). unfold mailed, handled, queue, stat; simpl. split_and!; try done.
  - rewrite Hsn, Hm. by rewrite <-!app_assoc; simpl; rewrite <-app_assoc.
  - split; simpl; try done. unfold queue; simpl. by rewrite Hab, <-sb_queue0.
Qed.

Lemma calm_Start_fuel fuel p o : Start fuel newProcess = (p, o) -> o <> OutOfFuel ->
  o = Returns tt /\ is_Some (receiver p) /\ received (trace p) = [] /\ standing (trace p).
Proof using Hcalm Hcalm_mw Hproduce Hchildren.
  intros Hs Ho. destruct fuel as [|f]; [by injection Hs as <- <-|].
  destruct (calm_Start opts range_children poison_done Hcalm_mw f Hproduce)
    as (p' & Hst & Ha & _ & Hr & Hc). rewrite Hs in Hst. by injection Hst as -> ->.
Qed.

(** The goroutines around a batch that is being invoked. *)
Lemma invoking_others l1 i ms l2 sh p :
  up mailable (mkActor (R:=R) (mkConfig (l1 ++ CInvoke i ms :: l2) sh) p Live) ->
  Forall leaving (l1 ++ l2).
Proof.
  intros U. destruct (up_invoking _ _ _ _ _ _ _ _ U) as (Hrun & _).
  destruct U as [(_ & Hctl & _) _ _ Hts [Hb _] _ _]. simpl in *.
  unfold runners, starters in Hctl; simpl in Hctl. rewrite Hrun in *. rewrite !count_app in *; simpl in *.
  assert (Hc : (count is_runner (l1 ++ l2) = 0 /\ count is_starter (l1 ++ l2) = 0 /\
    count is_start (l1 ++ l2) = 0)%nat) by (rewrite !count_app; lia).
  assert (Ho : Forall (thread_ok mailable) (l1 ++ l2)).
  { rewrite Forall_app, Forall_cons in Hts. apply Forall_app. tauto. }
  clear -Hc Ho. induction Ho as [|t ts Ht Ho IH]; [done|].
  destruct t; simpl in *; try done; try lia; (constructor; [done|by apply IH]).
Qed.

(** The batch with the pill takes the actor down. *)
Lemma pill_invoke l1 i pre pill post g c l2 sh p p' tr1 tr2 s st ts :
  calm_up (mkActor (mkConfig (l1 ++ CInvoke i (pre ++ pill :: post) :: l2) sh) p Live) ->
  Msg pill = APoisonPill g (Some c) -> Forall user_env pre ->
  trace p' = trace p ++ tr1 ++ [TInboxStop; TRegistryRemove (pid opts); TReceive AStopped s] ++ tr2 ++
    [TBroadcast (AActorStoppedEvent (pid opts)); TCancel c] ->
  received tr1 = pre ++ (if g then List.filter is_user post else []) -> received tr2 = [] ->
  Forall no_teardown (tr1 ++ tr2) ->
  replay_inbox (new_events p p') (procStatus (inbox sh)) = (st, ts) ->
  down (mkActor (mkConfig (l1 ++ (CLoad i :: ts) ++ l2)
    (mkShared (set_status st (inbox sh)) (sent sh) (delivered sh ++ pre ++ pill :: post))) p' Live).
Proof.
  intros (U & Hd & Hc%(standing_spec opts)) Hp Hu Ht Hr1 Hr2 [F1 F2]%Forall_app Hre.
  destruct Hc as [Hc _]. destruct (up_invoking _ _ _ _ _ _ _ _ U) as (Hrun & Hms & _ & _ & Hsd).
  pose proof (invoking_others _ _ _ _ _ _ U) as Hts. apply Forall_app in Hts as [H1 H2].
  destruct U as [(Hwf & _) _ _ _ _ Hh _]. unfold mailed, handled in *; simpl in *.
  assert (Hni : forall t, Forall no_teardown t -> Forall not_inbox t).
  { intros t Hf. eapply Forall_impl; [exact Hf|]. by intros []. }
  unfold new_events in Hre. rewrite Ht, drop_app_length, replay_inbox_app in Hre by by apply Hni.
  simpl in Hre. unfold replay_inbox in Hre. simpl in Hre.
  change (foldl _ (stopped, []) _) with (replay_inbox (T:=Envelope)
    (tr2 ++ [TBroadcast (AActorStoppedEvent (pid opts)); TCancel c]) stopped) in Hre.
  rewrite replay_inbox_app in Hre by by apply Hni. injection Hre as <- <-.
  split; [done|]. split; [done|]. split; [simpl; rewrite Forall_app, Forall_cons; by repeat split|].
  exists (delivered sh ++ pre), pill, g, c, post, (mq_abs (rb (inbox sh))).
  unfold mailed; simpl. split; [rewrite Hsd; by rewrite <-!app_assoc; simpl; rewrite <-?app_assoc|].
  split; [done|]. split; [by apply Forall_app|]. split; unfold handled; simpl.
  - rewrite Ht, !received_app, Hh, Hr1; simpl. rewrite received_app, Hr2; simpl.
    by rewrite app_nil_r, <-app_assoc.
  - done.
  - rewrite Ht. set_solver.
  - rewrite Ht, !cancels_app, Hc, (cancels_none tr1) by done; simpl.
    by rewrite cancels_app, (cancels_none tr2).
  - done.
Qed.

Lemma calm_istep a a' : calm_up a -> istep a a' ->
  (calm_up a' /\ (tstep any_step (box a) (box a') /\ stage a' = stage a \/ stage a = Spawning /\ stage a' = Live)) \/
  down a' /\ stage a = Live.
Proof using Hcalm Hcalm_mw Hproduce Hchildren.
  intros CU Hs. pose proof CU as (U & Hd & Hc). pose proof U as [Hinv Hf Hsent Hts Hb Hh Hp].
  destruct Hs as [fuel ts sh p p' Hst|fuel b p p' v Hst|l1 t l2 sh sh' ts p s Hns Hni Hroom Hst
    |fuel l1 i ms l2 sh p p' st ts Hroom Hiv Hre|fuel l1 i ms l2 sh p p' v Hiv];
    unfold mailed, handled in *; simpl in *.
  - subst p. destruct (calm_Start_fuel fuel p' _ Hst) as (_ & Ha & Hr & Hca); [done|].
    left. split; [|by right]. split; [by eapply up_start|done].
  - subst p. by destruct (calm_Start_fuel fuel p' _ Hst).
  - left. destruct (thread_step_delivered _ t sh sh' ts Hni Hst) as [Hdl _].
    split; [|left; split; [by constructor|done]]. split; [by eapply up_inbox|].
    simpl. by rewrite Hdl.
  - destruct (up_invoking _ _ _ _ _ _ _ _ U) as (Hrun & Hms & _).
    destruct (first_pill ms Hms) as [Hu|(pre & pill & post & g & c & -> & Hpill & Hpre & Hpost)].
    + destruct (calm_Invoke_users opts range_children poison_done Hcalm Hcalm_mw (Start fuel) ms
        (set_inbox (procStatus (inbox sh)) p) Hu Hp) as (p2 & tr & Hi & Ht & Ha & Hr & Hn).
      rewrite Hi in Hiv. injection Hiv as ->. simpl in Ht.
      assert (Hq : Forall not_inbox tr) by (eapply Forall_impl; [exact Hn|]; by intros []).
      destruct (up_invoke _ _ _ _ _ _ _ _ _ _ _ U Ht Hr Ha Hq Hre) as (-> & -> & U').
      left. split.
      * split; [exact U'|]. simpl. split; [by apply Forall_app|].
        rewrite Ht. apply Forall_app. by split; [|apply no_teardown_standing].
      * left. split; [|done]. destruct sh as [[q s0] snt dlv]; simpl in *. subst s0.
        by apply (tstep_thread _ any_step l1 (CInvoke i ms) l2 _ _ [CLoad i]).
    + destruct (calm_Invoke_pill opts range_children poison_done Hcalm Hcalm_mw Hchildren pre post pill g c
        (Start fuel) (set_inbox (procStatus (inbox sh)) p) Hpill Hpre Hpost Hp)
        as (p2 & tr1 & tr2 & s & Hi & _ & Ht & Hr1 & Hr2 & Hn).
      rewrite Hi in Hiv. injection Hiv as ->. right. split; [by eapply pill_invoke|done].
  - exfalso. destruct (up_invoking _ _ _ _ _ _ _ _ U) as (_ & Hms & _).
    destruct (first_pill ms Hms) as [Hu|(pre & pill & post & g & c & -> & Hpill & Hpre & Hpost)].
    + destruct (calm_Invoke_users opts range_children poison_done Hcalm Hcalm_mw (Start fuel) ms
        (set_inbox (procStatus (inbox sh)) p) Hu Hp) as (p2 & tr & Hi & _). congruence.
    + destruct (calm_Invoke_pill opts range_children poison_done Hcalm Hcalm_mw Hchildren pre post pill g c
        (Start fuel) (set_inbox (procStatus (inbox sh)) p) Hpill Hpre Hpost Hp)
        as (p2 & tr1 & tr2 & s & Hi & _). congruence.
Qed.

Lemma calm_reachable q a :
  mq_wf q -> mq_abs q = [] -> reachable_actor mailable q a -> calm_up a \/ down a.
Proof using Hcalm Hcalm_mw Hproduce Hchildren.
  intros Hwf Hq Hr.
  assert (Hinit : calm_up (new_actor (R:=R) q) \/ down (new_actor q)).
  { left. split; [by apply up_new|by split; constructor]. }
  revert Hinit. induction Hr as [a|a1 a2 a3 Hs _ IH]; intros Hinit; [done|apply IH].
  destruct Hs as [Hs|Hs], Hinit as [CU|D].
  - destruct (calm_istep a1 a2 CU Hs) as [[? _]|[? _]]; [by left|by right].
  - right. by apply (down_istep a1).
  - left. destruct CU as (U & Hd & Hc). split; [by eapply up_send|]. by destruct Hs.
  - right. by eapply down_send.
Qed.

Lemma calm_internal a a' : calm_up a \/ down a -> rtc istep a a' ->
  (calm_up a' \/ down a') /\ mailed a `prefix_of` mailed a'.
Proof using Hcalm Hcalm_mw Hproduce Hchildren.
  intros Hc Hr. induction Hr as [a|a1 a2 a3 Hs Hr IH]; [done|].
  destruct IH as [H1 H2].
  - destruct Hc as [CU|D].
    + destruct (calm_istep a1 a2 CU Hs) as [[? _]|[? _]]; [by left|by right].
    + right. by apply (down_istep a1).
  - split; [done|]. etrans; [by eapply istep_mailed|done].
Qed.

Lemma calm_ends :
  ends Start newProcess /\
  (forall ms p, Forall mailable ms -> is_Some (receiver p) -> ends (fun fuel => Invoke (Start fuel) ms) p).
Proof using Hcalm Hcalm_mw Hproduce Hchildren.
  split.
  - destruct (calm_Start opts range_children poison_done Hcalm_mw 0 Hproduce) as (p' & Hst & _).
    exists 1%nat, p', (Returns tt). eauto.
  - intros ms p Hms Hp. exists O.
    destruct (first_pill ms Hms) as [Hu|(pre & pill & post & g & c & -> & Hpill & Hpre & Hpost)].
    + destruct (calm_Invoke_users opts range_children poison_done Hcalm Hcalm_mw (Start O) ms p Hu Hp)
        as (p2 & tr & Hi & _). eauto.
    + destruct (calm_Invoke_pill opts range_children poison_done Hcalm Hcalm_mw Hchildren pre post pill g c
        (Start O) p Hpill Hpre Hpost Hp) as (p2 & tr1 & tr2 & s & Hi & _). eauto.
Qed.

Lemma calm_progress a : calm_up a \/ down a -> mq_room (rb (inbox (mem (box a)))) ->
  (exists a', istep a a') \/ stage a = Live /\ threads (box a) = [].
Proof using Hcalm Hcalm_mw Hproduce Hchildren.
  intros [(U & _)|D] Hroom; [by eapply up_progress; [apply calm_ends..| |]|].
  destruct D as (Hl & Hwf & Hts & _). destruct a as [[[|t ts] sh] p s]; simpl in *; [by right|left].
  destruct (thread_step_total throughput t sh Hwf Hroom) as (sh' & ps & Hst). subst s.
  eexists. eapply (i_inbox throughput opts range_children poison_done []); [done| |done|done].
  apply Forall_cons in Hts as [Ht _]. by destruct t.
Qed.

Lemma down_sn a : down a -> sn istep a.
Proof.
  revert a. apply sn_by_inbox; [by intros a D; apply D|]. intros a a' D Hs. left.
  destruct (down_istep a a' D Hs) as (D' & Hst & _). split; [done|]. left. split; [done|].
  destruct D as [-> _]. by destruct D' as [-> _].
Qed.

Lemma calm_sn a : calm_up a \/ down a -> sn istep a.
Proof using Hcalm Hcalm_mw Hproduce Hchildren.
  intros [CU|D]; [|by apply down_sn]. revert a CU.
  apply sn_by_inbox; [by intros a' CU; apply CU|]. intros a a' CU Hs.
  destruct (calm_istep a a' CU Hs) as [H|[D _]]; [by left|right; by apply down_sn].
Qed.
End pills.

(** ** Replaying a schedule

    An executable scheduler over the ring buffer. *)

Inductive act :=
  | ASend (e : Envelope)   (** a goroutine sends *)
  | AStart                 (** the spawner runs [process.Start] *)
  | ARun (n : nat)         (** the [n]-th goroutine steps *).

Section replay.
Context {R : Type}.
Variable throughput : Z.
Variable opts : Opts R.
Variable range_children : gmap string PID -> list PID.
Variable poison_done : PID -> bool.
Variable fuel : nat.
Variable okb : Envelope -> bool.

#[local] Existing Instance ring_queue.
#[local] Abbreviation queue := (RingBuffer Envelope).
#[local] Abbreviation no_message := (mkEnvelope ANil None).
#[local] Abbreviation Start := (Start opts range_children poison_done).
#[local] Abbreviation Invoke := (Invoke opts range_children poison_done).

(** The step of the goroutine at [t], between [l1] and [l2]. *)
Definition run_thread (l1 : list (pc Envelope)) (t : pc Envelope) (l2 : list (pc Envelope))
    (sh : shared Envelope queue) (p : process R) (s : stage_t) : option (actor R queue) :=
  if negb (mod_ (content (rb (inbox sh))) * 2 <=? max_mod) then None else
  match t with
  | CInvoke i ms =>
      match s, Invoke (Start fuel) ms (set_inbox (procStatus (inbox sh)) p) with
      | Live, (p', Returns _) =>
          let '(st, ts) := replay_inbox (new_events p p') (procStatus (inbox sh)) in
          Some (mkActor (mkConfig (l1 ++ (CLoad i :: ts) ++ l2)
            (mkShared (set_status st (inbox sh)) (sent sh) (delivered sh ++ ms))) p' Live)
      | Live, (p', Panics _) => Some (mkActor (mkConfig (l1 ++ CInvoke i ms :: l2) sh) p' Crashed)
      | _, _ => None
      end
  | _ =>
      if decide (s = Crashed) then None else
      match @thread_step Envelope queue (ring_queue no_message) throughput t sh with
      | Ok (sh', ps) => Some (mkActor (mkConfig (l1 ++ ps ++ l2) sh') p s)
      | Panic _ => None
      end
  end.

Definition exec_step (x : act) (a : actor R queue) : option (actor R queue) :=
  let ts := threads (box a) in
  let sh := mem (box a) in
  match x with
  | ASend e =>
      if decide (stage a = Crashed) then None else
      if okb e then Some (mkActor (mkConfig (CSend e :: ts) sh) (proc a) (stage a)) else None
  | AStart =>
      match stage a, Start fuel (proc a) with
      | Spawning, (p, Returns _) => Some (mkActor (mkConfig (CStart :: ts) sh) p Live)
      | Spawning, (p, Panics _) => Some (mkActor (box a) p Crashed)
      | _, _ => None
      end
  | ARun n =>
      t ← ts !! n; run_thread (take n ts) t (drop (S n) ts) sh (proc a) (stage a)
  end.

Definition exec_all (xs : list act) (a : actor R queue) : option (actor R queue) :=
  foldl (fun oa x => oa ≫= exec_step x) (Some a) xs.

#[local] Abbreviation astep := (@astep R queue (ring_queue no_message) throughput opts range_children poison_done).

Lemma run_thread_sound l1 t l2 sh p s a' :
  run_thread l1 t l2 sh p s = Some a' ->
  @istep R queue (ring_queue no_message) throughput opts range_children poison_done
    (mkActor (mkConfig (l1 ++ t :: l2) sh) p s) a'.
Proof.
  unfold run_thread. destruct (Z.leb_spec (mod_ (content (rb (inbox sh))) * 2) max_mod) as [Hroom|]; [|done].
  cbn [negb]. destruct (not_invoke t) eqn:Hni; intros Hr.
  - assert (Hr' : (if decide (s = Crashed) then None else
      match @thread_step Envelope queue (ring_queue no_message) throughput t sh with
      | Ok (sh', ps) => Some (mkActor (mkConfig (l1 ++ ps ++ l2) sh') p s)
      | Panic _ => None
      end) = Some a') by (by destruct t).
    clear Hr. case_decide; [done|]. destruct (thread_step throughput t sh) as [[sh' ps]|] eqn:Hst; simplify_eq.
    by eapply i_inbox.
  - destruct t as [| | | | |i ms| | | | | |]; try done. destruct s; [done| |done].
    destruct (Invoke (Start fuel) ms (set_inbox (procStatus (inbox sh)) p)) as [p' [u|v| |]] eqn:Hi; try done.
    + destruct u. destruct (replay_inbox _ _) as [st ts] eqn:Hre. simplify_eq. by eapply i_invoke.
    + simplify_eq. by eapply i_invoke_crash.
Qed.

Lemma exec_step_sound ok x a a' :
  (forall e, okb e = true -> ok e) -> exec_step x a = Some a' -> astep ok a a'.
Proof.
  intros Hok. destruct a as [[ts sh] p s], x as [e| |n]; simpl.
  - case_decide; [done|]. destruct (okb e) eqn:He; [|done]. intros [= <-]. right.
    destruct e as [msg sd]. constructor; auto.
  - destruct s; [|done..]. destruct (Start fuel p) as [p' [[]|v| |]] eqn:Hs; intros [= <-]; left.
    + by eapply i_start.
    + by eapply i_start_crash.
  - destruct (ts !! n) as [t|] eqn:Hn; [|done]. simpl. intros Hr. left.
    rewrite <-(take_drop_middle ts n t Hn) at 1. by apply run_thread_sound.
Qed.

Lemma exec_all_sound ok xs a a' :
  (forall e, okb e = true -> ok e) -> exec_all xs a = Some a' -> rtc (astep ok) a a'.
Proof.
  intros Hok. unfold exec_all. revert a. induction xs as [|x xs IH]; intros a; simpl.
  { intros [= <-]. reflexivity. }
  destruct (exec_step x a) as [a1|] eqn:He.
  - intros Hr. eapply rtc_l; [by eapply exec_step_sound|by apply IH].
  - intros Hr. exfalso. revert Hr. clear. induction xs as [|x xs IH]; simpl; done.
Qed.
End replay.

(** ** A concrete actor *)

Definition user_b (e : Envelope) : bool := negb (is_pill (Msg e)) && negb (is_lifecycle (Msg e)).
Lemma user_b_sound e : user_b e = true -> user_env e.
Proof. intros [H1 H2]%andb_true_iff. split; [by destruct (is_pill _)|by destruct (is_lifecycle _)]. Qed.

Definition mailable_b (e : Envelope) : bool :=
  negb (is_lifecycle (Msg e)) && match Msg e with APoisonPill _ None => false | _ => true end.
Lemma mailable_b_sound e : mailable_b e = true -> mailable e.
Proof.
  intros [H1 H2]%andb_true_iff. split; [by destruct (is_lifecycle _)|].
  destruct (Msg e); try done. by destruct cancel.
Qed.

Definition no_message : Envelope := mkEnvelope ANil None.
Definition small_queue : RingBuffer Envelope := mkRingBuffer 0 (mkBuffer (replicate 4 no_message) 0 0 4).

Lemma small_queue_wf : wf small_queue.
Proof. split; simpl; unfold zlen, max_mod; simpl; (lia || done). Qed.

(** Two messages arrive before the actor starts, one of which makes its receiver
    panic; a third is sent while they are being invoked; everybody leaves. *)
Definition sched_panic : list act :=
  [ASend (user "a"); ARun 0; ARun 0; ASend (user "flaky"); ARun 0; ARun 0; AStart; ARun 0; ARun 0; ARun 0;
   ARun 0; ARun 0; ASend (user "b"); ARun 0; ARun 0] ++ replicate 8 (ARun 0).

(** A message, a graceful pill and a message end up in one batch; another message
    comes when the actor is down. *)
Definition sched_pill : list act :=
  [AStart; ASend (user "a"); ARun 0; ARun 0; ASend (pill_env true 7); ARun 0; ARun 0;
   ASend (user "b"); ARun 0; ARun 0].
Definition sched_stopped : list act :=
  sched_pill ++ replicate 8 (ARun 0) ++ [ASend (user "c"); ARun 0; ARun 0].

Definition run_panic (xs : list act) : option (actor Z (RingBuffer Envelope)) :=
  exec_all defaultThroughput (demo_opts 3 []) demo_children demo_done 5 user_b xs (new_actor small_queue).
Definition run_pill (xs : list act) : option (actor Z (RingBuffer Envelope)) :=
  exec_all defaultThroughput calm_opts demo_children demo_done 5 mailable_b xs (new_actor small_queue).

(** ** Correctness of actors *)

(** C2: What an actor is sent, it receives: at every moment of every
    interleaving of sends of user messages, whatever its handlers do with them (panics
    and restarts included), the messages its receive function was called with, then
    those of the batch being invoked, then those queued, are the messages sent to
    it, each exactly once and in sending order, provided the producer and the
    handling of lifecycle messages do not panic and children stop; and if the restart
    budget runs out, which ends the program, the ones received are a prefix of those sent. *)
Theorem actor_receives_in_order {R Q} `{MQ : MailboxQueue Envelope Q} (throughput : Z)
    (opts : Opts R) range_children poison_done (q : Q) (a : actor R Q)
    (Hcalm : lifecycle_calm (Receive opts))
    (Hcalm_mw : lifecycle_calm (applyMiddleware (Receive opts) (Middleware opts)))
    (Hproduce : forall n, exists r, Producer opts n = inl r)
    (Hchildren : forall c, poison_done c = true)
    (Hwf : mq_wf q) (Hempty : mq_abs q = [])
    (Hreach : reachable_actor throughput opts range_children poison_done user_env q a) :
  (stage a <> Crashed /\ mailed a = received (trace (proc a)) ++ inflight (threads (box a)) ++ queue (box a)) \/
  (stage a = Crashed /\ received (trace (proc a)) `prefix_of` mailed a /\
   restarts (proc a) = MaxRestarts opts /\ TRegistryRemove (pid opts) ∈ trace (proc a)).
Proof.
  destruct (user_reachable throughput opts range_children poison_done Hcalm Hcalm_mw Hproduce Hchildren
    q a Hwf Hempty Hreach) as [U|C]; [left|right; exact C].
  destruct U as [_ Hf _ _ _ Hh Hp]. split; [by intros Hs; rewrite Hs in Hp|].
  unfold handled in Hh. rewrite Hh. exact Hf.
Qed.

Lemma actor_receives_in_order_witness :
  exists a, run_panic sched_panic = Some a /\
    ((stage a <> Crashed /\ mailed a = received (trace (proc a)) ++ inflight (threads (box a)) ++ queue (MQ := ring_queue no_message) (box a)) \/
     (stage a = Crashed /\ received (trace (proc a)) `prefix_of` mailed a /\
      restarts (proc a) = 3 /\ TRegistryRemove demo_pid ∈ trace (proc a))).
Proof.
  eexists. split; [vm_compute; reflexivity|].
  apply (actor_receives_in_order (MQ := ring_queue no_message) defaultThroughput (demo_opts 3 [])
    demo_children demo_done small_queue).
  - apply demo_calm.
  - apply demo_calm.
  - intros n. by exists n.
  - done.
  - exact small_queue_wf.
  - reflexivity.
  - eapply (exec_all_sound defaultThroughput (demo_opts 3 []) demo_children demo_done 5 user_b user_env sched_panic);
      [exact user_b_sound|vm_compute; reflexivity].
Defined.

(** C3: Everything sent is received in the end: as soon as nobody sends, the
    goroutines of an actor take finitely many steps whatever the scheduler does,
    they are never stuck before they are done, and when they are done the
    receiver was called with all messages sent, exactly once and in sending
    order, or the restart budget is spent and the program has ended.  (Runs of user
    messages, which handlers may panic on; the producer and the handling of lifecycle
    messages do not panic, and children stop.) *)
Theorem actor_receives_everything {R Q} `{MQ : MailboxQueue Envelope Q} (throughput : Z)
    (opts : Opts R) range_children poison_done (q : Q) (a : actor R Q)
    (Hcalm : lifecycle_calm (Receive opts))
    (Hcalm_mw : lifecycle_calm (applyMiddleware (Receive opts) (Middleware opts)))
    (Hproduce : forall n, exists r, Producer opts n = inl r)
    (Hchildren : forall c, poison_done c = true)
    (Hwf : mq_wf q) (Hempty : mq_abs q = [])
    (Hreach : reachable_actor throughput opts range_children poison_done user_env q a) :
  sn (istep throughput opts range_children poison_done) a /\
  (forall a', rtc (istep throughput opts range_children poison_done) a a' ->
   mq_room (rb (inbox (mem (box a')))) ->
   (exists a'', istep throughput opts range_children poison_done a' a'') \/
   (stage a' = Live /\ threads (box a') = [] /\ received (trace (proc a')) = mailed a') \/
   (stage a' = Crashed /\ restarts (proc a') = MaxRestarts opts)).
Proof.
  destruct (user_reachable throughput opts range_children poison_done Hcalm Hcalm_mw Hproduce Hchildren
    q a Hwf Hempty Hreach) as [U|C].
  - split; [by apply user_sn|]. intros a' Hr Hroom.
    destruct (up_internal throughput opts range_children poison_done Hcalm Hcalm_mw Hproduce Hchildren a a' U Hr)
      as [U'|(Hc & _ & Hm & _)]; [|by right; right].
    destruct (user_ends opts range_children poison_done Hcalm Hcalm_mw Hproduce Hchildren) as [Hst Hiv].
    destruct (up_progress throughput opts range_children poison_done user_env a' Hst Hiv U' Hroom)
      as [H|[Hl Ht]]; [by left|right; left].
    split_and!; [done|done|]. by apply (up_at_rest user_env).
  - split; [by apply sn_crashed, C|]. intros a' Hr _. right; right.
    destruct Hr as [a|a a1 a2 Hs _]; [by destruct C as (? & _ & ? & _)|].
    destruct C as [Hc _]. destruct (crashed_stuck throughput opts range_children poison_done a a1 Hc). by left.
Qed.

Lemma actor_receives_everything_witness :
  exists a, run_panic (take 15 sched_panic) = Some a /\
    sn (istep (MQ := ring_queue no_message) defaultThroughput (demo_opts 3 []) demo_children demo_done) a.
Proof.
  eexists. split; [vm_compute; reflexivity|].
  eapply (actor_receives_everything (MQ := ring_queue no_message) defaultThroughput (demo_opts 3 [])
    demo_children demo_done small_queue).
  - apply demo_calm.
  - apply demo_calm.
  - intros n. by exists n.
  - done.
  - exact small_queue_wf.
  - reflexivity.
  - eapply (exec_all_sound defaultThroughput (demo_opts 3 []) demo_children demo_done 5 user_b user_env (take 15 sched_panic));
      [exact user_b_sound|vm_compute; reflexivity].
Defined.

(** C4: A poisoned actor goes down.  With user code that does not panic and
    children that stop: once a pill was sent, the goroutines of the actor take
    finitely many steps if nobody sends, are never stuck before they are done,
    and when they are done the actor is down because of the first pill it was
    sent: it received every message sent before that pill and, if the pill is
    graceful, those sent after it that were popped with it ([batch]), nothing
    else; its inbox is stopped, its registry entry removed, and exactly one
    context is cancelled, the pill's; what was sent later stays in the queue. *)
Theorem actor_poisoned {R Q} `{MQ : MailboxQueue Envelope Q} (throughput : Z)
    (opts : Opts R) range_children poison_done (q : Q) (a : actor R Q)
    (pre post : list Envelope) (pill : Envelope) (graceful : bool) (c : Z)
    (Hcalm : never_panics (Receive opts))
    (Hcalm_mw : never_panics (applyMiddleware (Receive opts) (Middleware opts)))
    (Hproduce : forall n, exists r, Producer opts n = inl r)
    (Hchildren : forall c, poison_done c = true)
    (Hwf : mq_wf q) (Hempty : mq_abs q = [])
    (Hreach : reachable_actor throughput opts range_children poison_done mailable q a)
    (Hmailed : mailed a = pre ++ pill :: post)
    (Hpill : Msg pill = APoisonPill graceful (Some c))
    (Hpre : Forall user_env pre) :
  sn (istep throughput opts range_children poison_done) a /\
  (forall a', rtc (istep throughput opts range_children poison_done) a a' ->
   mq_room (rb (inbox (mem (box a')))) ->
   (exists a'', istep throughput opts range_children poison_done a' a'') \/
   (stage a' = Live /\ threads (box a') = [] /\
    exists batch rest, post `prefix_of` batch ++ rest /\ mailed a' = pre ++ pill :: batch ++ rest /\
      stopped_by opts pre graceful c batch rest a')).
Proof.
  pose proof (calm_reachable throughput opts range_children poison_done Hcalm Hcalm_mw Hproduce Hchildren
    q a Hwf Hempty Hreach) as Hc.
  split; [by eapply calm_sn|]. intros a' Hr Hroom.
  destruct (calm_internal throughput opts range_children poison_done Hcalm Hcalm_mw Hproduce Hchildren a a' Hc Hr)
    as [Hc' [more Hm]].
  destruct (calm_progress throughput opts range_children poison_done Hcalm Hcalm_mw Hproduce Hchildren a' Hc' Hroom)
    as [H|[Hl Ht]]; [by left|right]. split; [done|]. split; [done|].
  rewrite Hmailed, <-app_assoc in Hm; simpl in Hm.
  assert (Hp : is_pill (Msg pill) = true) by by rewrite Hpill.
  destruct Hc' as [(U & Hd & _)|(_ & _ & _ & pre' & pill' & g' & c' & batch & rest & Hm' & Hpill' & Hpre' & Hsb)].
  - exfalso. pose proof (up_at_rest mailable a' U Ht Hl) as Hh.
    rewrite (up_handled _ _ U) in Hh. rewrite Hh, Hm, Forall_app, Forall_cons in Hd.
    destruct Hd as (_ & [Hu _] & _). congruence.
  - rewrite Hm in Hm'.
    destruct (first_pill_unique pre pill (post ++ more) pre' pill' (batch ++ rest) Hpre Hpre' Hp)
      as (<- & <- & Hrest); [by rewrite Hpill'|done|].
    rewrite Hpill in Hpill'. injection Hpill' as <- <-.
    exists batch, rest. split_and!; [rewrite <-Hrest; by apply prefix_app_r|by rewrite Hm, Hrest|done].
Qed.

Lemma actor_poisoned_witness :
  exists a, run_pill sched_stopped = Some a /\
    sn (istep (MQ := ring_queue no_message) defaultThroughput calm_opts demo_children demo_done) a.
Proof.
  eexists. split; [vm_compute; reflexivity|].
  eapply (actor_poisoned (MQ := ring_queue no_message) defaultThroughput calm_opts
    demo_children demo_done small_queue _ [user "a"] [user "b"; user "c"] (pill_env true 7) true 7).
  - done.
  - done.
  - intros n. by exists n.
  - done.
  - exact small_queue_wf.
  - reflexivity.
  - eapply (exec_all_sound defaultThroughput calm_opts demo_children demo_done 5 mailable_b mailable sched_stopped);
      [exact mailable_b_sound|vm_compute; reflexivity].
  - reflexivity.
  - reflexivity.
  - repeat constructor.
Defined.
