(* ===== verification/Delivery.v ===== *)
(** * Sending to an actor while it is taken down ([actor/engine.go])

    [Actor] runs the inbox and the process of an actor; senders there hold the
    process already.  Here they find it through the registry, as [SendLocal] and
    [sendPoisonPill] do: the lookup is one step, what follows it another, so the
    actor may go down in between.  A message that is looked up before the actor
    leaves the registry and pushed after its last batch is neither received nor
    reported, and a pill that is checked before and sent after is reported, but its
    context is not cancelled.

    [Engine] has the same functions as single steps, with the other branches. *)

From S2P Require Import Prelude Deque RingBuffer Inbox Pid Messages Process Actor.

Section delivery.
Context {R Q : Type} `{MQ : MailboxQueue Envelope Q}.
Variable throughput : Z.
Variable opts : Opts R.
Variable range_children : gmap string PID -> list PID.
Variable poison_done : PID -> bool.

#[local] Abbreviation istep := (istep throughput opts range_children poison_done).

(** The actor, the goroutines of [sendPoisonPill] that found it and are about to
    call [SendLocal], the dead letters in their order, the contexts
    [sendPoisonPill] cancelled itself, and a log of everything asked for. *)
Record system := mkSystem {
  target : actor R Q;
  poisoners : list Envelope;
  dead_letters : list Envelope;
  cancelled : list Z;
  asked : list Envelope;
}.

(** [SpawnProc] adds the process to the registry before it starts it. *)
Definition new_system (q : Q) : system := mkSystem (new_actor q) [] [] [] [].

Definition removes (e : event) : bool :=
  match e with TRegistryRemove q => bool_decide (ID q = ID (pid opts)) | _ => false end.

(** [Registry.get(pid) != nil]. *)
Definition registered (a : actor R Q) : bool := negb (existsb removes (trace (proc a))).

Definition set_target (a : actor R Q) (s : system) : system :=
  mkSystem a (poisoners s) (dead_letters s) (cancelled s) (asked s).
Definition set_poisoners (es : list Envelope) (s : system) : system :=
  mkSystem (target s) es (dead_letters s) (cancelled s) (asked s).
Definition ask (e : Envelope) (s : system) : system :=
  mkSystem (target s) (poisoners s) (dead_letters s) (cancelled s) (asked s ++ [e]).
(** [BroadcastEvent(DeadLetterEvent{...})]. *)
Definition dead_letter (e : Envelope) (s : system) : system :=
  mkSystem (target s) (poisoners s) (dead_letters s ++ [e]) (cancelled s) (asked s).
Definition cancel (c : Z) (s : system) : system :=
  mkSystem (target s) (poisoners s) (dead_letters s) (cancelled s ++ [c]) (asked s).

(** [proc.Send]: the goroutine is about to push. *)
Definition call_Send (e : Envelope) (a : actor R Q) : actor R Q :=
  mkActor (mkConfig (process_Send (Msg e) (Sender e) :: threads (box a)) (mem (box a))) (proc a) (stage a).

(** [SendLocal], up to the push. *)
Definition SendLocal (e : Envelope) (s : system) : system :=
  if registered (target s) then set_target (call_Send e (target s)) s else dead_letter e s.

(** [sendPoisonPill], up to its [SendLocal]. *)
Definition sendPoisonPill (graceful : bool) (c : Z) (s : system) : system :=
  let pill := pill_env graceful c in
  let s := ask pill s in
  if registered (target s) then set_poisoners (poisoners s ++ [pill]) s
  else cancel c (dead_letter pill s).

(** A goroutine calls [Send], [Poison] or [Stop]. *)
Inductive call_step : system -> system -> Prop :=
  | c_send e s : user_env e -> stage (target s) <> Crashed -> call_step s (SendLocal e (ask e s))
  | c_poison g c s : stage (target s) <> Crashed -> call_step s (sendPoisonPill g c s).

(** What is under way goes on. *)
Inductive go_step : system -> system -> Prop :=
  | g_pill l1 e l2 s : poisoners s = l1 ++ e :: l2 -> stage (target s) <> Crashed ->
      go_step s (SendLocal e (set_poisoners (l1 ++ l2) s))
  | g_actor s a : istep (target s) a -> go_step s (set_target a s).

Definition sstep (s s' : system) : Prop := call_step s s' \/ go_step s s'.

(** The contexts that come with pills. *)
Definition contexts (es : list Envelope) : list Z :=
  omap (fun e => match Msg e with APoisonPill _ (Some c) => Some c | _ => None end) es.

(** Looked up, not pushed yet. *)
Definition on_the_way (ts : list (pc Envelope)) : list Envelope :=
  omap (fun t => match t with CSend e | CSendPriority e => Some e | _ => None end) ts.

End delivery.

Arguments system : clear implicits.

(** ** Where messages are *)

Section accounting.
Context {R Q : Type} `{MQ : MailboxQueue Envelope Q}.
Variable throughput : Z.
Variable opts : Opts R.
Variable range_children : gmap string PID -> list PID.
Variable poison_done : PID -> bool.
Implicit Types (a : actor R Q) (s : system R Q) (e : Envelope).

#[local] Abbreviation istep := (istep throughput opts range_children poison_done).
#[local] Abbreviation go_step := (go_step throughput opts range_children poison_done).
#[local] Abbreviation sstep := (sstep throughput opts range_children poison_done).
#[local] Abbreviation registered := (registered opts).
#[local] Abbreviation SendLocal := (SendLocal opts).

Lemma on_the_way_app ts1 ts2 : on_the_way (ts1 ++ ts2) = on_the_way ts1 ++ on_the_way ts2.
Proof. apply omap_app. Qed.

Lemma contexts_app es1 es2 : contexts (es1 ++ es2) = contexts es1 ++ contexts es2.
Proof. apply omap_app. Qed.

(** Goroutines an inbox schedules are not senders. *)
Lemma replay_inbox_senders (es : list event) (s : status) : on_the_way (replay_inbox es s).2 = [].
Proof.
  unfold replay_inbox. induction es as [|e es IH] using rev_ind; [done|]. rewrite foldl_app; cbn [foldl].
  destruct (foldl _ (s, []) es) as [s' ts]. cbn [snd] in *.
  destruct e; cbn [snd]; try done. by rewrite on_the_way_app, IH.
Qed.

(** A push moves a message from the way to the mailbox. *)
Lemma thread_step_asked t (sh sh' : shared Envelope Q) ps :
  not_invoke t = true -> thread_step throughput t sh = Ok (sh', ps) ->
  on_the_way ps ++ sent sh' ≡ₚ on_the_way [t] ++ sent sh.
Proof.
  intros Hni Hst. destruct sh as [[q s0] snt dlv].
  destruct t as [m|m| |i|i|i ms| | | | | |]; simpl in *; unfold cas, on_inbox in Hst; simpl in Hst; try done;
    repeat case_decide; simplify_eq/=; try done.
  - destruct (mq_push m q); simplify_eq/=. symmetry. apply Permutation_cons_append.
  - destruct (mq_push_front m q); simplify_eq/=. symmetry. apply Permutation_cons_append.
  - destruct (mq_popn messageBatchSize q) as [[[ms k] q']|]; simplify_eq/=. by destruct (k && _).
  - by destruct (0 <? mq_len q).
Qed.

Lemma istep_asked a a' : istep a a' ->
  on_the_way (threads (box a')) ++ mailed a' ≡ₚ on_the_way (threads (box a)) ++ mailed a.
Proof.
  destruct 1 as [| |l1 t l2 sh sh' ts p s Hns Hni Hroom Hst|fuel l1 i ms l2 sh p p' st ts Hroom Hiv Hre|];
    unfold mailed; cbn [box threads mem sent]; try done.
  - pose proof (thread_step_asked t sh sh' ts Hni Hst) as Hp.
    change (t :: l2) with ([t] ++ l2). rewrite !on_the_way_app.
    transitivity (on_the_way l1 ++ on_the_way l2 ++ on_the_way ts ++ sent sh'); [solve_Permutation|].
    rewrite Hp. solve_Permutation.
  - pose proof (replay_inbox_senders (new_events p p') (procStatus (inbox sh))) as Hn.
    rewrite Hre in Hn. cbn [snd] in Hn.
    change (CLoad i :: ts) with ([CLoad i] ++ ts). change (CInvoke i ms :: l2) with ([CInvoke i ms] ++ l2).
    by rewrite !on_the_way_app, Hn.
Qed.

Lemma standing_registered a : standing (trace (proc a)) -> registered a = true.
Proof.
  intros S. unfold registered. induction S as [|e t He _ IH]; [done|]. by destruct e.
Qed.

Lemma removed_registered a : TRegistryRemove (pid opts) ∈ trace (proc a) -> registered a = false.
Proof.
  intros Hin. unfold registered. destruct (existsb (removes opts) (trace (proc a))) eqn:E; [done|].
  exfalso. apply (not_true_iff_false (existsb _ _)) in E. apply E, existsb_exists.
  eexists. split; [by apply list_elem_of_In|]. simpl. by apply bool_decide_eq_true.
Qed.
End accounting.

(** ** The invariant *)

Section invariant.
Context {R Q : Type} `{MQ : MailboxQueue Envelope Q}.
Variable throughput : Z.
Variable opts : Opts R.
Variable range_children : gmap string PID -> list PID.
Variable poison_done : PID -> bool.
Hypothesis Hcalm : never_panics (Receive opts).
Hypothesis Hcalm_mw : never_panics (applyMiddleware (Receive opts) (Middleware opts)).
Hypothesis Hproduce : forall n, exists r, Producer opts n = inl r.
Hypothesis Hchildren : forall c, poison_done c = true.
Implicit Types (a : actor R Q) (s : system R Q) (e : Envelope).

#[local] Abbreviation istep := (istep throughput opts range_children poison_done).
#[local] Abbreviation go_step := (go_step throughput opts range_children poison_done).
#[local] Abbreviation sstep := (sstep throughput opts range_children poison_done).
#[local] Abbreviation call_step := (call_step opts).
#[local] Abbreviation registered := (registered opts).
#[local] Abbreviation SendLocal := (SendLocal opts).

(** Everything asked for is somewhere: in the hands of a caller ([held]), past the
    check of [sendPoisonPill], past a lookup, in the mailbox, or a dead letter. *)
Record delivery (held : list Envelope) s : Prop := {
  d_actor : calm_up (target s) \/ down opts (target s);
  d_mailable : Forall mailable (held ++ poisoners s);
  d_asked : asked s ≡ₚ held ++ poisoners s ++
    (on_the_way (threads (box (target s))) ++ mailed (target s)) ++ dead_letters s;
  d_dead : registered (target s) = true -> dead_letters s = [] /\ cancelled s = [];
  d_cancelled : cancelled s ⊆+ contexts (dead_letters s);
}.

Lemma up_registered a : calm_up a -> registered a = true.
Proof. intros (_ & _ & S). by apply standing_registered. Qed.

Lemma down_registered a : down opts a -> registered a = false.
Proof.
  intros (_ & _ & _ & pre & pill & g & c & batch & rest & _ & _ & _ & []). by apply removed_registered.
Qed.

Lemma registered_up a : calm_up a \/ down opts a -> registered a = true -> calm_up a.
Proof. intros [U|D] Hr; [done|]. by rewrite down_registered in Hr. Qed.

Lemma new_delivery q : mq_wf q -> mq_abs q = [] -> delivery [] (new_system q).
Proof.
  intros Hwf Hq. split; try done. left. split; [by apply up_new|by split; constructor].
Qed.

(** An actor goes on whatever it is sent. *)
Lemma call_Send_actor e a : mailable e -> stage a <> Crashed -> calm_up a \/ down opts a ->
  calm_up (call_Send e a) \/ down opts (call_Send e a).
Proof.
  intros He Hs Ha. assert (Hst : send_step mailable a (call_Send e a)).
  { destruct a as [[ts sh] p st], e as [m sd]. by constructor. }
  destruct Ha as [(U & Hd & S)|D]; [left|right; by eapply down_send].
  split; [by eapply up_send|done].
Qed.

Lemma ask_delivery e s : mailable e -> delivery [] s -> delivery [e] (ask e s).
Proof.
  intros He []. split; [done|by constructor| |done..]. cbn. rewrite d_asked0. symmetry. apply Permutation_cons_append.
Qed.

Lemma take_delivery l1 e l2 s :
  poisoners s = l1 ++ e :: l2 -> delivery [] s -> delivery [e] (set_poisoners (l1 ++ l2) s).
Proof.
  intros Hp []. rewrite Hp in *. split; [done| | |done..]; cbn.
  - rewrite Permutation_middle. done.
  - rewrite d_asked0. cbn. solve_Permutation.
Qed.

Lemma SendLocal_delivery e s :
  stage (target s) <> Crashed -> delivery [e] s -> delivery [] (SendLocal e s).
Proof.
  intros Hs []. apply Forall_cons in d_mailable0 as [He Hps].
  unfold SendLocal. destruct (registered (target s)) eqn:Hr.
  - split; [by apply call_Send_actor|done| | |done].
    + cbn. rewrite d_asked0. destruct e as [m sd]. unfold mailed; cbn. solve_Permutation.
    + intros _. by apply d_dead0.
  - split; [done|done| | |]; cbn.
    + rewrite d_asked0. solve_Permutation.
    + congruence.
    + rewrite contexts_app. etransitivity; [exact d_cancelled0|]. by apply submseteq_inserts_r.
Qed.

Lemma pill_mailable g c : mailable (pill_env g c).
Proof. done. Qed.

Lemma user_mailable e : user_env e -> mailable e.
Proof. intros [Hp Hl]. split; [done|]. by destruct (Msg e). Qed.

Lemma call_delivery s s' : delivery [] s -> call_step s s' -> delivery [] s'.
Proof.
  intros D Hs. destruct Hs as [e s He Hs|g c s Hs].
  - apply SendLocal_delivery; [done|]. by apply ask_delivery; [apply user_mailable|].
  - destruct (ask_delivery (pill_env g c) s (pill_mailable g c) D).
    unfold sendPoisonPill. cbn [target ask poisoners dead_letters cancelled asked] in *. destruct (registered (target s)) eqn:Hr.
    + split; cbn [target set_poisoners ask poisoners dead_letters cancelled asked app] in *; [done| | |auto|done].
      * apply Forall_cons in d_mailable0 as [He Hps]. apply Forall_app. by split; [|constructor].
      * rewrite d_asked0. solve_Permutation.
    + split; cbn [target cancel dead_letter ask poisoners dead_letters cancelled asked app] in *; [done| | |congruence|].
      * by apply Forall_cons in d_mailable0 as [_ Hps].
      * rewrite d_asked0. solve_Permutation.
      * rewrite contexts_app. cbn. by apply submseteq_app.
Qed.

Lemma go_delivery s s' : delivery [] s -> go_step s s' -> delivery [] s'.
Proof using Hcalm Hcalm_mw Hproduce Hchildren.
  intros D Hs. destruct Hs as [l1 e l2 s Hp Hs|s a Hs].
  - apply SendLocal_delivery; [done|by apply take_delivery].
  - destruct D.
    assert (Ha : (calm_up a \/ down opts a) /\ (registered a = true -> registered (target s) = true)).
    { destruct d_actor0 as [U|D].
      - rewrite (up_registered _ U). split; [|done].
        destruct (calm_istep throughput opts range_children poison_done Hcalm Hcalm_mw Hproduce Hchildren
          _ _ U Hs) as [[? _]|[? _]]; [by left|by right].
      - assert (Da : down opts a) by by apply (down_istep throughput opts range_children poison_done (target s)).
        rewrite (down_registered a Da). split; [by right|done]. }
    destruct Ha as [Ha Hr]. split; [done|done| | |done]; cbn.
    + rewrite d_asked0. by rewrite (istep_asked throughput opts range_children poison_done _ _ Hs).
    + auto.
Qed.

Lemma delivery_reachable s s' : delivery [] s -> rtc sstep s s' -> delivery [] s'.
Proof using Hcalm Hcalm_mw Hproduce Hchildren.
  intros D Hr. induction Hr as [|s1 s2 s3 [Hs|Hs] _ IH]; [done|apply IH..].
  - by eapply call_delivery.
  - by eapply go_delivery.
Qed.

(** ** Once nobody calls *)

Lemma rtc_go s s' : rtc go_step s s' -> rtc sstep s s'.
Proof. apply rtc_subrel. intros x y H. by right. Qed.

Lemma go_sn s : delivery [] s -> sn go_step s.
Proof using Hcalm Hcalm_mw Hproduce Hchildren.
  remember (length (poisoners s)) as n eqn:Hn. revert s Hn.
  induction n as [n IHn] using lt_wf_ind. intros s Hn D.
  pose proof (calm_sn throughput opts range_children poison_done Hcalm Hcalm_mw Hproduce Hchildren
    _ (d_actor _ _ D)) as Hsn.
  remember (target s) as a eqn:Ha. revert s Hn D Ha. induction Hsn as [a _ IHa].
  intros s1 Hn D Ha. constructor. intros s' Hs. pose proof (go_delivery _ _ D Hs) as D'.
  destruct Hs as [l1 e l2 s0 Hp Hs|s0 a' Hs].
  - apply (IHn (length (l1 ++ l2))); [|unfold SendLocal; by destruct (registered _)|done].
    rewrite Hn, Hp, !length_app; cbn [length]. lia.
  - apply (IHa a'); [by rewrite Ha|done|done|done].
Qed.

Lemma go_progress s : delivery [] s -> mq_room (rb (inbox (mem (box (target s))))) ->
  (exists s', go_step s s') \/ poisoners s = [] /\ stage (target s) = Live /\ threads (box (target s)) = [].
Proof using Hcalm Hcalm_mw Hproduce Hchildren.
  intros D Hroom.
  destruct (calm_progress throughput opts range_children poison_done Hcalm Hcalm_mw Hproduce Hchildren
    _ (d_actor _ _ D) Hroom) as [[a Ha]|[Hl Ht]].
  { left. eexists. by apply g_actor. }
  destruct (poisoners s) as [|e es] eqn:Hp; [by right|left].
  eexists. apply (g_pill _ _ _ _ [] e es); [done|congruence].
Qed.

(** Where everything is when nothing goes on. *)
Definition settled s : Prop :=
  if registered (target s)
  then dead_letters s = [] /\ cancelled s = [] /\ cancels (trace (proc (target s))) = [] /\
       asked s ≡ₚ handled (target s)
  else exists pre pill g c batch rest,
       asked s ≡ₚ pre ++ pill :: batch ++ rest ++ dead_letters s /\
       Msg pill = APoisonPill g (Some c) /\ Forall user_env pre /\
       stopped_by opts pre g c batch rest (target s) /\ cancelled s ⊆+ contexts (dead_letters s).

Lemma at_rest_settled s : delivery [] s ->
  poisoners s = [] -> stage (target s) = Live -> threads (box (target s)) = [] -> settled s.
Proof using Hcalm Hcalm_mw Hproduce Hchildren.
  intros [Ha Hm Hasked Hdead Hc] Hp Hl Ht. rewrite Hp, Ht in Hasked. cbn [app] in Hasked. unfold settled.
  destruct Ha as [U|D].
  - rewrite (up_registered _ U) in *. destruct (Hdead eq_refl) as [Hd Hcs]. destruct U as (U & _ & S).
    apply (standing_spec opts) in S as [S _].
    rewrite (up_at_rest mailable _ U Ht Hl). rewrite Hasked, Hd, app_nil_r. done.
  - rewrite (down_registered _ D). destruct D as (_ & _ & _ & pre & pill & g & c & batch & rest & Hmail & Hpill & Hpre & Hsb).
    exists pre, pill, g, c, batch, rest. split; [|done].
    rewrite Hasked, Hmail. cbn. rewrite <-!app_assoc. cbn. by rewrite <-!app_assoc.
Qed.

(** An actor that is gone stays gone, and a later step cancels no context but one
    that was asked for just then. *)
Lemma gone_step s s' : delivery [] s -> registered (target s) = false -> sstep s s' ->
  registered (target s') = false /\ proc (target s') = proc (target s) /\
  exists later new, asked s' = asked s ++ later /\ cancelled s' = cancelled s ++ new /\ new ⊆+ contexts later.
Proof using Hcalm Hcalm_mw Hproduce Hchildren.
  intros D Hr Hs. assert (Hd : down opts (target s)).
  { destruct D as [[U|?] _ _ _ _]; [|done]. by rewrite (up_registered _ U) in Hr. }
  destruct Hs as [Hs|Hs]; [destruct Hs as [e s He Hs|g c s Hs]|destruct Hs as [l1 e l2 s Hp Hs|s a Hs]].
  - unfold SendLocal. cbn [target ask]. rewrite Hr. split; [done|]. split; [done|].
    exists [e], []. cbn. rewrite app_nil_r. repeat split; apply submseteq_nil_l.
  - unfold sendPoisonPill. cbn [target ask]. rewrite Hr. split; [done|]. split; [done|]. by exists [pill_env g c], [c].
  - unfold SendLocal. cbn [target set_poisoners]. rewrite Hr. split; [done|]. split; [done|].
    exists [], []. cbn. by rewrite !app_nil_r.
  - destruct (down_istep throughput opts range_children poison_done (target s) a Hd Hs) as (Hd' & _ & Hp).
    cbn [target set_target]. split; [by apply down_registered|]. split; [done|].
    exists [], []. cbn. by rewrite !app_nil_r.
Qed.

Lemma gone_steps s s' : delivery [] s -> registered (target s) = false -> rtc sstep s s' ->
  registered (target s') = false /\ proc (target s') = proc (target s) /\
  exists later new, asked s' = asked s ++ later /\ cancelled s' = cancelled s ++ new /\ new ⊆+ contexts later.
Proof using Hcalm Hcalm_mw Hproduce Hchildren.
  intros D Hr Hrtc. revert D Hr. induction Hrtc as [s|s1 s2 s3 Hs Hrtc IH]; intros D Hr.
  { split; [done|]. split; [done|]. exists [], []. by rewrite !app_nil_r. }
  destruct (gone_step s1 s2 D Hr Hs) as (Hr2 & Hp2 & later & new & Ha & Hc & Hn).
  assert (D2 : delivery [] s2) by (eapply delivery_reachable; [exact D|by apply rtc_once]).
  destruct (IH D2 Hr2) as (Hr3 & Hp3 & later3 & new3 & Ha3 & Hc3 & Hn3).
  split; [done|]. split; [congruence|]. exists (later ++ later3), (new ++ new3).
  rewrite Ha3, Ha, Hc3, Hc, contexts_app, !app_assoc. split_and!; [done|done|]. by apply submseteq_app.
Qed.
End invariant.

(** ** Replaying a schedule *)

Inductive sact :=
  | DSend (e : Envelope)          (** a goroutine calls [Send] *)
  | DPoison (g : bool) (c : Z)    (** a goroutine calls [Poison] or [Stop] *)
  | DPill (n : nat)               (** the [n]-th poisoner calls [SendLocal] *)
  | DActor (x : act)              (** a step of the actor *).

Section replay.
Context {R : Type}.
Variable throughput : Z.
Variable opts : Opts R.
Variable range_children : gmap string PID -> list PID.
Variable poison_done : PID -> bool.
Variable fuel : nat.

#[local] Existing Instance ring_queue.
#[local] Abbreviation queue := (RingBuffer Envelope).
#[local] Abbreviation nobody := (fun _ : Envelope => false).
#[local] Abbreviation sstep :=
  (@sstep R queue (ring_queue no_message) throughput opts range_children poison_done).

Definition exec_sact (x : sact) (s : system R queue) : option (system R queue) :=
  if decide (stage (target s) = Crashed) then None else
  match x with
  | DSend e => if user_b e then Some (SendLocal opts e (ask e s)) else None
  | DPoison g c => Some (sendPoisonPill opts g c s)
  | DPill n =>
      e ← poisoners s !! n;
      Some (SendLocal opts e (set_poisoners (take n (poisoners s) ++ drop (S n) (poisoners s)) s))
  | DActor x =>
      a ← exec_step throughput opts range_children poison_done fuel nobody x (target s);
      Some (set_target a s)
  end.

Definition exec_sacts (xs : list sact) (s : system R queue) : option (system R queue) :=
  foldl (fun os x => os ≫= exec_sact x) (Some s) xs.

Lemma exec_sact_sound x s s' : exec_sact x s = Some s' -> sstep s s'.
Proof.
  unfold exec_sact. case_decide as Hs; [done|]. destruct x as [e|g c|n|x].
  - destruct (user_b e) eqn:He; [|done]. intros [= <-]. left. constructor; [by apply user_b_sound|done].
  - intros [= <-]. left. by constructor.
  - destruct (poisoners s !! n) as [e|] eqn:Hn; [|done]. intros [= <-]. right.
    apply g_pill; [|done]. symmetry. by apply take_drop_middle.
  - destruct (exec_step _ _ _ _ _ _ x (target s)) as [a|] eqn:Ha; [|done]. intros [= <-]. right.
    apply g_actor. apply (exec_step_sound _ _ _ _ _ _ (fun _ => False)) in Ha; [|done].
    destruct Ha as [Ha|Ha]; [done|by destruct Ha].
Qed.

Lemma exec_sacts_sound xs s s' : exec_sacts xs s = Some s' -> rtc sstep s s'.
Proof.
  unfold exec_sacts. revert s s'. induction xs as [|x xs IH] using rev_ind; intros s s'.
  { intros [= <-]. reflexivity. }
  rewrite foldl_app; cbn [foldl]. destruct (foldl _ (Some s) xs) as [s1|] eqn:H1; [|done].
  intros Hx. eapply rtc_r; [by apply IH|by eapply exec_sact_sound].
Qed.
End replay.

(** A pill takes the actor down while another [Poison] and a send, which both
    found it, have not pushed yet. *)
Definition sched_between : list sact :=
  [DActor AStart; DPoison true 7; DPoison true 8; DSend (user "a"); DPill 0; DActor (ARun 0); DActor (ARun 0)] ++
  replicate 8 (DActor (ARun 1)).
Definition sched_after : list sact := sched_between ++ [DPill 0; DActor (ARun 0); DActor (ARun 0)].
Definition run_between (xs : list sact) : option (system Z (RingBuffer Envelope)) :=
  exec_sacts defaultThroughput calm_opts demo_children demo_done 5 xs (new_system small_queue).

(** ** Correctness of sending through the registry *)



(** Once an actor has left the registry nothing that happens later, calls
    included, cancels a context that was handed out before: a goroutine that waits
    for one that is not cancelled by then waits for ever. *)
Theorem late_pills_wait {R Q} `{MQ : MailboxQueue Envelope Q} (throughput : Z)
    (opts : Opts R) range_children poison_done (q : Q) (s s' : system R Q)
    (Hcalm : never_panics (Receive opts))
    (Hcalm_mw : never_panics (applyMiddleware (Receive opts) (Middleware opts)))
    (Hproduce : forall n, exists r, Producer opts n = inl r)
    (Hchildren : forall c, poison_done c = true)
    (Hwf : mq_wf q) (Hempty : mq_abs q = [])
    (Hreach : rtc (sstep throughput opts range_children poison_done) (new_system q) s)
    (Hgone : registered opts (target s) = false)
    (Hmore : rtc (sstep throughput opts range_children poison_done) s s') :
  registered opts (target s') = false /\
  cancels (trace (proc (target s'))) = cancels (trace (proc (target s))) /\
  exists later new, asked s' = asked s ++ later /\ cancelled s' = cancelled s ++ new /\ new ⊆+ contexts later.
Proof.
  assert (D : delivery opts [] s) by
    (eapply delivery_reachable; [done..|by apply new_delivery|exact Hreach]).
  destruct (gone_steps throughput opts range_children poison_done Hcalm Hcalm_mw Hproduce Hchildren s s' D Hgone Hmore)
    as (Hr & -> & H). done.
Qed.

Lemma late_pills_wait_witness :
  exists s s', run_between sched_between = Some s /\ run_between sched_after = Some s' /\
    cancels (trace (proc (target s'))) = cancels (trace (proc (target s))).
Proof.
  eexists _, _. split; [vm_compute; reflexivity|]. split; [vm_compute; reflexivity|].
  eapply (late_pills_wait (MQ := ring_queue no_message) defaultThroughput calm_opts
    demo_children demo_done small_queue).
  - done.
  - done.
  - intros n. by exists n.
  - done.
  - exact small_queue_wf.
  - reflexivity.
  - eapply (exec_sacts_sound defaultThroughput calm_opts demo_children demo_done 5 sched_between).
    vm_compute; reflexivity.
  - reflexivity.
  - eapply (exec_sacts_sound defaultThroughput calm_opts demo_children demo_done 5 [DPill 0; DActor (ARun 0); DActor (ARun 0)]).
    vm_compute; reflexivity.
Defined.

(** What falls between lookup and push.  A message that was sent while the actor
    was registered ends up in the queue of its stopped inbox, neither received nor
    a dead letter; the pill of a [Poison] that found the actor becomes a dead
    letter, and its context 8 is not cancelled.  Nothing is under way any more. *)
Theorem lost_between_lookup_and_push :
  exists s, run_between sched_after = Some s /\
    asked s = [pill_env true 7; pill_env true 8; user "a"] /\
    received (trace (proc (target s))) = [] /\ dead_letters s = [pill_env true 8] /\
    queue (MQ := ring_queue no_message) (box (target s)) = [user "a"] /\
    cancels (trace (proc (target s))) ++ cancelled s = [7] /\
    poisoners s = [] /\ threads (box (target s)) = [].
Proof. eexists. split; [vm_compute; reflexivity|]. vm_compute. by repeat split. Qed.
