(* ===== verification/SafeMap.v ===== *)
(** * The concurrent map ([safemap/safemap.go])

    Every operation of [SafeMap] holds the mutex for its whole body, so each one
    is an atomic step on the map.  [ForEach] visits the entries in an order the
    language leaves open: it is given as a list, which [is_range] constrains. *)

From S2P Require Import Prelude.

Section safemap.
Context {K V : Type} `{Countable K}.

Record SafeMap := mkSafeMap { data : gmap K V }.

Definition New : SafeMap := mkSafeMap ∅.
Definition Set_ (k : K) (v : V) (s : SafeMap) : SafeMap := mkSafeMap (<[k := v]> (data s)).
Definition Get (k : K) (s : SafeMap) : option V := data s !! k.
Definition Delete (k : K) (s : SafeMap) : SafeMap := mkSafeMap (delete k (data s)).
Definition Len (s : SafeMap) : Z := Z.of_nat (size (data s)).

(** An order in which [range] may visit the entries. *)
Definition is_range (order : list (K * V)) (s : SafeMap) : Prop := order ≡ₚ map_to_list (data s).

(** [ForEach f] over the entries as [range] visits them. *)
Definition ForEach {S} (order : list (K * V)) (f : K -> V -> S -> result S) (s : S) : result S :=
  foldl (fun r '(k, v) => s ← r; f k v s) (Ok s) order.

Lemma is_range_length order s : is_range order s -> zlen order = Len s.
Proof. intros Ho. unfold zlen, Len. by rewrite Ho, length_map_to_list. Qed.

Lemma ForEach_cons {S} (f : K -> V -> S -> result S) k v order s s' :
  f k v s = Ok s' -> ForEach ((k, v) :: order) f s = ForEach order f s'.
Proof. intros Hf. unfold ForEach; simpl. by rewrite Hf. Qed.

Lemma ForEach_panic {S} (f : K -> V -> S -> result S) k v order s p :
  f k v s = Panic p -> ForEach ((k, v) :: order) f s = Panic p.
Proof.
  intros Hf. unfold ForEach; simpl. rewrite Hf. induction order as [|[k' v'] order IH]; simpl; done.
Qed.
End safemap.

Arguments SafeMap : clear implicits.
Arguments SafeMap K V {_ _}.
