(* ===== verification/Context.v ===== *)
(** * Actor contexts ([actor/context.go])

    The part of [Context] that is its own: children, parent and the current
    message.  Operations that go through the engine are in [Engine]. *)

From S2P Require Import Prelude Pid Messages SafeMap.

(** [parentCtx] is kept as the PID of the parent's context. *)
Record Context := mkContext {
  ctx_pid : PID;
  ctx_sender : option PID;
  ctx_message : any;
  ctx_parent : option PID;
  ctx_children : SafeMap string PID;
}.

Definition newContext (pid : PID) : Context := mkContext pid None ANil None New.

Definition Parent (c : Context) : option PID := ctx_parent c.

Definition Child (id : string) (c : Context) : option PID := Get id (ctx_children c).

(** The callback of [Children]: [pids[i] = child; i++]. *)
Definition fill_child (_ : string) (child : PID) (s : list (option PID) * Z)
  : result (list (option PID) * Z) :=
  pids ← slice_set s.1 s.2 (Some child); Ok (pids, s.2 + 1).

(** [Children()] takes the length first and ranges over the map afterwards, as
    two critical sections: [len] is the length of the map when it was asked, and
    [order] how the map is visited later. *)
Definition Children (len : Z) (order : list (string * PID)) : result (list (option PID)) :=
  pids ← go_make None len;
  '(pids, _) ← ForEach order fill_child (pids, 0);
  Ok pids.

Lemma children_fill (order : list (string * PID)) n pre :
  (length order <= n)%nat ->
  ForEach order fill_child (pre ++ replicate n None, zlen pre) =
  Ok (pre ++ (Some <$> order.*2) ++ replicate (n - length order) None, zlen pre + zlen order).
Proof.
  revert n pre. induction order as [|[k v] order IH]; intros n pre Hn.
  { simpl. unfold ForEach, zlen; simpl. by rewrite Nat.sub_0_r, Z.add_0_r. }
  simpl length in Hn. destruct n as [|n]; [lia|].
  assert (Hs : slice_set (pre ++ replicate (S n) None) (zlen pre) (Some v)
    = Ok ((pre ++ [Some v]) ++ replicate n None)).
  { unfold zlen. rewrite slice_set_ok by (unfold zlen; rewrite length_app, length_replicate; lia).
    rewrite Nat2Z.id, insert_app_r_alt, Nat.sub_diag by lia. simpl. by rewrite <-app_assoc. }
  erewrite ForEach_cons; [|unfold fill_child; cbn [fst snd]; rewrite Hs; reflexivity].
  assert (Hz : zlen pre + 1 = zlen (pre ++ [Some v])) by (unfold zlen; rewrite length_app; simpl; lia).
  rewrite Hz, IH by lia. f_equal. f_equal; [simpl; by rewrite <-app_assoc|].
  unfold zlen. rewrite length_app. simpl. lia.
Qed.

(** [Children] is exact only if no child leaves or joins while it runs.  If
    the map it ranges over has at most as many entries as when the length was
    taken, the result is the children in the order visited followed by one nil
    PID per entry that left in between (a caller that sees the same map twice
    gets exactly the children); if entries joined, it panics with an index out of
    range. *)
Theorem children_snapshot (before after : SafeMap string PID) (order : list (string * PID))
    (Horder : is_range order after) :
  (Len after <= Len before ->
     Children (Len before) order =
       Ok ((Some <$> order.*2) ++ replicate (Z.to_nat (Len before - Len after)) None)) /\
  (Len before < Len after -> Children (Len before) order = Panic IndexOutOfRange).
Proof.
  pose proof (is_range_length order after Horder) as Hlen.
  assert (H0 : 0 <= Len before) by (unfold Len; lia).
  unfold Children. rewrite go_make_ok by done. cbn [mbind result_bind].
  unfold zlen in Hlen. split; intros Hle.
  - assert (Hle' : (length order <= Z.to_nat (Len before))%nat) by lia.
    pose proof (children_fill order (Z.to_nat (Len before)) [] Hle') as Hf.
    change (@nil (option PID) ++ replicate (Z.to_nat (Len before)) None)
      with (replicate (Z.to_nat (Len before)) (@None PID)) in Hf.
    change (zlen (@nil (option PID))) with 0 in Hf. rewrite Hf.
    replace (Z.to_nat (Len before) - length order)%nat with (Z.to_nat (Len before - Len after)) by lia.
    done.
  - set (n := Z.to_nat (Len before)) in *.
    destruct (lookup_lt_is_Some_2 order n ltac:(lia)) as [[k v] Hkv].
    rewrite <-(take_drop_middle order n (k, v) Hkv).
    assert (Hle' : (length (take n order) <= n)%nat) by (rewrite length_take; lia).
    pose proof (children_fill (take n order) n [] Hle') as Hf.
    change (ForEach (take n order) fill_child (replicate n None, 0) = Ok ((Some <$> (take n order).*2) ++
      replicate (n - length (take n order)) None, 0 + zlen (take n order))) in Hf.
    unfold ForEach in *. rewrite foldl_app, Hf. clear Hf.
    assert (Hp : slice_set ((Some <$> (take n order).*2) ++ replicate (n - length (take n order)) None)
      (0 + zlen (take n order)) (Some v) = Panic IndexOutOfRange).
    { unfold slice_set, zlen. rewrite length_app, length_fmap, length_fmap, length_replicate, length_take.
      destruct (Z.ltb_spec (0 + Z.of_nat (n `min` length order)) 0); [done|].
      destruct (Z.leb_spec (Z.of_nat (n `min` length order + (n - n `min` length order)))
        (0 + Z.of_nat (n `min` length order))); [done|lia]. }
    simpl. unfold fill_child at 2; simpl. rewrite Hp. cbn [mbind result_bind].
    induction (drop (S n) order) as [|[k' v'] l IH]; simpl; done.
Qed.

Lemma children_snapshot_witness :
  let a := NewPID "local" "a" in let b := NewPID "local" "b" in
  let before := Set_ "b" b (Set_ "a" a New) in
  Children (Len before) (map_to_list (data (Delete "a" before))) = Ok [Some b; None] /\
  Children (Len (Delete "a" before)) (map_to_list (data before)) = Panic IndexOutOfRange.
Proof.
  intros a b before. split.
  - destruct (children_snapshot before (Delete "a" before) (map_to_list (data (Delete "a" before))))
      as [H _]; [unfold is_range; reflexivity|]. rewrite H by (vm_compute; discriminate). vm_compute. reflexivity.
  - destruct (children_snapshot (Delete "a" before) before (map_to_list (data before)))
      as [_ H]; [unfold is_range; reflexivity|]. apply H. vm_compute. reflexivity.
Defined.
