(* ===== verification/Tree.v ===== *)
(** * Stopping a tree of actors ([actor/process.go], [actor/context.go])

    An actor that takes a poison pill takes itself out of its parent's children,
    poisons its own children one after the other, waiting for each, and then
    leaves the registry.  Here all the actors of an engine do so at once; what they
    do with other messages does not matter and is left out, and so are panics (see
    [Process]).  The children of an actor are those it spawned. *)

From S2P Require Import Prelude Pid Messages.

(** The context of the [n]-th pill sent to an id. *)
Definition ctx : Type := string * nat.

(** Where an actor is in [cleanup]. *)
Inductive phase :=
  | Running
  | Leaving (c : ctx)                              (* out of its parent's children *)
  | Clearing (c : ctx) (ks : list string)          (* [ks] are to be poisoned *)
  | Waiting (c w : ctx) (ks : list string)         (* <-engine.Poison(pid).Done() *)
  | Gone (c : ctx).                                (* unregistered, stopped, its context cancelled *)
#[export] Instance phase_eq_dec : EqDecision phase.
Proof. solve_decision. Defined.

Record actor := mkActor {
  parentCtx : option string;
  children : gset string;
  pills : list ctx;                                (* the pills in the mailbox *)
  sent : nat;                                      (* how many were sent *)
  ph : phase;
}.

Record system := mkSystem { actors : gmap string actor; cancelled : list ctx }.

Definition set_ph (p : phase) (a : actor) : actor := mkActor (parentCtx a) (children a) (pills a) (sent a) p.
Definition set_pills (cs : list ctx) (a : actor) : actor := mkActor (parentCtx a) (children a) cs (sent a) (ph a).
Definition drop_child (k : string) (a : actor) : actor :=
  mkActor (parentCtx a) (children a ∖ {[k]}) (pills a) (sent a) (ph a).
Definition gets_pill (c : ctx) (a : actor) : actor :=
  mkActor (parentCtx a) (children a) (pills a ++ [c]) (S (sent a)) (ph a).

Definition upd (x : string) (f : actor -> actor) (s : system) : system := mkSystem (alter f x (actors s)) (cancelled s).

Definition is_gone (a : actor) : bool := match ph a with Gone _ => true | _ => false end.

(** [Engine.Poison]: a pill for a registered actor; for another one the context is
    cancelled at once. *)
Definition Poison (k : string) (s : system) : system * ctx :=
  match actors s !! k with
  | Some a =>
      let c := (k, sent a) in
      if is_gone a
      then (mkSystem (<[k := mkActor (parentCtx a) (children a) (pills a) (S (sent a)) (ph a)]> (actors s)) (cancelled s ++ [c]), c)
      else (upd k (gets_pill c) s, c)
  | None => (mkSystem (actors s) (cancelled s ++ [(k, 0%nat)]), (k, 0%nat))
  end.

(** [parentCtx.children.Delete(pid.ID)]. *)
Definition leave_parent (x : string) (parent : option string) (s : system) : system :=
  match parent with Some p => upd p (drop_child x) s | None => s end.

(** [SpawnChild] from the actor [p]: under a free id, a new actor; under a taken one,
    only the entry among the children. *)
Definition SpawnChild (p name id : string) (s : system) : system :=
  let k := (p +:+ pidSeparator +:+ name) +:+ pidSeparator +:+ id in
  let s := match actors s !! k with
           | None => mkSystem (<[k := mkActor (Some p) ∅ [] 0 Running]> (actors s)) (cancelled s)
           | Some _ => s
           end in
  upd p (fun a => mkActor (parentCtx a) ({[k]} ∪ children a) (pills a) (sent a) (ph a)) s.

(** One actor goes on with its shutdown. *)
Inductive tstep : system -> system -> Prop :=
  | t_take s x a c cs :                            (* Invoke reaches a pill *)
      actors s !! x = Some a -> ph a = Running -> pills a = c :: cs ->
      tstep s (leave_parent x (parentCtx a) (upd x (fun a => set_pills cs (set_ph (Leaving c) a)) s))
  | t_children s x a c ks :                        (* Context.Children, in any order *)
      actors s !! x = Some a -> ph a = Leaving c -> ks ≡ₚ elements (children a) ->
      tstep s (upd x (set_ph (Clearing c ks)) s)
  | t_poison s x a c k ks s' w :
      actors s !! x = Some a -> ph a = Clearing c (k :: ks) -> Poison k s = (s', w) ->
      tstep s (upd x (set_ph (Waiting c w ks)) s')
  | t_done s x a c w ks :
      actors s !! x = Some a -> ph a = Waiting c w ks -> w ∈ cancelled s ->
      tstep s (upd x (set_ph (Clearing c ks)) s)
  | t_gone s x a c :
      actors s !! x = Some a -> ph a = Clearing c [] ->
      tstep s (mkSystem (actors (upd x (set_ph (Gone c)) s)) (cancelled s ++ [c])).

(** The same with more pills from outside. *)
Inductive astep : system -> system -> Prop :=
  | a_internal s s' : tstep s s' -> astep s s'
  | a_poison s k : astep s (Poison k s).1.

(** ** What is known of the tree *)

Definition kid (s : system) (p k : string) : Prop := exists a, actors s !! k = Some a /\ parentCtx a = Some p.
Definition below (s : system) : string -> string -> Prop := rtc (kid s).
Definition untouched (s : system) (x : string) : Prop := exists a, actors s !! x = Some a /\ ph a = Running /\ pills a = [].
Definition gone (s : system) (x : string) : Prop := exists a c, actors s !! x = Some a /\ ph a = Gone c.
(** Nobody in the tree of [k] has got a pill. *)
Definition fresh_tree (s : system) (k : string) : Prop := forall d, below s k d -> untouched s d.

(** The pill an actor works on. *)
Definition working (p : phase) : option ctx :=
  match p with Running => None | Leaving c | Clearing c _ | Waiting c _ _ | Gone c => Some c end.

(** The actor [w] waits for handles the pill, or has nothing else to handle. *)
Definition serves (s : system) (w : ctx) : Prop :=
  exists b, actors s !! w.1 = Some b /\ ((ph b = Running /\ pills b = [w]) \/ working (ph b) = Some w).

Definition todo_ok (s : system) (p : string) (a : actor) : Prop :=
  match ph a with
  | Running => pills a <> [] -> forall k, kid s p k -> fresh_tree s k
  | Leaving _ => forall k, kid s p k -> fresh_tree s k
  | Clearing _ ks => NoDup ks /\ (forall k, k ∈ ks -> kid s p k /\ fresh_tree s k) /\
      forall k, kid s p k -> k ∈ ks \/ gone s k
  | Waiting _ w ks => NoDup ks /\ (forall k, k ∈ ks -> kid s p k /\ fresh_tree s k) /\
      kid s p w.1 /\ serves s w /\ forall k, kid s p k -> k ∈ ks \/ k = w.1 \/ gone s k
  | Gone c => (forall k, kid s p k -> gone s k) /\ c ∈ cancelled s
  end.

Record ordered (s : system) : Prop := {
  o_ids : forall p k, kid s p k -> (String.length p < String.length k)%nat;
  o_kids : forall p a k, actors s !! p = Some a -> k ∈ children a -> kid s p k;
  o_live : forall p a k, actors s !! p = Some a -> kid s p k -> untouched s k -> k ∈ children a;
  o_todo : forall p a, actors s !! p = Some a -> todo_ok s p a;
  o_ctx : forall x a c, actors s !! x = Some a -> working (ph a) = Some c \/ c ∈ pills a -> c.1 = x;
  o_one : forall x a, actors s !! x = Some a -> (length (pills a) <= match ph a with Running => 1 | _ => 0 end)%nat;
  o_done : forall w, w ∈ cancelled s -> gone s w.1;
}.

Definition touched (a : actor) : Prop := ph a <> Running \/ pills a <> [].
#[export] Instance touched_dec a : Decision (touched a).
Proof. unfold touched. apply _. Defined.

(** What a step of the actor [x] leaves alone; [k] is the actor it poisons. *)
Record changes (s s' : system) (x : string) (k : option string) : Prop := {
  ch_back : forall y b', actors s' !! y = Some b' -> exists b, actors s !! y = Some b;
  ch_actor : forall y b, actors s !! y = Some b -> exists b', actors s' !! y = Some b' /\ parentCtx b' = parentCtx b /\
    children b' ⊆ children b /\ (forall z, z ∈ children b -> z <> x -> z ∈ children b') /\
    (y <> x -> ph b' = ph b) /\ (y <> x -> k <> Some y -> pills b' = pills b);
  ch_cancelled : forall w, w ∈ cancelled s -> w ∈ cancelled s';
}.

(** What every step guarantees. *)
Record carries (s s' : system) : Prop := {
  ca_ordered : ordered s';
  ca_serves : forall w, serves s w -> serves s' w;
  ca_kid : forall p y, kid s' p y <-> kid s p y;
  ca_dom : forall y, is_Some (actors s' !! y) -> is_Some (actors s !! y);
  ca_untouched : forall y, untouched s y -> untouched s' y \/ exists x a, kid s x y /\ actors s !! x = Some a /\ touched a;
}.

Section changes.
Context (s s' : system) (x : string) (k : option string) (a a' : actor).
Hypothesis Ho : ordered s.
Hypothesis Hc : changes s s' x k.
Hypothesis Hx : actors s !! x = Some a.
Hypothesis Hx' : actors s' !! x = Some a'.
Hypothesis Ht : touched a.
Hypothesis Ht' : touched a'.
Hypothesis Hng : is_gone a = false.
(** The actor that is poisoned is a child of [x] whose tree has got no pill. *)
Hypothesis Hk : forall y, k = Some y -> kid s x y /\ fresh_tree s y /\ exists b, actors s' !! y = Some b /\ ph b = Running /\ length (pills b) = 1%nat /\
  forall c, c ∈ pills b -> c.1 = y.
Hypothesis Hserve : forall w, (ph a = Running /\ pills a = [w]) \/ working (ph a) = Some w -> working (ph a') = Some w.
Hypothesis Htodo : todo_ok s' x a'.
Hypothesis Hctx : forall c, working (ph a') = Some c \/ c ∈ pills a' -> c.1 = x.
Hypothesis Hone : (length (pills a') <= match ph a' with Running => 1 | _ => 0 end)%nat.
Hypothesis Hdone : forall w, w ∈ cancelled s' -> w ∈ cancelled s \/ gone s' w.1.

Lemma kid_same p y : kid s' p y <-> kid s p y.
Proof using Hc.
  split.
  - intros (b' & Hb' & Hp). destruct (ch_back _ _ _ _ Hc y b' Hb') as [b Hb].
    destruct (ch_actor _ _ _ _ Hc y b Hb) as (b1 & H1 & H2 & _). exists b. split; [done|]. congruence.
  - intros (b & Hb & Hp). destruct (ch_actor _ _ _ _ Hc y b Hb) as (b' & H1 & H2 & _). exists b'. split; [done|]. congruence.
Qed.

Lemma below_same p y : below s' p y <-> below s p y.
Proof using Hc. split; intros Hb; (eapply rtc_subrel; [|exact Hb]); intros ? ?; apply kid_same. Qed.

Lemma kid_unique p q y : kid s p y -> kid s q y -> p = q.
Proof using. intros (b & Hb & Hp) (b' & Hb' & Hq). congruence. Qed.

Lemma gone_stays y : gone s y -> gone s' y.
Proof using Hc Hng Hx.
  intros (b & c & Hb & Hp). destruct (ch_actor _ _ _ _ Hc y b Hb) as (b' & H1 & _ & _ & _ & H2 & _).
  exists b', c. split; [done|]. rewrite H2; [done|]. intros ->. assert (b = a) as -> by congruence. unfold is_gone in Hng. by rewrite Hp in Hng.
Qed.

Lemma x_not_fresh t : fresh_tree s t -> ~ below s t x.
Proof using Hx Ht. intros Hf Hb. destruct (Hf x Hb) as (b & H1 & H2 & H3). assert (b = a) as -> by congruence. destruct Ht; congruence. Qed.

Lemma below_parent t y p : below s t y -> kid s p y -> t = y \/ below s t p.
Proof using.
  intros Hb Hp. apply rtc_inv_r in Hb as [->|(z & Hz & Hzy)]; [by left|right].
  by rewrite (kid_unique p z y Hp Hzy).
Qed.

(** Another tree without pills stays one. *)
Lemma fresh_stays t : fresh_tree s t -> k <> Some t -> fresh_tree s' t.
Proof using Hc Hx Ht Hk.
  intros Hf Hkt d Hd%below_same. destruct (Hf d Hd) as (b & H1 & H2 & H3).
  destruct (ch_actor _ _ _ _ Hc d b H1) as (b' & H4 & _ & _ & _ & H5 & H6).
  assert (Hdx : d <> x) by (intros ->; by apply (x_not_fresh t Hf)).
  exists b'. split; [done|]. split; [by rewrite H5|]. rewrite H6; [done|done|]. intros ->.
  destruct (Hk d eq_refl) as (Hkid & _). destruct (below_parent t d x Hd Hkid) as [->|Hb]; [done|]. by apply (x_not_fresh t Hf).
Qed.

Lemma serves_stays w : serves s w -> serves s' w.
Proof using Hc Hx Hx' Hk Hserve.
  intros (b & Hb & Hw). destruct (decide (w.1 = x)) as [Heq|Hne].
  - exists a'. rewrite Heq. split; [done|]. right. apply Hserve. rewrite Heq in Hb. by assert (b = a) as -> by congruence.
  - destruct (ch_actor _ _ _ _ Hc w.1 b Hb) as (b' & H1 & _ & _ & _ & H2 & H3). exists b'. split; [done|].
    rewrite H2 by done. destruct Hw as [[Hr Hp]|Hw]; [left|by right]. split; [done|]. rewrite H3; [done|done|].
    intros Hkw. destruct (Hk w.1 Hkw) as (_ & Hf & _). destruct (Hf w.1) as (b1 & Hb1 & _ & Hp1); [by apply rtc_refl|].
    assert (b1 = b) as -> by congruence. by rewrite Hp in Hp1.
Qed.

Lemma untouched_back y : untouched s' y -> untouched s y.
Proof using Hc Hx' Ht' Hk.
  intros (b' & H1 & H2 & H3). destruct (ch_back _ _ _ _ Hc y b' H1) as [b Hb].
  destruct (ch_actor _ _ _ _ Hc y b Hb) as (b1 & H4 & _ & _ & _ & H5 & H6). assert (b1 = b') as -> by congruence.
  assert (Hyx : y <> x). { intros ->. assert (b' = a') as -> by congruence. destruct Ht'; congruence. }
  exists b. split; [done|]. split; [by rewrite <-H5|]. destruct (decide (k = Some y)) as [Hky|Hky]; [|by rewrite <-H6].
  destruct (Hk y Hky) as (_ & _ & b2 & Hb2 & _ & Hl & _). assert (b2 = b') as -> by congruence. by rewrite H3 in Hl.
Qed.

Lemma step_ordered : ordered s'.
Proof using All.
  split.
  - intros p y Hp%kid_same. by apply (o_ids _ Ho).
  - intros p b' y Hb' Hy. apply kid_same. destruct (ch_back _ _ _ _ Hc p b' Hb') as [b Hb].
    destruct (ch_actor _ _ _ _ Hc p b Hb) as (b1 & H1 & _ & H2 & _). assert (b1 = b') as -> by congruence.
    apply (o_kids _ Ho p b); [done|]. by apply H2.
  - intros p b' y Hb' Hp%kid_same Hu%untouched_back. destruct (ch_back _ _ _ _ Hc p b' Hb') as [b Hb].
    destruct (ch_actor _ _ _ _ Hc p b Hb) as (b1 & H1 & _ & _ & H2 & _). assert (b1 = b') as -> by congruence.
    apply H2; [by apply (o_live _ Ho p b)|]. intros ->. destruct Hu as (b2 & Hb2 & Hr & Hpl).
    assert (b2 = a) as -> by congruence. destruct Ht; congruence.
  - intros p b' Hb'. destruct (decide (p = x)) as [->|Hne]; [by assert (b' = a') as -> by congruence|].
    destruct (ch_back _ _ _ _ Hc p b' Hb') as [b Hb].
    destruct (ch_actor _ _ _ _ Hc p b Hb) as (b1 & H1 & _ & _ & _ & H2 & H3). assert (b1 = b') as -> by congruence.
    specialize (H2 Hne). pose proof (o_todo _ Ho p b Hb) as Htp.
    assert (Hfs : forall y, kid s p y -> fresh_tree s y -> fresh_tree s' y).
    { intros y Hy Hf. apply fresh_stays; [done|]. intros Hky. destruct (Hk y Hky) as [Hxy _]. apply Hne. by apply (kid_unique p x y). }
    unfold todo_ok in *. rewrite H2. destruct (ph b) eqn:Eb.
    + intros Hpl y Hy%kid_same. apply Hfs; [done|]. destruct (decide (k = Some p)) as [Hkp|Hkp].
      * destruct (Hk p Hkp) as (_ & Hf & _). intros d Hd. apply Hf. by eapply rtc_l.
      * apply Htp; [|done]. by rewrite <-(H3 Hne Hkp).
    + intros y Hy%kid_same. auto.
    + destruct Htp as (T1 & T2 & T3). split_and!; [done| |].
      * intros y Hy. destruct (T2 y Hy). split; [by apply kid_same|auto].
      * intros y Hy%kid_same. destruct (T3 y Hy); [by left|right; by apply gone_stays].
    + destruct Htp as (T1 & T2 & T3 & T4 & T5). split_and!; [done| |by apply kid_same|by apply serves_stays|].
      * intros y Hy. destruct (T2 y Hy). split; [by apply kid_same|auto].
      * intros y Hy%kid_same. destruct (T5 y Hy) as [?|[?|?]]; [by left|by right; left|right; right; by apply gone_stays].
    + destruct Htp as [T1 T2]. split; [intros y Hy%kid_same; by apply gone_stays, T1|by apply (ch_cancelled _ _ _ _ Hc)].
  - intros p b' c Hb' Hw. destruct (decide (p = x)) as [->|Hne]; [assert (b' = a') as -> by congruence; by apply Hctx|].
    destruct (ch_back _ _ _ _ Hc p b' Hb') as [b Hb].
    destruct (ch_actor _ _ _ _ Hc p b Hb) as (b1 & H1 & _ & _ & _ & H2 & H3). assert (b1 = b') as -> by congruence.
    rewrite H2 in Hw by done. destruct (decide (k = Some p)) as [Hkp|Hkp].
    + destruct Hw as [Hw|Hw]; [by apply (o_ctx _ Ho p b c Hb); left|]. destruct (Hk p Hkp) as (_ & _ & b2 & Hb2 & _ & _ & Hcs).
      assert (b2 = b') as -> by congruence. by apply Hcs.
    + rewrite H3 in Hw by done. by apply (o_ctx _ Ho p b).
  - intros p b' Hb'. destruct (decide (p = x)) as [->|Hne]; [by assert (b' = a') as -> by congruence|].
    destruct (ch_back _ _ _ _ Hc p b' Hb') as [b Hb].
    destruct (ch_actor _ _ _ _ Hc p b Hb) as (b1 & H1 & _ & _ & _ & H2 & H3). assert (b1 = b') as -> by congruence.
    destruct (decide (k = Some p)) as [Hkp|Hkp].
    + destruct (Hk p Hkp) as (_ & _ & b2 & Hb2 & Hr & Hl & _). assert (b2 = b') as -> by congruence. by rewrite Hr, Hl.
    + rewrite H2, H3 by done. by apply (o_one _ Ho p).
  - intros w [Hw|Hw]%Hdone; [|done]. by apply gone_stays, (o_done _ Ho).
Qed.

Lemma step_carries : carries s s'.
Proof using All.
  split; [apply step_ordered|apply serves_stays|apply kid_same|intros y [b' Hb']; destruct (ch_back _ _ _ _ Hc y b' Hb') as [b Hb]; by exists b|].
  intros y (b & Hb & Hr & Hpl).
  assert (Hyx : y <> x) by (intros ->; assert (b = a) as -> by congruence; destruct Ht; congruence).
  destruct (decide (k = Some y)) as [Hky|Hky].
  - right. exists x, a. destruct (Hk y Hky) as [Hkid _]. by split_and!.
  - left. destruct (ch_actor _ _ _ _ Hc y b Hb) as (b' & H1 & _ & _ & _ & H2 & H3). exists b'. rewrite H2, H3 by done. by split_and!.
Qed.
End changes.

Lemma upd_lookup x f s y : actors (upd x f s) !! y = if decide (x = y) then f <$> actors s !! y else actors s !! y.
Proof. unfold upd. cbn [actors]. rewrite lookup_alter. by case_decide; subst. Qed.

Lemma leave_lookup x p s y :
  actors (leave_parent x p s) !! y = if decide (p = Some y) then drop_child x <$> actors s !! y else actors s !! y.
Proof.
  destruct p as [p|]; [|done]. cbn [leave_parent]. rewrite upd_lookup. destruct (decide (p = y)) as [->|Hne].
  - by rewrite decide_True.
  - rewrite decide_False; [done|]. congruence.
Qed.

(** Only the acting actor changes. *)
Lemma changes_upd s s' x f :
  (forall y, actors s' !! y = if decide (x = y) then f <$> actors s !! y else actors s !! y) ->
  (forall a, parentCtx (f a) = parentCtx a /\ children (f a) = children a) ->
  (forall w, w ∈ cancelled s -> w ∈ cancelled s') -> changes s s' x None.
Proof.
  intros Hl Hf Hw. split; [| |done].
  - intros y b'. rewrite Hl. case_decide as Hxy; [|by eexists]. destruct (actors s !! y); [by eexists|done].
  - intros y b Hb. rewrite Hl. case_decide as Hxy.
    + rewrite Hb. destruct (Hf b) as [H1 H2]. exists (f b). rewrite H1, H2. subst. by split_and!.
    + exists b. by split_and!.
Qed.

Lemma serves_working s w b : actors s !! w.1 = Some b -> (ph b = Running /\ pills b = [w]) \/ working (ph b) = Some w -> serves s w.
Proof. intros. by exists b. Qed.

Lemma step_kid_of s p x a : ordered s -> actors s !! x = Some a -> parentCtx a = Some p -> p <> x.
Proof. intros Ho Hx Hp ->. assert (Hk : kid s x x) by by exists a. apply (o_ids _ Ho) in Hk. lia. Qed.

Lemma untouched_kid s y : fresh_tree s y -> untouched s y.
Proof. intros Hf. apply Hf. apply rtc_refl. Qed.

(** A step that takes an actor from one phase of its pill to another. *)
Lemma phase_carries s s' x a c p :
  ordered s -> actors s !! x = Some a -> working (ph a) = Some c -> is_gone a = false -> working p = Some c ->
  (forall y, actors s' !! y = if decide (x = y) then set_ph p <$> actors s !! y else actors s !! y) ->
  (forall w, w ∈ cancelled s -> w ∈ cancelled s') -> (forall w, w ∈ cancelled s' -> w ∈ cancelled s \/ gone s' w.1) ->
  (changes s s' x None -> todo_ok s' x (set_ph p a)) -> carries s s'.
Proof.
  intros Ho Hx Hw Hng Hw' Hl Hcan Hdone Htd.
  assert (Hc : changes s s' x None) by by apply (changes_upd s s' x (set_ph p)).
  assert (Hr : forall b, working (ph b) = Some c -> ph b <> Running) by (intros b Hb Hr; by rewrite Hr in Hb).
  eapply (step_carries s s' x None a (set_ph p a)); try done.
  - by rewrite Hl, decide_True, Hx by done.
  - left. by apply Hr.
  - left. by apply Hr.
  - intros w [[Hrun _]|Hw2]; [by apply Hr in Hrun|]. cbn [set_ph ph]. congruence.
  - by apply Htd.
  - intros c' Hc'. apply (o_ctx _ Ho x a c' Hx). destruct Hc' as [Hc'|Hc']; [left|by right]. cbn [set_ph ph] in Hc'. congruence.
  - pose proof (o_one _ Ho x a Hx) as Hone. specialize (Hr a Hw). cbn [set_ph pills ph]. destruct (ph a); try done; destruct p; lia.
Qed.

Lemma take_carries s x a c cs :
  ordered s -> actors s !! x = Some a -> ph a = Running -> pills a = c :: cs ->
  carries s (leave_parent x (parentCtx a) (upd x (fun a => set_pills cs (set_ph (Leaving c) a)) s)).
Proof.
  intros Ho Hx Hp Hpl. pose proof (o_todo _ Ho x a Hx) as Htd. unfold todo_ok in Htd. rewrite Hp in Htd.
  pose proof (o_one _ Ho x a Hx) as Hone. rewrite Hp in Hone.
  assert (cs = []) as -> by (rewrite Hpl in Hone; destruct cs; [done|cbn in Hone; lia]).
  set (g := fun a => set_pills [] (set_ph (Leaving c) a)). set (s' := leave_parent x (parentCtx a) (upd x g s)).
  assert (Hl : forall y, actors s' !! y = if decide (x = y) then g <$> actors s !! y else
    if decide (parentCtx a = Some y) then drop_child x <$> actors s !! y else actors s !! y).
  { intros y. unfold s'. rewrite leave_lookup, upd_lookup. destruct (decide (x = y)) as [<-|Hxy]; [|done].
    rewrite decide_False; [done|]. intros Hpa. by apply (step_kid_of s x x a Ho Hx). }
  assert (Hc : changes s s' x None).
  { split.
    - intros y b'. rewrite Hl. case_decide as Hxy; [destruct (actors s !! y); [by eexists|done]|].
      case_decide as Hpy; [destruct (actors s !! y); [by eexists|done]|by eexists].
    - intros y b Hb. rewrite Hl. case_decide as Hxy; [rewrite Hb; exists (g b); subst; by split_and!|].
      case_decide; [|exists b; by split_and!]. rewrite Hb. exists (drop_child x b). split_and!; try done; cbn [drop_child children]; set_solver.
    - intros w Hw. unfold s'. by destruct (parentCtx a). }
  assert (Hx' : actors s' !! x = Some (g a)) by (rewrite Hl, decide_True, Hx by done; done).
  assert (Hcan : cancelled s' = cancelled s) by (unfold s'; by destruct (parentCtx a)).
  eapply (step_carries s s' x None a (g a)); try done.
  - right. by rewrite Hpl.
  - by left.
  - unfold is_gone. by rewrite Hp.
  - intros w [[_ Hw]|Hw]; [|by rewrite Hp in Hw]. rewrite Hpl in Hw. by injection Hw as ->.
  - cbn [todo_ok g set_pills set_ph ph]. intros y Hy%(kid_same s s' x None Hc).
    apply (fresh_stays s s' x None a); try done; [right; by rewrite Hpl|]. apply Htd; [by rewrite Hpl|done].
  - intros c' [[= <-]|Hc'%elem_of_nil]; [|done]. apply (o_ctx _ Ho x a); [done|]. right. rewrite Hpl. by left.
  - intros w. rewrite Hcan. by left.
Qed.

Lemma children_carries s x a c ks :
  ordered s -> actors s !! x = Some a -> ph a = Leaving c -> ks ≡ₚ elements (children a) -> carries s (upd x (set_ph (Clearing c ks)) s).
Proof.
  intros Ho Hx Hp Hks. pose proof (o_todo _ Ho x a Hx) as Htd. unfold todo_ok in Htd. rewrite Hp in Htd.
  apply (phase_carries s _ x a c (Clearing c ks)); try done.
  - by rewrite Hp.
  - unfold is_gone. by rewrite Hp.
  - intros y. apply upd_lookup.
  - intros w. by left.
  - intros Hc. assert (Ht : touched a) by (left; by rewrite Hp). cbn [todo_ok set_ph ph]. split_and!.
    + rewrite Hks. apply NoDup_elements.
    + intros y Hy. rewrite Hks, elem_of_elements in Hy. pose proof (o_kids _ Ho x a y Hx Hy) as Hky.
      split; [by apply (kid_same s _ x None Hc)|]. apply (fresh_stays s _ x None a); try done. by apply Htd.
    + intros y Hy%(kid_same s _ x None Hc). left. rewrite Hks, elem_of_elements. apply (o_live _ Ho x a); [done|done|].
      eapply untouched_kid, Htd; done.
Qed.

Lemma poison_carries s x a c k ks s1 w0 :
  ordered s -> actors s !! x = Some a -> ph a = Clearing c (k :: ks) -> Poison k s = (s1, w0) ->
  carries s (upd x (set_ph (Waiting c w0 ks)) s1).
Proof.
  intros Ho Hx Hp HP. pose proof (o_todo _ Ho x a Hx) as Htd. unfold todo_ok in Htd. rewrite Hp in Htd.
  pose proof (o_one _ Ho x a Hx) as Hone. rewrite Hp in Hone.
  destruct Htd as (Hnd & Hks & Hall). apply NoDup_cons in Hnd as [Hnk Hnd].
  destruct (Hks k) as [Hkid Hf]; [by left|]. destruct (untouched_kid s k Hf) as (b & Hb & Hr & Hpl).
  assert (Hkx : x <> k) by (intros <-; apply (o_ids _ Ho) in Hkid; lia).
  unfold Poison in HP. rewrite Hb in HP. unfold is_gone in HP. rewrite Hr in HP. injection HP as <- <-. set (w := (k, sent b)).
  set (g := set_ph (Waiting c w ks)). set (s' := upd x g (upd k (gets_pill w) s)).
  assert (Hl : forall y, actors s' !! y = if decide (x = y) then g <$> actors s !! y else
    if decide (k = y) then gets_pill w <$> actors s !! y else actors s !! y).
  { intros y. unfold s'. rewrite !upd_lookup. destruct (decide (x = y)) as [<-|]; [|done]. by rewrite decide_False. }
  assert (Hc : changes s s' x (Some k)).
  { split; [| |done].
    - intros y b'. rewrite Hl. case_decide as Hxy; [destruct (actors s !! y); [by eexists|done]|].
      case_decide as Hpy; [destruct (actors s !! y); [by eexists|done]|by eexists].
    - intros y b0 Hb0. rewrite Hl. case_decide as Hxy; [rewrite Hb0; exists (g b0); subst; by split_and!|].
      case_decide as Hky; [|exists b0; by split_and!]. rewrite Hb0. exists (gets_pill w b0). split_and!; try done. congruence. }
  assert (Hx' : actors s' !! x = Some (g a)) by (rewrite Hl, decide_True, Hx by done; done).
  assert (Hb' : actors s' !! k = Some (gets_pill w b)) by (rewrite Hl, decide_False, decide_True, Hb by done; done).
  assert (Ht : touched a) by (left; by rewrite Hp).
  assert (Hk : forall y, Some k = Some y -> kid s x y /\ fresh_tree s y /\ exists b, actors s' !! y = Some b /\ ph b = Running /\
    length (pills b) = 1%nat /\ forall c, c ∈ pills b -> c.1 = y).
  { intros y [= <-]. split; [done|]. split; [done|]. exists (gets_pill w b). cbn [gets_pill ph pills]. rewrite Hpl.
    split_and!; [done|done|done|]. by intros c' ->%list_elem_of_singleton. }
  eapply (step_carries s s' x (Some k) a (g a)); try done.
  - by left.
  - unfold is_gone. by rewrite Hp.
  - intros w'. rewrite Hp. intros [[? _]|Hw]; [done|exact Hw].
  - cbn [todo_ok g set_ph ph]. split_and!; [done| |by apply (kid_same s s' x (Some k) Hc)| |].
    * intros y Hy. destruct (Hks y) as [H1 H2]; [by right|]. split; [by apply (kid_same s s' x (Some k) Hc)|].
      apply (fresh_stays s s' x (Some k) a); try done. by intros [= <-].
    * apply (serves_working s' w (gets_pill w b) Hb'). left. cbn [gets_pill ph pills]. by rewrite Hpl.
    * intros y Hy%(kid_same s s' x (Some k) Hc). destruct (Hall y Hy) as [[->|?]%elem_of_cons|Hg]; [by right; left|by left|].
      right. right. apply (gone_stays s s' x (Some k) a); try done. unfold is_gone. by rewrite Hp.
  - intros c' Hc'. apply (o_ctx _ Ho x a c' Hx). rewrite Hp. destruct Hc' as [Hc'|Hc']; [left; exact Hc'|right; exact Hc'].
  - intros w'. by left.
Qed.

Lemma done_carries s x a c w ks :
  ordered s -> actors s !! x = Some a -> ph a = Waiting c w ks -> w ∈ cancelled s -> carries s (upd x (set_ph (Clearing c ks)) s).
Proof.
  intros Ho Hx Hp Hw. pose proof (o_todo _ Ho x a Hx) as Htd. unfold todo_ok in Htd. rewrite Hp in Htd.
  destruct Htd as (Hnd & Hks & Hkw & _ & Hall). assert (Hng : is_gone a = false) by (unfold is_gone; by rewrite Hp).
  apply (phase_carries s _ x a c (Clearing c ks)); try done.
  - by rewrite Hp.
  - intros y. apply upd_lookup.
  - intros w'. by left.
  - intros Hc. assert (Ht : touched a) by (left; by rewrite Hp). cbn [todo_ok set_ph ph]. split_and!; [done| |].
    + intros y Hy. destruct (Hks y Hy) as [H1 H2]. split; [by apply (kid_same s _ x None Hc)|]. by apply (fresh_stays s _ x None a).
    + intros y Hy%(kid_same s _ x None Hc). destruct (Hall y Hy) as [?|[->|Hg]]; [by left|right|right].
      * apply (gone_stays s _ x None a); try done. by apply (o_done _ Ho).
      * by apply (gone_stays s _ x None a).
Qed.

Lemma gone_carries s x a c :
  ordered s -> actors s !! x = Some a -> ph a = Clearing c [] ->
  carries s (mkSystem (actors (upd x (set_ph (Gone c)) s)) (cancelled s ++ [c])).
Proof.
  intros Ho Hx Hp. pose proof (o_todo _ Ho x a Hx) as Htd. unfold todo_ok in Htd. rewrite Hp in Htd.
  destruct Htd as (_ & _ & Hall). assert (Hng : is_gone a = false) by (unfold is_gone; by rewrite Hp).
  assert (Hcx : c.1 = x) by (apply (o_ctx _ Ho x a c Hx); left; by rewrite Hp).
  apply (phase_carries s _ x a c (Gone c)); try done.
  - by rewrite Hp.
  - intros y. apply upd_lookup.
  - intros w Hw. apply elem_of_app. by left.
  - intros w [Hw|Hw%list_elem_of_singleton]%elem_of_app; [by left|right]. subst w. rewrite Hcx. exists (set_ph (Gone c) a), c. split; [|done].
    cbn [actors]. rewrite upd_lookup, decide_True, Hx by done. done.
  - intros Hc. cbn [todo_ok set_ph ph]. split; [|apply elem_of_app; right; by left].
    intros y Hy%(kid_same s _ x None Hc). destruct (Hall y Hy) as [Hy'%elem_of_nil|Hg]; [done|]. by apply (gone_stays s _ x None a).
Qed.

Lemma tstep_carries s s' : ordered s -> tstep s s' -> carries s s'.
Proof.
  intros Ho Hstep. destruct Hstep; [by apply take_carries|by eapply children_carries|by eapply poison_carries|by eapply done_carries|by eapply gone_carries].
Qed.

(** ** Termination *)

Definition weight (a : actor) : nat :=
  match ph a with
  | Running => 3 + 2 * size (children a)
  | Leaving _ => 2 + 2 * size (children a)
  | Clearing _ ks => 1 + 2 * length ks
  | Waiting _ _ ks => 2 + 2 * length ks
  | Gone _ => 0
  end.

Definition total (m : gmap string actor) : nat := sum_list_with (fun '(_, a) => weight a) (map_to_list m).

Lemma total_alter (m : gmap string actor) x a f :
  m !! x = Some a -> (total (alter f x m) + weight a = total m + weight (f a))%nat.
Proof.
  intros Hx. assert (Hd : delete x m !! x = None) by apply lookup_delete_eq.
  assert (Hm : total m = (weight a + total (delete x m))%nat).
  { unfold total. rewrite <-(insert_delete_id m x a Hx) at 1. by rewrite (map_to_list_insert _ _ _ Hd). }
  assert (Hm' : total (alter f x m) = (weight (f a) + total (delete x m))%nat).
  { unfold total. replace (alter f x m) with (<[x := f a]> (delete x m)).
    - by rewrite (map_to_list_insert _ _ _ Hd).
    - rewrite insert_delete_eq. apply map_eq. intros y. rewrite lookup_alter, lookup_insert. case_decide; [|done]. subst. by rewrite Hx. }
  lia.
Qed.

(** An actor that is not there, or that gets no heavier. *)
Lemma total_alter_le (m : gmap string actor) x f :
  (forall a, (weight (f a) <= weight a)%nat) -> (total (alter f x m) <= total m)%nat.
Proof.
  intros Hf. destruct (m !! x) as [a|] eqn:Hx.
  - pose proof (total_alter m x a f Hx). pose proof (Hf a). lia.
  - replace (alter f x m) with m; [done|]. apply map_eq. intros y. rewrite lookup_alter. case_decide; [|done]. subst. by rewrite Hx.
Qed.

Lemma weight_drop k a : (weight (drop_child k a) <= weight a)%nat.
Proof.
  assert (size (children a ∖ {[k]}) <= size (children a))%nat by (apply subseteq_size; set_solver).
  unfold weight. cbn [drop_child ph children]. destruct (ph a); lia.
Qed.

Lemma weight_pill c a : weight (gets_pill c a) = weight a.
Proof. done. Qed.

Lemma tstep_total s s' : tstep s s' -> (total (actors s') < total (actors s))%nat.
Proof.
  intros Hstep. destruct Hstep as [s x a c cs Hx Hp Hpl|s x a c ks Hx Hp Hks|s x a c k ks s1 w Hx Hp HP|s x a c w ks Hx Hp Hw|s x a c Hx Hp].
  - set (g := fun a => set_pills cs (set_ph (Leaving c) a)).
    pose proof (total_alter (actors s) x a g Hx) as Hg. assert (Hw : (weight (g a) < weight a)%nat) by (unfold weight, g; cbn; rewrite Hp; lia).
    assert (Hle : (total (actors (leave_parent x (parentCtx a) (upd x g s))) <= total (actors (upd x g s)))%nat).
    { destruct (parentCtx a); [|done]. cbn [leave_parent upd actors]. apply total_alter_le. intros. apply weight_drop. }
    cbn [upd actors] in Hle |- *. lia.
  - cbn [upd actors]. pose proof (total_alter (actors s) x a (set_ph (Clearing c ks)) Hx) as Hg.
    assert (Hn : length ks = size (children a)) by (rewrite Hks; done).
    unfold weight at 1 2 in Hg. cbn in Hg. rewrite Hp, Hn in Hg. lia.
  - assert (H1 : (total (actors s1) <= total (actors s))%nat /\ exists b, actors s1 !! x = Some b /\ ph b = ph a).
    { unfold Poison in HP. destruct (actors s !! k) as [b|] eqn:Hk.
      - destruct (is_gone b); injection HP as <- <-.
        + cbn [actors]. split.
          * pose proof (total_alter (actors s) k b (fun b => mkActor (parentCtx b) (children b) (pills b) (S (sent b)) (ph b)) Hk) as Hg.
            replace (alter _ k (actors s)) with (<[k:=mkActor (parentCtx b) (children b) (pills b) (S (sent b)) (ph b)]> (actors s)) in Hg.
            -- change (weight (mkActor _ _ _ _ _)) with (weight b) in Hg. lia.
            -- apply map_eq. intros y. rewrite lookup_alter, lookup_insert. case_decide; [|done]. subst. by rewrite Hk.
          * rewrite lookup_insert. case_decide as Hkx; [|by exists a]. subst. eexists. split; [done|]. cbn. congruence.
        + split; [cbn [upd actors]; apply total_alter_le; intros; by rewrite weight_pill|].
          rewrite upd_lookup. case_decide as Hkx; [|by exists a]. subst. rewrite Hx. by eexists.
      - injection HP as <- <-. split; [done|by exists a]. }
    destruct H1 as (H1 & b & Hb & Hpb). cbn [upd actors].
    pose proof (total_alter (actors s1) x b (set_ph (Waiting c w ks)) Hb) as Hg.
    unfold weight at 1 2 in Hg. cbn in Hg. rewrite Hpb, Hp in Hg. cbn in Hg. lia.
  - cbn [upd actors]. pose proof (total_alter (actors s) x a (set_ph (Clearing c ks)) Hx) as Hg.
    unfold weight at 1 2 in Hg. cbn in Hg. rewrite Hp in Hg. lia.
  - cbn [upd actors]. pose proof (total_alter (actors s) x a (set_ph (Gone c)) Hx) as Hg.
    unfold weight at 1 2 in Hg. cbn in Hg. rewrite Hp in Hg. cbn in Hg. lia.
Qed.

(** ** Nobody waits for ever *)

Definition pending (a : actor) : Prop := touched a /\ is_gone a = false.

(** While an actor is on its way out, somebody can go on. *)
Lemma pending_step s : ordered s -> forall n x a, actors s !! x = Some a -> pending a ->
  (forall y, is_Some (actors s !! y) -> String.length y < String.length x + n)%nat -> exists s', tstep s s'.
Proof.
  intros Ho n. induction n as [|n IH]; intros x a Hx [Ht Hg] Hn.
  { specialize (Hn x (mk_is_Some _ _ Hx)). lia. }
  pose proof (o_todo _ Ho x a Hx) as Htd. unfold todo_ok in Htd. unfold is_gone in Hg.
  destruct (ph a) as [|c|c ks|c w ks|c] eqn:Hp; [| | | |done].
  - destruct Ht as [?|Hpl]; [done|]. destruct (pills a) as [|c cs] eqn:Hpa; [done|]. eexists. by eapply t_take.
  - eexists. eapply t_children; [exact Hx|exact Hp|reflexivity].
  - destruct ks as [|k ks]; [eexists; by eapply t_gone|]. destruct (Poison k s) as [s1 w] eqn:HP. eexists. by eapply t_poison.
  - destruct Htd as (_ & _ & Hkid & Hserves & _). destruct Hserves as (b & Hb & Hw).
    destruct (is_gone b) eqn:Hgb.
    + unfold is_gone in Hgb. destruct (ph b) as [| | | |c'] eqn:Hpb; try done. destruct Hw as [[? _]|[= ->]]; [done|].
      pose proof (o_todo _ Ho w.1 b Hb) as Hwb. unfold todo_ok in Hwb. rewrite Hpb in Hwb. eexists. eapply t_done; [exact Hx|exact Hp|apply Hwb].
    + apply (IH w.1 b Hb).
      * split; [|done]. destruct Hw as [[_ Hpl]|Hw]; [right; by rewrite Hpl|left]. intros Hr. by rewrite Hr in Hw.
      * apply (o_ids _ Ho) in Hkid. intros y Hy. specialize (Hn y Hy). lia.
Qed.

Lemma max_list_with_le {A} (f : A -> nat) (xs : list A) x : x ∈ xs -> (f x <= max_list_with f xs)%nat.
Proof. induction 1; cbn; lia. Qed.

Lemma stuck_done s x a : ordered s -> (forall s', ~ tstep s s') -> actors s !! x = Some a -> touched a -> is_gone a = true.
Proof.
  intros Ho Hs Hx Ht. destruct (is_gone a) eqn:Hg; [done|exfalso].
  destruct (pending_step s Ho (S (max_list_with String.length (elements (dom (actors s))))) x a Hx) as [s' Hs']; [by split| |by apply (Hs s')].
  intros y Hy%elem_of_dom. assert (Hin : y ∈ elements (dom (actors s))) by by apply elem_of_elements.
  pose proof (max_list_with_le String.length _ _ Hin). lia.
Qed.

(** Children first: below an actor that is gone, everybody is. *)
Lemma gone_below s x d : ordered s -> gone s x -> below s x d -> gone s d.
Proof.
  intros Ho Hg Hb. induction Hb as [x|x y d Hxy _ IH]; [done|]. apply IH. destruct Hg as (a & c & Ha & Hp).
  pose proof (o_todo _ Ho x a Ha) as Htd. unfold todo_ok in Htd. rewrite Hp in Htd. by apply Htd.
Qed.

(** ** From the pills to the end *)

(** Actors that have not begun to stop: the children of each are those it spawned,
    their ids extend its id, no actor has more than one pill, and nobody below one
    that has a pill has one too. *)
Definition standing (s : system) : Prop :=
  (forall x a, actors s !! x = Some a -> ph a = Running /\ (pills a = [] \/ exists n, pills a = [(x, n)]) /\
     forall k, k ∈ children a <-> kid s x k) /\
  (forall p k, kid s p k -> is_Some (actors s !! p) /\ exists rest, k = p +:+ pidSeparator +:+ rest) /\
  (forall x a d, actors s !! x = Some a -> pills a <> [] -> below s x d -> d <> x -> untouched s d) /\
  cancelled s = [].

Lemma length_append (x y : string) : String.length (x +:+ y) = (String.length x + String.length y)%nat.
Proof. induction x as [|c x IH]; [done|]. change (S (String.length (x +:+ y)) = S (String.length x + String.length y)). by rewrite IH. Qed.

Lemma standing_ordered s : standing s -> ordered s.
Proof.
  intros (Ha & Hids & Hanti & Hcan).
  assert (Hlen : forall p k, kid s p k -> (String.length p < String.length k)%nat).
  { intros p k [_ [rest ->]]%Hids. rewrite !length_append. cbn. lia. }
  assert (Hb : forall p k, below s p k -> (String.length p <= String.length k)%nat).
  { intros p k. induction 1 as [|p q k Hpq _ IH]; [done|]. apply Hlen in Hpq. lia. }
  split.
  - done.
  - intros p a k Hp Hk. by apply (Ha p a Hp).
  - intros p a k Hp Hk _. by apply (Ha p a Hp).
  - intros p a Hp. unfold todo_ok. destruct (Ha p a Hp) as (-> & _). intros Hpl k Hk d Hd.
    apply (Hanti p a d Hp Hpl); [by eapply rtc_l|]. intros ->. pose proof (Hlen p k Hk). pose proof (Hb k p Hd). lia.
  - intros x a c Hx Hc. destruct (Ha x a Hx) as (Hr & Hp & _). rewrite Hr in Hc. destruct Hc as [?|Hc]; [done|].
    destruct Hp as [Hp|[n Hp]]; rewrite Hp in Hc; [by apply elem_of_nil in Hc|]. by apply list_elem_of_singleton in Hc as ->.
  - intros x a Hx. destruct (Ha x a Hx) as (Hr & Hp & _). rewrite Hr. destruct Hp as [Hp|[n Hp]]; rewrite Hp; cbn; lia.
  - intros w. rewrite Hcan. by intros Hw%elem_of_nil.
Qed.

(** *** How trees come about *)

Definition spawned_under (parent : option string) : actor := mkActor parent ∅ [] 0 Running.

(** [Engine.Spawn] under a free id. *)
Definition Spawn (x : string) (s : system) : system :=
  match actors s !! x with
  | None => mkSystem (<[x := spawned_under None]> (actors s)) (cancelled s)
  | Some _ => s
  end.

Lemma standing_empty : standing (mkSystem ∅ []).
Proof. split_and!; try done; intros p k (a & Ha & _); cbn in Ha; by rewrite lookup_empty in Ha. Qed.

(** One actor more, which has no children yet; [f] changes its parent's children. *)
Lemma standing_more s s' k parent :
  standing s -> actors s !! k = None -> parent <> Some k ->
  (forall y, actors s' !! y = if decide (y = k) then Some (spawned_under parent) else
     if decide (parent = Some y) then (fun a => mkActor (parentCtx a) ({[k]} ∪ children a) (pills a) (sent a) (ph a)) <$> actors s !! y
     else actors s !! y) ->
  (forall p, parent = Some p -> is_Some (actors s !! p) /\ exists rest, k = p +:+ pidSeparator +:+ rest) ->
  cancelled s' = cancelled s -> standing s'.
Proof.
  intros (Ha & Hids & Hanti & Hcan) Hfree Hpk Hl Hpar Hc.
  assert (Hkid : forall p y, kid s' p y <-> (y = k /\ parent = Some p) \/ kid s p y).
  { intros p y. unfold kid. setoid_rewrite Hl. destruct (decide (y = k)) as [->|Hyk].
    - split; [intros (a & [= <-] & Hp); left; by split|]. intros [[_ Hp]|(a & Hka & _)]; [by eexists|congruence].
    - split.
      + intros (a & H1 & H2). right. case_decide; [|by exists a]. destruct (actors s !! y) as [b|]; [|done]. injection H1 as <-. by exists b.
      + intros [[? _]|(a & H1 & H2)]; [done|]. case_decide; [rewrite H1; by eexists|by exists a]. }
  assert (Hnone : forall y, ~ kid s k y) by (intros y Hy; apply Hids in Hy as [[a Hka] _]; congruence).
  assert (Hunt : forall y, untouched s y -> untouched s' y).
  { intros y (a & H1 & H2 & H3). unfold untouched. rewrite Hl. case_decide; [subst; congruence|]. case_decide; [rewrite H1; by eexists|by exists a]. }
  split_and!.
  - intros x a Hx. rewrite Hl in Hx. destruct (decide (x = k)) as [->|Hxk].
    + injection Hx as <-. split; [done|]. split; [by left|]. intros y. split; [by intros Hy%elem_of_empty|].
      intros [[-> Hp]|Hy]%Hkid; [done|]. by apply Hnone in Hy.
    + case_decide as Hp.
      * destruct (actors s !! x) as [b|] eqn:Hb; [|done]. injection Hx as <-. cbn [ph pills children].
        destruct (Ha x b Hb) as (H1 & H2 & H3). split; [done|]. split; [done|]. intros y. rewrite Hkid, elem_of_union, elem_of_singleton, H3.
        split; [intros [->|?]; [by left|by right]|]. intros [[-> _]|?]; [by left|by right].
      * destruct (Ha x a Hx) as (H1 & H2 & H3). split; [done|]. split; [done|]. intros y. rewrite Hkid, H3.
        split; [by right|]. by intros [[_ ?]|?].
  - intros p y [[-> Hp]|Hy]%Hkid.
    + destruct (Hpar p Hp) as [[a Hpa] Hr]. split; [|done]. rewrite Hl. case_decide; [by eexists|]. rewrite decide_True, Hpa by done. by eexists.
    + destruct (Hids p y Hy) as [[a Hpa] Hr]. split; [|done]. rewrite Hl. case_decide; [by eexists|]. case_decide; [rewrite Hpa; by eexists|by eexists].
  - intros x a d Hx Hpl Hb Hdx.
    assert (Hd : d = k \/ below s x d).
    { clear Hdx. refine (rtc_ind_r (fun d => d = k \/ below s x d) x _ _ d Hb); [right; apply rtc_refl|].
      intros y z _ Hyz IH. apply Hkid in Hyz as [[-> _]|Hyz]; [by left|right]. destruct IH as [->|IH]; [by apply Hnone in Hyz|]. by eapply rtc_r. }
    destruct Hd as [->|Hd].
    + exists (spawned_under parent). split; [by rewrite Hl, decide_True|done].
    + rewrite Hl in Hx. case_decide; [by injection Hx as <-|]. case_decide.
      * destruct (actors s !! x) as [b|] eqn:Hb'; [|done]. injection Hx as <-. cbn [pills] in Hpl. apply Hunt. by apply (Hanti x b d).
      * apply Hunt. by apply (Hanti x a d).
  - by rewrite Hc.
Qed.

(** Spawning under free ids keeps trees, whoever spawns. *)
Lemma Spawn_standing x s : standing s -> standing (Spawn x s).
Proof.
  intros Hs. unfold Spawn. destruct (actors s !! x) eqn:Hx; [done|].
  apply (standing_more s _ x None Hs Hx); [done| |done|done]. intros y. cbn [actors]. rewrite lookup_insert.
  destruct (decide (x = y)) as [->|]; [by rewrite decide_True|by rewrite decide_False].
Qed.

Lemma SpawnChild_standing p name id s :
  standing s -> is_Some (actors s !! p) -> actors s !! ((p +:+ pidSeparator +:+ name) +:+ pidSeparator +:+ id) = None ->
  standing (SpawnChild p name id s).
Proof.
  intros Hs Hp Hfree. set (k := (p +:+ pidSeparator +:+ name) +:+ pidSeparator +:+ id) in *.
  assert (Hk : k = p +:+ pidSeparator +:+ (name +:+ pidSeparator +:+ id)) by (unfold k; by rewrite !string_app_assoc).
  assert (Hne : p <> k). { intros Heq. apply (f_equal String.length) in Heq. rewrite Hk, !length_append in Heq. cbn in Heq. lia. }
  unfold SpawnChild. fold k. rewrite Hfree.
  apply (standing_more s _ k (Some p) Hs Hfree); [congruence| | |done].
  - intros y. rewrite upd_lookup. cbn [actors]. rewrite lookup_insert.
    destruct (decide (p = y)) as [<-|Hpy].
    + rewrite (decide_False (P := k = p)) by congruence. rewrite (decide_False (P := p = k)) by done. by rewrite decide_True.
    + destruct (decide (k = y)) as [<-|Hky]; [by rewrite decide_True|]. rewrite decide_False by congruence. rewrite decide_False by congruence. done.
  - intros q [= <-]. split; [done|]. by exists (name +:+ pidSeparator +:+ id).
Qed.

(** The first pill. *)
Lemma Poison_standing k s :
  standing s -> (forall x a, actors s !! x = Some a -> pills a = []) -> is_Some (actors s !! k) -> standing (Poison k s).1.
Proof.
  intros (Ha & Hids & Hanti & Hcan) Hnone [b Hb]. unfold Poison. rewrite Hb. destruct (Ha k b Hb) as (Hrb & _ & Hkb).
  unfold is_gone. rewrite Hrb. cbn [fst]. set (g := gets_pill (k, sent b)).
  assert (Hl : forall y, actors (upd k g s) !! y = if decide (k = y) then g <$> actors s !! y else actors s !! y) by (intros; apply upd_lookup).
  assert (Hkid : forall p y, kid (upd k g s) p y <-> kid s p y).
  { intros p y. unfold kid. rewrite Hl. case_decide; [subst|done]. rewrite Hb. split; intros (a & [= <-] & H); by eexists. }
  split_and!.
  - intros x a Hx. rewrite Hl in Hx. setoid_rewrite Hkid. case_decide as Hkx; [|by apply (Ha x a)]. subst x. rewrite Hb in Hx. injection Hx as <-.
    split; [done|]. split; [|exact Hkb]. right. exists (sent b). unfold g. cbn [gets_pill pills]. by rewrite (Hnone k b Hb).
  - intros p y Hy%Hkid. destruct (Hids p y Hy) as [[a Hpa] Hr]. split; [|done]. rewrite Hl. case_decide; [rewrite Hpa|]; by eexists.
  - intros x a d Hx Hpl Hbel Hdx. rewrite Hl in Hx. case_decide as Hkx; [|by rewrite (Hnone x a Hx) in Hpl]. subst x.
    assert (Hd : is_Some (actors s !! d)).
    { apply rtc_inv_r in Hbel as [->|(y & _ & Hyd)]; [done|]. apply Hkid in Hyd as (a' & Ha' & _). by eexists. }
    destruct Hd as [a' Ha']. exists a'. rewrite Hl, decide_False by done. split; [done|]. split; [by apply (Ha d a')|by apply (Hnone d a')].
  - exact Hcan.
Qed.

(** A whole run. *)
Lemma run_carries s s' :
  ordered s -> rtc tstep s s' ->
  ordered s' /\ (forall w, serves s w -> serves s' w) /\ (forall p y, kid s' p y <-> kid s p y) /\
  (forall y, is_Some (actors s' !! y) -> is_Some (actors s !! y)) /\
  forall y, untouched s y -> untouched s' y \/ exists r a, below s r y /\ actors s !! r = Some a /\ touched a.
Proof.
  intros Ho Hr. refine (rtc_ind_r (fun s' => ordered s' /\ (forall w, serves s w -> serves s' w) /\
    (forall p y, kid s' p y <-> kid s p y) /\ (forall y, is_Some (actors s' !! y) -> is_Some (actors s !! y)) /\
    forall y, untouched s y -> untouched s' y \/ exists r a, below s r y /\ actors s !! r = Some a /\ touched a) s _ _ s' Hr).
  { split_and!; [done|done|done|done|by left]. }
  clear s' Hr. intros s1 s2 _ Hstep (Ho1 & Hs1 & Hk1 & Hd1 & Hu1). destruct (tstep_carries s1 s2 Ho1 Hstep) as [Ho2 Hs2 Hk2 Hd2 Hu2].
  split; [done|]. split; [auto|]. split; [intros p y; by rewrite Hk2|]. split; [auto|].
  intros y Hy. destruct (Hu1 y Hy) as [Hy1|?]; [|by right]. destruct (Hu2 y Hy1) as [?|(x & a & Hxy%Hk1 & Hx & Ht)]; [by left|right].
  (* x has been touched: either from the start, or below one that was *)
  destruct (Hd1 x (mk_is_Some _ _ Hx)) as [a0 Hx0].
  destruct (decide (ph a0 = Running /\ pills a0 = [])) as [[Hr0 Hp0]|Hn].
  - destruct (Hu1 x) as [(b & Hb & Hbr & Hbp)|(r & b & Hrx & Hr0' & Ht')]; [by exists a0| |].
    + assert (b = a) as -> by congruence. destruct Ht; congruence.
    + exists r, b. split; [by eapply rtc_r|done].
  - exists x, a0. split; [by apply rtc_once|]. split; [done|]. unfold touched.
    destruct (decide (ph a0 = Running)) as [Hr0|]; [right|by left]. intros Hp0. by apply Hn.
Qed.

Lemma run_bound n s s' : nsteps tstep n s s' -> (n + total (actors s') <= total (actors s))%nat.
Proof. induction 1 as [s|n s s1 s' Hs _ IH]; [lia|]. apply tstep_total in Hs. lia. Qed.

(** The next step of somebody, if there is one. *)
Lemma tstep_dec s : ordered s -> (exists s', tstep s s') \/ forall s', ~ tstep s s'.
Proof.
  intros Ho. destruct (decide (Exists (fun '(_, a) => touched a /\ is_gone a = false) (map_to_list (actors s)))) as [He|Hn].
  - left. apply Exists_exists in He as ([x a] & Hin%elem_of_map_to_list & Hp).
    eapply (pending_step s Ho (S (max_list_with String.length (elements (dom (actors s))))) x a Hin Hp).
    intros y Hy%elem_of_dom. assert (Hd : y ∈ elements (dom (actors s))) by by apply elem_of_elements.
    pose proof (max_list_with_le String.length _ _ Hd). lia.
  - right. intros s' Hstep. apply Hn, Exists_exists.
    assert (Hx : exists x a, actors s !! x = Some a /\ touched a /\ is_gone a = false).
    { destruct Hstep as [s x a c cs Hx Hp Hpl|s x a c ks Hx Hp Hks|s x a c k ks s1 w Hx Hp HP|s x a c w ks Hx Hp Hw|s x a c Hx Hp];
        exists x, a; (split; [done|]); unfold touched, is_gone; rewrite Hp; (split; [|done]); [right; by rewrite Hpl|by left..]. }
    destruct Hx as (x & a & Hx & Ht). exists (x, a). split; [by apply elem_of_map_to_list|done].
Qed.

Lemma runs_out s : ordered s -> exists s', rtc tstep s s' /\ forall s'', ~ tstep s' s''.
Proof.
  remember (total (actors s)) as b eqn:Hb. revert s Hb. induction (lt_wf b) as [b _ IH]. intros s -> Ho.
  destruct (tstep_dec s Ho) as [[s1 H1]|Hn]; [|by exists s].
  destruct (IH (total (actors s1))) with (s := s1) as (s' & Hr & Hs'); [by apply tstep_total|done|by apply (tstep_carries s)|].
  exists s'. split; [by eapply rtc_l|done].
Qed.

(** *** A pill too many *)

Definition owns (s : system) : Prop :=
  forall x a c, actors s !! x = Some a -> working (ph a) = Some c \/ c ∈ pills a -> c.1 = x.

(** A pill that its actor will not get to: it works on another one, or has another
    one first. *)
Definition lost (w : ctx) (s : system) : Prop :=
  (exists b, actors s !! w.1 = Some b /\ (w.2 < sent b)%nat /\ working (ph b) <> Some w /\
     (ph b = Running -> exists c cs, pills b = c :: cs /\ c <> w)) /\
  w ∉ cancelled s.

(** How one actor may change without getting to [w]. *)
Lemma lost_upd w x f s :
  lost w s -> (forall b, actors s !! x = Some b -> x = w.1 -> (sent b <= sent (f b))%nat /\
    (working (ph b) <> Some w -> (ph b = Running -> exists c cs, pills b = c :: cs /\ c <> w) ->
     working (ph (f b)) <> Some w /\ (ph (f b) = Running -> exists c cs, pills (f b) = c :: cs /\ c <> w))) ->
  lost w (upd x f s).
Proof.
  intros [(b & Hb & Hs & Hw & Hr) Hc] Hf. split; [|done]. destruct (decide (x = w.1)) as [->|Hne].
  - destruct (Hf b Hb eq_refl) as [H1 H2]. destruct (H2 Hw Hr) as [H3 H4]. exists (f b). rewrite upd_lookup, decide_True, Hb by done.
    split_and!; [done|lia|done|done].
  - exists b. rewrite upd_lookup, decide_False by done. by split_and!.
Qed.

Lemma lost_Poison w k s : lost w s -> lost w (Poison k s).1.
Proof.
  intros Hl. pose proof Hl as [(b & Hb & Hs & Hw & Hr) Hc]. unfold Poison. destruct (actors s !! k) as [a|] eqn:Hk.
  - destruct (is_gone a) eqn:Hg; cbn [fst].
    + split; cbn [actors cancelled].
      * destruct (decide (k = w.1)) as [->|Hne].
        -- assert (a = b) as -> by congruence. rewrite lookup_insert_eq. eexists. split; [done|]. cbn. split_and!; [lia|done|].
           intros Hrun. unfold is_gone in Hg. by rewrite Hrun in Hg.
        -- exists b. rewrite lookup_insert_ne by done. by split_and!.
      * intros [Hin|Hin%list_elem_of_singleton]%elem_of_app; [done|]. subst w. cbn in *. assert (a = b) as -> by congruence. lia.
    + apply lost_upd; [done|]. intros b' Hb' ->. cbn. split; [lia|]. intros Hw' Hr'. split; [exact Hw'|]. intros Hrun.
      destruct (Hr' Hrun) as (c & cs & -> & Hne). by exists c, (cs ++ [(w.1, sent a)]).
  - cbn [fst]. split; cbn [actors cancelled]; [by exists b|]. intros [Hin|Hin%list_elem_of_singleton]%elem_of_app; [done|].
    subst w. cbn in *. congruence.
Qed.

Lemma owns_upd x f s :
  owns s -> (forall b c, actors s !! x = Some b -> working (ph (f b)) = Some c \/ c ∈ pills (f b) ->
    c.1 = x \/ working (ph b) = Some c \/ c ∈ pills b) -> owns (upd x f s).
Proof.
  intros Ho Hf y a c. rewrite upd_lookup. case_decide as Hxy; [|apply Ho]. subst y.
  destruct (actors s !! x) as [b|] eqn:Hb; [|done]. intros [= <-] Hc. destruct (Hf b c eq_refl Hc) as [?|?]; [done|]. by apply (Ho x b c).
Qed.

Lemma owns_Poison k s : owns s -> owns (Poison k s).1.
Proof.
  intros Ho. unfold Poison. destruct (actors s !! k) as [a|] eqn:Hk; [|done]. destruct (is_gone a); cbn [fst].
  - intros y b c. cbn [actors]. destruct (decide (k = y)) as [->|Hne]; [rewrite lookup_insert_eq|rewrite lookup_insert_ne by done; apply Ho].
    intros [= <-]. apply (Ho y a c Hk).
  - apply owns_upd; [done|]. intros b c _ [Hc|[Hc|Hc%list_elem_of_singleton]%elem_of_app]; [by right; left|by right; right|left]. by subst c.
Qed.

Lemma upd_some x f s a : actors s !! x = Some a -> actors (upd x f s) !! x = Some (f a).
Proof. intros Hx. by rewrite upd_lookup, decide_True, Hx. Qed.

Lemma tstep_lost w s s' : owns s -> lost w s -> tstep s s' -> owns s' /\ lost w s'.
Proof.
  intros Ho Hl Hstep. destruct Hstep as [s x a c cs Hx Hp Hpl|s x a c ks Hx Hp Hks|s x a c k ks s1 w' Hx Hp HP|s x a c w' ks Hx Hp Hw|s x a c Hx Hp].
  - set (g := fun a => set_pills cs (set_ph (Leaving c) a)).
    assert (H1 : owns (upd x g s) /\ lost w (upd x g s)).
    { split.
      - apply owns_upd; [done|]. intros b c' Hb Hc'. right. right. assert (b = a) as -> by congruence. rewrite Hpl. cbn in Hc'.
        destruct Hc' as [[= ->]|Hc']; [by left|by right].
      - apply lost_upd; [done|]. intros b Hb _. cbn. split; [done|]. intros _ Hr. assert (b = a) as -> by congruence.
        destruct (Hr Hp) as (c' & cs' & Hcs & Hne). rewrite Hpl in Hcs. injection Hcs as <- _. split; [congruence|done]. }
    destruct (parentCtx a) as [p|]; [|done]. cbn [leave_parent]. destruct H1 as [H1 H2]. split.
    + apply owns_upd; [done|]. intros b c' _ Hc'. by right.
    + by apply lost_upd.
  - split.
    + apply owns_upd; [done|]. intros b c' Hb Hc'. right. assert (b = a) as -> by congruence. rewrite Hp. exact Hc'.
    + apply lost_upd; [done|]. intros b Hb _. cbn. split; [done|]. assert (b = a) as -> by congruence. rewrite Hp. by split.
  - pose proof (owns_Poison k s Ho) as H1. pose proof (lost_Poison w k s Hl) as H2. rewrite HP in H1, H2. cbn [fst] in H1, H2.
    assert (Hb1 : forall b, actors s1 !! x = Some b -> ph b = ph a).
    { intros b. unfold Poison in HP. destruct (actors s !! k) as [b0|] eqn:Hk; [|injection HP as <- _; cbn; congruence].
      destruct (is_gone b0); injection HP as <- _.
      - cbn [actors]. destruct (decide (k = x)) as [->|]; [rewrite lookup_insert_eq; intros [= <-]; cbn; congruence|rewrite lookup_insert_ne by done; congruence].
      - rewrite upd_lookup. case_decide; [|congruence]. subst. rewrite Hx. intros [= <-]. done. }
    split.
    + apply owns_upd; [done|]. intros b c' Hb Hc'. right. rewrite (Hb1 b Hb), Hp. exact Hc'.
    + apply lost_upd; [done|]. intros b Hb _. cbn. split; [done|]. rewrite (Hb1 b Hb), Hp. by split.
  - split.
    + apply owns_upd; [done|]. intros b c' Hb Hc'. right. assert (b = a) as -> by congruence. rewrite Hp. exact Hc'.
    + apply lost_upd; [done|]. intros b Hb _. cbn. split; [done|]. assert (b = a) as -> by congruence. rewrite Hp. by split.
  - assert (H1 : owns (upd x (set_ph (Gone c)) s)).
    { apply owns_upd; [done|]. intros b c' Hb Hc'. right. assert (b = a) as -> by congruence. rewrite Hp. exact Hc'. }
    assert (H2 : lost w (upd x (set_ph (Gone c)) s)).
    { apply lost_upd; [done|]. intros b Hb _. cbn. split; [done|]. assert (b = a) as -> by congruence. rewrite Hp. by split. }
    split; [exact H1|]. destruct H2 as [H2 Hc]. split; [exact H2|]. cbn [cancelled]. intros [Hin|Hin%list_elem_of_singleton]%elem_of_app; [done|].
    subst c. destruct Hl as [(b & Hb & _ & Hwb & _) _]. assert (Hx1 : w.1 = x) by (apply (Ho x a w Hx); left; by rewrite Hp).
    rewrite Hx1 in Hb. assert (b = a) as -> by congruence. by rewrite Hp in Hwb.
Qed.

Lemma astep_lost w s s' : owns s -> lost w s -> astep s s' -> owns s' /\ lost w s'.
Proof. intros Ho Hl Hstep. destruct Hstep as [s1 s2 Hs|s1 k]; [by apply (tstep_lost w s1)|]. split; [by apply owns_Poison|by apply lost_Poison]. Qed.

(** Who waits for a lost pill goes on waiting. *)
Lemma phase_upd x f s y a p :
  actors s !! y = Some a -> ph a = p -> (x = y -> ph (f a) = p) -> exists a', actors (upd x f s) !! y = Some a' /\ ph a' = p.
Proof.
  intros Hy Hp Hf. rewrite upd_lookup. case_decide as Hxy; [|by exists a]. subst x. rewrite Hy. exists (f a). split; [done|by apply Hf].
Qed.

Lemma phase_Poison k s y a p :
  actors s !! y = Some a -> ph a = p -> exists a', actors (Poison k s).1 !! y = Some a' /\ ph a' = p.
Proof.
  intros Hy Hp. unfold Poison. destruct (actors s !! k) as [b|] eqn:Hk; [|by exists a]. destruct (is_gone b); cbn [fst].
  - cbn [actors]. destruct (decide (k = y)) as [->|Hne]; [|rewrite lookup_insert_ne by done; by exists a].
    rewrite lookup_insert_eq. eexists. split; [done|]. cbn. congruence.
  - by apply (phase_upd k _ s y a).
Qed.

Lemma waits_on w s s' x a c ks :
  lost w s -> actors s !! x = Some a -> ph a = Waiting c w ks -> astep s s' ->
  exists a', actors s' !! x = Some a' /\ ph a' = Waiting c w ks.
Proof.
  intros [_ Hc] Hx Hp Hstep. destruct Hstep as [s s' Hstep|s k]; [|by apply (phase_Poison k s x a)].
  destruct Hstep as [s y b d cs Hy Hpy Hpl|s y b d ks' Hy Hpy Hks|s y b d k ks' s1 w' Hy Hpy HP|s y b d w' ks' Hy Hpy Hw|s y b d Hy Hpy].
  - set (g := fun a => set_pills cs (set_ph (Leaving d) a)).
    assert (H1 : exists a', actors (upd y g s) !! x = Some a' /\ ph a' = Waiting c w ks).
    { apply (phase_upd y g s x a); [done|done|]. intros ->. congruence. }
    destruct (parentCtx b) as [p|]; [|done]. cbn [leave_parent]. destruct H1 as (a' & H1 & H2). by apply (phase_upd p _ _ x a').
  - apply (phase_upd y _ s x a); [done|done|]. intros ->. congruence.
  - destruct (phase_Poison k s x a _ Hx Hp) as (a' & H1 & H2). rewrite HP in H1. apply (phase_upd y _ s1 x a'); [done|done|].
    intros ->. congruence.
  - apply (phase_upd y _ s x a); [done|done|]. intros ->. assert (b = a) as -> by congruence. congruence.
  - apply (phase_upd y (set_ph (Gone d)) s x a); [done|done|]. intros ->. congruence.
Qed.

(** ** Correctness of the shutdown *)



(** A root with a child and a grandchild, and another root. *)
Definition demo_trees : system :=
  SpawnChild "a/b/1" "c" "2" (SpawnChild "a" "b" "1" (Spawn "z" (Spawn "a" (mkSystem ∅ [])))).
Definition demo_poisoned : system := (Poison "a" demo_trees).1.

Lemma demo_poisoned_standing : standing demo_poisoned.
Proof.
  apply Poison_standing.
  - apply SpawnChild_standing; [|by eexists|done]. apply SpawnChild_standing; [|by eexists|done].
    apply Spawn_standing, Spawn_standing, standing_empty.
  - intros x a Hx%elem_of_map_to_list. vm_compute in Hx.
    repeat (apply elem_of_cons in Hx as [Hx|Hx]; [by injection Hx as _ ->|]). by apply elem_of_nil in Hx.
  - by eexists.
Qed.


(** The child has been poisoned before the parent takes its pill. *)
Definition demo_twice : system :=
  mkSystem
    (<["p"%string := mkActor None {["p/c/1"%string]} [] 1 (Waiting ("p"%string, 0%nat) ("p/c/1"%string, 1%nat) [])]>
    (<["p/c/1"%string := mkActor (Some "p"%string) ∅ [("p/c/1"%string, 0%nat); ("p/c/1"%string, 1%nat)] 2 Running]> ∅)) [].

