(* ===== verification/Engine.v ===== *)
(** * The engine: registry, routing, poison pills and responses
    ([actor/engine.go], [actor/registry.go], [actor/response.go])

    The state of an engine is its registry, the result channels of pending
    responses, the messages handed to the remote and the contexts of poison
    pills.  Every operation is a function on that state; the registry's mutex
    makes each registry access atomic.  A registered process is seen from here
    as its mailbox (see [Inbox] for what happens behind it). *)

From S2P Require Import Prelude Pid Messages Process.

(** The processes in a registry. *)
Inductive Processer :=
  | PMailbox (pid : PID) (queue : list Envelope)   (** a [*process] or a stream writer *)
  | PResponse (pid : PID) (result : Z)             (** a [*Response] and its channel *).

Definition proc_PID (p : Processer) : PID :=
  match p with PMailbox pid _ => pid | PResponse pid _ => pid end.

(** A message given to [e.remote]. *)
Record remote_send := mkRemoteSend {
  rs_priority : bool; rs_target : PID; rs_msg : any; rs_sender : option PID
}.

Record Engine := mkEngine {
  registry : gmap string Processer;      (* Registry.lookup *)
  address : string;
  remote : bool;                         (* e.remote != nil *)
  eventStream : option PID;
  results : gmap Z (list any);           (* the result channels, capacity 1 *)
  outbox : list remote_send;
  next_ref : Z;                          (* names of channels and contexts *)
  done_ctx : list Z;                     (* cancelled contexts *)
}.

Definition LocalLookupAddr : string := "local".

Definition set_registry r e := mkEngine r (address e) (remote e) (eventStream e) (results e) (outbox e) (next_ref e) (done_ctx e).
Definition set_results r e := mkEngine (registry e) (address e) (remote e) (eventStream e) r (outbox e) (next_ref e) (done_ctx e).
Definition set_eventStream s e := mkEngine (registry e) (address e) (remote e) s (results e) (outbox e) (next_ref e) (done_ctx e).
Definition to_remote m e := mkEngine (registry e) (address e) (remote e) (eventStream e) (results e) (outbox e ++ [m]) (next_ref e) (done_ctx e).
Definition fresh_ref e := (next_ref e, mkEngine (registry e) (address e) (remote e) (eventStream e) (results e) (outbox e) (next_ref e + 1) (done_ctx e)).
Definition cancel_ctx c e := mkEngine (registry e) (address e) (remote e) (eventStream e) (results e) (outbox e) (next_ref e) (done_ctx e ++ [c]).

(** An engine operation ends like any call (see [Process.outcome]). *)
Definition obind {A B} (m : outcome A) (k : A -> outcome B) : outcome B :=
  match m with Returns a => k a | Panics v => Panics v | Blocks => Blocks | OutOfFuel => OutOfFuel end.

(** ** Registry *)

Definition get (pid : option PID) (e : Engine) : option Processer :=
  match pid with None => None | Some pid => registry e !! ID pid end.

Definition getByID (id : string) (e : Engine) : option Processer := registry e !! id.

Definition GetPID (kind id : string) (e : Engine) : option PID :=
  proc_PID <$> getByID (kind +:+ pidSeparator +:+ id) e.

Definition Remove (pid : PID) (e : Engine) : Engine := set_registry (delete (ID pid) (registry e)) e.

(** ** Sending *)

(** [proc.Send] and [proc.SendPriority]: a mailbox takes everything; the channel
    of a response holds one message and makes the next sender wait. *)
Definition proc_send (priority : bool) (p : Processer) (msg : any) (sender : option PID) (e : Engine)
  : outcome Engine :=
  match p with
  | PMailbox pid q =>
      let q := if priority then mkEnvelope msg sender :: q else q ++ [mkEnvelope msg sender] in
      Returns (set_registry (<[ID pid := PMailbox pid q]> (registry e)) e)
  | PResponse pid c =>
      match default [] (results e !! c) with
      | [] => Returns (set_results (<[c := [msg]]> (results e)) e)
      | _ :: _ => Blocks
      end
  end.

Definition isLocalMessage (pid : PID) (e : Engine) : bool := bool_decide (address e = Address pid).

Section sending.
Variable broadcast : any -> Engine -> outcome Engine.

(** [SendLocal] and [SendPriorityLocal]. *)
Definition send_local (priority : bool) (pid : option PID) (msg : any) (sender : option PID)
    (e : Engine) : outcome Engine :=
  match get pid e with
  | None => broadcast (ADeadLetterEvent pid msg sender) e
  | Some proc => proc_send priority proc msg sender e
  end.

(** [send] and [sendPriority]. *)
Definition send_with (priority : bool) (pid : option PID) (msg : any) (sender : option PID)
    (e : Engine) : outcome Engine :=
  match pid with
  | None => Returns e
  | Some target =>
      if isLocalMessage target e then send_local priority pid msg sender e
      else if negb (remote e) then broadcast (AEngineRemoteMissingEvent target sender msg) e
      else Returns (to_remote (mkRemoteSend priority target msg sender) e)
  end.
End sending.

(** [BroadcastEvent] sends to the event stream, which may broadcast again. *)
Fixpoint BroadcastEvent (fuel : nat) (msg : any) (e : Engine) : outcome Engine :=
  match fuel with
  | O => OutOfFuel
  | S fuel =>
      match eventStream e with
      | None => Returns e
      | Some es => send_with (BroadcastEvent fuel) false (Some es) msg None e
      end
  end.

Definition send (fuel : nat) := send_with (BroadcastEvent fuel) false.
Definition sendPriority (fuel : nat) := send_with (BroadcastEvent fuel) true.
Definition SendLocal (fuel : nat) := send_local (BroadcastEvent fuel) false.
Definition SendPriorityLocal (fuel : nat) := send_local (BroadcastEvent fuel) true.

Definition Send fuel pid msg := send fuel pid msg None.
Definition SendWithSender fuel pid msg sender := send fuel pid msg sender.
Definition SendPriority fuel pid msg := sendPriority fuel pid msg None.
Definition SendPriorityWithSender fuel pid msg sender := sendPriority fuel pid msg sender.

(** ** Spawning *)

(** [Registry.add]; [start] is [proc.Start()], which runs after the lock is
    released. *)
Definition add (fuel : nat) (proc : Processer) (start : Engine -> outcome Engine) (e : Engine)
  : outcome Engine :=
  match registry e !! ID (proc_PID proc) with
  | Some _ => BroadcastEvent fuel (AActorDuplicateIdEvent (proc_PID proc)) e
  | None => start (set_registry (<[ID (proc_PID proc) := proc]> (registry e)) e)
  end.

Definition SpawnProc (fuel : nat) (proc : Processer) (start : Engine -> outcome Engine) (e : Engine)
  : outcome (Engine * PID) :=
  obind (add fuel proc start e) (fun e => Returns (e, proc_PID proc)).

(** [Spawn]: [rnd] is the decimal random number used when no id is given. *)
Definition Spawn (fuel : nat) (kind id rnd : string) (start : Engine -> outcome Engine) (e : Engine)
  : outcome (Engine * PID) :=
  let id := if (String.length id =? 0)%nat then rnd else id in
  SpawnProc fuel (PMailbox (NewPID (address e) (kind +:+ pidSeparator +:+ id)) []) start e.

Definition new_engine (addr : string) (rem : bool) : Engine :=
  mkEngine ∅ addr rem None ∅ [] 0 [].

(** The configuration holds a remote, here by its address. *)
Record EngineConfig := mkEngineConfig { cfg_remote : option string }.
Definition NewEngineConfig : EngineConfig := mkEngineConfig None.
Definition WithRemote (addr : string) (c : EngineConfig) : EngineConfig := mkEngineConfig (Some addr).

(** [remote_start] is what the [Start] of the remote answers: [Some err] on failure. *)
Definition NewEngine (fuel : nat) (config : EngineConfig) (remote_start : option string) (rnd : string)
  : outcome (Engine + string) :=
  let spawn e := obind (Spawn fuel "eventstream" "" rnd Returns e)
    (fun '(e, es) => Returns (inl (set_eventStream (Some es) e))) in
  match cfg_remote config with
  | None => spawn (new_engine LocalLookupAddr false)
  | Some addr =>
      match remote_start with
      | Some err => Returns (inr ("failed to start remote: " +:+ err)%string)
      | None => spawn (new_engine addr true)
      end
  end.

(** ** Poison pills *)

(** [sendPoisonPill]: it returns the context that is done when the actor has
    stopped. *)
Definition sendPoisonPill (fuel : nat) (graceful : bool) (pid : option PID) (e : Engine)
  : outcome (Engine * Z) :=
  let '(c, e) := fresh_ref e in
  let pill := APoisonPill graceful (Some c) in
  match get pid e with
  | None => obind (BroadcastEvent fuel (ADeadLetterEvent pid pill None) e)
                  (fun e => Returns (cancel_ctx c e, c))
  | Some _ => obind (SendLocal fuel pid pill None e) (fun e => Returns (e, c))
  end.

Definition Stop (fuel : nat) := sendPoisonPill fuel false.
Definition Poison (fuel : nat) := sendPoisonPill fuel true.

(** [PoisonCtx]: the context it returns is derived from the caller's, [parent]. *)
Definition PoisonCtx (fuel : nat) (parent : Z) (pid : option PID) (e : Engine) : outcome (Engine * (Z * Z)) :=
  obind (sendPoisonPill fuel true pid e) (fun '(e, c) => Returns (e, (parent, c))).

(** A derived context is done when its parent is or when it was cancelled. *)
Definition derived_done (ctx : Z * Z) (e : Engine) : bool :=
  bool_decide (ctx.1 ∈ done_ctx e \/ ctx.2 ∈ done_ctx e).

(** ** Other operations *)

Definition ClearMailbox (pid : option PID) (e : Engine) : Engine :=
  match get pid e with
  | Some (PMailbox p _) => set_registry (<[ID p := PMailbox p []]> (registry e)) e
  | _ => e
  end.

Definition Subscribe (fuel : nat) (pid : pid_ptr) (e : Engine) : outcome Engine :=
  Send fuel (eventStream e) (AEventSub pid) e.
Definition Unsubscribe (fuel : nat) (pid : pid_ptr) (e : Engine) : outcome Engine :=
  Send fuel (eventStream e) (AEventUnsub pid) e.

(** ** Responses *)

Definition NewResponse (rnd : string) (e : Engine) : Engine * Processer :=
  let '(c, e) := fresh_ref e in
  (set_results (<[c := []]> (results e)) e,
   PResponse (NewPID (address e) ("response" +:+ pidSeparator +:+ rnd)) c).

Definition Request (fuel : nat) (pid : option PID) (msg : any) (rnd : string) (e : Engine)
  : outcome (Engine * Processer) :=
  let '(e, resp) := NewResponse rnd e in
  obind (add fuel resp Returns e) (fun e =>
  obind (SendWithSender fuel pid msg (Some (proc_PID resp)) e) (fun e => Returns (e, resp))).

(** [Result()]: [expired] says whether the deadline has passed; when a message is
    there too, [select] may take either branch, as [prefer_ctx] says. *)
Definition Result (resp_pid : PID) (c : Z) (expired prefer_ctx : bool) (e : Engine)
  : outcome (Engine * option any) :=
  match default [] (results e !! c), expired with
  | m :: _, false => Returns (Remove resp_pid (set_results (<[c := []]> (results e)) e), Some m)
  | m :: _, true =>
      if prefer_ctx then Returns (Remove resp_pid e, None)
      else Returns (Remove resp_pid (set_results (<[c := []]> (results e)) e), Some m)
  | [], true => Returns (Remove resp_pid e, None)
  | [], false => Blocks
  end.

(** ** Context operations that go through the engine ([actor/context.go]) *)

Definition Respond (fuel : nat) (sender : option PID) (msg : any) (e : Engine) : outcome Engine :=
  match sender with
  | None => Returns e
  | Some _ => Send fuel sender msg e
  end.

Definition Forward (fuel : nat) (self : PID) (msg : any) (target : option PID) (e : Engine)
  : outcome Engine := SendWithSender fuel target msg (Some self) e.

Definition Context_Send (fuel : nat) (self : PID) (pid : option PID) (msg : any) (e : Engine) : outcome Engine :=
  SendWithSender fuel pid msg (Some self) e.
Definition Context_SendPriority (fuel : nat) (self : PID) (pid : option PID) (msg : any) (e : Engine)
  : outcome Engine := SendPriorityWithSender fuel pid msg (Some self) e.
Definition Context_Request (fuel : nat) (pid : option PID) (msg : any) (rnd : string) (e : Engine)
  : outcome (Engine * Processer) := Request fuel pid msg rnd e.
Definition Context_GetPID (id : string) (e : Engine) : option PID := proc_PID <$> getByID id e.
Definition Context_ClearMailbox (self : PID) (e : Engine) : Engine := ClearMailbox (Some self) e.

(** [SpawnChild]: also returns the new children of the context. *)
Definition SpawnChild (fuel : nat) (self : PID) (children : gmap string PID) (name id rnd : string)
    (start : Engine -> outcome Engine) (e : Engine) : outcome (Engine * PID * gmap string PID) :=
  obind (Spawn fuel (ID self +:+ pidSeparator +:+ name) id rnd start e) (fun '(e, pid) =>
    Returns (e, pid, <[ID pid := pid]> children)).

(** ** Observations and the invariant *)

Definition mailbox (e : Engine) (id : string) : option (list Envelope) :=
  match registry e !! id with Some (PMailbox _ q) => Some q | _ => None end.

(** An actor takes the next message of its mailbox. *)
Definition pop_mailbox (id : string) (e : Engine) : option (Envelope * Engine) :=
  match registry e !! id with
  | Some (PMailbox pid (env :: q)) => Some (env, set_registry (<[id := PMailbox pid q]> (registry e)) e)
  | _ => None
  end.

(** Every process is registered under its own id, at the engine's address. *)
Definition registry_wf (e : Engine) : Prop :=
  forall id p, registry e !! id = Some p -> ID (proc_PID p) = id /\ Address (proc_PID p) = address e.

(** The event stream, if there is one, is registered and is not a response. *)
Definition stream_ok (e : Engine) : Prop :=
  forall es, eventStream e = Some es -> Address es = address e /\ is_Some (mailbox e (ID es)).

Definition wf (e : Engine) : Prop := registry_wf e /\ stream_ok e.

(** What stays when only mailboxes, channels and contexts change. *)
Definition same_shape (e e' : Engine) : Prop :=
  address e' = address e /\ remote e' = remote e /\ eventStream e' = eventStream e.

(** The mailbox of [id] gains [env]; nothing else changes. *)
Definition delivers (priority : bool) (id : string) (env : Envelope) (e e' : Engine) : Prop :=
  (exists pid q, registry e !! id = Some (PMailbox pid q) /\
     registry e' !! id = Some (PMailbox pid (if priority then env :: q else q ++ [env]))) /\
  (forall id', id' <> id -> registry e' !! id' = registry e !! id') /\
  same_shape e e' /\ results e' = results e /\ outbox e' = outbox e /\ done_ctx e' = done_ctx e /\
  next_ref e' = next_ref e.

(** [msg] reaches the event stream, if there is one. *)
Definition published (msg : any) (e e' : Engine) : Prop :=
  match eventStream e with
  | None => e' = e
  | Some es => delivers false (ID es) (mkEnvelope msg None) e e'
  end.

Lemma mailbox_spec e id q :
  registry_wf e -> mailbox e id = Some q ->
  exists pid, registry e !! id = Some (PMailbox pid q) /\ ID pid = id /\ Address pid = address e.
Proof.
  intros Hwf. unfold mailbox. destruct (registry e !! id) as [[pid q'|]|] eqn:Hl; try done.
  intros [= <-]. exists pid. split; [done|]. by apply (Hwf id (PMailbox pid q')).
Qed.

Lemma proc_send_delivers priority e id q pid msg sender :
  registry e !! id = Some (PMailbox pid q) -> ID pid = id ->
  exists e', proc_send priority (PMailbox pid q) msg sender e = Returns e' /\
    delivers priority id (mkEnvelope msg sender) e e'.
Proof.
  intros Hl <-. eexists. split; [done|]. split; [|split; [|done]].
  - exists pid, q. simpl. by rewrite Hl, lookup_insert_eq.
  - intros id' Hne. simpl. by rewrite lookup_insert_ne.
Qed.

Lemma delivers_mailbox priority id env e e' id' :
  delivers priority id env e e' -> is_Some (mailbox e id') -> is_Some (mailbox e' id').
Proof.
  intros ((pid & q & Hq & Hq') & Hother & _) Hs. unfold mailbox in *.
  destruct (decide (id' = id)) as [->|Hne]; [by rewrite Hq'|]. by rewrite Hother.
Qed.

(** A local actor that is registered. *)
Definition live (e : Engine) (p : PID) : Prop := Address p = address e /\ is_Some (mailbox e (ID p)).

Lemma live_delivers priority id env e e' p : delivers priority id env e e' -> live e p -> live e' p.
Proof.
  intros Hd [Ha Hm]. split; [|by eapply delivers_mailbox].
  destruct Hd as (_ & _ & (-> & _) & _). done.
Qed.

Lemma BroadcastEvent_ok fuel msg e :
  wf e -> exists e', BroadcastEvent (S fuel) msg e = Returns e' /\ published msg e e'.
Proof.
  intros [Hwf Hes]. unfold published. simpl. destruct (eventStream e) as [es|] eqn:He; [|by eexists].
  destruct (Hes es He) as [Ha [q Hq]].
  destruct (mailbox_spec e (ID es) q Hwf Hq) as (pid & Hl & Hid & _).
  unfold send_with, isLocalMessage. rewrite bool_decide_true by done.
  unfold send_local; simpl. rewrite Hl.
  destruct (proc_send_delivers false e (ID es) q pid msg None Hl Hid) as (e' & H1 & H2). eauto.
Qed.

(** Where a message ends up. *)
Inductive destination :=
  | DNowhere | DMailbox (id : string) | DChannel (c : Z) | DRemote (target : PID) | DEvent (event : any).

Definition destination_of (target : option PID) (msg : any) (sender : option PID) (e : Engine) : destination :=
  match target with
  | None => DNowhere
  | Some t =>
      if decide (Address t = address e) then
        match registry e !! ID t with
        | Some (PMailbox _ _) => DMailbox (ID t)
        | Some (PResponse _ c) => DChannel c
        | None => DEvent (ADeadLetterEvent target msg sender)
        end
      else if remote e then DRemote t else DEvent (AEngineRemoteMissingEvent t sender msg)
  end.

(** What arriving there means. *)
Definition arrives (priority : bool) (d : destination) (msg : any) (sender : option PID)
    (e : Engine) (o : outcome Engine) : Prop :=
  match d with
  | DNowhere => o = Returns e
  | DMailbox id => exists e', o = Returns e' /\ delivers priority id (mkEnvelope msg sender) e e'
  | DChannel c => match default [] (results e !! c) with
                  | [] => o = Returns (set_results (<[c := [msg]]> (results e)) e)
                  | _ => o = Blocks
                  end
  | DRemote t => o = Returns (to_remote (mkRemoteSend priority t msg sender) e)
  | DEvent event => exists e', o = Returns e' /\ published event e e'
  end.

Lemma send_with_arrives priority fuel target msg sender e :
  wf e ->
  arrives priority (destination_of target msg sender e) msg sender e
    (send_with (BroadcastEvent (S fuel)) priority target msg sender e).
Proof.
  intros Hwf. destruct target as [t|]; [|done]. unfold send_with, destination_of, isLocalMessage.
  destruct (decide (Address t = address e)) as [Ha|Ha].
  - rewrite bool_decide_true by done. unfold send_local. cbn [get].
    destruct (registry e !! ID t) as [[pid q|pid c]|] eqn:Hl.
    + apply proc_send_delivers; [done|]. by apply (proj1 Hwf) in Hl as [? _].
    + simpl. destruct (default [] (results e !! c)); done.
    + by apply BroadcastEvent_ok.
  - rewrite bool_decide_false by done. destruct (remote e) eqn:Hr; simpl negb; cbv iota.
    + done.
    + by apply BroadcastEvent_ok.
Qed.

(** C14: Routing.  With its event stream registered, a send (of normal or high
    priority) needs no nested broadcast beyond one and has exactly one effect: a
    nil target drops the message; a registered local actor gets it at the back
    (or, with priority, the front) of its mailbox with the sender attached; a
    pending response gets it unless its channel is full, where the sender waits;
    an unregistered local target makes a dead-letter event; another address goes
    to the remote, or makes a remote-missing event when there is none. *)
Theorem send_reaches_one_place (priority : bool) (fuel : nat) (target : option PID) (msg : any)
    (sender : option PID) (e : Engine) (Hwf : wf e) :
  arrives priority (destination_of target msg sender e) msg sender e
    (if priority then sendPriority (S fuel) target msg sender e else send (S fuel) target msg sender e).
Proof. destruct priority; by apply send_with_arrives. Qed.

(** ** Histories of engine operations *)

Inductive op :=
  | OSend (priority : bool) (target : option PID) (msg : any) (sender : option PID)
  | OSpawn (kind id rnd : string)
  | ORemove (pid : PID)
  | OPoison (graceful : bool) (target : option PID)
  | OClear (target : option PID)
  | ORequest (target : option PID) (msg : any) (rnd : string)
  | OResult (resp_pid : PID) (c : Z) (expired prefer_ctx : bool)
  | OSubscribe (pid : pid_ptr)
  | OUnsubscribe (pid : pid_ptr)
  | OBroadcast (msg : any).

Definition step (fuel : nat) (o : op) (e : Engine) : outcome Engine :=
  match o with
  | OSend priority t m s => if priority then sendPriority fuel t m s e else send fuel t m s e
  | OSpawn kind id rnd => obind (Spawn fuel kind id rnd Returns e) (fun '(e, _) => Returns e)
  | ORemove pid => Returns (Remove pid e)
  | OPoison graceful t => obind (sendPoisonPill fuel graceful t e) (fun '(e, _) => Returns e)
  | OClear t => Returns (ClearMailbox t e)
  | ORequest t m rnd => obind (Request fuel t m rnd e) (fun '(e, _) => Returns e)
  | OResult p c expired prefer => obind (Result p c expired prefer e) (fun '(e, _) => Returns e)
  | OSubscribe p => Subscribe fuel p e
  | OUnsubscribe p => Unsubscribe fuel p e
  | OBroadcast m => BroadcastEvent fuel m e
  end.

Fixpoint run (fuel : nat) (os : list op) (e : Engine) : outcome Engine :=
  match os with
  | [] => Returns e
  | o :: os => obind (step fuel o e) (run fuel os)
  end.

(** The operations that take [id] out of the registry. *)
Definition keeps (id : string) (o : op) : Prop :=
  match o with ORemove pid => ID pid <> id | OResult p _ _ _ => ID p <> id | _ => True end.

Definition op_ok (e : Engine) (o : op) : Prop :=
  forall es, eventStream e = Some es -> keeps (ID es) o.

(** A well-formed engine with the fixed parts of [e]. *)
Definition wf_like (e e' : Engine) : Prop := same_shape e e' /\ wf e'.

(** An operation does not diverge or panic, and keeps the engine well formed. *)
Definition fine (e : Engine) (o : outcome Engine) : Prop :=
  match o with Returns e' => wf_like e e' | Blocks => True | _ => False end.

Lemma wf_like_refl e : wf e -> wf_like e e.
Proof. by split. Qed.

Lemma wf_like_trans e1 e2 e3 : wf_like e1 e2 -> wf_like e2 e3 -> wf_like e1 e3.
Proof. intros [(?&?&?) _] [(?&?&?) ?]. split; [|done]. unfold same_shape. split_and!; congruence. Qed.

Lemma fine_trans e e' o : wf_like e e' -> fine e' o -> fine e o.
Proof. intros H. destruct o; simpl; try done. by apply wf_like_trans. Qed.

Lemma fine_obind {A} e (m : outcome A) (k : A -> outcome Engine) :
  match m with Returns a => fine e (k a) | Blocks => True | _ => False end -> fine e (obind m k).
Proof. by destruct m. Qed.

(** Changing the registry so that event streams stay keeps the invariant. *)
Lemma wf_set_registry r e :
  wf e ->
  (forall id p, r !! id = Some p -> ID (proc_PID p) = id /\ Address (proc_PID p) = address e) ->
  (forall es, eventStream e = Some es -> is_Some (mailbox (set_registry r e) (ID es))) ->
  wf_like e (set_registry r e).
Proof.
  intros [Hwf Hes] Hr Hm. split; [done|]. split; [exact Hr|].
  intros es He. split; [by apply Hes|]. by apply Hm.
Qed.

Lemma delivers_wf priority id env e e' : wf e -> delivers priority id env e e' -> wf_like e e'.
Proof.
  intros [Hwf Hes] Hd. pose proof Hd as ((pid & q & Hq & Hq') & Hother & (Ha & Hr & He) & _).
  split; [done|]. split.
  - intros id' p Hl. rewrite Ha. destruct (decide (id' = id)) as [->|Hne].
    + rewrite Hq' in Hl. injection Hl as <-. by apply (Hwf id (PMailbox pid q)).
    + rewrite Hother in Hl by done. by apply Hwf.
  - intros es Hse. rewrite He in Hse. destruct (Hes es Hse) as [H1 H2]. rewrite Ha. split; [done|].
    by eapply delivers_mailbox.
Qed.

(** Taking a message changes nothing but that mailbox. *)
Lemma pop_mailbox_ok id env q e :
  wf e -> mailbox e id = Some (env :: q) ->
  exists e', pop_mailbox id e = Some (env, e') /\ wf_like e e' /\ mailbox e' id = Some q /\
    (forall id', id' <> id -> registry e' !! id' = registry e !! id') /\ results e' = results e /\ outbox e' = outbox e.
Proof.
  intros Hwf Hq. destruct (mailbox_spec e id _ (proj1 Hwf) Hq) as (pid & Hl & Hid & Ha). unfold pop_mailbox. rewrite Hl.
  eexists. split; [done|]. set (e' := set_registry _ e).
  assert (Hm : mailbox e' id = Some q) by (unfold mailbox, e'; cbn [set_registry registry]; by rewrite lookup_insert_eq).
  assert (Hother : forall id', id' <> id -> registry e' !! id' = registry e !! id').
  { intros id' Hn. unfold e'. cbn [set_registry registry]. by rewrite lookup_insert_ne by congruence. }
  split; [|done]. apply wf_set_registry; [done| |].
  - intros id' p [[<- <-]|[_ Hp]]%lookup_insert_Some; [done|by apply (proj1 Hwf)].
  - intros es Hes. fold e'. destruct (proj2 Hwf es Hes) as [_ Hes'].
    destruct (decide (ID es = id)) as [->|Hn]; [by rewrite Hm|]. unfold mailbox in *. by rewrite Hother.
Qed.

Lemma published_wf msg e e' : wf e -> published msg e e' -> wf_like e e'.
Proof.
  unfold published. intros Hwf. destruct (eventStream e); [by apply delivers_wf|].
  intros ->. by apply wf_like_refl.
Qed.

Lemma broadcast_fine fuel msg e : wf e -> fine e (BroadcastEvent (S fuel) msg e).
Proof.
  intros Hwf. destruct (BroadcastEvent_ok fuel msg e Hwf) as (e' & -> & Hp). by eapply published_wf.
Qed.

Lemma wf_set_results r e : wf e -> wf_like e (set_results r e).
Proof. intros [? ?]. split; [done|]. by split. Qed.

Lemma send_fine priority fuel target msg sender e :
  wf e -> fine e (send_with (BroadcastEvent (S fuel)) priority target msg sender e).
Proof.
  intros Hwf. pose proof (send_with_arrives priority fuel target msg sender e Hwf) as H.
  destruct (destination_of target msg sender e); cbn [arrives] in H.
  - rewrite H. by apply wf_like_refl.
  - destruct H as (e' & -> & Hd). by eapply delivers_wf.
  - destruct (default [] (results e !! c)); rewrite H; [by apply wf_set_results|done].
  - rewrite H. by split.
  - destruct H as (e' & -> & Hd). by eapply published_wf.
Qed.

Lemma send_local_fine priority fuel target msg sender e :
  wf e -> fine e (send_local (BroadcastEvent (S fuel)) priority target msg sender e).
Proof.
  intros Hwf. unfold send_local. destruct (get target e) as [[pid q|pid c]|] eqn:Hg.
  - destruct target as [t|]; [|done]. simpl in Hg. pose proof (proj1 Hwf _ _ Hg) as [Hid _].
    destruct (proc_send_delivers priority e (ID t) q pid msg sender Hg Hid) as (e' & -> & Hd).
    by eapply delivers_wf.
  - unfold proc_send. destruct (default [] (results e !! c)); [by apply wf_set_results|done].
  - by apply broadcast_fine.
Qed.

Lemma wf_fresh_ref e : wf e -> wf_like e (fresh_ref e).2.
Proof. intros [? ?]. split; [done|]. by split. Qed.

Lemma wf_Remove pid e :
  wf e -> (forall es, eventStream e = Some es -> ID pid <> ID es) -> wf_like e (Remove pid e).
Proof.
  intros Hwf Hk. apply wf_set_registry; [done|..].
  - intros id p [_ Hl]%lookup_delete_Some. by apply (proj1 Hwf).
  - intros es He. unfold mailbox; simpl. rewrite lookup_delete_ne by by apply Hk.
    by apply (proj2 Hwf es He).
Qed.

Lemma add_fine fuel p e :
  wf e -> Address (proc_PID p) = address e -> fine e (add (S fuel) p Returns e).
Proof.
  intros Hwf Ha. unfold add. destruct (registry e !! ID (proc_PID p)) eqn:Hl; [by apply broadcast_fine|].
  apply wf_set_registry; [done|..].
  - intros id q [[<- <-]|[_ Hl']]%lookup_insert_Some; [done|]. by apply (proj1 Hwf).
  - intros es He. destruct (proj2 Hwf es He) as [_ Hs]. unfold mailbox in *; simpl.
    rewrite lookup_insert_ne; [done|]. intros Heq. rewrite <-Heq, Hl in Hs. by destruct Hs.
Qed.

Lemma sendPoisonPill_eq fuel graceful pid e :
  sendPoisonPill fuel graceful pid e =
  let e1 := (fresh_ref e).2 in
  let pill := APoisonPill graceful (Some (next_ref e)) in
  match get pid e with
  | None => obind (BroadcastEvent fuel (ADeadLetterEvent pid pill None) e1)
                  (fun e' => Returns (cancel_ctx (next_ref e) e', next_ref e))
  | Some _ => obind (SendLocal fuel pid pill None e1) (fun e' => Returns (e', next_ref e))
  end.
Proof. unfold sendPoisonPill, fresh_ref; simpl. by destruct pid. Qed.

Lemma step_fine fuel o e : wf e -> op_ok e o -> fine e (step (S fuel) o e).
Proof.
  intros Hwf Hk. destruct o as [priority t m s|kind id rnd|pid|graceful t|t|t m rnd|p c expired prefer|p|p|m];
    unfold step.
  - destruct priority; by apply send_fine.
  - apply fine_obind. unfold Spawn, SpawnProc.
    set (p := PMailbox _ _). pose proof (add_fine fuel p e Hwf eq_refl) as H.
    by destruct (add (S fuel) p Returns e).
  - apply wf_Remove; [done|]. intros es He. exact (Hk es He).
  - rewrite sendPoisonPill_eq. cbv zeta. pose proof (wf_fresh_ref e Hwf) as [Hs Hf].
    set (e1 := (fresh_ref e).2) in *. destruct (get t e).
    + pose proof (send_local_fine false fuel t (APoisonPill graceful (Some (next_ref e))) None e1 Hf) as H.
      unfold SendLocal. by destruct (send_local _ _ _ _ _ _).
    + pose proof (broadcast_fine fuel (ADeadLetterEvent t (APoisonPill graceful (Some (next_ref e))) None) e1 Hf) as H.
      by destruct (BroadcastEvent _ _ _).
  - unfold ClearMailbox. destruct (get t e) as [[pid q|pid c]|] eqn:Hg; [|by apply wf_like_refl|by apply wf_like_refl].
    destruct t as [t|]; [|done]. simpl in Hg. pose proof (proj1 Hwf _ _ Hg) as [Hid Ha].
    apply wf_set_registry; [done|..].
    + intros id p [[<- <-]|[_ Hl']]%lookup_insert_Some; [done|]. by apply (proj1 Hwf).
    + intros es He. destruct (proj2 Hwf es He) as [_ Hm]. unfold mailbox in *; simpl.
      destruct (decide (ID pid = ID es)) as [<-|Hne]; [by rewrite lookup_insert_eq|by rewrite lookup_insert_ne].
  - apply fine_obind. unfold Request, NewResponse. cbn [fresh_ref].
    set (e1 := set_results _ _). assert (Hf : wf_like e e1).
    { eapply wf_like_trans; [apply (wf_fresh_ref e Hwf)|]. apply wf_set_results, (wf_fresh_ref e Hwf). }
    set (p := PResponse _ _). pose proof (add_fine fuel p e1 (proj2 Hf) eq_refl) as H.
    destruct (add (S fuel) p Returns e1) as [e2| | |]; simpl in H |- *; try done.
    pose proof (send_fine false fuel t m (Some (proc_PID p)) e2 (proj2 H)) as H2.
    unfold SendWithSender, send. destruct (send_with _ _ _ _ _ _); simpl in H2 |- *; try done.
    eapply wf_like_trans; [exact Hf|]. by eapply wf_like_trans.
  - apply fine_obind. assert (Hr : forall r, wf_like e (Remove p (set_results r e))).
    { intros r. eapply wf_like_trans; [by apply wf_set_results|].
      apply wf_Remove; [apply wf_set_results, Hwf|]. intros es He. exact (Hk es He). }
    assert (Hn : wf_like e (Remove p e)) by (apply wf_Remove; [done|intros es He; exact (Hk es He)]).
    unfold Result. destruct (default [] (results e !! c)), expired, prefer; done.
  - by apply send_fine.
  - by apply send_fine.
  - by apply broadcast_fine.
Qed.

Lemma run_fine fuel os e :
  wf e -> Forall (op_ok e) os -> fine e (run (S fuel) os e).
Proof.
  revert e. induction os as [|o os IH]; intros e Hwf Hos; [by apply wf_like_refl|].
  apply Forall_cons in Hos as [Ho Hos]. pose proof (step_fine fuel o e Hwf Ho) as Hf.
  cbn [run]. destruct (step (S fuel) o e) as [e1| | |]; simpl in Hf |- *; try done.
  eapply fine_trans; [exact Hf|]. destruct Hf as [(Ha & _ & He) Hwf1]. apply IH; [done|].
  eapply Forall_impl; [exact Hos|]. intros o' Ho' es Hes. apply Ho'. congruence.
Qed.

(** A new engine is well-formed. *)
Lemma NewEngine_wf fuel config err rnd :
  (exists e, NewEngine fuel config err rnd = Returns (inl e) /\ wf e /\
     address e = default LocalLookupAddr (cfg_remote config) /\ remote e = bool_decide (is_Some (cfg_remote config))) \/
  (is_Some (cfg_remote config) /\ exists s, err = Some s /\
     NewEngine fuel config err rnd = Returns (inr ("failed to start remote: " +:+ s)%string)).
Proof.
  assert (Hs : forall addr rem, exists e,
    obind (Spawn fuel "eventstream" "" rnd Returns (new_engine addr rem))
      (fun '(e, es) => Returns (inl (A := Engine) (B := string) (set_eventStream (Some es) e))) = Returns (inl e) /\ wf e /\ address e = addr /\ remote e = rem).
  { intros addr rem. unfold Spawn, SpawnProc, add. cbn [String.length Nat.eqb new_engine registry proc_PID ID NewPID address].
    rewrite lookup_empty. eexists. split; [reflexivity|]. split; [|done]. split.
    - intros id p. cbn. intros [[<- <-]|[_ Hp]]%lookup_insert_Some; [done|by rewrite lookup_empty in Hp].
    - intros es [= <-]. split; [done|]. unfold mailbox. cbn. rewrite lookup_insert_eq. by eexists. }
  unfold NewEngine. destruct config as [[addr|]]; cbn [cfg_remote].
  - destruct err as [s|]; [right|left].
    + split; [by eexists|]. by exists s.
    + destruct (Hs addr true) as (e & -> & H). exists e. rewrite bool_decide_true by by eexists. by split.
  - left. destruct (Hs LocalLookupAddr false) as (e & -> & H). exists e. rewrite bool_decide_false by by intros [? [=]]. by split.
Qed.

(** ** A concrete engine *)

(** The engine [NewEngine] makes without a remote, with one actor [demo/1]. *)
Definition demo_stream : PID := NewPID "local" "eventstream/7".
Definition demo_engine : Engine :=
  match NewEngine 1 NewEngineConfig None "7" with
  | Returns (inl e) => match Spawn 1 "demo" "1" "" Returns e with Returns (e, _) => e | _ => e end
  | _ => new_engine "" false
  end.
Definition demo_actor : PID := NewPID "local" "demo/1".

Lemma demo_engine_wf : wf demo_engine.
Proof.
  split.
  - intros id p Hl. apply elem_of_map_to_list in Hl.
    assert (Hall : Forall (fun '(id, p) => ID (proc_PID p) = id /\ Address (proc_PID p) = "local"%string)
      (map_to_list (registry demo_engine))) by (vm_compute; by repeat constructor).
    rewrite Forall_forall in Hall. by specialize (Hall _ Hl).
  - intros es He. vm_compute in He. injection He as <-. split; [reflexivity|]. eexists. vm_compute. reflexivity.
Qed.

(** ** Correctness of the engine *)



Lemma send_reaches_one_place_witness :
  arrives true (DMailbox "demo/1") (AUser "x" []) None demo_engine
    (sendPriority 1 (Some demo_actor) (AUser "x" []) None demo_engine).
Proof.
  exact (send_reaches_one_place true 0 (Some demo_actor) (AUser "x" []) None demo_engine demo_engine_wf).
Defined.

(** A lost event stream makes undeliverable messages fatal.  If the event
    stream is no longer registered, a local send to an unregistered PID — and
    any broadcast at all — never returns: each dead letter is itself sent to the
    event stream, which is a dead letter again, however deep the calls nest. *)
Theorem lost_event_stream_diverges (priority : bool) (fuel : nat) (es t : PID) (msg : any)
    (sender : option PID) (e : Engine)
    (Hes : eventStream e = Some es) (Hlocal : Address es = address e)
    (Hlost : registry e !! ID es = None)
    (Ht : Address t = address e) (Hdead : registry e !! ID t = None) :
  BroadcastEvent fuel msg e = OutOfFuel /\
  (if priority then sendPriority fuel (Some t) msg sender e else send fuel (Some t) msg sender e) = OutOfFuel.
Proof.
  assert (Hb : forall fuel msg, BroadcastEvent fuel msg e = OutOfFuel).
  { clear fuel msg. induction fuel as [|fuel IH]; intros msg; [done|]. simpl. rewrite Hes.
    unfold send_with, isLocalMessage, send_local. rewrite bool_decide_true by done.
    simpl. rewrite Hlost. apply IH. }
  split; [apply Hb|]. destruct priority; unfold sendPriority, send, send_with, isLocalMessage, send_local;
    rewrite bool_decide_true by done; simpl; rewrite Hdead; apply Hb.
Qed.

Lemma lost_event_stream_diverges_witness :
  let e := Remove demo_stream demo_engine in
  BroadcastEvent 100 ANil e = OutOfFuel /\
  send 100 (Some (NewPID "local" "nobody")) ANil None e = OutOfFuel.
Proof.
  apply (lost_event_stream_diverges false 100 demo_stream (NewPID "local" "nobody") ANil None
    (Remove demo_stream demo_engine)); vm_compute; reflexivity.
Defined.

Lemma mailbox_delivers priority id env e e' :
  delivers priority id env e e' ->
  exists q, mailbox e id = Some q /\ mailbox e' id = Some (if priority then env :: q else q ++ [env]).
Proof. intros ((pid & q & H1 & H2) & _). exists q. unfold mailbox. by rewrite H1, H2. Qed.

(** Registration is first come, first served.  Spawning under a free id
    registers the actor with an empty mailbox and then starts it; spawning under
    a taken id starts nothing, leaves the process that holds the id in place and
    publishes a duplicate-id event — yet returns the same PID. *)
Theorem spawn_outcomes (fuel : nat) (kind id rnd : string) (start : Engine -> outcome Engine) (e : Engine)
    (Hwf : wf e) :
  let pid := NewPID (address e) (kind +:+ pidSeparator +:+ (if decide (id = "") then rnd else id)) in
  (registry e !! ID pid = None ->
     Spawn (S fuel) kind id rnd start e =
       obind (start (set_registry (<[ID pid := PMailbox pid []]> (registry e)) e)) (fun e' => Returns (e', pid))) /\
  (is_Some (registry e !! ID pid) ->
     exists e', Spawn (S fuel) kind id rnd start e = Returns (e', pid) /\
       published (AActorDuplicateIdEvent pid) e e').
Proof.
  intros pid.
  assert (Hid : (if (String.length id =? 0)%nat then rnd else id) = (if decide (id = "") then rnd else id)).
  { destruct id; [done|]. by rewrite decide_False. }
  unfold Spawn, SpawnProc, add. rewrite Hid. fold pid. cbn [proc_PID].
  split.
  - intros ->. done.
  - intros [p ->]. destruct (BroadcastEvent_ok fuel (AActorDuplicateIdEvent pid) e Hwf) as (e' & -> & Hp).
    exists e'. done.
Qed.

Lemma spawn_outcomes_witness :
  exists e', Spawn 1 "demo" "1" "" Returns demo_engine = Returns (e', demo_actor) /\
    published (AActorDuplicateIdEvent demo_actor) demo_engine e'.
Proof.
  apply (spawn_outcomes 0 "demo" "1" "" Returns demo_engine demo_engine_wf). eexists. vm_compute. reflexivity.
Defined.

(** [SpawnChild] under a taken id adopts the process that holds it: nothing
    is spawned, but the parent lists that process among its children (and will
    poison it when it stops). *)
Theorem spawn_child_adopts (fuel : nat) (self : PID) (children : gmap string PID) (name id rnd : string)
    (start : Engine -> outcome Engine) (e : Engine) (p : Processer)
    (Hwf : wf e) (Hid : id <> ""%string)
    (Htaken : registry e !! (ID self +:+ pidSeparator +:+ name +:+ pidSeparator +:+ id) = Some p) :
  exists e' pid children', SpawnChild (S fuel) self children name id rnd start e = Returns (e', pid, children') /\
    published (AActorDuplicateIdEvent pid) e e' /\ pid_equiv pid (proc_PID p) /\
    children' = <[ID (proc_PID p) := pid]> children.
Proof.
  unfold SpawnChild, Spawn, SpawnProc, add. destruct id as [|a s] eqn:Es; [done|]. rewrite <-Es in *.
  assert ((String.length id =? 0)%nat = false) as -> by by subst.
  set (pid := NewPID _ _). cbn [proc_PID].
  assert (Hk : ID pid = ID self +:+ pidSeparator +:+ name +:+ pidSeparator +:+ id).
  { unfold pid; simpl. by rewrite !string_app_assoc. }
  rewrite Hk, Htaken. destruct (BroadcastEvent_ok fuel (AActorDuplicateIdEvent pid) e Hwf) as (e' & -> & Hp).
  cbn [obind]. destruct (proj1 Hwf _ _ Htaken) as [Hi Ha].
  eexists e', pid, _. split; [done|]. split; [done|]. split; [apply Equals_spec; by rewrite Ha, Hi|].
  by rewrite Hi, <-Hk.
Qed.

Lemma spawn_child_adopts_witness :
  let other := NewPID "local" "p/demo/1" in
  let e := set_registry (<["p/demo/1" := PMailbox other []]> (registry demo_engine)) demo_engine in
  exists e' pid children', SpawnChild 1 (NewPID "local" "p") ∅ "demo" "1" "" Returns e = Returns (e', pid, children') /\
    published (AActorDuplicateIdEvent pid) e e' /\ pid_equiv pid other /\
    children' = <["p/demo/1" := pid]> ∅.
Proof.
  intros other e. apply (spawn_child_adopts 0 (NewPID "local" "p") ∅ "demo" "1" "" Returns e (PMailbox other [])).
  - destruct demo_engine_wf as [Hr Hs]. split.
    + intros id p Hl. apply (lookup_insert_Some (registry demo_engine)) in Hl as [[<- <-]|[_ Hl]];
        [split; vm_compute; reflexivity|by apply Hr].
    + intros es He. vm_compute in He. injection He as <-. split; [reflexivity|]. eexists. vm_compute. reflexivity.
  - discriminate.
  - vm_compute. reflexivity.
Defined.

(** Poison pills.  [Poison] and [Stop] return a fresh context.  If the id is
    not registered, the context is cancelled at once and a dead letter published;
    if it names an actor, the pill goes to the back of its mailbox and the
    context is not done yet.  Only the id of the PID is looked at: a PID of
    another engine with the same id stops the local actor. *)
Theorem poison_outcomes (fuel : nat) (graceful : bool) (t : PID) (e : Engine) (Hwf : wf e) :
  let c := next_ref e in
  let pill := APoisonPill graceful (Some c) in
  match registry e !! ID t with
  | None => exists e', sendPoisonPill (S fuel) graceful (Some t) e = Returns (cancel_ctx c e', c) /\
      published (ADeadLetterEvent (Some t) pill None) (fresh_ref e).2 e'
  | Some (PMailbox _ _) => exists e', sendPoisonPill (S fuel) graceful (Some t) e = Returns (e', c) /\
      delivers false (ID t) (mkEnvelope pill None) (fresh_ref e).2 e' /\ done_ctx e' = done_ctx e
  | Some (PResponse _ _) => True
  end.
Proof.
  intros c pill. rewrite sendPoisonPill_eq. cbv zeta. fold c pill. cbn [get].
  pose proof (wf_fresh_ref e Hwf) as [_ Hf]. destruct (registry e !! ID t) as [[pid q|]|] eqn:Hl; [|done|].
  - pose proof (proj1 Hwf _ _ Hl) as [Hid _].
    destruct (proc_send_delivers false (fresh_ref e).2 (ID t) q pid pill None Hl Hid) as (e' & Hs & Hd).
    exists e'. unfold SendLocal, send_local. cbn [get]. change (registry (fresh_ref e).2) with (registry e).
    rewrite Hl, Hs. split; [done|]. split; [done|]. by destruct Hd as (_ & _ & _ & _ & _ & -> & _).
  - destruct (BroadcastEvent_ok fuel (ADeadLetterEvent (Some t) pill None) _ Hf) as (e' & -> & Hp).
    by exists e'.
Qed.

Lemma poison_outcomes_witness :
  exists e', Poison 1 (Some (NewPID "10.0.0.1:4000" "demo/1")) demo_engine = Returns (e', 0) /\
    delivers false "demo/1" (mkEnvelope (APoisonPill true (Some 0)) None) (fresh_ref demo_engine).2 e' /\
    done_ctx e' = [].
Proof. exact (poison_outcomes 0 true (NewPID "10.0.0.1:4000" "demo/1") demo_engine demo_engine_wf). Defined.

(** ** Requests *)

Lemma Request_eq fuel pid msg rnd e :
  Request fuel pid msg rnd e =
  let rp := NewPID (address e) ("response" +:+ pidSeparator +:+ rnd) in
  let e0 := set_results (<[next_ref e := []]> (results e)) (fresh_ref e).2 in
  obind (match registry e !! ID rp with
         | Some _ => BroadcastEvent fuel (AActorDuplicateIdEvent rp) e0
         | None => Returns (set_registry (<[ID rp := PResponse rp (next_ref e)]> (registry e)) e0)
         end) (fun e1 =>
  obind (send fuel pid msg (Some rp) e1) (fun e2 => Returns (e2, PResponse rp (next_ref e)))).
Proof. done. Qed.

Lemma wf_new_response e : wf e -> wf_like e (set_results (<[next_ref e := []]> (results e)) (fresh_ref e).2).
Proof.
  intros Hwf. eapply wf_like_trans; [apply (wf_fresh_ref e Hwf)|]. apply wf_set_results, (wf_fresh_ref e Hwf).
Qed.

(** What [Request] leaves behind for a local actor and a free response id. *)
Lemma Request_ok fuel t q msg rnd e :
  wf e -> Address t = address e -> mailbox e (ID t) = Some q ->
  registry e !! ("response" +:+ pidSeparator +:+ rnd) = None ->
  let rp := NewPID (address e) ("response" +:+ pidSeparator +:+ rnd) in
  exists e1, Request (S fuel) (Some t) msg rnd e = Returns (e1, PResponse rp (next_ref e)) /\
    wf e1 /\ mailbox e1 (ID t) = Some (q ++ [mkEnvelope msg (Some rp)]) /\
    registry e1 !! ID rp = Some (PResponse rp (next_ref e)) /\
    results e1 !! next_ref e = Some [] /\ address e1 = address e /\ eventStream e1 = eventStream e /\
    next_ref e1 = next_ref e + 1 /\
    forall id, id <> ID t -> id <> ID rp -> registry e1 !! id = registry e !! id.
Proof.
  intros Hwf Ha Hq Hfree rp. rewrite Request_eq. cbv zeta. fold rp. change (registry e !! ID rp = None) in Hfree.
  rewrite Hfree. cbn [obind]. pose proof (wf_new_response e Hwf) as Hf.
  set (e0 := set_results _ _) in *. set (e1 := set_registry _ _).
  assert (Hwf1 : wf e1).
  { pose proof (add_fine 0 (PResponse rp (next_ref e)) e0 (proj2 Hf) eq_refl) as H.
    unfold add in H. cbn [proc_PID] in H. change (registry e0) with (registry e) in H.
    rewrite Hfree in H. apply H. }
  assert (Hne : ID t <> ID rp) by (intros Heq; unfold mailbox in Hq; by rewrite Heq, Hfree in Hq).
  destruct (mailbox_spec e (ID t) q (proj1 Hwf) Hq) as (pid & Hl & Hid & _).
  assert (Hl1 : registry e1 !! ID t = Some (PMailbox pid q)) by (simpl; by rewrite lookup_insert_ne).
  pose proof (send_with_arrives false fuel (Some t) msg (Some rp) e1 Hwf1) as Hs.
  unfold destination_of in Hs. rewrite decide_True, Hl1 in Hs by done.
  destruct Hs as (e2 & Hs & Hd). unfold send. rewrite Hs. exists e2.
  pose proof (delivers_wf _ _ _ _ _ Hwf1 Hd) as [(A1 & _ & A3) Hwf2].
  destruct (mailbox_delivers _ _ _ _ _ Hd) as (q' & Hq1 & Hq2).
  unfold mailbox in Hq1 at 1. rewrite Hl1 in Hq1. injection Hq1 as <-.
  destruct Hd as (_ & Ho & _ & Hr & _ & _ & Hnext). split_and!; try done.
  - rewrite Ho by done. simpl. by rewrite lookup_insert_eq.
  - rewrite Hr. simpl. by rewrite lookup_insert_eq.
  - intros id Ht Hrp. rewrite Ho by done. cbn [set_registry registry e1]. by rewrite lookup_insert_ne by done.
Qed.

(** C22: Request and response.  Requesting a local actor (under a free response
    id) puts the message in its mailbox with the response as sender.  The first
    reply to that sender makes [Result] return it and unregister the response; a
    second reply before [Result] reads makes its sender wait; without a reply,
    [Result] waits, and after the deadline gives an error and unregisters. *)
Theorem request_response (fuel : nat) (t : PID) (q : list Envelope) (msg reply reply2 : any) (rnd : string)
    (e : Engine) (Hwf : wf e) (Ha : Address t = address e) (Hq : mailbox e (ID t) = Some q)
    (Hfree : registry e !! ("response" +:+ pidSeparator +:+ rnd) = None) :
  exists e1 e2 rp c, Request (S fuel) (Some t) msg rnd e = Returns (e1, PResponse rp c) /\
    mailbox e1 (ID t) = Some (q ++ [mkEnvelope msg (Some rp)]) /\
    Respond (S fuel) (Some rp) reply e1 = Returns e2 /\
    (exists e3, Result rp c false false e2 = Returns (e3, Some reply) /\ registry e3 !! ID rp = None) /\
    Respond (S fuel) (Some rp) reply2 e2 = Blocks /\
    Result rp c false false e1 = Blocks /\
    (exists e4, Result rp c true true e1 = Returns (e4, None) /\ registry e4 !! ID rp = None).
Proof.
  destruct (Request_ok fuel t q msg rnd e Hwf Ha Hq Hfree) as (e1 & Hreq & Hwf1 & Hm & Hreg & Hres & Haddr & _ & _).
  set (rp := NewPID _ _) in *. set (c := next_ref e) in *.
  set (e2 := set_results (<[c := [reply]]> (results e1)) e1).
  assert (Hl : forall m e', registry e' = registry e1 -> address e' = address e1 ->
    Respond (S fuel) (Some rp) m e' = match default [] (results e' !! c) with
      | [] => Returns (set_results (<[c := [m]]> (results e')) e') | _ => Blocks end).
  { intros m e' Hr' Ha'. unfold Respond, Send, send, send_with, isLocalMessage, send_local.
    rewrite bool_decide_true by (rewrite Ha'; done). cbn [get]. rewrite Hr', Hreg. done. }
  exists e1, e2, rp, c. split; [done|]. split; [done|].
  split; [rewrite Hl by done; by rewrite Hres|].
  assert (H2 : results e2 !! c = Some [reply]) by (simpl; by rewrite lookup_insert_eq).
  split; [|split; [|split]].
  - eexists. unfold Result. rewrite H2. split; [done|]. simpl. by rewrite lookup_delete_eq.
  - rewrite Hl by done. by rewrite H2.
  - unfold Result. by rewrite Hres.
  - eexists. unfold Result. rewrite Hres. split; [done|]. simpl. by rewrite lookup_delete_eq.
Qed.

Lemma request_response_witness :
  exists e1 e2 rp c, Request 1 (Some demo_actor) (AUser "ping" []) "3" demo_engine = Returns (e1, PResponse rp c) /\
    mailbox e1 "demo/1" = Some ([] ++ [mkEnvelope (AUser "ping" []) (Some rp)]) /\
    Respond 1 (Some rp) (AUser "pong" []) e1 = Returns e2 /\
    (exists e3, Result rp c false false e2 = Returns (e3, Some (AUser "pong" [])) /\ registry e3 !! ID rp = None) /\
    Respond 1 (Some rp) ANil e2 = Blocks /\
    Result rp c false false e1 = Blocks /\
    (exists e4, Result rp c true true e1 = Returns (e4, None) /\ registry e4 !! ID rp = None).
Proof.
  apply (request_response 0 demo_actor [] (AUser "ping" []) (AUser "pong" []) ANil "3" demo_engine demo_engine_wf);
    vm_compute; reflexivity.
Defined.

(** A delivery to a mailbox leaves the responses alone. *)
Lemma delivers_response priority id env e e' rid rp c :
  delivers priority id env e e' -> registry e !! rid = Some (PResponse rp c) ->
  registry e' !! rid = Some (PResponse rp c) /\ results e' = results e /\ address e' = address e.
Proof.
  intros ((pid & q & H1 & _) & Ho & (Ha & _) & Hr & _) Hl. split_and!; [|done|done].
  rewrite Ho; [done|]. intros ->. congruence.
Qed.

Lemma published_response msg e e' rid rp c :
  published msg e e' -> registry e !! rid = Some (PResponse rp c) ->
  registry e' !! rid = Some (PResponse rp c) /\ results e' = results e /\ address e' = address e.
Proof.
  unfold published. destruct (eventStream e); [by apply delivers_response|]. by intros ->.
Qed.

Lemma published_mailbox msg e e' id :
  published msg e e' -> is_Some (mailbox e id) -> is_Some (mailbox e' id).
Proof. unfold published. destruct (eventStream e); [by apply delivers_mailbox|]. by intros ->. Qed.

(** A second request under the same response id. *)
Lemma Request_taken fuel t msg rnd rp c1 e :
  wf e -> Address t = address e -> is_Some (mailbox e (ID t)) ->
  rp = NewPID (address e) ("response" +:+ pidSeparator +:+ rnd) ->
  registry e !! ID rp = Some (PResponse rp c1) ->
  exists e2, Request (S fuel) (Some t) msg rnd e = Returns (e2, PResponse rp (next_ref e)) /\
    registry e2 !! ID rp = Some (PResponse rp c1) /\
    results e2 = <[next_ref e := []]> (results e) /\ address e2 = address e.
Proof.
  intros Hwf Ha Hm Hrp Hl. rewrite Request_eq. cbv zeta. rewrite <-Hrp, Hl.
  pose proof (wf_new_response e Hwf) as Hf. set (e0 := set_results _ _) in *.
  destruct (BroadcastEvent_ok fuel (AActorDuplicateIdEvent rp) e0 (proj2 Hf)) as (e1 & -> & Hp).
  cbn [obind]. destruct (published_response _ _ _ (ID rp) rp c1 Hp Hl) as (Hl1 & Hr1 & Ha1).
  pose proof (published_wf _ _ _ (proj2 Hf) Hp) as [_ Hwf1].
  destruct (published_mailbox _ _ _ (ID t) Hp Hm) as [q1 Hq1].
  destruct (mailbox_spec e1 (ID t) q1 (proj1 Hwf1) Hq1) as (pid & Hlt & _ & _).
  pose proof (send_with_arrives false fuel (Some t) msg (Some rp) e1 Hwf1) as Hs.
  unfold destination_of in Hs. rewrite decide_True, Hlt in Hs by by rewrite Ha1.
  destruct Hs as (e2 & Hs & Hd). unfold send. rewrite Hs. exists e2.
  destruct (delivers_response _ _ _ _ _ (ID rp) rp c1 Hd Hl1) as (Hl2 & Hr2 & Ha2).
  split_and!; [done|done|by rewrite Hr2, Hr1|by rewrite Ha2, Ha1].
Qed.

(** Response ids are random and may collide.  If the id drawn for a second
    request is still taken by a first one, the second response is never
    registered: the reply addressed to it is delivered to the first request, and
    the second waits until its deadline — at which it unregisters the first. *)
Theorem response_collision (fuel : nat) (t : PID) (q : list Envelope) (msg1 msg2 reply : any) (rnd : string)
    (e : Engine) (Hwf : wf e) (Ha : Address t = address e) (Hq : mailbox e (ID t) = Some q)
    (Hfree : registry e !! ("response" +:+ pidSeparator +:+ rnd) = None) :
  exists e1 e2 e3 rp c1 c2, Request (S fuel) (Some t) msg1 rnd e = Returns (e1, PResponse rp c1) /\
    Request (S fuel) (Some t) msg2 rnd e1 = Returns (e2, PResponse rp c2) /\ c1 <> c2 /\
    Respond (S fuel) (Some rp) reply e2 = Returns e3 /\
    (exists e4, Result rp c1 false false e3 = Returns (e4, Some reply)) /\
    Result rp c2 false false e3 = Blocks /\
    (exists e5, Result rp c2 true true e3 = Returns (e5, None) /\ registry e5 !! ID rp = None).
Proof.
  destruct (Request_ok fuel t q msg1 rnd e Hwf Ha Hq Hfree)
    as (e1 & Hreq & Hwf1 & Hm & Hreg & Hres & Haddr & _ & Hnext).
  set (rp := NewPID _ _) in *.
  destruct (Request_taken fuel t msg2 rnd rp (next_ref e) e1 Hwf1) as (e2 & Hreq2 & Hreg2 & Hres2 & Haddr2);
    [congruence|by rewrite Hm|unfold rp; by rewrite Haddr|done|].
  assert (Hc : next_ref e <> next_ref e1) by lia.
  assert (H1 : results e2 !! next_ref e = Some []) by (rewrite Hres2, lookup_insert_ne; done).
  set (e3 := set_results (<[next_ref e := [reply]]> (results e2)) e2).
  assert (H31 : results e3 !! next_ref e = Some [reply]) by (simpl; by rewrite lookup_insert_eq).
  assert (H32 : results e3 !! next_ref e1 = Some []).
  { simpl. rewrite lookup_insert_ne by done. by rewrite Hres2, lookup_insert_eq. }
  exists e1, e2, e3, rp, (next_ref e), (next_ref e1). split_and!; [done|done|done| | | |].
  - unfold Respond, Send, send, send_with, isLocalMessage, send_local.
    rewrite bool_decide_true by (rewrite Haddr2, Haddr; done). cbn [get]. rewrite Hreg2. simpl. by rewrite H1.
  - eexists. unfold Result. by rewrite H31.
  - unfold Result. by rewrite H32.
  - eexists. unfold Result. rewrite H32. split; [done|]. simpl. by rewrite lookup_delete_eq.
Qed.

Lemma response_collision_witness :
  exists e1 e2 e3 rp c1 c2, Request 1 (Some demo_actor) (AUser "a" []) "3" demo_engine = Returns (e1, PResponse rp c1) /\
    Request 1 (Some demo_actor) (AUser "b" []) "3" e1 = Returns (e2, PResponse rp c2) /\ c1 <> c2 /\
    Respond 1 (Some rp) (AUser "reply to b" []) e2 = Returns e3 /\
    (exists e4, Result rp c1 false false e3 = Returns (e4, Some (AUser "reply to b" []))) /\
    Result rp c2 false false e3 = Blocks /\
    (exists e5, Result rp c2 true true e3 = Returns (e5, None) /\ registry e5 !! ID rp = None).
Proof.
  apply (response_collision 0 demo_actor [] (AUser "a" []) (AUser "b" []) (AUser "reply to b" []) "3"
    demo_engine demo_engine_wf); vm_compute; reflexivity.
Defined.

(** ** The two looks at the registry of [sendPoisonPill] *)

(** [sendPoisonPill] after its check that the process is registered, [found] being
    what the check said. *)
Definition pill_rest (fuel : nat) (graceful : bool) (pid : option PID) (found : bool) (e : Engine)
  : outcome (Engine * Z) :=
  let '(c, e) := fresh_ref e in
  let pill := APoisonPill graceful (Some c) in
  if found then obind (SendLocal fuel pid pill None e) (fun e => Returns (e, c))
  else obind (BroadcastEvent fuel (ADeadLetterEvent pid pill None) e) (fun e => Returns (cancel_ctx c e, c)).

Lemma sendPoisonPill_two_looks fuel graceful pid e :
  sendPoisonPill fuel graceful pid e = pill_rest fuel graceful pid (bool_decide (is_Some (get pid e))) e.
Proof.
  unfold sendPoisonPill, pill_rest. destruct (fresh_ref e) as [c e1] eqn:Hf.
  assert (Hg : get pid e1 = get pid e) by (by injection Hf as _ <-). rewrite Hg. by destruct (get pid e).
Qed.

(** A pill may miss its actor.  If the actor stops after the check found it and
    before the pill is sent, the pill ends as a dead letter, and nobody cancels
    its context: who waits for it waits for ever. *)
Theorem pill_misses_actor (fuel : nat) (graceful : bool) (pid : PID) (e : Engine)
    (Hwf : wf e) (Hstopped : registry e !! ID pid = None) (Hfresh : next_ref e ∉ done_ctx e) :
  exists e', pill_rest (S fuel) graceful (Some pid) true e = Returns (e', next_ref e) /\
    published (ADeadLetterEvent (Some pid) (APoisonPill graceful (Some (next_ref e))) None) (fresh_ref e).2 e' /\
    (next_ref e ∉ done_ctx e').
Proof.
  pose proof (wf_fresh_ref e Hwf) as [_ Hf]. unfold pill_rest, SendLocal, send_local. cbn [fresh_ref get].
  set (e1 := mkEngine _ _ _ _ _ _ _ _). change (registry e1) with (registry e). rewrite Hstopped.
  destruct (BroadcastEvent_ok fuel (ADeadLetterEvent (Some pid) (APoisonPill graceful (Some (next_ref e))) None) e1 Hf) as (e' & -> & Hp).
  exists e'. split; [done|]. split; [exact Hp|]. unfold published in Hp. change (eventStream e1) with (eventStream e) in Hp.
  destruct (eventStream e); [|by subst]. destruct Hp as (_ & _ & _ & _ & _ & -> & _). exact Hfresh.
Qed.

Lemma pill_misses_actor_witness :
  exists e', pill_rest 1 true (Some (NewPID "local" "gone/1")) true demo_engine = Returns (e', next_ref demo_engine) /\
    (next_ref demo_engine ∉ done_ctx e').
Proof.
  destruct (pill_misses_actor 0 true (NewPID "local" "gone/1") demo_engine demo_engine_wf) as (e' & H1 & _ & H2).
  - vm_compute. reflexivity.
  - apply (bool_decide_unpack _). vm_compute. exact I.
  - by exists e'.
Defined.

(** ** Actors from functions *)

(** [newFuncReceiver f] is a producer whose receivers do nothing but call [f], so what
    differs from [Spawn] is the behaviour behind [start]. *)
Definition SpawnFunc (fuel : nat) (kind id rnd : string) (start : Engine -> outcome Engine) (e : Engine)
  : outcome (Engine * PID) := Spawn fuel kind id rnd start e.

Definition SpawnChildFunc (fuel : nat) (self : PID) (children : gmap string PID) (name id rnd : string)
    (start : Engine -> outcome Engine) (e : Engine) : outcome (Engine * PID * gmap string PID) :=
  SpawnChild fuel self children name id rnd start e.
