(* ===== verification/Opts.v ===== *)
(** * Spawn options ([actor/opts.go], and how [actor/engine.go] and
    [actor/process.go] use them)

    [Spawn] starts from the default options, sets the kind and applies the option
    functions it was given, in order.  What becomes of them: the mailbox of the
    new process, the restart budget and the PID. *)

From S2P Require Import Prelude Deque RingBuffer Inbox Pid Messages Process Engine.

Definition defaultInboxSize : Z := 1024.
Definition defaultMaxRestarts : Z := 3.
(** [500 * time.Millisecond], in nanoseconds. *)
Definition defaultRestartDelay : Z := 500 * 1000000.

Section opts.
(** [Producer], [MiddlewareFunc] and [context.Context]. *)
Context {Prod Mw Ctx : Type}.
Variable Background : Ctx.

Record Opts := mkOpts {
  Opts_Producer : Prod;
  Opts_Kind : string;
  Opts_ID : string;
  Opts_MaxRestarts : Z;
  Opts_RestartDelay : Z;
  Opts_InboxSize : Z;
  Opts_Middleware : list Mw;
  Opts_Context : Ctx;
}.

Definition OptFunc : Type := Opts -> Opts.

Definition DefaultOpts (p : Prod) : Opts :=
  mkOpts p "" "" defaultMaxRestarts defaultRestartDelay defaultInboxSize [] Background.

Definition set_kind (kind : string) : OptFunc := fun o =>
  mkOpts (Opts_Producer o) kind (Opts_ID o) (Opts_MaxRestarts o) (Opts_RestartDelay o)
    (Opts_InboxSize o) (Opts_Middleware o) (Opts_Context o).

Definition WithContext (ctx : Ctx) : OptFunc := fun o =>
  mkOpts (Opts_Producer o) (Opts_Kind o) (Opts_ID o) (Opts_MaxRestarts o) (Opts_RestartDelay o)
    (Opts_InboxSize o) (Opts_Middleware o) ctx.

Definition WithMiddleware (mw : list Mw) : OptFunc := fun o =>
  mkOpts (Opts_Producer o) (Opts_Kind o) (Opts_ID o) (Opts_MaxRestarts o) (Opts_RestartDelay o)
    (Opts_InboxSize o) (Opts_Middleware o ++ mw) (Opts_Context o).

Definition WithRestartDelay (d : Z) : OptFunc := fun o =>
  mkOpts (Opts_Producer o) (Opts_Kind o) (Opts_ID o) (Opts_MaxRestarts o) d
    (Opts_InboxSize o) (Opts_Middleware o) (Opts_Context o).

Definition WithInboxSize (size : Z) : OptFunc := fun o =>
  mkOpts (Opts_Producer o) (Opts_Kind o) (Opts_ID o) (Opts_MaxRestarts o) (Opts_RestartDelay o)
    size (Opts_Middleware o) (Opts_Context o).

(** [opts.MaxRestarts = int32(n)]. *)
Definition WithMaxRestarts (n : Z) : OptFunc := fun o =>
  mkOpts (Opts_Producer o) (Opts_Kind o) (Opts_ID o) (i32 n) (Opts_RestartDelay o)
    (Opts_InboxSize o) (Opts_Middleware o) (Opts_Context o).

Definition WithID (id : string) : OptFunc := fun o =>
  mkOpts (Opts_Producer o) (Opts_Kind o) id (Opts_MaxRestarts o) (Opts_RestartDelay o)
    (Opts_InboxSize o) (Opts_Middleware o) (Opts_Context o).

(** [for _, opt := range opts { opt(&options) }]. *)
Definition apply_opts (opts : list OptFunc) (o : Opts) : Opts := foldl (fun o opt => opt o) o opts.

(** The options [Spawn] and [SpawnChild] arrive at; [rnd] is the decimal random
    number that stands in for an empty id. *)
Definition spawn_options (p : Prod) (kind : string) (opts : list OptFunc) (rnd : string) : Opts :=
  let options := apply_opts opts (set_kind kind (DefaultOpts p)) in
  if (String.length (Opts_ID options) =? 0)%nat then WithID rnd options else options.

(** [newProcess]: the PID and the inbox of the new process. *)
Definition newProcess (options : Opts) (e : Engine) : result (PID * Inbox (RingBuffer Envelope)) :=
  q ← New (mkEnvelope ANil None) (Opts_InboxSize options);
  Ok (NewPID (address e) (Opts_Kind options +:+ pidSeparator +:+ Opts_ID options), NewInbox q).

(** [Engine.Spawn] on a list of options. *)
Definition Spawn (fuel : nat) (p : Prod) (kind : string) (opts : list OptFunc) (rnd : string)
    (start : Engine -> outcome Engine) (e : Engine) : outcome (Engine * PID) :=
  match newProcess (spawn_options p kind opts rnd) e with
  | Panic v => Panics (PVRuntime v)
  | Ok (pid, _) => SpawnProc fuel (PMailbox pid []) start e
  end.

(** [Context.SpawnChild] on a list of options. *)
Definition SpawnChild (fuel : nat) (self : PID) (children : gmap string PID) (p : Prod) (name : string)
    (opts : list OptFunc) (rnd : string) (start : Engine -> outcome Engine) (e : Engine)
  : outcome (Engine * PID * gmap string PID) :=
  obind (Spawn fuel p (ID self +:+ pidSeparator +:+ name) opts rnd start e) (fun '(e, pid) =>
    Returns (e, pid, <[ID pid := pid]> children)).

(** The options of the package, by name. *)
Inductive option_ :=
  | OContext (ctx : Ctx)
  | OMiddleware (mw : list Mw)
  | ORestartDelay (d : Z)
  | OInboxSize (size : Z)
  | OMaxRestarts (n : Z)
  | OID (id : string).

Definition opt_func (o : option_) : OptFunc :=
  match o with
  | OContext c => WithContext c
  | OMiddleware mw => WithMiddleware mw
  | ORestartDelay d => WithRestartDelay d
  | OInboxSize s => WithInboxSize s
  | OMaxRestarts n => WithMaxRestarts n
  | OID id => WithID id
  end.

(** The value the last option of a sort gives, or the default. *)
Definition last_given {A} (f : option_ -> option A) (d : A) (os : list option_) : A :=
  default d (last (omap f os)).

Definition given_ctx (o : option_) : option Ctx := match o with OContext c => Some c | _ => None end.
Definition given_delay (o : option_) : option Z := match o with ORestartDelay d => Some d | _ => None end.
Definition given_size (o : option_) : option Z := match o with OInboxSize s => Some s | _ => None end.
Definition given_restarts (o : option_) : option Z := match o with OMaxRestarts n => Some (i32 n) | _ => None end.
Definition given_id (o : option_) : option string := match o with OID id => Some id | _ => None end.
Definition given_middleware (o : option_) : list Mw := match o with OMiddleware mw => mw | _ => [] end.

(** What a list of options asks for. *)
Definition asked_for (p : Prod) (kind : string) (os : list option_) : Opts :=
  mkOpts p kind (last_given given_id "" os) (last_given given_restarts defaultMaxRestarts os)
    (last_given given_delay defaultRestartDelay os) (last_given given_size defaultInboxSize os)
    (mjoin (given_middleware <$> os)) (last_given given_ctx Background os).

Lemma last_given_snoc {A} (f : option_ -> option A) d os o :
  last_given f d (os ++ [o]) = default (last_given f d os) (f o).
Proof.
  unfold last_given. rewrite omap_app. cbn [omap list_omap]. destruct (f o) as [a|]; simpl.
  - by rewrite last_snoc.
  - by rewrite app_nil_r.
Qed.

(** The last option of a sort wins, except that middleware adds up. *)
Lemma apply_opts_asked p kind os :
  apply_opts (opt_func <$> os) (set_kind kind (DefaultOpts p)) = asked_for p kind os.
Proof.
  induction os as [|o os IH] using rev_ind; [done|].
  unfold apply_opts in *. rewrite fmap_app, foldl_app, IH. cbn [fmap list_fmap foldl].
  unfold asked_for. rewrite !last_given_snoc, fmap_app, join_app.
  destruct o; cbn [opt_func given_ctx given_delay given_size given_restarts given_id given_middleware default];
    unfold WithContext, WithMiddleware, WithRestartDelay, WithInboxSize, WithMaxRestarts, WithID; simpl;
    by rewrite ?app_nil_r.
Qed.
End opts.

Arguments Opts : clear implicits.
Arguments option_ : clear implicits.

Lemma newProcess_eq {Prod Mw Ctx} (o : Opts Prod Mw Ctx) e :
  newProcess o e = (q ← New (mkEnvelope ANil None) (Opts_InboxSize o);
    Ok (NewPID (address e) (Opts_Kind o +:+ pidSeparator +:+ Opts_ID o), NewInbox q)).
Proof. done. Qed.

(** What [Spawn] ends up with. *)
Lemma spawn_options_asked {Prod Mw Ctx} (bg : Ctx) (p : Prod) kind (os : list (option_ Mw Ctx)) rnd :
  let asked := asked_for bg p kind os in
  let id := if (String.length (Opts_ID asked) =? 0)%nat then rnd else Opts_ID asked in
  spawn_options bg p kind (opt_func <$> os) rnd = WithID id asked.
Proof.
  unfold spawn_options. rewrite apply_opts_asked. cbv zeta.
  destruct (String.length _ =? 0)%nat; done.
Qed.

(** Spawning honours its options.  However the options are ordered, the last
    one of each sort decides and middleware adds up; the PID is the kind and the
    id, or a random number if the id is empty; restarts are a 32-bit number.  A
    negative inbox size makes [Spawn] panic, a zero one makes the first message
    panic in its sender, and any other gives a stopped inbox with an empty
    well-formed queue of that capacity, and then the process is registered. *)
Theorem spawn_honours_options {Prod Mw Ctx} (bg : Ctx) (fuel : nat) (p : Prod) (kind : string)
    (os : list (option_ Mw Ctx)) (rnd : string) (start : Engine -> outcome Engine) (e : Engine) :
  let asked := asked_for bg p kind os in
  let id := if (String.length (Opts_ID asked) =? 0)%nat then rnd else Opts_ID asked in
  let options := spawn_options bg p kind (opt_func <$> os) rnd in
  let pid := NewPID (address e) (kind +:+ pidSeparator +:+ id) in
  options = WithID id asked /\
  (- two31 <= Opts_MaxRestarts options < two31) /\
  (Opts_InboxSize asked < 0 -> Spawn bg fuel p kind (opt_func <$> os) rnd start e = Panics (PVRuntime MakeSliceLen)) /\
  (Opts_InboxSize asked = 0 -> exists b, newProcess options e = Ok (pid, b) /\
     forall zero env, Push zero env (rb b) = Panic DivideByZero) /\
  (0 < Opts_InboxSize asked <= max_mod -> exists b, newProcess options e = Ok (pid, b) /\
     procStatus b = stopped /\ RingBuffer.wf (rb b) /\ contents (mkEnvelope ANil None) (rb b) = [] /\
     mod_ (content (rb b)) = Opts_InboxSize asked) /\
  (0 <= Opts_InboxSize asked ->
     Spawn bg fuel p kind (opt_func <$> os) rnd start e = SpawnProc fuel (PMailbox pid []) start e).
Proof.
  intros asked id options pid.
  assert (Ho : options = WithID id asked) by apply spawn_options_asked.
  assert (Hsize : Opts_InboxSize options = Opts_InboxSize asked) by by rewrite Ho.
  assert (Hpid : NewPID (address e) (Opts_Kind options +:+ pidSeparator +:+ Opts_ID options) = pid)
    by by rewrite Ho.
  split; [done|]. split.
  { rewrite Ho. simpl. unfold asked, asked_for, last_given; simpl.
    destruct (last _) as [n|] eqn:Hl; [|unfold two31, defaultMaxRestarts; simpl; lia].
    apply last_Some_elem_of, list_elem_of_omap in Hl as ([] & _ & Hn); try done.
    injection Hn as <-. simpl. unfold i32, two31, two32.
    pose proof (Z.mod_pos_bound (n0 + 2147483648) 4294967296). lia. }
  unfold Spawn. fold options. rewrite newProcess_eq, Hsize, Hpid.
  split_and!.
  - intros Hs. unfold New, go_make. destruct (Z.ltb_spec (Opts_InboxSize asked) 0); [done|lia].
  - intros Hs. rewrite Hs. eexists. split; [reflexivity|]. intros zero env. done.
  - intros Hs. destruct (New_ok (mkEnvelope ANil None) (Opts_InboxSize asked) Hs) as (q & -> & Hwf & Hc & Hm).
    eexists. split; [reflexivity|]. done.
  - intros Hs. unfold New. rewrite go_make_ok by done. done.
Qed.

Lemma spawn_honours_options_witness :
  let os := [OID "1"; OMaxRestarts 5; OInboxSize 8; OID "2"; OMaxRestarts 4294967298] in
  let options := spawn_options () () "player" (opt_func <$> os : list (OptFunc (Prod := ()) (Mw := ()))) "9" in
  options = mkOpts () "player" "2" 2 defaultRestartDelay 8 [] () /\
  Spawn () 1 () "player" (opt_func <$> os : list (OptFunc (Prod := ()) (Mw := ()))) "9" Returns demo_engine
    = SpawnProc 1 (PMailbox (NewPID "local" "player/2") []) Returns demo_engine.
Proof.
  split; [reflexivity|].
  destruct (spawn_honours_options () 1 () "player"
    ([OID "1"; OMaxRestarts 5; OInboxSize 8; OID "2"; OMaxRestarts 4294967298] : list (option_ () ()))
    "9" Returns demo_engine) as (_ & _ & _ & _ & _ & H).
  apply H. discriminate.
Defined.
