(* ===== verification/Repeater.v ===== *)
(** * Repeated sends ([SendRepeater] in [actor/engine.go], [SendRepeat] in
    [actor/context.go])

    A repeater is a goroutine that selects between its ticker and its cancel
    channel.  Whenever both are ready the choice is the runtime's, so what the
    goroutine does, when the ticker fires and when [Stop] is called are given as a
    schedule; the sends are those of [Engine]. *)

From S2P Require Import Prelude Pid Messages Process Engine.

Record SendRepeater := mkRepeater {
  sr_self : option PID;
  sr_target : option PID;
  sr_msg : any;
  sr_interval : Z;
}.

(** The ticker channel holds one tick; a closed [cancelch] is always ready. *)
Record repeater_state := mkState {
  tick : bool;
  closed : bool;
  left : bool;      (* the goroutine returned *)
}.

(** [start]: [time.NewTicker] panics unless the interval is positive. *)
Definition start (sr : SendRepeater) : outcome (SendRepeater * repeater_state) :=
  if sr_interval sr <=? 0 then Panics (PVUser "error" [])
  else Returns (sr, mkState false false false).

(** [Engine.SendRepeat] copies what the clone of the PID points to. *)
Definition SendRepeat (pid : option PID) (msg : any) (interval : Z) : outcome (SendRepeater * repeater_state) :=
  match pid with
  | None => Panics (PVRuntime NilDeref)
  | Some _ => start (mkRepeater None pid msg interval)
  end.

(** [Context.SendRepeat] keeps the clone, nil or not. *)
Definition Context_SendRepeat (self : PID) (pid : option PID) (msg : any) (interval : Z)
  : outcome (SendRepeater * repeater_state) := start (mkRepeater (Some self) pid msg interval).

Inductive act :=
  | Tick        (** an interval passes *)
  | TakeTick    (** the goroutine takes a tick and sends *)
  | TakeCancel  (** the goroutine finds [cancelch] closed and returns *)
  | Stop        (** somebody calls [Stop] *).

(** One step; an act that is not possible now is skipped. *)
Definition act_step (fuel : nat) (sr : SendRepeater) (a : act) (s : repeater_state) (e : Engine)
  : outcome (repeater_state * Engine) :=
  match a with
  | Tick => Returns (if left s then s else mkState true (closed s) false, e)
  | TakeTick =>
      if tick s && negb (left s) then
        obind (SendWithSender fuel (sr_target sr) (sr_msg sr) (sr_self sr) e) (fun e =>
          Returns (mkState false (closed s) false, e))
      else Returns (s, e)
  | TakeCancel => Returns (if closed s && negb (left s) then mkState false true true else s, e)
  | Stop =>
      if closed s then Panics (PVRuntime CloseOfClosed)
      else Returns (mkState (tick s) true (left s), e)
  end.

Fixpoint run_acts (fuel : nat) (sr : SendRepeater) (acts : list act) (s : repeater_state) (e : Engine)
  : outcome (repeater_state * Engine) :=
  match acts with
  | [] => Returns (s, e)
  | a :: acts => obind (act_step fuel sr a s e) (fun '(s, e) => run_acts fuel sr acts s e)
  end.

Definition is_tick (a : act) : bool := match a with Tick => true | _ => false end.
Definition is_stop (a : act) : bool := match a with Stop => true | _ => false end.
Definition ticks (acts : list act) : nat := length (List.filter is_tick acts).
Definition stops (acts : list act) : nat := length (List.filter is_stop acts).

(** The target's mailbox gained [n] copies of the message, nothing else changed. *)
Definition gained (sr : SendRepeater) (t : PID) (n : nat) (e e' : Engine) : Prop :=
  same_shape e e' /\ results e' = results e /\ outbox e' = outbox e /\
  (forall id, id <> ID t -> registry e' !! id = registry e !! id) /\
  exists q, mailbox e (ID t) = Some q /\
    mailbox e' (ID t) = Some (q ++ replicate n (mkEnvelope (sr_msg sr) (sr_self sr))).

Definition pending (s : repeater_state) : nat := if tick s && negb (left s) then 1 else 0.

Lemma gained_step sr t n e e1 e2 :
  gained sr t n e e1 -> delivers false (ID t) (mkEnvelope (sr_msg sr) (sr_self sr)) e1 e2 ->
  gained sr t (S n) e e2.
Proof.
  intros ((Ha & Hr & Hs) & Hres & Hout & Hoth & q & Hq & Hq1) ((pid & q1 & H1 & H2) & Hoth2 & (Ha2 & Hr2 & Hs2) & Hres2 & Hout2 & _).
  unfold gained, same_shape. split_and!; try congruence.
  - intros id Hid. by rewrite Hoth2, Hoth.
  - exists q. split; [done|]. unfold mailbox in *. rewrite H1 in Hq1. injection Hq1 as ->. rewrite H2.
    f_equal. rewrite <-app_assoc. f_equal. symmetry. apply (replicate_S_end n).
Qed.

Lemma gained_refl sr t e : is_Some (mailbox e (ID t)) -> gained sr t 0 e e.
Proof. intros [q Hq]. split_and!; try done. exists q. by rewrite app_nil_r. Qed.

(** A repeater whose target is a local actor. *)
Lemma run_acts_gained fuel sr t acts : forall s e0 e n,
  sr_target sr = Some t -> wf e -> Address t = address e -> gained sr t n e0 e ->
  (closed s = true -> stops acts = 0)%nat -> (closed s = false -> stops acts <= 1)%nat ->
  exists s' e' m, run_acts (S fuel) sr acts s e = Returns (s', e') /\ gained sr t m e0 e' /\ wf e' /\
    (n <= m <= n + pending s + ticks acts)%nat /\ (left s = true -> m = n /\ left s' = true).
Proof.
  induction acts as [|a acts IH]; intros s e0 e n Ht Hwf Ha Hg Hc Ho.
  { exists s, e, n. split_and!; try done; lia. }
  cbn [run_acts]. destruct a; cbn [act_step obind].
  - destruct (IH (if left s then s else mkState true (closed s) false) e0 e n Ht Hwf Ha Hg)
      as (s' & e' & m & Hr & Hg' & Hwf' & Hm & Hl); [by destruct (left s)|by destruct (left s)|].
    exists s', e', m. split; [done|]. split; [done|]. split; [done|]. unfold ticks in *; simpl.
    destruct (left s) eqn:Hls; [split; [lia|intros _; by apply Hl]|]. unfold pending in *; simpl in *.
    rewrite Hls in *. split; [destruct (tick s); simpl; lia|done].
  - destruct (tick s && negb (left s)) eqn:Htk; cbn [obind].
    + rewrite Ht. unfold SendWithSender, send, send_with, isLocalMessage.
      rewrite bool_decide_true by done. unfold send_local. cbn [get].
      pose proof Hg as (_ & _ & _ & _ & q & _ & Hq1).
      destruct (mailbox_spec e (ID t) _ (proj1 Hwf) Hq1) as (pid & Hl & Hid & _).
      rewrite Hl.
      destruct (proc_send_delivers false e (ID t) _ pid (sr_msg sr) (sr_self sr) Hl Hid) as (e1 & -> & Hd).
      cbn [obind].
      pose proof (gained_step sr t n e0 e e1 Hg Hd) as Hg1.
      pose proof (delivers_wf _ _ _ _ _ Hwf Hd) as [(Ha1 & _) Hwf1].
      destruct (IH (mkState false (closed s) false) e0 e1 (S n) Ht Hwf1)
        as (s' & e' & m & Hr & Hg' & Hwf' & Hm & _); [congruence|done|done|done|].
      exists s', e', m. split; [done|]. split; [done|]. split; [done|].
      unfold pending in *; simpl in *. rewrite Htk. unfold ticks in *; simpl.
      split; [lia|]. intros Hls. rewrite Hls, andb_false_r in Htk. done.
    + by apply IH.
  - assert (Hcl : closed (if closed s && negb (left s) then mkState false true true else s) = closed s)
      by (destruct (closed s) eqn:?, (left s); done).
    destruct (IH (if closed s && negb (left s) then mkState false true true else s) e0 e n Ht Hwf Ha Hg)
      as (s' & e' & m & Hr & Hg' & Hwf' & Hm & Hl); [by rewrite Hcl..|].
    exists s', e', m. split; [done|]. split; [done|]. split; [done|].
    unfold pending, ticks in *; simpl in *.
    destruct s as [[] [] []]; simpl in *; (split; [lia|done]).
  - unfold stops in *; simpl in *. destruct (closed s) eqn:Hcl; [by specialize (Hc eq_refl)|]. cbn [obind].
    destruct (IH (mkState (tick s) true (left s)) e0 e n Ht Hwf Ha Hg)
      as (s' & e' & m & Hr & Hg' & Hwf' & Hm & Hl); simpl.
    { intros _. specialize (Ho eq_refl). lia. }
    { done. }
    exists s', e', m. split; [done|]. split; [done|]. split; [done|]. unfold ticks in *; simpl in *. done.
Qed.

(** Nothing is sent once the goroutine left, and two calls of [Stop] panic. *)
Lemma second_stop_panics fuel sr acts : forall s e,
  (closed s = true -> 1 <= stops acts)%nat -> (closed s = false -> 2 <= stops acts)%nat ->
  forall s' e', run_acts fuel sr acts s e <> Returns (s', e').
Proof.
  unfold stops. induction acts as [|a acts IH]; intros s e Hc Ho s' e'; simpl in *.
  { destruct (closed s); [specialize (Hc eq_refl)|specialize (Ho eq_refl)]; lia. }
  destruct a; simpl in *.
  - apply IH; by destruct s as [[] [] []].
  - destruct (tick s && negb (left s)); [|by apply IH].
    destruct (SendWithSender _ _ _ _ _); simpl; try done. by apply IH.
  - apply IH; by destruct s as [[] [] []].
  - destruct (closed s); simpl; [done|]. specialize (Ho eq_refl). apply IH; simpl; [lia|done].
Qed.

Lemma no_stop_open fuel sr acts : forall s e s' e',
  closed s = false -> stops acts = O -> run_acts fuel sr acts s e = Returns (s', e') -> closed s' = false.
Proof.
  unfold stops. induction acts as [|a acts IH]; intros s e s' e' Hc Hs Hr; simpl in *; [by simplify_eq|].
  destruct a; simpl in *; [| | |done].
  - eapply IH; [|done|exact Hr]. by destruct (left s).
  - destruct (tick s && negb (left s)); [|by eapply IH].
    destruct (SendWithSender _ _ _ _ _); simpl in Hr; try done. by eapply IH; [..|exact Hr].
  - eapply IH; [|done|exact Hr]. by rewrite Hc.
Qed.

(** A repeater sends at most one message per interval, and none once it
    stopped.  Started on a live local actor with a positive interval, and stopped
    at most once, whatever the schedule: the actor gains copies of the message,
    with the sender of the repeater (none for the engine's, the actor itself for
    the context's), at most one per tick; after [Stop] the pending tick may still
    be sent, and after the goroutine took the cancellation nothing is. *)
Theorem repeater_bounded (fuel : nat) (self : option PID) (t : PID) (msg : any) (interval : Z)
    (before after : list act) (e : Engine)
    (Hwf : wf e) (Hlocal : Address t = address e) (Halive : is_Some (mailbox e (ID t)))
    (Hpos : 0 < interval) (Hstops : (stops (before ++ after) <= 1)%nat) :
  exists sr s0 s1 e1 n s2 e2 m,
    (match self with None => SendRepeat (Some t) msg interval
     | Some self => Context_SendRepeat self (Some t) msg interval end) = Returns (sr, s0) /\
    run_acts (S fuel) sr before s0 e = Returns (s1, e1) /\ gained sr t n e e1 /\ (n <= ticks before)%nat /\
    run_acts (S fuel) sr after s1 e1 = Returns (s2, e2) /\ gained sr t m e e2 /\
    (m <= n + pending s1 + ticks after)%nat /\ (left s1 = true -> m = n) /\
    sr_self sr = self.
Proof.
  set (sr := mkRepeater self (Some t) msg interval).
  assert (Hst : (match self with None => SendRepeat (Some t) msg interval
     | Some self => Context_SendRepeat self (Some t) msg interval end) = Returns (sr, mkState false false false)).
  { unfold SendRepeat, Context_SendRepeat, start. destruct self; simpl; by destruct (Z.leb_spec interval 0); [lia|]. }
  unfold stops in Hstops. rewrite List.filter_app, length_app in Hstops.
  fold (stops before) in Hstops. fold (stops after) in Hstops.
  destruct (run_acts_gained fuel sr t before (mkState false false false) e e 0)
    as (s1 & e1 & n & H1 & Hg1 & Hwf1 & Hn & _); [done|done|done|by apply gained_refl|done|simpl; lia|].
  assert (Hc1 : (closed s1 = true -> stops after = 0)%nat).
  { intros Hc. destruct (stops before) as [|[|k]] eqn:Hb; [|lia|lia]. exfalso.
    pose proof (no_stop_open _ sr before (mkState false false false) e s1 e1 eq_refl Hb H1). congruence. }
  destruct (run_acts_gained fuel sr t after s1 e e1 n)
    as (s2 & e2 & m & H2 & Hg2 & _ & Hm & Hl); [done|done| |done|done|lia|].
  { destruct Hg1 as [(Ha & _) _]. congruence. }
  exists sr, (mkState false false false), s1, e1, n, s2, e2, m.
  split_and!; try done; [unfold pending in Hn; simpl in Hn; lia|lia|by intros Hls; apply Hl].
Qed.

Lemma repeater_bounded_witness :
  exists sr s0 s1 e1 n s2 e2 m,
    Context_SendRepeat demo_stream (Some demo_actor) (AUser "tick" []) 5 = Returns (sr, s0) /\
    run_acts 1 sr [Tick; TakeTick; Tick; Tick; Stop] s0 demo_engine = Returns (s1, e1) /\
    gained sr demo_actor n demo_engine e1 /\ (n <= 3)%nat /\
    run_acts 1 sr [TakeTick; TakeCancel; Tick; TakeTick] s1 e1 = Returns (s2, e2) /\
    gained sr demo_actor m demo_engine e2 /\
    (m <= n + pending s1 + 1)%nat /\ (left s1 = true -> m = n) /\ sr_self sr = Some demo_stream.
Proof.
  apply (repeater_bounded 0 (Some demo_stream) demo_actor (AUser "tick" []) 5
    [Tick; TakeTick; Tick; Tick; Stop] [TakeTick; TakeCancel; Tick; TakeTick] demo_engine demo_engine_wf).
  - reflexivity.
  - eexists. vm_compute. reflexivity.
  - lia.
  - vm_compute. lia.
Defined.

(** The error branches: a nil target panics in [Engine.SendRepeat] but not in
    [Context.SendRepeat], whose ticks are then sent nowhere; an interval that is
    not positive panics in both; and [Stop] must not be called twice. *)
Theorem repeater_errors (fuel : nat) (self : PID) (msg : any) (interval : Z) (sr : SendRepeater)
    (s : repeater_state) (e : Engine) (acts : list act) :
  SendRepeat None msg interval = Panics (PVRuntime NilDeref) /\
  (interval <= 0 -> forall t, Context_SendRepeat self t msg interval = Panics (PVUser "error" [])) /\
  (0 < interval -> exists sr s, Context_SendRepeat self None msg interval = Returns (sr, s) /\
     forall e, act_step fuel sr TakeTick (mkState true false false) e = Returns (mkState false false false, e)) /\
  (closed s = false -> (2 <= stops acts)%nat -> forall s' e', run_acts fuel sr acts s e <> Returns (s', e')).
Proof.
  split_and!.
  - done.
  - intros Hi t. unfold Context_SendRepeat, start; simpl. by destruct (Z.leb_spec interval 0); [|lia].
  - intros Hi. do 2 eexists. split; [unfold Context_SendRepeat, start; simpl; by destruct (Z.leb_spec interval 0); [lia|]|].
    done.
  - intros Hc Hs. apply second_stop_panics; [congruence|done].
Qed.
