(* ===== verification/EventStream.v ===== *)
(** * The event stream actor ([actor/event_stream.go])

    Subscriptions are keyed by the pointer of the subscribed PID.  The order in
    which [range] visits them is open: [range_subs] is a parameter that returns
    the subscribed PIDs in some order. *)

From S2P Require Import Prelude Pid Messages Process Engine.

Section event_stream.
Variable range_subs : gmap Z PID -> list PID.
Variable self : PID.

(** [subs map[*PID]bool]: the PID each pointer points to. *)
Definition eventStream_subs : Type := gmap Z PID.

Definition newEventStream : eventStream_subs := ∅.

(** [for sub := range e.subs { c.Forward(sub) }] *)
Fixpoint forward_all (fuel : nat) (msg : any) (subs : list PID) (e : Engine) : outcome Engine :=
  match subs with
  | [] => Returns e
  | sub :: subs => obind (Forward fuel self msg (Some sub) e) (forward_all fuel msg subs)
  end.

Definition Receive (fuel : nat) (msg : any) (subs : eventStream_subs) (e : Engine)
  : outcome (eventStream_subs * Engine) :=
  match msg with
  | AEventSub p => Returns (<[loc p := deref p]> subs, e)
  | AEventUnsub p => Returns (delete (loc p) subs, e)
  | _ => obind (forward_all fuel msg (range_subs subs) e) (fun e => Returns (subs, e))
  end.

(** What it logs before forwarding. *)
Definition logged (stack : string) (msg : any) : option (Level * string * list (string * attr)) :=
  match msg with
  | AEventSub _ | AEventUnsub _ => None
  | _ => Log stack msg
  end.

(** The event stream takes one message from its mailbox and handles it. *)
Definition stream_step (fuel : nat) (subs : eventStream_subs) (e : Engine)
  : outcome (eventStream_subs * Engine) :=
  match pop_mailbox (ID self) e with
  | None => Blocks
  | Some (env, e) => Receive fuel (Msg env) subs e
  end.

Fixpoint stream_steps (n fuel : nat) (subs : eventStream_subs) (e : Engine)
  : outcome (eventStream_subs * Engine) :=
  match n with
  | O => Returns (subs, e)
  | S n => obind (stream_step fuel subs e) (fun '(subs, e) => stream_steps n fuel subs e)
  end.

(** ** Fan-out *)

Definition is_subscription (m : any) : bool :=
  match m with AEventSub _ | AEventUnsub _ => true | _ => false end.

Lemma Receive_forwards fuel m subs e :
  is_subscription m = false ->
  Receive fuel m subs e = obind (forward_all fuel m (range_subs subs) e) (fun e => Returns (subs, e)).
Proof. by destruct m. Qed.

(** How often an id occurs among PIDs. *)
Definition times (id : string) (ps : list PID) : nat :=
  length (List.filter (fun p => bool_decide (ID p = id)) ps).

Lemma times_perm id ps qs : ps ≡ₚ qs -> times id ps = times id qs.
Proof.
  unfold times. induction 1 as [|x l l' _ IH|x y l|l1 l2 l3 _ IH1 _ IH2]; simpl.
  - done.
  - destruct (bool_decide (ID x = id)); simpl; congruence.
  - by destruct (bool_decide (ID x = id)), (bool_decide (ID y = id)).
  - congruence.
Qed.

Lemma forward_one fuel m p e :
  wf e -> live e p ->
  exists e', Forward (S fuel) self m (Some p) e = Returns e' /\ wf_like e e' /\
    delivers false (ID p) (mkEnvelope m (Some self)) e e'.
Proof.
  intros Hwf [Ha [q Hq]]. destruct (mailbox_spec e (ID p) q (proj1 Hwf) Hq) as (pid & Hl & _).
  pose proof (send_with_arrives false fuel (Some p) m (Some self) e Hwf) as Hs.
  unfold destination_of in Hs. rewrite decide_True, Hl in Hs by done.
  destruct Hs as (e' & Hs & Hd). exists e'. split; [exact Hs|]. split; [by eapply delivers_wf|done].
Qed.

Lemma forward_all_live fuel m ps e :
  wf e -> Forall (live e) ps ->
  exists e', forward_all (S fuel) m ps e = Returns e' /\ wf_like e e' /\
    forall id q, mailbox e id = Some q ->
      mailbox e' id = Some (q ++ replicate (times id ps) (mkEnvelope m (Some self))).
Proof.
  revert e. induction ps as [|p ps IH]; intros e Hwf Hps.
  { exists e. split; [done|]. split; [by apply wf_like_refl|]. intros id q Hq. by rewrite app_nil_r. }
  apply Forall_cons in Hps as [Hp Hps].
  destruct (forward_one fuel m p e Hwf Hp) as (e1 & H1 & Hw1 & Hd).
  destruct (IH e1) as (e2 & H2 & Hw2 & Hm2); [apply Hw1|eapply Forall_impl; [exact Hps|]; intros x; by eapply live_delivers|].
  exists e2. cbn [forward_all]. rewrite H1. split; [done|]. split; [by eapply wf_like_trans|].
  intros id q Hq. unfold times. simpl. destruct (mailbox_delivers _ _ _ _ _ Hd) as (q1 & Hq1 & Hq1').
  destruct (decide (ID p = id)) as [<-|Hne].
  - rewrite bool_decide_true by done. assert (q1 = q) as -> by congruence.
    rewrite (Hm2 _ _ Hq1'). simpl. by rewrite <-app_assoc.
  - rewrite bool_decide_false by done. apply Hm2. destruct Hd as (_ & Ho & _).
    unfold mailbox in *. by rewrite Ho.
Qed.
End event_stream.

Section storm.
Variable range_subs : gmap Z PID -> list PID.
Variable self : PID.

(** A subscriber whose actor is gone. *)
Definition dead (e : Engine) (p : PID) : Prop := Address p = address e /\ registry e !! ID p = None.

(** The event stream of [e] is this actor, its subscribers are local actors, dead
    or alive, at least one of them is dead, and the mailbox holds an event. *)
Definition storming (subs : gmap Z PID) (e : Engine) : Prop :=
  wf e /\ eventStream e = Some self /\
  Forall (fun p => live e p \/ dead e p) (range_subs subs) /\
  Exists (dead e) (range_subs subs) /\
  exists q, mailbox e (ID self) = Some q /\ q <> [] /\ Forall (fun env => is_subscription (Msg env) = false) q.

(** Forwarding to a set of subscribers keeps them what they are; each dead one
    puts a dead letter in the event stream's own mailbox. *)
Definition stormy (ps : list PID) (e e' : Engine) : Prop :=
  wf_like e e' /\
  (forall p, live e p -> live e' p) /\ (forall p, dead e p -> dead e' p) /\
  forall q, mailbox e (ID self) = Some q -> Forall (fun env => is_subscription (Msg env) = false) q ->
    exists q', mailbox e' (ID self) = Some q' /\
      Forall (fun env => is_subscription (Msg env) = false) q' /\
      (q <> [] \/ Exists (dead e) ps -> q' <> []).

Lemma delivers_dead priority id env e e' p :
  delivers priority id env e e' -> dead e p -> dead e' p.
Proof.
  intros ((pid & q & H1 & _) & Ho & (Ha & _) & _) [Hpa Hpn]. split; [congruence|].
  rewrite Ho; [done|]. intros Heq. rewrite Heq, H1 in Hpn. done.
Qed.

Lemma delivers_stormy m id s p e e' :
  is_subscription m = false -> wf e -> delivers false id (mkEnvelope m s) e e' ->
  (dead e p -> id = ID self) ->
  stormy [p] e e'.
Proof.
  intros Hm Hwf Hd Hp. split; [by eapply delivers_wf|].
  split; [intros x; by eapply live_delivers|]. split; [intros x; by eapply delivers_dead|].
  intros q Hq Hall. destruct (mailbox_delivers _ _ _ _ _ Hd) as (q1 & Hq1 & Hq1').
  destruct (decide (id = ID self)) as [->|Hne].
  - assert (q1 = q) as -> by congruence. exists (q ++ [mkEnvelope m s]). split; [done|].
    split; [apply Forall_app; split; [done|by apply Forall_singleton]|].
    intros _. by destruct q.
  - exists q. destruct Hd as (_ & Ho & _). split; [unfold mailbox in *; by rewrite Ho|].
    split; [done|]. intros [?|Hex]; [done|]. apply Exists_cons in Hex as [Hdead|Hex]; [|inversion Hex].
    by apply Hp in Hdead.
Qed.

Lemma forward_all_storm fuel m ps e :
  is_subscription m = false -> wf e -> eventStream e = Some self ->
  Forall (fun p => live e p \/ dead e p) ps ->
  exists e', forward_all self (S fuel) m ps e = Returns e' /\ stormy ps e e'.
Proof.
  intros Hm. revert e. induction ps as [|p ps IH]; intros e Hwf Hes Hps.
  { exists e. split; [done|]. split; [by apply wf_like_refl|]. split_and!; [done|done|].
    intros q Hq Hall. exists q. split_and!; [done|done|]. intros [?|Hex]; [done|inversion Hex]. }
  apply Forall_cons in Hps as [Hp Hps].
  assert (H1 : exists e1, Forward (S fuel) self m (Some p) e = Returns e1 /\ stormy [p] e e1).
  { destruct Hp as [Hlive|[Ha Hd]].
    - destruct (forward_one self fuel m p e Hwf Hlive) as (e1 & -> & _ & Hdv). exists e1. split; [done|].
      eapply delivers_stormy; [done|done|exact Hdv|]. intros [_ Hn]. destruct Hlive as [_ [q Hq]].
      unfold mailbox in Hq. by rewrite Hn in Hq.
    - pose proof (send_with_arrives false fuel (Some p) m (Some self) e Hwf) as Hs.
      unfold destination_of in Hs. rewrite decide_True, Hd in Hs by done.
      destruct Hs as (e1 & Hs & Hpub). exists e1. split; [exact Hs|].
      unfold published in Hpub. rewrite Hes in Hpub.
      exact (delivers_stormy (ADeadLetterEvent (Some p) m (Some self)) _ _ p e e1 eq_refl Hwf Hpub (fun _ => eq_refl)). }
  destruct H1 as (e1 & H1 & (Hw1 & Hl1 & Hd1 & Hq1)).
  destruct (IH e1) as (e2 & H2 & (Hw2 & Hl2 & Hd2 & Hq2)).
  - apply Hw1.
  - destruct Hw1 as [(_ & _ & ->) _]. done.
  - eapply Forall_impl; [exact Hps|]. intros x [?|?]; [left|right]; auto.
  - exists e2. cbn [forward_all]. rewrite H1. split; [done|].
    split; [by eapply wf_like_trans|]. split; [auto|]. split; [auto|].
    intros q Hq Hall. destruct (Hq1 q Hq Hall) as (q1 & Hm1 & Hall1 & Hn1).
    destruct (Hq2 q1 Hm1 Hall1) as (q2 & Hm2 & Hall2 & Hn2). exists q2. split_and!; [done|done|].
    intros Hor. apply Hn2. destruct Hor as [Hne|Hex]; [left; apply Hn1; by left|].
    apply Exists_cons in Hex as [Hdead|Hex]; [left; apply Hn1; right; by apply Exists_cons; left|right].
    eapply Exists_impl; [exact Hex|]. auto.
Qed.

Lemma storm_step fuel subs e :
  storming subs e ->
  exists e', stream_step range_subs self (S fuel) subs e = Returns (subs, e') /\ storming subs e'.
Proof.
  intros (Hwf & Hes & Hps & Hex & q & Hq & Hne & Hall). unfold stream_step, pop_mailbox.
  destruct (mailbox_spec e (ID self) q (proj1 Hwf) Hq) as (pid & Hl & Hid & _). rewrite Hl.
  destruct q as [|env q]; [done|]. apply Forall_cons in Hall as [Henv Hall].
  rewrite Receive_forwards by done. set (e0 := set_registry _ e).
  assert (Hlook : forall id, id <> ID self -> registry e0 !! id = registry e !! id)
    by (intros id Hn; simpl; by rewrite lookup_insert_ne).
  assert (Hself : registry e0 !! ID self = Some (PMailbox pid q)) by (simpl; by rewrite lookup_insert_eq).
  assert (Hwf0 : wf e0).
  { apply (wf_set_registry _ e Hwf).
    - intros id p [[<- <-]|[_ Hp]]%lookup_insert_Some; [by apply (proj1 Hwf) in Hl|by apply (proj1 Hwf)].
    - intros es Hs. assert (es = self) as -> by congruence. unfold mailbox. fold e0. by rewrite Hself. }
  assert (Hlive : forall p, live e p -> live e0 p).
  { intros p [Ha Hm]. split; [done|]. destruct (decide (ID p = ID self)) as [Heq|Hn].
    - unfold mailbox. by rewrite Heq, Hself.
    - unfold mailbox in *. by rewrite Hlook. }
  assert (Hdead : forall p, dead e p -> dead e0 p).
  { intros p [Ha Hn]. split; [done|]. rewrite Hlook; [done|]. intros Heq. by rewrite Heq, Hl in Hn. }
  destruct (forward_all_storm fuel (Msg env) (range_subs subs) e0 Henv Hwf0 Hes) as (e1 & -> & Hst).
  { eapply Forall_impl; [exact Hps|]. intros p [?|?]; [left|right]; auto. }
  destruct Hst as (Hw & Hl1 & Hd1 & Hq1). exists e1. split; [done|].
  destruct (Hq1 q) as (q1 & Hm1 & Hall1 & Hn1); [unfold mailbox; by rewrite Hself|done|].
  split; [apply Hw|]. split; [destruct Hw as [(_ & _ & ->) _]; done|].
  split; [eapply Forall_impl; [exact Hps|]; intros p [?|?]; [left|right]; auto|].
  split; [eapply Exists_impl; [exact Hex|]; auto|].
  exists q1. split_and!; [done| |done]. apply Hn1. right. eapply Exists_impl; [exact Hex|]. auto.
Qed.
End storm.

(** ** Correctness of the event stream *)

(** C23: Fan-out.  Every message but a (un)subscription, handled by an event
    stream whose subscribers are live local actors, is appended to the mailbox of
    each subscriber once per subscribed pointer, in whatever order the map is
    visited, with the event stream as sender; no other mailbox changes and the
    subscriptions stay. *)
Theorem event_fans_out (range_subs : gmap Z PID -> list PID) (self : PID) (fuel : nat) (msg : any)
    (subs : gmap Z PID) (e : Engine)
    (Hrange : range_subs subs ≡ₚ (map_to_list subs).*2)
    (Hmsg : is_subscription msg = false)
    (Hwf : wf e) (Hlive : Forall (live e) (range_subs subs)) :
  exists e', Receive range_subs self (S fuel) msg subs e = Returns (subs, e') /\
    forall id q, mailbox e id = Some q ->
      mailbox e' id = Some (q ++ replicate (times id (map_to_list subs).*2) (mkEnvelope msg (Some self))).
Proof.
  rewrite Receive_forwards by done.
  destruct (forward_all_live self fuel msg _ e Hwf Hlive) as (e' & -> & _ & Hm). exists e'. split; [done|].
  intros id q Hq. by rewrite (Hm id q Hq), (times_perm id _ _ Hrange).
Qed.

(** The engine with a subscriber [demo/1] and a subscription to an actor that is
    gone. *)
Definition demo_subs : gmap Z PID := {[1 := demo_actor]}.
Definition demo_range (s : gmap Z PID) : list PID := (map_to_list s).*2.
Definition demo_gone : PID := NewPID "local" "gone/1".

Lemma event_fans_out_witness :
  exists e', Receive demo_range demo_stream 1 (AUser "tick" []) demo_subs demo_engine = Returns (demo_subs, e') /\
    forall id q, mailbox demo_engine id = Some q ->
      mailbox e' id = Some (q ++ replicate (times id (map_to_list demo_subs).*2) (mkEnvelope (AUser "tick" []) (Some demo_stream))).
Proof.
  apply (event_fans_out demo_range demo_stream 0 (AUser "tick" []) demo_subs demo_engine);
    [reflexivity|reflexivity|apply demo_engine_wf|].
  unfold demo_range, demo_subs. rewrite map_to_list_singleton. apply Forall_singleton. split; [reflexivity|].
  eexists. vm_compute. reflexivity.
Defined.

(** Subscriptions are by pointer.  Unsubscribing with another pointer to an
    equal PID (or subscribing twice with two of them) does not undo a
    subscription: the subscriber stays subscribed. *)
Theorem unsubscribe_by_pointer (range_subs : gmap Z PID -> list PID) (self : PID) (fuel : nat)
    (p q : pid_ptr) (subs : gmap Z PID) (e : Engine) (Hloc : loc p <> loc q) :
  obind (Receive range_subs self fuel (AEventSub p) subs e)
        (fun '(subs, e) => Receive range_subs self fuel (AEventUnsub q) subs e) =
  Returns (<[loc p := deref p]> (delete (loc q) subs), e).
Proof. cbn [obind Receive]. do 2 f_equal. apply delete_insert_ne. congruence. Qed.

Lemma unsubscribe_by_pointer_witness :
  obind (Receive demo_range demo_stream 1 (AEventSub (mkPtr 5 demo_actor)) ∅ demo_engine)
        (fun '(subs, e) => Receive demo_range demo_stream 1 (AEventUnsub (mkPtr 6 demo_actor)) subs e) =
  Returns (<[5 := demo_actor]> (delete 6 ∅), demo_engine).
Proof.
  apply (unsubscribe_by_pointer demo_range demo_stream 1 (mkPtr 5 demo_actor) (mkPtr 6 demo_actor) ∅ demo_engine).
  discriminate.
Defined.

(** A subscriber that dies without unsubscribing keeps the event stream busy
    for ever.  Once the event stream has an event to forward while one of its
    (local) subscribers is gone, it handles any number of messages without ever
    emptying its mailbox: every forward to the dead subscriber is a dead letter,
    which is a new event. *)
Theorem dead_subscriber_storm (range_subs : gmap Z PID -> list PID) (self : PID) (n fuel : nat)
    (subs : gmap Z PID) (e : Engine) (Hstorm : storming range_subs self subs e) :
  exists e' q, stream_steps range_subs self n (S fuel) subs e = Returns (subs, e') /\
    mailbox e' (ID self) = Some q /\ q <> [].
Proof.
  revert e Hstorm. induction n as [|n IH]; intros e Hs.
  - destruct Hs as (_ & _ & _ & _ & q & Hq & Hne & _). by exists e, q.
  - destruct (storm_step range_subs self fuel subs e Hs) as (e1 & He1 & Hs1). simpl. rewrite He1. apply IH, Hs1.
Qed.

Lemma dead_subscriber_storm_witness :
  let e := match BroadcastEvent 1 (AUser "tick" []) demo_engine with Returns e => e | _ => demo_engine end in
  let subs : gmap Z PID := {[3 := demo_gone]} in
  exists e' q, stream_steps demo_range demo_stream 100 1 subs e = Returns (subs, e') /\
    mailbox e' (ID demo_stream) = Some q /\ q <> [].
Proof.
  intros e subs. apply (dead_subscriber_storm demo_range demo_stream 100 0 subs e).
  assert (He : exists e', BroadcastEvent 1 (AUser "tick" []) demo_engine = Returns e' /\ wf_like demo_engine e').
  { destruct (BroadcastEvent_ok 0 (AUser "tick" []) demo_engine demo_engine_wf) as (e' & H1 & H2).
    exists e'. split; [exact H1|]. eapply published_wf; [apply demo_engine_wf|exact H2]. }
  split; [unfold e; destruct He as (e' & -> & _ & H); exact H|]. split; [reflexivity|].
  assert (Hr : demo_range subs = [demo_gone]) by (vm_compute; reflexivity).
  rewrite Hr. split; [apply Forall_singleton; right; split; vm_compute; reflexivity|].
  split; [apply Exists_cons; left; split; vm_compute; reflexivity|].
  eexists. split; [vm_compute; reflexivity|]. split; [discriminate|]. by apply Forall_singleton.
Defined.
