(* ===== verification/Wire.v ===== *)
(** * The wire format shared by the generated codecs
    ([actor/actor_vtproto.pb.go], [remote/remote_vtproto.pb.go])

    The generated marshallers write a buffer of the computed size from its end to
    its beginning; the generated parsers walk an index over the input.  Both are
    translated with their index arithmetic, every slice access checked.  Each
    generated file repeats the parsing of a varint inline; it is one definition
    here, with the integer type it accumulates in as an argument. *)

From S2P Require Import Prelude.
From Stdlib Require Export Strings.Byte.

(** ** Bytes *)

Definition b2z (b : byte) : Z := Z.of_N (Byte.to_N b).
(** [uint8(z)]. *)
Definition z2b (z : Z) : byte := default x00 (Byte.of_N (Z.to_N (z mod 256))).

Lemma b2z_range b : 0 <= b2z b < 256.
Proof. unfold b2z. pose proof (Byte.to_N_bounded b). lia. Qed.

Lemma b2z_z2b z : b2z (z2b z) = z mod 256.
Proof.
  unfold b2z, z2b. pose proof (Z.mod_pos_bound z 256 ltac:(lia)) as Hr.
  destruct (Byte.of_N (Z.to_N (z mod 256))) as [b|] eqn:E; simpl.
  - apply Byte.to_of_N in E. rewrite E. lia.
  - apply Byte.of_N_None_iff in E. lia.
Qed.

Lemma b2z_small z : 0 <= z < 256 -> b2z (z2b z) = z.
Proof. intros. by rewrite b2z_z2b, Z.mod_small. Qed.

(** Go strings are byte sequences. *)
Definition str_bytes (s : string) : list byte := String.list_byte_of_string s.
Definition bytes_str (bs : list byte) : string := String.string_of_list_byte bs.

Lemma bytes_str_bytes s : bytes_str (str_bytes s) = s.
Proof. apply String.string_of_list_byte_of_string. Qed.

Lemma length_str_bytes s : length (str_bytes s) = String.length s.
Proof. unfold str_bytes, String.list_byte_of_string. rewrite length_map. induction s; simpl; congruence. Qed.

(** ** Sizes and varints *)

(** [bits.Len64]. *)
Definition Len64 (x : Z) : Z := if x =? 0 then 0 else Z.log2 x + 1.

Definition sov (x : Z) : Z := (Len64 (Z.lor x 1) + 6) / 7.

Definition soz (x : Z) : Z := sov (u64 (Z.lxor (u64 (Z.shiftl x 1)) (u64 (Z.shiftr (i64 x) 63)))).

(** The writer: a buffer and the index everything from which is written. *)
Definition wstate : Type := list byte * Z.

Fixpoint encodeVarint_loop (n : nat) (dAtA : list byte) (offset v : Z) : result (list byte) :=
  match n with
  | O => Panic IndexOutOfRange
  | S n =>
      if 128 <=? v then
        dAtA ← slice_set dAtA offset (z2b (Z.lor (Z.land v 127) 128));
        encodeVarint_loop n dAtA (offset + 1) (Z.shiftr v 7)
      else slice_set dAtA offset (z2b v)
  end.

(** [encodeVarint] of an unsigned 64-bit value: at most ten bytes. *)
Definition encodeVarint (v : Z) (w : wstate) : result wstate :=
  let '(dAtA, i) := w in
  let offset := i - sov v in
  dAtA ← encodeVarint_loop 10 dAtA offset v;
  Ok (dAtA, offset).

(** [i -= len(src); copy(dAtA[i:], src)]: [copy] stops at the shorter end. *)
Definition copy_back (src : list byte) (w : wstate) : result wstate :=
  let '(dAtA, i) := w in
  let i := i - zlen src in
  rest ← slice_from dAtA i;
  Ok (take (Z.to_nat i) dAtA ++ take (length rest) src ++ drop (length src) rest, i).

(** [i--; dAtA[i] = b]. *)
Definition put_byte (b : Z) (w : wstate) : result wstate :=
  let '(dAtA, i) := w in
  dAtA ← slice_set dAtA (i - 1) (z2b b);
  Ok (dAtA, i - 1).

(** A nested message: [size := x.MarshalToSizedBufferVT(dAtA[:i]); i -= size],
    then its length. *)
Definition put_nested (marshal : list byte -> result (list byte * Z)) (w : wstate) : result wstate :=
  let '(dAtA, i) := w in
  _ ← slice_from dAtA i;
  '(front, size) ← marshal (take (Z.to_nat i) dAtA);
  encodeVarint (u64 size) (front ++ drop (Z.to_nat i) dAtA, i - size).

(** The reference encoding of a varint. *)
Fixpoint varint_n (n : nat) (v : Z) : list byte :=
  match n with
  | O => []
  | S n => if 128 <=? v then z2b (Z.lor (Z.land v 127) 128) :: varint_n n (Z.shiftr v 7) else [z2b v]
  end.
Definition varint (v : Z) : list byte := varint_n 10 v.

Lemma log2_lor_1 x : 0 < x -> Z.log2 (Z.lor x 1) = Z.log2 x.
Proof.
  intros Hx. rewrite Z.log2_lor by lia. change (Z.log2 1) with 0. pose proof (Z.log2_nonneg x). lia.
Qed.

Lemma sov_pos x : 0 <= x -> Len64 (Z.lor x 1) = Z.log2 (Z.lor x 1) + 1.
Proof.
  intros Hx. unfold Len64. destruct (Z.eqb_spec (Z.lor x 1) 0) as [E|]; [|done].
  apply Z.lor_eq_0_iff in E. lia.
Qed.

Lemma sov_small x : 0 <= x < 128 -> sov x = 1.
Proof.
  intros Hx. unfold sov. rewrite sov_pos by lia.
  assert (H : 0 <= Z.log2 (Z.lor x 1) <= 6).
  { split; [apply Z.log2_nonneg|]. rewrite Z.log2_lor by lia. change (Z.log2 1) with 0.
    destruct (Z.eq_dec x 0) as [->|]; [done|].
    assert (Z.log2 x < 7) by (apply Z.log2_lt_pow2; lia). pose proof (Z.log2_nonneg x). lia. }
  symmetry. apply (Z.div_unique _ 7 1 (Z.log2 (Z.lor x 1) + 1 + 6 - 7)); lia.
Qed.

Lemma sov_big x : 128 <= x -> sov x = 1 + sov (Z.shiftr x 7).
Proof.
  intros Hx.
  assert (H7 : 7 <= Z.log2 x) by (apply Z.log2_le_pow2; lia).
  assert (Hs : 0 < Z.shiftr x 7).
  { rewrite Z.shiftr_div_pow2 by lia. apply Z.div_str_pos. lia. }
  unfold sov. rewrite !sov_pos, !log2_lor_1, Z.log2_shiftr by lia.
  rewrite Z.max_r by lia. rewrite <-Z.div_add_l by lia. f_equal. lia.
Qed.

Lemma varint_n_length n v : 0 <= v < 2 ^ (7 * Z.of_nat n) -> (0 < n)%nat -> zlen (varint_n n v) = sov v.
Proof.
  revert v. induction n as [|n IH]; intros v Hv Hn; [lia|]. cbn [varint_n].
  destruct (Z.leb_spec 128 v) as [Hge|Hlt]; [|by rewrite sov_small by lia].
  assert (Hs : 0 <= Z.shiftr v 7 < 2 ^ (7 * Z.of_nat n)).
  { rewrite Z.shiftr_div_pow2 by lia. split; [apply Z.div_pos; lia|].
    apply Z.div_lt_upper_bound; [lia|]. rewrite <-Z.pow_add_r by lia.
    replace (7 + 7 * Z.of_nat n) with (7 * Z.of_nat (S n)) by lia. lia. }
  destruct n as [|n].
  { exfalso. rewrite Z.shiftr_div_pow2 in Hs by lia. change (2 ^ (7 * Z.of_nat 0)) with 1 in Hs.
    assert (1 <= v / 2 ^ 7) by (apply Z.div_le_lower_bound; lia). lia. }
  rewrite sov_big by lia. rewrite <-(IH (Z.shiftr v 7) Hs) by lia. unfold zlen. simpl length. lia.
Qed.

Lemma varint_length v : 0 <= v < two64 -> zlen (varint v) = sov v.
Proof. intros Hv. apply varint_n_length; [|lia]. unfold two64 in Hv. lia. Qed.

Lemma sov_bound v : 0 <= v < two64 -> 1 <= sov v <= 10.
Proof.
  intros Hv. rewrite <-varint_length by done. unfold varint, zlen.
  assert (H : forall n v, (0 < n)%nat -> (1 <= length (varint_n n v) <= n)%nat).
  { induction n as [|n IH]; intros w Hn; [lia|]. cbn [varint_n]. destruct (128 <=? w); simpl; [|lia].
    destruct n; [simpl; lia|]. specialize (IH (Z.shiftr w 7)). lia. }
  pose proof (H 10%nat v). lia.
Qed.

(** ** Writing backwards

    [writes f out]: whenever there is room, [f] puts [out] right before what is
    already written. *)

Definition writes (f : wstate -> result wstate) (out : list byte) : Prop :=
  forall dAtA i, zlen out <= i <= zlen dAtA ->
    exists dAtA', f (dAtA, i) = Ok (dAtA', i - zlen out) /\ length dAtA' = length dAtA /\
      drop (Z.to_nat (i - zlen out)) dAtA' = out ++ drop (Z.to_nat i) dAtA.

Lemma zlen_app {A} (l k : list A) : zlen (l ++ k) = zlen l + zlen k.
Proof. unfold zlen. rewrite length_app. lia. Qed.

Lemma zlen_nonneg {A} (l : list A) : 0 <= zlen l.
Proof. unfold zlen. lia. Qed.

Lemma zlen_cons {A} (x : A) l : zlen (x :: l) = 1 + zlen l.
Proof. unfold zlen. simpl. lia. Qed.

Lemma writes_nil : writes Ok [].
Proof. intros dAtA i Hi. exists dAtA. unfold zlen; simpl. by rewrite Z.sub_0_r. Qed.

(** [f] first, then [g] in front of it. *)
Lemma writes_seq f g out1 out2 :
  writes f out1 -> writes g out2 -> writes (fun w => w ← f w; g w) (out2 ++ out1).
Proof.
  intros Hf Hg dAtA i Hi. rewrite zlen_app in Hi. pose proof (zlen_nonneg out1). pose proof (zlen_nonneg out2).
  destruct (Hf dAtA i) as (d1 & H1 & L1 & D1); [lia|].
  destruct (Hg d1 (i - zlen out1)) as (d2 & H2 & L2 & D2); [unfold zlen in *; lia|].
  exists d2. rewrite H1. cbn [mbind result_bind]. rewrite H2, zlen_app.
  replace (i - (zlen out2 + zlen out1)) with (i - zlen out1 - zlen out2) by lia.
  split; [done|]. split; [congruence|]. by rewrite D2, D1, app_assoc.
Qed.

Lemma writes_put_byte b : writes (put_byte b) [z2b b].
Proof.
  intros dAtA i Hi. unfold zlen in Hi at 1. simpl in Hi. unfold put_byte.
  rewrite slice_set_ok by lia. cbn [mbind result_bind]. eexists. split; [done|].
  split; [by rewrite length_insert|]. change (zlen [z2b b]) with 1.
  assert (Hlt : (Z.to_nat (i - 1) < length dAtA)%nat) by (unfold zlen in Hi; lia).
  rewrite drop_insert_ge, Nat.sub_diag by lia.
  destruct (lookup_lt_is_Some_2 dAtA (Z.to_nat (i - 1)) Hlt) as [x Hx].
  rewrite (drop_S dAtA x (Z.to_nat (i - 1)) Hx). simpl.
  by replace (S (Z.to_nat (i - 1))) with (Z.to_nat i) by lia.
Qed.

Lemma writes_copy_back src : writes (copy_back src) src.
Proof.
  intros dAtA i Hi. pose proof (zlen_nonneg src). unfold copy_back, slice_from.
  destruct (Z.ltb_spec (i - zlen src) 0); [lia|]. destruct (Z.ltb_spec (zlen dAtA) (i - zlen src)); [lia|].
  cbn [orb mbind result_bind]. eexists. split; [done|]. unfold zlen in *.
  rewrite (take_ge src) by (rewrite length_drop; lia). split.
  - rewrite !length_app, length_take, !length_drop. lia.
  - rewrite drop_app_length' by (rewrite length_take; lia). f_equal. rewrite drop_drop. f_equal. lia.
Qed.

Lemma encodeVarint_loop_ok n v dAtA (off : nat) :
  (off + length (varint_n n v) <= length dAtA)%nat -> 0 <= v < 2 ^ (7 * Z.of_nat n) -> (0 < n)%nat ->
  encodeVarint_loop n dAtA (Z.of_nat off) v =
    Ok (take off dAtA ++ varint_n n v ++ drop (off + length (varint_n n v)) dAtA).
Proof.
  revert v dAtA off. induction n as [|n IH]; intros v dAtA off Hlen Hv Hn; [lia|].
  cbn [varint_n encodeVarint_loop] in *. destruct (Z.leb_spec 128 v) as [Hge|Hlt].
  - simpl in Hlen. rewrite slice_set_ok by (unfold zlen; lia). cbn [mbind result_bind]. rewrite Nat2Z.id.
    replace (Z.of_nat off + 1) with (Z.of_nat (S off)) by lia.
    assert (Hs : 0 <= Z.shiftr v 7 < 2 ^ (7 * Z.of_nat n)).
    { rewrite Z.shiftr_div_pow2 by lia. split; [apply Z.div_pos; lia|].
      apply Z.div_lt_upper_bound; [lia|]. rewrite <-Z.pow_add_r by lia.
      replace (7 + 7 * Z.of_nat n) with (7 * Z.of_nat (S n)) by lia. lia. }
    destruct n as [|n].
    { exfalso. rewrite Z.shiftr_div_pow2 in Hs by lia. change (2 ^ (7 * Z.of_nat 0)) with 1 in Hs.
      assert (1 <= v / 2 ^ 7) by (apply Z.div_le_lower_bound; lia). lia. }
    rewrite IH by (rewrite ?length_insert; lia). f_equal.
    rewrite (drop_insert_lt dAtA) by lia.
    rewrite (take_S_r _ _ (z2b (Z.lor (Z.land v 127) 128))) by (apply list_lookup_insert_eq; lia).
    rewrite take_insert_ge by lia. rewrite <-app_assoc. simpl. by rewrite Nat.add_succ_r.
  - simpl in Hlen. rewrite slice_set_ok by (unfold zlen; lia). rewrite Nat2Z.id. f_equal.
    rewrite insert_take_drop by lia. simpl. by rewrite Nat.add_1_r.
Qed.

Lemma writes_encodeVarint v : 0 <= v < two64 -> writes (encodeVarint v) (varint v).
Proof.
  intros Hv dAtA i Hi. unfold encodeVarint. rewrite <-varint_length by done.
  set (off := Z.to_nat (i - zlen (varint v))).
  replace (i - zlen (varint v)) with (Z.of_nat off) by lia.
  unfold varint. rewrite encodeVarint_loop_ok; [|unfold off, zlen, varint in *; lia|unfold two64 in Hv; lia|lia].
  fold (varint v). cbn [mbind result_bind]. eexists. split; [done|].
  assert (Hoff : (off + length (varint v) = Z.to_nat i)%nat) by (unfold off, zlen in *; lia).
  assert (Hle : (Z.to_nat i <= length dAtA)%nat) by (unfold zlen in *; lia).
  split.
  - rewrite !length_app, length_take, length_drop. lia.
  - rewrite drop_app_length' by (rewrite length_take; lia). by rewrite Hoff.
Qed.

(** A marshaller that fills the end of any large enough buffer with [out]. *)
Definition marshals (f : list byte -> result (list byte * Z)) (out : list byte) : Prop :=
  forall dAtA, zlen out <= zlen dAtA ->
    exists dAtA', f dAtA = Ok (dAtA', zlen out) /\ length dAtA' = length dAtA /\
      drop (length dAtA - length out) dAtA' = out.

Lemma writes_nested f out :
  zlen out < two64 -> marshals f out -> writes (put_nested f) (varint (zlen out) ++ out).
Proof.
  intros Hsz Hf dAtA i Hi. rewrite zlen_app in Hi. pose proof (zlen_nonneg (varint (zlen out))).
  pose proof (zlen_nonneg out). unfold put_nested, slice_from.
  destruct (Z.ltb_spec i 0); [lia|]. destruct (Z.ltb_spec (zlen dAtA) i); [lia|]. cbn [orb mbind result_bind].
  assert (Hi' : (Z.to_nat i <= length dAtA)%nat) by (unfold zlen in *; lia).
  assert (Ht : length (take (Z.to_nat i) dAtA) = Z.to_nat i) by (rewrite length_take; lia).
  destruct (Hf (take (Z.to_nat i) dAtA)) as (d & -> & Hl & Hd); [unfold zlen in *; lia|].
  cbn [mbind result_bind]. rewrite u64_id by lia. rewrite Ht in Hl, Hd.
  destruct (writes_encodeVarint (zlen out) ltac:(lia) (d ++ drop (Z.to_nat i) dAtA) (i - zlen out))
    as (d2 & -> & Hl2 & Hd2); [rewrite zlen_app; unfold zlen in *; rewrite length_drop; lia|].
  exists d2. rewrite zlen_app. split; [f_equal; f_equal; lia|].
  split; [rewrite Hl2, length_app, length_drop; lia|].
  replace (i - (zlen (varint (zlen out)) + zlen out)) with (i - zlen out - zlen (varint (zlen out))) by lia.
  rewrite Hd2, <-app_assoc. f_equal. rewrite drop_app_le by (unfold zlen in *; lia). f_equal.
  replace (Z.to_nat (i - zlen out)) with (Z.to_nat i - length out)%nat by (unfold zlen in *; lia). done.
Qed.

(** From a writer that starts at the end of the buffer. *)
Lemma writes_marshals f out :
  writes f out ->
  marshals (fun dAtA => '(dAtA', i) ← f (dAtA, zlen dAtA); Ok (dAtA', zlen dAtA' - i)) out.
Proof.
  intros Hf dAtA Hlen. destruct (Hf dAtA (zlen dAtA)) as (d & -> & Hl & Hd); [lia|].
  cbn [mbind result_bind]. exists d. split.
  - f_equal. f_equal. unfold zlen in *. lia.
  - split; [done|]. unfold zlen in Hd. rewrite Nat2Z.id, drop_all, app_nil_r in Hd.
    replace (length dAtA - length out)%nat with (Z.to_nat (Z.of_nat (length dAtA) - Z.of_nat (length out))) by lia.
    done.
Qed.

(** [if b { ... }]. *)
Definition when (b : bool) (f : wstate -> result wstate) (w : wstate) : result wstate :=
  if b then f w else Ok w.

Lemma writes_when b f out : (b = true -> writes f out) -> writes (when b f) (if b then out else []).
Proof. destruct b; intros Hf; [by apply Hf|apply writes_nil]. Qed.

Definition and_then (f g : wstate -> result wstate) (w : wstate) : result wstate := w ← f w; g w.
Declare Scope go_scope.
Infix ";;>" := and_then (at level 60, right associativity) : go_scope.
Open Scope go_scope.

(** ** Parsing *)

Inductive uerr :=
  | ErrIntOverflow | ErrUnexpectedEOF | ErrInvalidLength | ErrUnexpectedEndOfGroup
  | ErrEndGroup           (* "wiretype end group for non-group" *)
  | ErrIllegalTag         (* "illegal tag" *)
  | ErrWrongWireType      (* "wrong wireType" *)
  | ErrIllegalWireType.   (* "illegal wireType" *)

(** A parser returns a value or an error, or panics; a loop may be cut by its
    fuel ([None]). *)
Definition parsed (A : Type) : Type := option (result (uerr + A)).
Definition done_ {A} (a : A) : parsed A := Some (Ok (inr a)).
Definition fail_ {A} (e : uerr) : parsed A := Some (Ok (inl e)).
Definition lift {A} (r : result A) : parsed A :=
  Some (match r with Ok a => Ok (inr a) | Panic p => Panic p end).
Definition pbind {A B} (m : parsed A) (k : A -> parsed B) : parsed B :=
  match m with
  | Some (Ok (inr a)) => k a
  | Some (Ok (inl e)) => Some (Ok (inl e))
  | Some (Panic p) => Some (Panic p)
  | None => None
  end.
Notation "x ⇐ m ; k" := (pbind m (fun x => k)) (at level 20, m at level 100, k at level 200, right associativity) : go_scope.
Notation "' x ⇐ m ; k" := (pbind m (fun x => k)) (at level 20, x pattern, m at level 100, k at level 200, right associativity) : go_scope.

Section varint_loop.
(** The conversion to the integer type the varint is accumulated in. *)
Variable wrap : Z -> Z.

(** [for shift := uint(0); ; shift += 7 { ... }]: returns the value and [iNdEx]. *)
Fixpoint varint_loop (n : nat) (dAtA : list byte) (l shift acc iNdEx : Z) : parsed (Z * Z) :=
  match n with
  | O => None
  | S n =>
      if 64 <=? shift then fail_ ErrIntOverflow else
      if l <=? iNdEx then fail_ ErrUnexpectedEOF else
      b ⇐ lift (slice_get dAtA iNdEx);
      let acc := Z.lor acc (wrap (Z.shiftl (Z.land (b2z b) 127) shift)) in
      if b2z b <? 128 then done_ (acc, iNdEx + 1)
      else varint_loop n dAtA l (shift + 7) acc (iNdEx + 1)
  end.

Definition read_varint (dAtA : list byte) (l iNdEx : Z) : parsed (Z * Z) :=
  varint_loop 11 dAtA l 0 0 iNdEx.
End varint_loop.

(** A length and as many bytes: [len] is already an [int]. *)
Definition read_slice (dAtA : list byte) (l len iNdEx : Z) : parsed (list byte * Z) :=
  if len <? 0 then fail_ ErrInvalidLength else
  let postIndex := i64 (iNdEx + len) in
  if postIndex <? 0 then fail_ ErrInvalidLength else
  if l <? postIndex then fail_ ErrUnexpectedEOF else
  s ⇐ lift (slice_from (take (Z.to_nat postIndex) dAtA) iNdEx);
  done_ (s, postIndex).

(** Strings accumulate their length in a [uint64]. *)
Definition read_string (dAtA : list byte) (l iNdEx : Z) : parsed (string * Z) :=
  '(stringLen, iNdEx) ⇐ read_varint u64 dAtA l iNdEx;
  '(s, iNdEx) ⇐ read_slice dAtA l (i64 stringLen) iNdEx;
  done_ (bytes_str s, iNdEx).

(** Bytes and nested messages accumulate it in an [int]. *)
Definition read_bytes (dAtA : list byte) (l iNdEx : Z) : parsed (list byte * Z) :=
  '(len, iNdEx) ⇐ read_varint i64 dAtA l iNdEx;
  read_slice dAtA l len iNdEx.

(** *** Skipping an unknown field *)

(** One round of the loop of [skip]: [inl n] is its result, [inr] the next round. *)
Definition skip_step (dAtA : list byte) (l iNdEx depth : Z) : parsed (Z + Z * Z) :=
  '(wire, iNdEx) ⇐ read_varint u64 dAtA l iNdEx;
  let wireType := Z.land wire 7 in
  '(iNdEx, depth) ⇐
    (if wireType =? 0 then
       '(_, iNdEx) ⇐ read_varint u64 dAtA l iNdEx; done_ (iNdEx, depth)
     else if wireType =? 1 then done_ (i64 (iNdEx + 8), depth)
     else if wireType =? 2 then
       '(length, iNdEx) ⇐ read_varint i64 dAtA l iNdEx;
       if length <? 0 then fail_ ErrInvalidLength else done_ (i64 (iNdEx + length), depth)
     else if wireType =? 3 then done_ (iNdEx, i64 (depth + 1))
     else if wireType =? 4 then
       if depth =? 0 then fail_ ErrUnexpectedEndOfGroup else done_ (iNdEx, depth - 1)
     else if wireType =? 5 then done_ (i64 (iNdEx + 4), depth)
     else fail_ ErrIllegalWireType);
  if iNdEx <? 0 then fail_ ErrInvalidLength else
  if depth =? 0 then done_ (inl iNdEx) else done_ (inr (iNdEx, depth)).

Fixpoint skip_loop (fuel : nat) (dAtA : list byte) (l iNdEx depth : Z) : parsed Z :=
  match fuel with
  | O => None
  | S fuel =>
      if iNdEx <? l then
        r ⇐ skip_step dAtA l iNdEx depth;
        match r with
        | inl n => done_ n
        | inr (iNdEx, depth) => skip_loop fuel dAtA l iNdEx depth
        end
      else fail_ ErrUnexpectedEOF
  end.

Definition skip (dAtA : list byte) : parsed Z := skip_loop (S (length dAtA)) dAtA (zlen dAtA) 0 0.

(** *** The loop of every [UnmarshalVT]

    [field fieldNum] parses the payload of a known field into the message, and is
    [None] for an unknown one, which goes to [unknownFields] as it is. *)

Section unmarshal.
Context {Msg : Type}.
Variable field : Z -> option (Z -> list byte -> Z -> Z -> Msg -> parsed (Msg * Z)).
Variable append_unknown : list byte -> Msg -> Msg.

Definition unmarshal_step (dAtA : list byte) (l iNdEx : Z) (m : Msg) : parsed (Msg * Z) :=
  let preIndex := iNdEx in
  '(wire, iNdEx) ⇐ read_varint u64 dAtA l iNdEx;
  let fieldNum := i32 (Z.shiftr wire 3) in
  let wireType := Z.land wire 7 in
  if wireType =? 4 then fail_ ErrEndGroup else
  if fieldNum <=? 0 then fail_ ErrIllegalTag else
  match field fieldNum with
  | Some f => f wireType dAtA l iNdEx m
  | None =>
      let iNdEx := preIndex in
      rest ⇐ lift (slice_from dAtA iNdEx);
      skippy ⇐ skip rest;
      if (skippy <? 0) || (i64 (iNdEx + skippy) <? 0) then fail_ ErrInvalidLength else
      if l <? i64 (iNdEx + skippy) then fail_ ErrUnexpectedEOF else
      u ⇐ lift (slice_from (take (Z.to_nat (iNdEx + skippy)) dAtA) iNdEx);
      done_ (append_unknown u m, iNdEx + skippy)
  end.

Fixpoint unmarshal_loop (fuel : nat) (dAtA : list byte) (l iNdEx : Z) (m : Msg) : parsed Msg :=
  match fuel with
  | O => None
  | S fuel =>
      if iNdEx <? l then
        '(m, iNdEx) ⇐ unmarshal_step dAtA l iNdEx m;
        unmarshal_loop fuel dAtA l iNdEx m
      else if l <? iNdEx then fail_ ErrUnexpectedEOF
      else done_ m
  end.

Definition unmarshal (dAtA : list byte) (m : Msg) : parsed Msg :=
  unmarshal_loop (S (length dAtA)) dAtA (zlen dAtA) 0 m.
End unmarshal.

(** A known field with its expected wire type. *)
Definition typed {Msg} (wt : Z) (f : list byte -> Z -> Z -> Msg -> parsed (Msg * Z))
  : Z -> list byte -> Z -> Z -> Msg -> parsed (Msg * Z) :=
  fun wireType dAtA l iNdEx m =>
    if negb (wireType =? wt) then fail_ ErrWrongWireType else f dAtA l iNdEx m.

(** ** Integer conversions as bit operations *)

(** What the conversions have in common: they distribute over [or]. *)
Class Wrap (w : Z -> Z) := {
  wrap_lor : forall a b, w (Z.lor a b) = Z.lor (w a) (w b);
  wrap_zero : w 0 = 0;
}.

(** A signed integer of [h + 1] bits. *)
Definition sw (h z : Z) : Z := (z + 2 ^ h) mod 2 ^ (h + 1) - 2 ^ h.

Lemma sw_range h z : 0 <= h -> - 2 ^ h <= sw h z < 2 ^ h.
Proof.
  intros Hh. unfold sw. pose proof (Z.mod_pos_bound (z + 2 ^ h) (2 ^ (h + 1)) ltac:(lia)).
  rewrite Z.pow_add_r in * by lia. lia.
Qed.

Lemma sw_mod h z : 0 <= h -> sw h z mod 2 ^ (h + 1) = z mod 2 ^ (h + 1).
Proof. intros Hh. unfold sw. rewrite Zminus_mod_idemp_l. f_equal. lia. Qed.

Lemma high_bits h x n : 0 <= h <= n -> - 2 ^ h <= x < 2 ^ h -> Z.testbit x n = (x <? 0).
Proof.
  intros Hn Hx. rewrite Z.testbit_odd, Z.shiftr_div_pow2 by lia.
  assert (Hp : 2 ^ h <= 2 ^ n) by (apply Z.pow_le_mono_r; lia).
  destruct (Z.ltb_spec x 0).
  - replace (x / 2 ^ n) with (-1); [done|]. apply (Z.div_unique _ _ _ (x + 2 ^ n)); lia.
  - by rewrite Z.div_small by lia.
Qed.

Lemma sw_testbit h z n : 0 <= h -> 0 <= n -> Z.testbit (sw h z) n = Z.testbit z (Z.min n h).
Proof.
  intros Hh Hn. assert (Hlow : forall n, 0 <= n <= h -> Z.testbit (sw h z) n = Z.testbit z n).
  { intros k Hk. rewrite <-(Z.mod_pow2_bits_low (sw h z) (h + 1)) by lia.
    rewrite sw_mod by lia. apply Z.mod_pow2_bits_low. lia. }
  destruct (Z.le_gt_cases n h); [rewrite Z.min_l by lia; apply Hlow; lia|].
  rewrite Z.min_r by lia. rewrite <-(Hlow h) by lia.
  pose proof (sw_range h z Hh). by rewrite !(high_bits h (sw h z)) by lia.
Qed.

Lemma sw_lor h a b : 0 <= h -> sw h (Z.lor a b) = Z.lor (sw h a) (sw h b).
Proof.
  intros Hh. apply Z.bits_inj'. intros n Hn. by rewrite Z.lor_spec, !sw_testbit, Z.lor_spec by lia.
Qed.

Lemma i64_sw z : i64 z = sw 63 z.
Proof. done. Qed.
Lemma i32_sw z : i32 z = sw 31 z.
Proof. done. Qed.

#[export] Instance i64_wrap : Wrap i64.
Proof. split; [|done]. intros a b. rewrite !i64_sw. by apply sw_lor. Qed.
#[export] Instance i32_wrap : Wrap i32.
Proof. split; [|done]. intros a b. rewrite !i32_sw. by apply sw_lor. Qed.
#[export] Instance u64_wrap : Wrap u64.
Proof.
  split; [|done]. intros a b. unfold u64, two64. change 18446744073709551616 with (2 ^ 64).
  apply Z.bits_inj'. intros n Hn. rewrite Z.lor_spec, !Z.testbit_mod_pow2, Z.lor_spec by lia.
  by destruct (n <? 64).
Qed.

(** ** Parsers never panic and always finish *)

Definition good {A} (P : A -> Prop) (m : parsed A) : Prop :=
  match m with Some (Ok (inr a)) => P a | Some (Ok (inl _)) => True | _ => False end.

Lemma good_bind {A B} (P : A -> Prop) (Q : B -> Prop) m k :
  good P m -> (forall a, P a -> good Q (k a)) -> good Q (pbind m k).
Proof. intros Hm Hk. destruct m as [[[e|a]|p]|]; simpl in *; [done|by apply Hk|done|done]. Qed.

Lemma good_mono {A} (P Q : A -> Prop) m : good P m -> (forall a, P a -> Q a) -> good Q m.
Proof. intros Hm HQ. destruct m as [[[e|a]|p]|]; simpl in *; [done|by apply HQ|done|done]. Qed.

Lemma good_pair {A B} (P : A -> B -> Prop) (Q : A * B -> Prop) m :
  good Q m -> (forall a b, Q (a, b) -> P a b) -> good (fun '(a, b) => P a b) m.
Proof. intros H HQ. eapply good_mono; [exact H|]. intros [a b]. apply HQ. Qed.

Lemma good_slice_get dAtA i : 0 <= i < zlen dAtA -> good (fun _ : byte => True) (lift (slice_get dAtA i)).
Proof. intros Hi. destruct (slice_get_total dAtA i Hi) as (x & _ & ->). done. Qed.

Lemma good_slice_from {A} (dAtA : list A) i : 0 <= i <= zlen dAtA -> good (fun s => s = drop (Z.to_nat i) dAtA) (lift (slice_from dAtA i)).
Proof.
  intros Hi. unfold slice_from. destruct (Z.ltb_spec i 0); [lia|]. destruct (Z.ltb_spec (zlen dAtA) i); [lia|]. done.
Qed.

Lemma varint_loop_good wrap `{Wrap wrap} n dAtA shift acc i :
  shift = 7 * (11 - Z.of_nat n) -> (1 <= n)%nat -> 0 <= i -> (exists z, acc = wrap z) ->
  good (fun '(v, i') => i < i' <= zlen dAtA /\ exists z, v = wrap z)
    (varint_loop wrap n dAtA (zlen dAtA) shift acc i).
Proof.
  revert shift acc i. induction n as [|n IH]; intros shift acc i Hs Hn Hi [z ->]; [lia|].
  cbn [varint_loop]. destruct (Z.leb_spec 64 shift); [done|].
  destruct (Z.leb_spec (zlen dAtA) i); [done|].
  eapply good_bind; [apply good_slice_get; lia|]. intros b _.
  rewrite <-wrap_lor. destruct (b2z b <? 128); [simpl; split; [lia|eauto]|].
  eapply good_mono; [apply IH; [lia|lia|lia|eauto]|]. intros [v i'] [? ?]. split; [lia|done].
Qed.

Lemma read_varint_good wrap `{Wrap wrap} dAtA i :
  0 <= i -> good (fun '(v, i') => i < i' <= zlen dAtA /\ exists z, v = wrap z)
    (read_varint wrap dAtA (zlen dAtA) i).
Proof. intros Hi. apply varint_loop_good; [done|done|lia|lia|]. exists 0. by rewrite wrap_zero. Qed.

(** Adding a length to an index either stays exact or becomes negative. *)
Lemma i64_add i len : 0 <= i < two63 -> 0 <= len < two63 ->
  i64 (i + len) = i + len \/ i64 (i + len) < 0.
Proof.
  intros Hi Hl. destruct (Z.lt_ge_cases (i + len) two63); [left; apply i64_id; unfold two63 in *; lia|right].
  unfold i64, two63, two64 in *.
  replace (i + len + 9223372036854775808) with ((i + len - 9223372036854775808) + 1 * 18446744073709551616) by lia.
  rewrite Z.mod_add, Z.mod_small by lia. lia.
Qed.

Lemma read_slice_good dAtA len i :
  zlen dAtA < two63 -> 0 <= i <= zlen dAtA -> len < two63 ->
  good (fun '(s, i') => i <= i' <= zlen dAtA /\ zlen s < two63) (read_slice dAtA (zlen dAtA) len i).
Proof.
  intros Hd Hi Hlen. unfold read_slice. destruct (Z.ltb_spec len 0); [done|].
  destruct (Z.ltb_spec (i64 (i + len)) 0); [done|]. destruct (Z.ltb_spec (zlen dAtA) (i64 (i + len))); [done|].
  assert (He : i64 (i + len) = i + len) by (destruct (i64_add i len); lia). rewrite He in *.
  assert (Hz : zlen (take (Z.to_nat (i + len)) dAtA) = i + len) by (unfold zlen in *; rewrite length_take; lia).
  eapply good_bind; [apply good_slice_from; lia|]. intros s ->. simpl. split; [lia|].
  unfold zlen in *. rewrite length_drop. lia.
Qed.

Lemma read_string_good dAtA i :
  zlen dAtA < two63 -> 0 <= i -> good (fun '(_, i') => i <= i' <= zlen dAtA) (read_string dAtA (zlen dAtA) i).
Proof.
  intros Hd Hi. unfold read_string. eapply good_bind; [apply (read_varint_good u64); done|].
  intros [v i1] [Hi1 _]. eapply good_bind; [apply read_slice_good; [done|lia|apply i64_range]|].
  intros [s i2] [Hi2 _]. simpl. lia.
Qed.

Lemma read_bytes_good dAtA i :
  zlen dAtA < two63 -> 0 <= i ->
  good (fun '(s, i') => i <= i' <= zlen dAtA /\ zlen s < two63) (read_bytes dAtA (zlen dAtA) i).
Proof.
  intros Hd Hi. unfold read_bytes. eapply good_bind; [apply (read_varint_good i64); done|].
  intros [v i1] [Hi1 [z ->]]. eapply good_mono; [apply read_slice_good; [done|lia|apply i64_range]|].
  intros [s i2] [? ?]. split; [lia|done].
Qed.

Lemma skip_step_good dAtA i depth :
  zlen dAtA < two63 -> 0 <= i ->
  good (fun r => match r with inl n => i < n < two63 | inr (i', _) => i < i' end) (skip_step dAtA (zlen dAtA) i depth).
Proof.
  intros Hd Hi. unfold skip_step. eapply good_bind; [apply (read_varint_good u64); done|].
  intros [wire i1] [Hi1 _].
  eapply good_bind with (P := fun '(i2, _) => i < i2 < two63 \/ i2 < 0).
  - set (wt := Z.land wire 7).
    assert (Hadd : forall j len, i < j < two63 -> 0 <= len < two63 -> i < i64 (j + len) < two63 \/ i64 (j + len) < 0).
    { intros j len Hj Hlen. pose proof (i64_range (j + len)). destruct (i64_add j len) as [He|He]; lia. }
    destruct (wt =? 0).
    { eapply good_bind; [apply (read_varint_good u64); lia|]. intros [v i2] [? _]. simpl. lia. }
    destruct (wt =? 1); [simpl; apply Hadd; unfold two63 in *; lia|].
    destruct (wt =? 2).
    { eapply good_bind; [apply (read_varint_good i64); lia|]. intros [v i2] [? [z ->]].
      destruct (Z.ltb_spec (i64 z) 0); [done|]. simpl. pose proof (i64_range z). apply Hadd; lia. }
    destruct (wt =? 3); [simpl; lia|]. destruct (wt =? 4); [by destruct (depth =? 0); simpl; [|lia]|].
    destruct (wt =? 5); [simpl; apply Hadd; unfold two63 in *; lia|done].
  - intros [i2 d2] H2. destruct (Z.ltb_spec i2 0); [done|]. destruct (d2 =? 0); simpl; lia.
Qed.

Lemma skip_loop_good fuel dAtA i depth :
  zlen dAtA < two63 -> 0 <= i -> zlen dAtA - i < Z.of_nat fuel -> (1 <= fuel)%nat ->
  good (fun n => i < n < two63) (skip_loop fuel dAtA (zlen dAtA) i depth).
Proof.
  intros Hd. revert i depth. induction fuel as [|fuel IH]; intros i depth Hi Hf H1; [lia|cbn [skip_loop]].
  destruct (Z.ltb_spec i (zlen dAtA)); [|done].
  eapply good_bind; [by apply skip_step_good|]. intros [n|[i' d']] Hr; [done|].
  eapply good_mono; [apply IH; lia|]. simpl. intros. lia.
Qed.

Section unmarshal_good.
Context {Msg : Type}.
Variable field : Z -> option (Z -> list byte -> Z -> Z -> Msg -> parsed (Msg * Z)).
Variable append_unknown : list byte -> Msg -> Msg.

(** Every known field moves the index forward, inside the buffer. *)
Definition field_good : Prop :=
  forall n f wt dAtA i m, field n = Some f -> zlen dAtA < two63 -> 0 <= i <= zlen dAtA ->
    good (fun '(_, i') => i <= i' <= zlen dAtA) (f wt dAtA (zlen dAtA) i m).

Hypothesis Hfield : field_good.

Lemma unmarshal_step_good dAtA i m :
  zlen dAtA < two63 -> 0 <= i < zlen dAtA ->
  good (fun '(_, i') => i < i' <= zlen dAtA) (unmarshal_step field append_unknown dAtA (zlen dAtA) i m).
Proof.
  intros Hd Hi. unfold unmarshal_step. eapply good_bind; [apply (read_varint_good u64); lia|].
  intros [wire i1] [Hi1 _]. destruct (_ =? 4); [done|]. destruct (_ <=? 0); [done|].
  destruct (field _) as [f|] eqn:Hf.
  - eapply good_mono; [eapply Hfield; [exact Hf|done|lia]|]. intros [? ?]. lia.
  - eapply good_bind; [apply good_slice_from; lia|]. intros rest ->.
    assert (Hr : zlen (drop (Z.to_nat i) dAtA) = zlen dAtA - i) by (unfold zlen in *; rewrite length_drop; lia).
    eapply good_bind; [apply skip_loop_good; [lia|done|unfold zlen; lia|lia]|]. intros sk Hsk. simpl in Hsk.
    destruct (Z.ltb_spec sk 0); [done|]. destruct (Z.ltb_spec (i64 (i + sk)) 0); [done|]. cbn [orb].
    destruct (Z.ltb_spec (zlen dAtA) (i64 (i + sk))); [done|].
    assert (Hs : i64 (i + sk) = i + sk) by (destruct (i64_add i sk); lia).
    rewrite Hs in *.
    assert (Hz : zlen (take (Z.to_nat (i + sk)) dAtA) = i + sk) by (unfold zlen in *; rewrite length_take; lia).
    eapply good_bind; [apply good_slice_from; lia|]. intros u _. simpl. lia.
Qed.

Lemma unmarshal_loop_good fuel dAtA i m :
  zlen dAtA < two63 -> 0 <= i <= zlen dAtA -> zlen dAtA - i < Z.of_nat fuel ->
  good (fun _ => True) (unmarshal_loop field append_unknown fuel dAtA (zlen dAtA) i m).
Proof.
  intros Hd. revert i m. induction fuel as [|fuel IH]; intros i m Hi Hf; [lia|]. cbn [unmarshal_loop].
  destruct (Z.ltb_spec i (zlen dAtA)).
  - eapply good_bind; [apply unmarshal_step_good; lia|]. intros [m' i'] Hi'. apply IH; lia.
  - destruct (Z.ltb_spec (zlen dAtA) i); [lia|done].
Qed.

(** The parser accepts or rejects every input; it neither panics nor loops. *)
Lemma unmarshal_good dAtA m :
  zlen dAtA < two63 -> good (fun _ => True) (unmarshal field append_unknown dAtA m).
Proof. intros Hd. pose proof (zlen_nonneg dAtA). apply unmarshal_loop_good; unfold zlen in *; lia. Qed.
End unmarshal_good.

Lemma typed_good {Msg} wt (f : list byte -> Z -> Z -> Msg -> parsed (Msg * Z)) wt' dAtA l i m P :
  good P (f dAtA l i m) -> good P (typed wt f wt' dAtA l i m).
Proof. unfold typed. by destruct (negb _). Qed.

(** ** Reading back what was written *)

(** The unread part of the buffer at [i] is [rest]. *)
Definition at_ (dAtA : list byte) (i : Z) (rest : list byte) : Prop :=
  0 <= i <= zlen dAtA /\ drop (Z.to_nat i) dAtA = rest.

Lemma at_zlen dAtA i rest : at_ dAtA i rest -> i + zlen rest = zlen dAtA.
Proof. intros [Hi <-]. unfold zlen in *. rewrite length_drop. lia. Qed.

Lemma at_app dAtA i out rest : at_ dAtA i (out ++ rest) -> at_ dAtA (i + zlen out) rest.
Proof.
  intros H. pose proof (at_zlen _ _ _ H) as Hz. rewrite zlen_app in Hz. pose proof (zlen_nonneg rest).
  pose proof (zlen_nonneg out). destruct H as [Hi Hd]. split; [lia|].
  replace (Z.to_nat (i + zlen out)) with (Z.to_nat i + length out)%nat by (unfold zlen in *; lia).
  by rewrite <-drop_drop, Hd, drop_app_length.
Qed.

Lemma at_cons dAtA i b rest : at_ dAtA i (b :: rest) ->
  i < zlen dAtA /\ slice_get dAtA i = Ok b /\ at_ dAtA (i + 1) rest.
Proof.
  intros H. pose proof (at_zlen _ _ _ H) as Hz. rewrite zlen_cons in Hz. pose proof (zlen_nonneg rest).
  split; [lia|]. split; [|apply (at_app dAtA i [b] rest H)]. destruct H as [Hi Hd].
  apply slice_get_ok; [lia|]. by rewrite <-(Nat.add_0_r (Z.to_nat i)), <-lookup_drop, Hd.
Qed.

Lemma shiftr_add_bits v s : 0 <= s ->
  Z.lor (v mod 2 ^ s) (Z.shiftl (Z.land (Z.shiftr v s) 127) s) = v mod 2 ^ (s + 7).
Proof.
  intros Hs. change 127 with (Z.ones 7). apply Z.bits_inj'. intros n Hn.
  rewrite Z.lor_spec, Z.shiftl_spec, !Z.testbit_mod_pow2, Z.land_spec by lia.
  destruct (Z.ltb_spec n s).
  - rewrite (Z.testbit_neg_r (Z.shiftr v s)) by lia. destruct (Z.ltb_spec n (s + 7)); [|lia]. by rewrite orb_false_r.
  - rewrite Z.shiftr_spec by lia. replace (n - s + s) with n by lia. cbn [orb andb].
    destruct (Z.ltb_spec n (s + 7)).
    + rewrite Z.ones_spec_low by lia. by rewrite andb_true_r.
    + rewrite Z.ones_spec_high by lia. by rewrite andb_false_r.
Qed.

Lemma land_127_low u : 0 <= u < 128 -> Z.land u 127 = u.
Proof. intros Hu. change 127 with (Z.ones 7). rewrite Z.land_ones by lia. apply Z.mod_small. lia. Qed.

(** Setting the top bit of a 7-bit value. *)
Lemma lor_128 r : 0 <= r < 128 -> Z.lor r 128 = r + 128.
Proof.
  intros Hr. assert (Hland : Z.land r 128 = 0).
  { change 128 with (2 ^ 7). apply Z.bits_inj'. intros n Hn.
    rewrite Z.land_spec, Z.pow2_bits_eqb, Z.bits_0 by lia.
    destruct (Z.eqb_spec 7 n) as [<-|]; [|by rewrite andb_false_r].
    rewrite andb_true_r. rewrite <-(Z.mod_small r (2 ^ 7)) by lia. apply Z.mod_pow2_bits_high. lia. }
  rewrite <-Z.lxor_lor by done. by rewrite <-Z.add_nocarry_lxor.
Qed.

Lemma cont_byte u : 0 <= u ->
  128 <= b2z (z2b (Z.lor (Z.land u 127) 128)) /\
  Z.land (b2z (z2b (Z.lor (Z.land u 127) 128))) 127 = Z.land u 127.
Proof.
  intros Hu. change 127 with (Z.ones 7). rewrite !Z.land_ones by lia. change (2 ^ 7) with 128.
  pose proof (Z.mod_pos_bound u 128 ltac:(lia)) as Hm.
  rewrite lor_128 by lia. rewrite b2z_small by lia. split; [lia|].
  rewrite <-(Z.mul_1_l 128) at 2. rewrite Z.mod_add by lia. by rewrite Z.mod_small by lia.
Qed.

Section read_back.
Variable wrap : Z -> Z.
Context `{Wrap wrap}.

Lemma varint_loop_back n m v s dAtA i rest :
  0 <= s -> 0 <= v < two64 -> 0 <= Z.shiftr v s < 2 ^ (7 * Z.of_nat m) -> (0 < m)%nat -> (m <= n)%nat ->
  (s = 0 \/ 0 < Z.shiftr v s) ->
  at_ dAtA i (varint_n m (Z.shiftr v s) ++ rest) ->
  varint_loop wrap n dAtA (zlen dAtA) s (wrap (v mod 2 ^ s)) i =
    done_ (wrap v, i + zlen (varint_n m (Z.shiftr v s))).
Proof.
  revert m s i. induction n as [|n IH]; intros m s i Hs Hv Hu Hm Hmn Hpos Hat; [lia|].
  assert (H64 : s < 64).
  { destruct Hpos as [->|Hpos]; [lia|]. destruct (Z.lt_ge_cases s 64); [done|]. exfalso.
    rewrite Z.shiftr_div_pow2 in Hpos by lia. rewrite Z.div_small in Hpos; [lia|].
    unfold two64 in Hv. change 18446744073709551616 with (2 ^ 64) in Hv.
    pose proof (Z.pow_le_mono_r 2 64 s). lia. }
  destruct m as [|m]; [lia|]. cbn [varint_loop]. destruct (Z.leb_spec 64 s); [lia|].
  set (u := Z.shiftr v s) in *. cbn [varint_n] in Hat |- *.
  destruct (Z.leb_spec 128 u) as [Hge|Hlt].
  - apply at_cons in Hat as (Hlt & -> & Hat). destruct (Z.leb_spec (zlen dAtA) i); [lia|].
    destruct (cont_byte u ltac:(lia)) as [Hb Hl]. unfold lift. cbn [pbind].
    rewrite Hl, <-wrap_lor, (proj2 (Z.ltb_ge _ 128) Hb). unfold u at 1. rewrite shiftr_add_bits by lia.
    assert (Hu7 : Z.shiftr u 7 = Z.shiftr v (s + 7)) by (unfold u; by rewrite Z.shiftr_shiftr by lia).
    rewrite Hu7 in Hat |- *.
    assert (Hr : 0 < Z.shiftr v (s + 7)).
    { rewrite <-Hu7, Z.shiftr_div_pow2 by lia. apply Z.div_str_pos. lia. }
    assert (Hb7 : 0 <= Z.shiftr v (s + 7) < 2 ^ (7 * Z.of_nat m)).
    { split; [lia|]. rewrite <-Hu7, Z.shiftr_div_pow2 by lia.
      apply Z.div_lt_upper_bound; [lia|]. rewrite <-Z.pow_add_r by lia.
      replace (7 + 7 * Z.of_nat m) with (7 * Z.of_nat (S m)) by lia. lia. }
    rewrite (IH m); [|lia|lia|done|destruct m; [change (2 ^ (7 * Z.of_nat 0)) with 1 in Hb7; lia|lia]|lia|by right|done].
    by rewrite zlen_cons, Z.add_assoc.
  - apply at_cons in Hat as (Hlt' & -> & Hat). destruct (Z.leb_spec (zlen dAtA) i); [lia|].
    unfold lift. cbn [pbind]. rewrite b2z_small by lia.
    rewrite land_127_low, <-wrap_lor by lia.
    assert (Hrec : Z.lor (v mod 2 ^ s) (Z.shiftl u s) = v).
    { rewrite <-(land_127_low u) by lia. unfold u. rewrite shiftr_add_bits by lia. apply Z.mod_small.
      split; [lia|]. unfold u in Hlt. rewrite Z.shiftr_div_pow2 in Hlt by lia.
      rewrite Z.pow_add_r by lia. pose proof (Z.mod_pos_bound v (2 ^ s) ltac:(lia)).
      pose proof (Z.div_mod v (2 ^ s) ltac:(lia)). nia. }
    rewrite Hrec. destruct (Z.ltb_spec u 128); [|lia]. unfold zlen; simpl. done.
Qed.

Lemma read_varint_back v dAtA i rest :
  0 <= v < two64 -> at_ dAtA i (varint v ++ rest) ->
  read_varint wrap dAtA (zlen dAtA) i = done_ (wrap v, i + zlen (varint v)).
Proof.
  intros Hv Hat. pose proof (varint_loop_back 11 10 v 0 dAtA i rest) as Hb.
  rewrite Z.shiftr_0_r in Hb. change (2 ^ 0) with 1 in Hb. rewrite Z.mod_1_r, wrap_zero in Hb.
  apply Hb; try lia; try done; unfold two64 in Hv; lia.
Qed.
End read_back.

(** The bytes of a length-delimited field. *)
Definition delimited (s : list byte) : list byte := varint (zlen s) ++ s.

Lemma read_slice_back s dAtA i rest :
  zlen dAtA < two63 -> at_ dAtA i (s ++ rest) ->
  read_slice dAtA (zlen dAtA) (zlen s) i = done_ (s, i + zlen s).
Proof.
  intros Hd Hat. pose proof (at_zlen _ _ _ Hat) as Hz. rewrite zlen_app in Hz.
  pose proof (zlen_nonneg s). pose proof (zlen_nonneg rest). destruct Hat as [Hi Hdrop].
  unfold read_slice. destruct (Z.ltb_spec (zlen s) 0); [lia|].
  rewrite i64_id by lia. destruct (Z.ltb_spec (i + zlen s) 0); [lia|].
  destruct (Z.ltb_spec (zlen dAtA) (i + zlen s)); [lia|].
  unfold slice_from. destruct (Z.ltb_spec i 0); [lia|].
  assert (Hl : zlen (take (Z.to_nat (i + zlen s)) dAtA) = i + zlen s) by (unfold zlen in *; rewrite length_take; lia).
  rewrite Hl. destruct (Z.ltb_spec (i + zlen s) i); [lia|]. cbn [orb lift pbind].
  replace (Z.to_nat (i + zlen s)) with (Z.to_nat i + length s)%nat by (unfold zlen; lia).
  rewrite <-take_drop_commute, Hdrop, take_app_length. done.
Qed.

Lemma read_bytes_back s dAtA i rest :
  zlen dAtA < two63 -> at_ dAtA i (delimited s ++ rest) ->
  read_bytes dAtA (zlen dAtA) i = done_ (s, i + zlen (delimited s)).
Proof.
  intros Hd Hat. unfold delimited in *. rewrite <-app_assoc in Hat.
  assert (Hs : 0 <= zlen s < two63).
  { pose proof (at_zlen _ _ _ Hat) as Hz. rewrite !zlen_app in Hz. pose proof (zlen_nonneg s).
    pose proof (zlen_nonneg rest). pose proof (zlen_nonneg (varint (zlen s))). destruct Hat. lia. }
  unfold read_bytes. rewrite (read_varint_back i64 (zlen s) dAtA i (s ++ rest)) by (unfold two63, two64 in *; auto with lia).
  cbn [pbind done_]. rewrite i64_id by lia. apply at_app in Hat.
  unfold done_ at 1. cbn [pbind]. rewrite (read_slice_back s dAtA _ rest) by done.
  by rewrite zlen_app, Z.add_assoc.
Qed.

Lemma read_string_back s dAtA i rest :
  zlen dAtA < two63 -> at_ dAtA i (delimited (str_bytes s) ++ rest) ->
  read_string dAtA (zlen dAtA) i = done_ (s, i + zlen (delimited (str_bytes s))).
Proof.
  intros Hd Hat. unfold delimited in *. set (bs := str_bytes s) in *. rewrite <-app_assoc in Hat.
  assert (Hs : 0 <= zlen bs < two63).
  { pose proof (at_zlen _ _ _ Hat) as Hz. rewrite !zlen_app in Hz. pose proof (zlen_nonneg bs).
    pose proof (zlen_nonneg rest). pose proof (zlen_nonneg (varint (zlen bs))). destruct Hat. lia. }
  unfold read_string. rewrite (read_varint_back u64 (zlen bs) dAtA i (bs ++ rest)) by (unfold two63, two64 in *; auto with lia).
  unfold done_ at 1. cbn [pbind]. rewrite u64_id, i64_id by (unfold two63, two64 in *; lia). apply at_app in Hat.
  rewrite (read_slice_back bs dAtA _ rest) by done. unfold done_ at 1. cbn [pbind].
  unfold bs. by rewrite bytes_str_bytes, zlen_app, Z.add_assoc.
Qed.

(** *** Messages field by field

    [eats out m m']: wherever [out] is next in the input, the loop turns [m] into
    [m'] by reading exactly [out]. *)

Section eats.
Context {Msg : Type}.
Variable field : Z -> option (Z -> list byte -> Z -> Z -> Msg -> parsed (Msg * Z)).
Variable append_unknown : list byte -> Msg -> Msg.

#[local] Abbreviation loop := (unmarshal_loop field append_unknown).

Definition eats (out : list byte) (m m' : Msg) : Prop :=
  forall dAtA i rest fuel, zlen dAtA < two63 -> at_ dAtA i (out ++ rest) ->
    (length (out ++ rest) < fuel)%nat ->
    exists fuel', (length rest < fuel')%nat /\
      loop fuel dAtA (zlen dAtA) i m = loop fuel' dAtA (zlen dAtA) (i + zlen out) m'.

Lemma eats_nil m : eats [] m m.
Proof. intros dAtA i rest fuel _ _ Hf. exists fuel. split; [done|]. by rewrite Z.add_0_r. Qed.

Lemma eats_app out1 out2 m1 m2 m3 : eats out1 m1 m2 -> eats out2 m2 m3 -> eats (out1 ++ out2) m1 m3.
Proof.
  intros H1 H2 dAtA i rest fuel Hd Hat Hf. rewrite <-app_assoc in Hat, Hf.
  destruct (H1 dAtA i (out2 ++ rest) fuel Hd Hat Hf) as (f1 & Hf1 & ->).
  destruct (H2 dAtA (i + zlen out1) rest f1 Hd (at_app _ _ _ _ Hat) Hf1) as (f2 & Hf2 & ->).
  exists f2. split; [done|]. by rewrite zlen_app, Z.add_assoc.
Qed.

Lemma eats_when (b : bool) out m m' : (b = true -> eats out m m') -> (b = false -> m = m') ->
  eats (if b then out else []) m m'.
Proof. destruct b; intros H1 H2; [by apply H1|]. rewrite H2 by done. apply eats_nil. Qed.

(** One field: a one-byte tag [tag] with wire type [wt], then [payload]. *)
Lemma eats_field num wt f payload m m' tag :
  tag = num * 8 + wt -> 1 <= num < 16 -> 0 <= wt < 8 -> wt <> 4 ->
  field num = Some (typed wt f) -> payload <> [] ->
  (forall dAtA i rest, zlen dAtA < two63 -> at_ dAtA i (payload ++ rest) ->
     f dAtA (zlen dAtA) i m = done_ (m', i + zlen payload)) ->
  eats (z2b tag :: payload) m m'.
Proof.
  intros -> Hn Hw Hw4 Hfield Hne Hf dAtA i rest fuel Hd Hat Hfuel.
  destruct fuel as [|fuel]; [lia|]. exists fuel. cbn [app] in *.
  split; [simpl in Hfuel; rewrite length_app in Hfuel; destruct payload; [done|simpl in Hfuel; lia]|].
  cbn [unmarshal_loop]. pose proof (at_cons _ _ _ _ Hat) as (Hlt & _ & Hat').
  destruct (Z.ltb_spec i (zlen dAtA)); [|lia]. unfold unmarshal_step.
  assert (Hv : varint (num * 8 + wt) = [z2b (num * 8 + wt)]).
  { unfold varint. cbn [varint_n]. destruct (Z.leb_spec 128 (num * 8 + wt)); [lia|done]. }
  rewrite (read_varint_back u64 (num * 8 + wt) dAtA i (payload ++ rest)); [|unfold two64; lia|by rewrite Hv].
  unfold done_ at 1. cbn [pbind]. rewrite u64_id by (unfold two64; lia).
  assert (Hshift : Z.shiftr (num * 8 + wt) 3 = num).
  { rewrite Z.shiftr_div_pow2 by lia. change (2 ^ 3) with 8. rewrite Z.div_add_l, Z.div_small by lia. lia. }
  assert (Hland : Z.land (num * 8 + wt) 7 = wt).
  { change 7 with (Z.ones 3). rewrite Z.land_ones by lia. change (2 ^ 3) with 8.
    rewrite Z.add_comm, Z.mod_add, Z.mod_small by lia. lia. }
  rewrite Hshift, Hland, i32_id by (unfold two31; lia).
  destruct (Z.eqb_spec wt 4); [lia|]. destruct (Z.leb_spec num 0); [lia|]. rewrite Hfield. unfold typed.
  rewrite Z.eqb_refl. cbn [negb]. rewrite Hv. change (zlen [z2b (num * 8 + wt)]) with 1.
  rewrite (Hf dAtA (i + 1) rest Hd Hat'). unfold done_ at 1. cbn [pbind].
  by rewrite zlen_cons, Z.add_assoc.
Qed.

(** A list of fields of the same number. *)
Lemma eats_list {A} (enc : A -> list byte) (add : Msg -> A -> Msg) (xs : list A) m :
  Forall (fun x => forall m, eats (enc x) m (add m x)) xs ->
  eats (concat (enc <$> xs)) m (foldl add m xs).
Proof.
  revert m. induction xs as [|x xs IH]; intros m Hx; simpl; [apply eats_nil|].
  apply Forall_cons in Hx as [Hx Hxs]. eapply eats_app; [apply Hx|by apply IH].
Qed.

Lemma eats_unmarshal out m m' :
  zlen out < two63 -> eats out m m' -> unmarshal field append_unknown out m = done_ m'.
Proof.
  intros Hz He. unfold unmarshal.
  destruct (He out 0 [] (S (length out)) Hz) as (f & Hf & ->).
  - rewrite app_nil_r. split; [|done]. pose proof (zlen_nonneg out). lia.
  - rewrite app_nil_r. lia.
  - destruct f as [|f]; [simpl in Hf; lia|]. cbn [unmarshal_loop]. rewrite Z.add_0_l, Z.ltb_irrefl. done.
Qed.
End eats.

(** ** Fields, written and read *)

(** [i -= len(s); copy(dAtA[i:], s); i = encodeVarint(dAtA, i, uint64(len(s))); i--; dAtA[i] = tag] *)
Definition put_delimited (tag : Z) (s : list byte) : wstate -> result wstate :=
  copy_back s ;;> encodeVarint (u64 (zlen s)) ;;> put_byte tag.

(** A nested message with its tag. *)
Definition put_message (tag : Z) (marshal : list byte -> result (list byte * Z)) : wstate -> result wstate :=
  put_nested marshal ;;> put_byte tag.

(** [i = encodeVarint(dAtA, i, v); i--; dAtA[i] = tag] *)
Definition put_varint (tag v : Z) : wstate -> result wstate :=
  encodeVarint v ;;> put_byte tag.

Lemma writes_then f g out1 out2 : writes f out1 -> writes g out2 -> writes (f ;;> g) (out2 ++ out1).
Proof. apply writes_seq. Qed.

Lemma writes_delimited tag s : zlen s < two64 -> writes (put_delimited tag s) (z2b tag :: delimited s).
Proof.
  intros Hs. pose proof (zlen_nonneg s).
  assert (He : z2b tag :: delimited s = ([z2b tag] ++ varint (zlen s)) ++ s) by done. rewrite He.
  unfold put_delimited. apply writes_then; [apply writes_copy_back|]. rewrite u64_id by lia.
  apply writes_then; [by apply writes_encodeVarint|apply writes_put_byte].
Qed.

Lemma writes_message tag f out :
  zlen out < two64 -> marshals f out -> writes (put_message tag f) (z2b tag :: delimited out).
Proof.
  intros Hs Hf. change (z2b tag :: delimited out) with ([z2b tag] ++ delimited out).
  apply writes_then; [by apply writes_nested|apply writes_put_byte].
Qed.

Lemma writes_varint tag v : 0 <= v < two64 -> writes (put_varint tag v) (z2b tag :: varint v).
Proof.
  intros Hv. change (z2b tag :: varint v) with ([z2b tag] ++ varint v).
  apply writes_then; [by apply writes_encodeVarint|apply writes_put_byte].
Qed.

(** A loop over repeated fields from the last to the first. *)
Fixpoint put_each {A} (put : A -> wstate -> result wstate) (xs : list A) : wstate -> result wstate :=
  match xs with
  | [] => Ok
  | x :: xs => put_each put xs ;;> put x
  end.

Lemma writes_each {A} (put : A -> wstate -> result wstate) (enc : A -> list byte) xs :
  Forall (fun x => writes (put x) (enc x)) xs -> writes (put_each put xs) (concat (enc <$> xs)).
Proof.
  induction 1 as [|x xs Hx _ IH]; simpl; [apply writes_nil|]. by apply writes_then.
Qed.

(** What the sizes of fields add up to. *)
Definition size_delimited (l : Z) : Z := 1 + l + sov (u64 l).

Lemma zlen_delimited tag s : zlen s < two64 -> zlen (z2b tag :: delimited s) = size_delimited (zlen s).
Proof.
  intros Hs. pose proof (zlen_nonneg s). unfold delimited, size_delimited.
  rewrite u64_id, zlen_cons, zlen_app, varint_length by lia. lia.
Qed.

Lemma zlen_varint tag v : 0 <= v < two64 -> zlen (z2b tag :: varint v) = 1 + sov v.
Proof. intros Hv. by rewrite zlen_cons, varint_length. Qed.

Definition marshal_from (f : wstate -> result wstate) (dAtA : list byte) : result (list byte * Z) :=
  '(dAtA', i) ← f (dAtA, zlen dAtA); Ok (dAtA', zlen dAtA' - i).

(** [MarshalVT] given the size and the marshaller. *)
Definition marshal_vt (size : Z) (f : list byte -> result (list byte * Z)) : result (list byte) :=
  dAtA ← go_make x00 size;
  '(dAtA, n) ← f dAtA;
  Ok (take (Z.to_nat n) dAtA).

Lemma marshal_vt_ok size f out : marshals f out -> zlen out = size -> marshal_vt size f = Ok out.
Proof.
  intros Hf <-. pose proof (zlen_nonneg out). unfold marshal_vt. rewrite go_make_ok by done. cbn [mbind result_bind].
  set (buf := replicate _ x00). assert (Hb : length buf = length out) by (unfold buf, zlen; rewrite length_replicate; lia).
  destruct (Hf buf) as (d & -> & Hl & Hd); [unfold zlen; lia|]. cbn [mbind result_bind].
  rewrite Hb, Nat.sub_diag in Hd. change (drop 0 d) with d in Hd. subst d.
  rewrite take_ge by (unfold zlen; lia). done.
Qed.

(** [MarshalToVT] into the front of a buffer of the caller, whose capacity is taken
    to be its length; the rest of it stays. *)
Definition marshal_to_vt (size : Z) (f : list byte -> result (list byte * Z)) (dAtA : list byte) : result (list byte * Z) :=
  if zlen dAtA <? size then Panic IndexOutOfRange else
  '(d, n) ← f (take (Z.to_nat size) dAtA);
  Ok (d ++ drop (Z.to_nat size) dAtA, n).

Lemma marshal_to_vt_ok size f out dAtA : marshals f out -> zlen out = size ->
  marshal_to_vt size f dAtA =
    if zlen dAtA <? size then Panic IndexOutOfRange else Ok (out ++ drop (length out) dAtA, zlen out).
Proof.
  intros Hf <-. unfold marshal_to_vt. destruct (Z.ltb_spec (zlen dAtA) (zlen out)) as [|Hle]; [done|].
  unfold zlen in Hle. assert (Hn : Z.to_nat (zlen out) = length out) by (unfold zlen; lia). rewrite Hn.
  assert (Hl : length (take (length out) dAtA) = length out) by (rewrite length_take; lia).
  destruct (Hf (take (length out) dAtA)) as (d & -> & Hd & Heq); [unfold zlen; lia|]. cbn [mbind result_bind].
  rewrite Hl, Nat.sub_diag in Heq. change (drop 0 d) with d in Heq. by subst d.
Qed.

Lemma varint_nonempty v : varint v <> [].
Proof.
  assert (H : forall n, varint_n (S n) v <> []).
  { intros n. cbn [varint_n]. by destruct (128 <=? v). }
  apply (H 9%nat).
Qed.

Lemma delimited_nonempty s : delimited s <> [].
Proof. unfold delimited. intros [H _]%app_eq_nil. by apply varint_nonempty in H. Qed.

Lemma delimited_lt s : zlen (delimited s) < two63 -> zlen s < two63.
Proof. unfold delimited. rewrite zlen_app. pose proof (zlen_nonneg (varint (zlen s))). lia. Qed.
