(* ===== verification/ActorWire.v ===== *)
(** * The codecs of [PID], [Ping] and [Pong] ([actor/actor_vtproto.pb.go])

    Messages are pointers, [None] being nil.  [unknownFields] of [PID] is part of
    the record of [Pid]. *)

From S2P Require Import Prelude Pid Wire.
#[local] Open Scope go_scope.

(** ** PID *)

Definition empty_PID : PID := mkPID "" "" [].

Definition PID_CloneVT (m : option PID) : option PID :=
  match m with
  | None => None
  | Some m => Some (mkPID (Address m) (ID m) (if 0 <? zlen (unknownFields m) then unknownFields m else []))
  end.

(** [this == that] on pointers makes no difference: equal pointers are equal
    messages. *)
Definition PID_EqualVT (this that : option PID) : bool :=
  match this, that with
  | None, None => true
  | Some this, Some that =>
      if negb (bool_decide (Address this = Address that)) then false else
      if negb (bool_decide (ID this = ID that)) then false else
      bool_decide (unknownFields this = unknownFields that)
  | _, _ => false
  end.

Definition PID_MarshalToSizedBufferVT (m : option PID) (dAtA : list byte) : result (list byte * Z) :=
  match m with
  | None => Ok (dAtA, 0)
  | Some m => marshal_from (
      copy_back (unknownFields m) ;;>
      when (0 <? zlen (str_bytes (ID m))) (put_delimited 0x12 (str_bytes (ID m))) ;;>
      when (0 <? zlen (str_bytes (Address m))) (put_delimited 0xa (str_bytes (Address m)))) dAtA
  end.

Definition PID_SizeVT (m : option PID) : Z :=
  match m with
  | None => 0
  | Some m =>
      let n := 0 in
      let l := zlen (str_bytes (Address m)) in
      let n := if 0 <? l then n + size_delimited l else n in
      let l := zlen (str_bytes (ID m)) in
      let n := if 0 <? l then n + size_delimited l else n in
      n + zlen (unknownFields m)
  end.

Definition PID_MarshalVT (m : option PID) : result (list byte) :=
  match m with
  | None => Ok []
  | Some _ => marshal_vt (PID_SizeVT m) (PID_MarshalToSizedBufferVT m)
  end.

Definition PID_field (fieldNum : Z) : option (Z -> list byte -> Z -> Z -> PID -> parsed (PID * Z)) :=
  if fieldNum =? 1 then Some (typed 2 (fun dAtA l iNdEx m =>
    '(s, iNdEx) ⇐ read_string dAtA l iNdEx; done_ (mkPID s (ID m) (unknownFields m), iNdEx)))
  else if fieldNum =? 2 then Some (typed 2 (fun dAtA l iNdEx m =>
    '(s, iNdEx) ⇐ read_string dAtA l iNdEx; done_ (mkPID (Address m) s (unknownFields m), iNdEx)))
  else None.

Definition PID_unknown (u : list byte) (m : PID) : PID := mkPID (Address m) (ID m) (unknownFields m ++ u).

Definition PID_UnmarshalVT (dAtA : list byte) (m : PID) : parsed PID :=
  unmarshal PID_field PID_unknown dAtA m.

(** ** Ping and Pong *)

Record Ping := mkPing { Ping_From : option PID; Ping_unknownFields : list byte }.
Record Pong := mkPong { Pong_From : option PID; Pong_unknownFields : list byte }.

Definition empty_Ping : Ping := mkPing None [].
Definition empty_Pong : Pong := mkPong None [].

Definition Ping_CloneVT (m : option Ping) : option Ping :=
  match m with
  | None => None
  | Some m => Some (mkPing (PID_CloneVT (Ping_From m))
      (if 0 <? zlen (Ping_unknownFields m) then Ping_unknownFields m else []))
  end.
Definition Pong_CloneVT (m : option Pong) : option Pong :=
  match m with
  | None => None
  | Some m => Some (mkPong (PID_CloneVT (Pong_From m))
      (if 0 <? zlen (Pong_unknownFields m) then Pong_unknownFields m else []))
  end.

Definition Ping_EqualVT (this that : option Ping) : bool :=
  match this, that with
  | None, None => true
  | Some this, Some that =>
      if negb (PID_EqualVT (Ping_From this) (Ping_From that)) then false else
      bool_decide (Ping_unknownFields this = Ping_unknownFields that)
  | _, _ => false
  end.
Definition Pong_EqualVT (this that : option Pong) : bool :=
  match this, that with
  | None, None => true
  | Some this, Some that =>
      if negb (PID_EqualVT (Pong_From this) (Pong_From that)) then false else
      bool_decide (Pong_unknownFields this = Pong_unknownFields that)
  | _, _ => false
  end.

Definition Ping_MarshalToSizedBufferVT (m : option Ping) (dAtA : list byte) : result (list byte * Z) :=
  match m with
  | None => Ok (dAtA, 0)
  | Some m => marshal_from (
      copy_back (Ping_unknownFields m) ;;>
      when (bool_decide (is_Some (Ping_From m))) (put_message 0xa (PID_MarshalToSizedBufferVT (Ping_From m)))) dAtA
  end.
Definition Pong_MarshalToSizedBufferVT (m : option Pong) (dAtA : list byte) : result (list byte * Z) :=
  match m with
  | None => Ok (dAtA, 0)
  | Some m => marshal_from (
      copy_back (Pong_unknownFields m) ;;>
      when (bool_decide (is_Some (Pong_From m))) (put_message 0xa (PID_MarshalToSizedBufferVT (Pong_From m)))) dAtA
  end.

Definition Ping_SizeVT (m : option Ping) : Z :=
  match m with
  | None => 0
  | Some m =>
      let n := if bool_decide (is_Some (Ping_From m)) then size_delimited (PID_SizeVT (Ping_From m)) else 0 in
      n + zlen (Ping_unknownFields m)
  end.
Definition Pong_SizeVT (m : option Pong) : Z :=
  match m with
  | None => 0
  | Some m =>
      let n := if bool_decide (is_Some (Pong_From m)) then size_delimited (PID_SizeVT (Pong_From m)) else 0 in
      n + zlen (Pong_unknownFields m)
  end.

Definition Ping_MarshalVT (m : option Ping) : result (list byte) :=
  match m with None => Ok [] | Some _ => marshal_vt (Ping_SizeVT m) (Ping_MarshalToSizedBufferVT m) end.
Definition Pong_MarshalVT (m : option Pong) : result (list byte) :=
  match m with None => Ok [] | Some _ => marshal_vt (Pong_SizeVT m) (Pong_MarshalToSizedBufferVT m) end.

Definition Ping_field (fieldNum : Z) : option (Z -> list byte -> Z -> Z -> Ping -> parsed (Ping * Z)) :=
  if fieldNum =? 1 then Some (typed 2 (fun dAtA l iNdEx m =>
    '(s, iNdEx) ⇐ read_bytes dAtA l iNdEx;
    p ⇐ PID_UnmarshalVT s (default empty_PID (Ping_From m));
    done_ (mkPing (Some p) (Ping_unknownFields m), iNdEx)))
  else None.
Definition Pong_field (fieldNum : Z) : option (Z -> list byte -> Z -> Z -> Pong -> parsed (Pong * Z)) :=
  if fieldNum =? 1 then Some (typed 2 (fun dAtA l iNdEx m =>
    '(s, iNdEx) ⇐ read_bytes dAtA l iNdEx;
    p ⇐ PID_UnmarshalVT s (default empty_PID (Pong_From m));
    done_ (mkPong (Some p) (Pong_unknownFields m), iNdEx)))
  else None.

Definition Ping_unknown (u : list byte) (m : Ping) : Ping := mkPing (Ping_From m) (Ping_unknownFields m ++ u).
Definition Pong_unknown (u : list byte) (m : Pong) : Pong := mkPong (Pong_From m) (Pong_unknownFields m ++ u).

Definition Ping_UnmarshalVT (dAtA : list byte) (m : Ping) : parsed Ping := unmarshal Ping_field Ping_unknown dAtA m.
Definition Pong_UnmarshalVT (dAtA : list byte) (m : Pong) : parsed Pong := unmarshal Pong_field Pong_unknown dAtA m.

(** ** Reference encodings *)

(** A string field: left out when empty. *)
Definition str_field (tag : Z) (s : string) : list byte :=
  if 0 <? zlen (str_bytes s) then z2b tag :: delimited (str_bytes s) else [].

Definition PID_encode (m : PID) : list byte :=
  str_field 0xa (Address m) ++ str_field 0x12 (ID m) ++ unknownFields m.

(** A message field: left out when nil. *)
Definition pid_field (tag : Z) (m : option PID) : list byte :=
  match m with Some m => z2b tag :: delimited (PID_encode m) | None => [] end.

Definition Ping_encode (m : Ping) : list byte := pid_field 0xa (Ping_From m) ++ Ping_unknownFields m.
Definition Pong_encode (m : Pong) : list byte := pid_field 0xa (Pong_From m) ++ Pong_unknownFields m.

(** ** Marshalling *)

Lemma zlen_when (b : bool) (l : list byte) n : (b = true -> zlen l = n) -> zlen (if b then l else []) = if b then n else 0.
Proof. destruct b; intros H; [by apply H|done]. Qed.

Lemma str_field_size tag s : zlen (str_bytes s) < two64 ->
  zlen (str_field tag s) = if 0 <? zlen (str_bytes s) then size_delimited (zlen (str_bytes s)) else 0.
Proof. intros Hs. apply zlen_when. intros _. by apply zlen_delimited. Qed.

Lemma str_field_bound tag s : zlen (str_bytes s) <= zlen (str_field tag s).
Proof.
  unfold str_field. destruct (Z.ltb_spec 0 (zlen (str_bytes s))); [|unfold zlen at 2; simpl; lia].
  unfold delimited. rewrite zlen_cons, zlen_app. pose proof (zlen_nonneg (varint (zlen (str_bytes s)))). lia.
Qed.

(** A message small enough for its length to be an [int]. *)
Lemma PID_parts m : zlen (PID_encode m) < two63 ->
  zlen (str_bytes (Address m)) < two64 /\ zlen (str_bytes (ID m)) < two64.
Proof.
  unfold PID_encode. rewrite !zlen_app. pose proof (str_field_bound 0xa (Address m)).
  pose proof (str_field_bound 0x12 (ID m)). pose proof (zlen_nonneg (unknownFields m)).
  pose proof (zlen_nonneg (str_bytes (Address m))). pose proof (zlen_nonneg (str_bytes (ID m))).
  unfold two63, two64. lia.
Qed.

Lemma PID_size m : zlen (PID_encode m) < two63 -> PID_SizeVT (Some m) = zlen (PID_encode m).
Proof.
  intros Hz. destruct (PID_parts m Hz) as [Ha Hi]. unfold PID_encode, PID_SizeVT.
  rewrite !zlen_app, !str_field_size by done.
  destruct (0 <? zlen (str_bytes (Address m))), (0 <? zlen (str_bytes (ID m))); lia.
Qed.

Lemma PID_marshals m : zlen (PID_encode m) < two63 ->
  marshals (PID_MarshalToSizedBufferVT (Some m)) (PID_encode m).
Proof.
  intros Hz. destruct (PID_parts m Hz) as [Ha Hi].
  assert (He : PID_encode m = (str_field 0xa (Address m) ++ str_field 0x12 (ID m)) ++ unknownFields m)
    by apply app_assoc.
  rewrite He. apply (writes_marshals (_ ;;> _)). apply writes_then; [apply writes_copy_back|].
  apply writes_then; apply writes_when; intros _; by apply writes_delimited.
Qed.

Lemma pid_nested tag m : zlen (pid_field tag m) < two63 ->
  zlen (pid_field tag m) = (if bool_decide (is_Some m) then size_delimited (PID_SizeVT m) else 0) /\
  writes (when (bool_decide (is_Some m)) (put_message tag (PID_MarshalToSizedBufferVT m))) (pid_field tag m).
Proof.
  destruct m as [m|]; intros Hz; [|split; [done|apply writes_nil]]. cbn [pid_field] in *.
  rewrite bool_decide_true by done.
  assert (Hd : zlen (PID_encode m) < two63).
  { apply delimited_lt. rewrite zlen_cons in Hz. lia. }
  rewrite PID_size by done. split; [apply zlen_delimited; unfold two63, two64 in *; lia|].
  unfold when. apply writes_message; [unfold two63, two64 in *; lia|by apply PID_marshals].
Qed.

Lemma Ping_marshal m : zlen (Ping_encode m) < two63 ->
  marshals (Ping_MarshalToSizedBufferVT (Some m)) (Ping_encode m) /\ Ping_SizeVT (Some m) = zlen (Ping_encode m).
Proof.
  unfold Ping_encode. intros Hz. rewrite zlen_app in *. pose proof (zlen_nonneg (Ping_unknownFields m)).
  destruct (pid_nested 0xa (Ping_From m) ltac:(lia)) as [H1 H2]. split; [|by rewrite H1].
  apply (writes_marshals (_ ;;> _)). apply writes_then; [apply writes_copy_back|exact H2].
Qed.

Lemma Pong_marshal m : zlen (Pong_encode m) < two63 ->
  marshals (Pong_MarshalToSizedBufferVT (Some m)) (Pong_encode m) /\ Pong_SizeVT (Some m) = zlen (Pong_encode m).
Proof.
  unfold Pong_encode. intros Hz. rewrite zlen_app in *. pose proof (zlen_nonneg (Pong_unknownFields m)).
  destruct (pid_nested 0xa (Pong_From m) ltac:(lia)) as [H1 H2]. split; [|by rewrite H1].
  apply (writes_marshals (_ ;;> _)). apply writes_then; [apply writes_copy_back|exact H2].
Qed.

(** ** Parsing *)

#[local] Abbreviation PID_eats := (eats PID_field PID_unknown).

Lemma eats_str_field' {Msg} field unknown (set : string -> Msg -> Msg) num s (m : Msg) :
  1 <= num < 16 ->
  field num = Some (typed 2 (fun dAtA l iNdEx m => '(s, iNdEx) ⇐ read_string dAtA l iNdEx; done_ (set s m, iNdEx))) ->
  eats field unknown (str_field (num * 8 + 2) s) m (if String.eqb s "" then m else set s m).
Proof.
  intros Hn Hf. destruct (String.eqb_spec s "") as [->|Hs]; [apply eats_nil|]. apply eats_when.
  - intros _. eapply (eats_field _ _ num 2); [done|done|lia|lia|exact Hf|apply delimited_nonempty|].
    intros dAtA i rest Hd Hat. cbv beta. rewrite (read_string_back s dAtA i rest Hd Hat). done.
  - intros Hlen. destruct s; [done|]. discriminate Hlen.
Qed.

Lemma eats_str_field {Msg} field unknown (set : string -> Msg -> Msg) num s (m : Msg) :
  1 <= num < 16 ->
  field num = Some (typed 2 (fun dAtA l iNdEx m => '(s, iNdEx) ⇐ read_string dAtA l iNdEx; done_ (set s m, iNdEx))) ->
  (s = ""%string -> set s m = m) ->
  eats field unknown (str_field (num * 8 + 2) s) m (set s m).
Proof.
  intros Hn Hf Hempty. pose proof (eats_str_field' field unknown set num s m Hn Hf) as H.
  destruct (String.eqb_spec s "") as [->|Hs]; [by rewrite Hempty|done].
Qed.

(** Unmarshalling into a PID that is not empty: absent fields keep their value. *)
Definition PID_merge (m old : PID) : PID :=
  mkPID (if String.eqb (Address m) "" then Address old else Address m)
        (if String.eqb (ID m) "" then ID old else ID m) (unknownFields old).

Lemma PID_eats_merge m old : unknownFields m = [] -> PID_eats (PID_encode m) old (PID_merge m old).
Proof.
  destruct m as [a i u]. simpl. intros ->. unfold PID_encode. simpl. rewrite app_nil_r.
  eapply eats_app.
  - apply (eats_str_field' PID_field PID_unknown (fun s m => mkPID s (ID m) (unknownFields m)) 1 a old); [lia|done].
  - assert (PID_merge (mkPID a i []) old = if String.eqb i "" then (if String.eqb a "" then old else mkPID a (ID old) (unknownFields old))
      else (fun s m => mkPID (Address m) s (unknownFields m)) i (if String.eqb a "" then old else mkPID a (ID old) (unknownFields old))) as ->.
    { unfold PID_merge. simpl. destruct old, (String.eqb a ""), (String.eqb i ""); done. }
    by apply (eats_str_field' PID_field PID_unknown (fun s m => mkPID (Address m) s (unknownFields m)) 2 i).
Qed.

Lemma PID_eats_encode m : unknownFields m = [] -> PID_eats (PID_encode m) empty_PID m.
Proof.
  intros Hu. assert (Hm : PID_merge m empty_PID = m).
  { destruct m as [a i u]. simpl in Hu. subst u. unfold PID_merge. simpl. by destruct a, i. }
  rewrite <-Hm at 2. by apply PID_eats_merge.
Qed.

Lemma PID_back m : unknownFields m = [] -> zlen (PID_encode m) < two63 ->
  PID_UnmarshalVT (PID_encode m) empty_PID = done_ m.
Proof. intros Hu Hz. by apply eats_unmarshal, PID_eats_encode. Qed.

Lemma eats_pid_field {Msg} field unknown (old : Msg -> PID) (set : PID -> Msg -> Msg) num p (m : Msg) :
  1 <= num < 16 ->
  field num = Some (typed 2 (fun dAtA l iNdEx m =>
    '(s, iNdEx) ⇐ read_bytes dAtA l iNdEx; p ⇐ PID_UnmarshalVT s (old m); done_ (set p m, iNdEx))) ->
  old m = empty_PID -> unknownFields p = [] ->
  eats field unknown (z2b (num * 8 + 2) :: delimited (PID_encode p)) m (set p m).
Proof.
  intros Hn Hf Hold Hu.
  eapply (eats_field _ _ num 2); [done|done|lia|lia|exact Hf|apply delimited_nonempty|].
  intros dAtA i rest Hd Hat. cbv beta. rewrite (read_bytes_back _ dAtA i rest Hd Hat). unfold done_ at 1. cbn [pbind].
  rewrite Hold, PID_back; [done|done|]. apply delimited_lt. pose proof (at_zlen _ _ _ Hat) as Hz.
  rewrite zlen_app in Hz. pose proof (zlen_nonneg rest). destruct Hat. lia.
Qed.

Lemma PID_field_good : field_good PID_field.
Proof.
  intros n f wt dAtA i m Hf Hd Hi. unfold PID_field in Hf.
  destruct (n =? 1); [|destruct (n =? 2); [|done]]; injection Hf as <-; apply typed_good;
    (eapply good_bind; [apply read_string_good; lia|]; intros [s i'] Hi'; exact Hi').
Qed.

Lemma Ping_field_good : field_good Ping_field.
Proof.
  intros n f wt dAtA i m Hf Hd Hi. unfold Ping_field in Hf. destruct (n =? 1); [|done]. injection Hf as <-.
  apply typed_good. eapply good_bind; [apply read_bytes_good; lia|]. intros [s i'] [Hi' Hs].
  eapply good_bind; [apply unmarshal_good; [apply PID_field_good|done]|]. intros p _. exact Hi'.
Qed.

Lemma Pong_field_good : field_good Pong_field.
Proof.
  intros n f wt dAtA i m Hf Hd Hi. unfold Pong_field in Hf. destruct (n =? 1); [|done]. injection Hf as <-.
  apply typed_good. eapply good_bind; [apply read_bytes_good; lia|]. intros [s i'] [Hi' Hs].
  eapply good_bind; [apply unmarshal_good; [apply PID_field_good|done]|]. intros p _. exact Hi'.
Qed.

Lemma if_id (u : list byte) : (if 0 <? zlen u then u else []) = u.
Proof. by destruct u. Qed.

Lemma PID_EqualVT_spec p q : PID_EqualVT p q = true <-> p = q.
Proof.
  destruct p as [[a1 i1 u1]|], q as [[a2 i2 u2]|]; simpl; try done.
  repeat case_bool_decide; simpl; (split; [|congruence]); try done; intros _; congruence.
Qed.

(** ** Correctness of the codecs *)

(** Sizes and buffers.  Marshalling a PID, Ping or Pong never runs outside
    the buffer it allocates from [SizeVT]: it yields exactly the reference
    encoding, of exactly [SizeVT] bytes (lengths being [int]s). *)
Theorem actor_marshal_exact (p : PID) (a : Ping) (b : Pong)
    (Hp : zlen (PID_encode p) < two63) (Ha : zlen (Ping_encode a) < two63) (Hb : zlen (Pong_encode b) < two63) :
  (PID_MarshalVT (Some p) = Ok (PID_encode p) /\ PID_SizeVT (Some p) = zlen (PID_encode p)) /\
  (Ping_MarshalVT (Some a) = Ok (Ping_encode a) /\ Ping_SizeVT (Some a) = zlen (Ping_encode a)) /\
  (Pong_MarshalVT (Some b) = Ok (Pong_encode b) /\ Pong_SizeVT (Some b) = zlen (Pong_encode b)).
Proof.
  destruct (Ping_marshal a Ha) as [A1 A2]. destruct (Pong_marshal b Hb) as [B1 B2].
  split_and!; [|by apply PID_size| |done| |done]; apply marshal_vt_ok; try done.
  - by apply PID_marshals.
  - by rewrite PID_size.
Qed.

Definition demo_pid : PID := mkPID "10.0.0.1:4000" "player/7" [x50; x07].

Lemma actor_marshal_exact_witness :
  (PID_MarshalVT (Some demo_pid) = Ok (PID_encode demo_pid) /\ PID_SizeVT (Some demo_pid) = 27) /\
  (Ping_MarshalVT (Some (mkPing (Some demo_pid) [])) = Ok (Ping_encode (mkPing (Some demo_pid) [])) /\
   Ping_SizeVT (Some (mkPing (Some demo_pid) [])) = 29) /\
  (Pong_MarshalVT (Some (mkPong None [x08])) = Ok [x08] /\ Pong_SizeVT (Some (mkPong None [x08])) = 1).
Proof. apply (actor_marshal_exact demo_pid (mkPing (Some demo_pid) []) (mkPong None [x08])); vm_compute; reflexivity. Defined.

(** Round trip.  Parsing the bytes of a marshalled PID, Ping or Pong into an
    empty message gives the message back (for messages without unknown fields). *)
Theorem actor_roundtrip (p : PID) (a : Ping) (b : Pong)
    (Hup : unknownFields p = []) (Hua : Ping_unknownFields a = []) (Hub : Pong_unknownFields b = [])
    (Hfa : forall q, Ping_From a = Some q -> unknownFields q = [])
    (Hfb : forall q, Pong_From b = Some q -> unknownFields q = [])
    (Hp : zlen (PID_encode p) < two63) (Ha : zlen (Ping_encode a) < two63) (Hb : zlen (Pong_encode b) < two63) :
  exists bp ba bb, PID_MarshalVT (Some p) = Ok bp /\ PID_UnmarshalVT bp empty_PID = done_ p /\
    Ping_MarshalVT (Some a) = Ok ba /\ Ping_UnmarshalVT ba empty_Ping = done_ a /\
    Pong_MarshalVT (Some b) = Ok bb /\ Pong_UnmarshalVT bb empty_Pong = done_ b.
Proof.
  exists (PID_encode p), (Ping_encode a), (Pong_encode b). split_and!.
  - apply marshal_vt_ok; [by apply PID_marshals|by rewrite PID_size].
  - by apply PID_back.
  - destruct (Ping_marshal a Ha). by apply marshal_vt_ok.
  - apply eats_unmarshal; [done|]. destruct a as [[q|] u]; simpl in *; subst u; unfold Ping_encode; cbn [Ping_From Ping_unknownFields pid_field]; rewrite app_nil_r.
    + apply (eats_pid_field Ping_field Ping_unknown (fun m => default empty_PID (Ping_From m))
        (fun p m => mkPing (Some p) (Ping_unknownFields m)) 1 q empty_Ping); [lia|done|done|by apply Hfa].
    + apply eats_nil.
  - destruct (Pong_marshal b Hb). by apply marshal_vt_ok.
  - apply eats_unmarshal; [done|]. destruct b as [[q|] u]; simpl in *; subst u; unfold Pong_encode; cbn [Pong_From Pong_unknownFields pid_field]; rewrite app_nil_r.
    + apply (eats_pid_field Pong_field Pong_unknown (fun m => default empty_PID (Pong_From m))
        (fun p m => mkPong (Some p) (Pong_unknownFields m)) 1 q empty_Pong); [lia|done|done|by apply Hfb].
    + apply eats_nil.
Qed.

Lemma actor_roundtrip_witness :
  let p := NewPID "10.0.0.1:4000" "player/7" in
  exists bp ba bb, PID_MarshalVT (Some p) = Ok bp /\ PID_UnmarshalVT bp empty_PID = done_ p /\
    Ping_MarshalVT (Some (mkPing (Some p) [])) = Ok ba /\ Ping_UnmarshalVT ba empty_Ping = done_ (mkPing (Some p) []) /\
    Pong_MarshalVT (Some (mkPong None [])) = Ok bb /\ Pong_UnmarshalVT bb empty_Pong = done_ (mkPong None []).
Proof.
  intros p. apply (actor_roundtrip p (mkPing (Some p) []) (mkPong None [])); try reflexivity.
  - intros q [= <-]. reflexivity.
  - intros q Hq. discriminate Hq.
Defined.

(** Hostile input.  Whatever the bytes (fewer than 2^63 of them) and whatever
    the message parsed into, [UnmarshalVT] of PID, Ping and Pong terminates with a
    message or an error: no index leaves the buffer and no loop goes on. *)
Theorem actor_unmarshal_total (dAtA : list byte) (p : PID) (a : Ping) (b : Pong) (Hlen : zlen dAtA < two63) :
  (exists r, PID_UnmarshalVT dAtA p = Some (Ok r)) /\
  (exists r, Ping_UnmarshalVT dAtA a = Some (Ok r)) /\
  (exists r, Pong_UnmarshalVT dAtA b = Some (Ok r)).
Proof.
  assert (Hg : forall (A : Type) (m : parsed A), good (fun _ => True) m -> exists r, m = Some (Ok r)).
  { intros A [[r|]|] Hm; try done. by exists r. }
  split_and!; apply Hg, unmarshal_good; try done.
  - apply PID_field_good.
  - apply Ping_field_good.
  - apply Pong_field_good.
Qed.

Lemma actor_unmarshal_total_witness :
  let bad := [x0a; xff; xff; xff; xff; xff; xff; xff; xff; x7f; x41] in
  (exists r, PID_UnmarshalVT bad empty_PID = Some (Ok r)) /\
  (exists r, Ping_UnmarshalVT bad empty_Ping = Some (Ok r)) /\
  (exists r, Pong_UnmarshalVT bad empty_Pong = Some (Ok r)).
Proof. apply actor_unmarshal_total. vm_compute. reflexivity. Defined.

(** [EqualVT] is equality and [CloneVT] copies, nil messages included. *)
Theorem actor_equal_clone (p q : option PID) (a b : option Ping) (c d : option Pong) :
  (PID_EqualVT p q = true <-> p = q) /\ PID_CloneVT p = p /\
  (Ping_EqualVT a b = true <-> a = b) /\ Ping_CloneVT a = a /\
  (Pong_EqualVT c d = true <-> c = d) /\ Pong_CloneVT c = c.
Proof.
  assert (Hc : forall m, PID_CloneVT m = m) by (intros [[? ? ?]|]; simpl; by rewrite ?if_id).
  split; [apply PID_EqualVT_spec|]. split; [apply Hc|]. split; [|split; [|split]].
  - destruct a as [[f1 u1]|], b as [[f2 u2]|]; simpl; try done.
    destruct (PID_EqualVT f1 f2) eqn:E; simpl.
    + apply PID_EqualVT_spec in E. rewrite bool_decide_eq_true. split; intros; congruence.
    + split; [done|]. intros [= -> ->]. by rewrite (proj2 (PID_EqualVT_spec f2 f2) eq_refl) in E.
  - destruct a as [[f u]|]; simpl; by rewrite ?Hc, ?if_id.
  - destruct c as [[f1 u1]|], d as [[f2 u2]|]; simpl; try done.
    destruct (PID_EqualVT f1 f2) eqn:E; simpl.
    + apply PID_EqualVT_spec in E. rewrite bool_decide_eq_true. split; intros; congruence.
    + split; [done|]. intros [= -> ->]. by rewrite (proj2 (PID_EqualVT_spec f2 f2) eq_refl) in E.
  - destruct c as [[f u]|]; simpl; by rewrite ?Hc, ?if_id.
Qed.

(** ** Into a buffer of the caller *)

Definition PID_MarshalToVT (m : option PID) : list byte -> result (list byte * Z) := marshal_to_vt (PID_SizeVT m) (PID_MarshalToSizedBufferVT m).
Definition Ping_MarshalToVT (m : option Ping) : list byte -> result (list byte * Z) := marshal_to_vt (Ping_SizeVT m) (Ping_MarshalToSizedBufferVT m).
Definition Pong_MarshalToVT (m : option Pong) : list byte -> result (list byte * Z) := marshal_to_vt (Pong_SizeVT m) (Pong_MarshalToSizedBufferVT m).

(** A buffer that is long enough gets the encoding at its front and keeps the rest;
    a shorter one makes the call panic. *)
Theorem actor_marshal_to (p : PID) (a : Ping) (b : Pong) (dAtA : list byte)
    (Hp : zlen (PID_encode p) < two63) (Ha : zlen (Ping_encode a) < two63) (Hb : zlen (Pong_encode b) < two63) :
  let written out := if zlen dAtA <? zlen out then Panic IndexOutOfRange else Ok (out ++ drop (length out) dAtA, zlen out) in
  PID_MarshalToVT (Some p) dAtA = written (PID_encode p) /\ Ping_MarshalToVT (Some a) dAtA = written (Ping_encode a) /\
  Pong_MarshalToVT (Some b) dAtA = written (Pong_encode b).
Proof.
  intros written. destruct (Ping_marshal a Ha) as [A1 A2]. destruct (Pong_marshal b Hb) as [B1 B2].
  unfold PID_MarshalToVT, Ping_MarshalToVT, Pong_MarshalToVT. rewrite PID_size, A2, B2 by done.
  split_and!; apply marshal_to_vt_ok; try done. by apply PID_marshals.
Qed.
