(* ===== verification/RemoteWire.v ===== *)
(** * The codecs of [Envelope], [Message] and [TestMessage]
    ([remote/remote_vtproto.pb.go])

    An envelope is what travels between two nodes: messages that refer to type
    names, targets and senders by index into the envelope's tables.  Elements of
    the repeated message fields are pointers and may be nil ([None]). *)

From S2P Require Import Prelude Pid Wire ActorWire.
#[local] Open Scope go_scope.

Record Message := mkMessage {
  Data : list byte;
  TargetIndex : Z;
  SenderIndex : Z;
  TypeNameIndex : Z;
  Priority : bool;
  Message_unknownFields : list byte;
}.
#[export] Instance Message_eq_dec : EqDecision Message.
Proof. solve_decision. Defined.

Record TestMessage := mkTestMessage { Test_Data : list byte; Test_unknownFields : list byte }.

Record Envelope := mkEnvelope {
  TypeNames : list string;
  Targets : list (option PID);
  Senders : list (option PID);
  Messages : list (option Message);
  Envelope_unknownFields : list byte;
}.

Definition empty_Message : Message := mkMessage [] 0 0 0 false [].
Definition empty_TestMessage : TestMessage := mkTestMessage [] [].
Definition empty_Envelope : Envelope := mkEnvelope [] [] [] [] [].

(** ** Copies and equality *)

Definition copy_unknown (u : list byte) : list byte := if 0 <? zlen u then u else [].

Definition Message_CloneVT (m : option Message) : option Message :=
  match m with
  | None => None
  | Some m => Some (mkMessage (Data m) (TargetIndex m) (SenderIndex m) (TypeNameIndex m) (Priority m)
      (copy_unknown (Message_unknownFields m)))
  end.

Definition TestMessage_CloneVT (m : option TestMessage) : option TestMessage :=
  match m with
  | None => None
  | Some m => Some (mkTestMessage (Test_Data m) (copy_unknown (Test_unknownFields m)))
  end.

Definition Envelope_CloneVT (m : option Envelope) : option Envelope :=
  match m with
  | None => None
  | Some m => Some (mkEnvelope (TypeNames m) (PID_CloneVT <$> Targets m) (PID_CloneVT <$> Senders m)
      (Message_CloneVT <$> Messages m) (copy_unknown (Envelope_unknownFields m)))
  end.

Definition Message_EqualVT (this that : option Message) : bool :=
  match this, that with
  | None, None => true
  | Some this, Some that =>
      if negb (bool_decide (Data this = Data that)) then false else
      if negb (TargetIndex this =? TargetIndex that) then false else
      if negb (SenderIndex this =? SenderIndex that) then false else
      if negb (TypeNameIndex this =? TypeNameIndex that) then false else
      if negb (Bool.eqb (Priority this) (Priority that)) then false else
      bool_decide (Message_unknownFields this = Message_unknownFields that)
  | _, _ => false
  end.

Definition TestMessage_EqualVT (this that : option TestMessage) : bool :=
  match this, that with
  | None, None => true
  | Some this, Some that =>
      if negb (bool_decide (Test_Data this = Test_Data that)) then false else
      bool_decide (Test_unknownFields this = Test_unknownFields that)
  | _, _ => false
  end.

(** Element by element; a nil element counts as an empty message. *)
Fixpoint equal_elems {A} (empty : A) (eq : option A -> option A -> bool) (xs ys : list (option A)) : bool :=
  match xs, ys with
  | [], [] => true
  | x :: xs, y :: ys => eq (Some (default empty x)) (Some (default empty y)) && equal_elems empty eq xs ys
  | _, _ => false
  end.

Definition Envelope_EqualVT (this that : option Envelope) : bool :=
  match this, that with
  | None, None => true
  | Some this, Some that =>
      if negb (bool_decide (TypeNames this = TypeNames that)) then false else
      if negb (equal_elems empty_PID PID_EqualVT (Targets this) (Targets that)) then false else
      if negb (equal_elems empty_PID PID_EqualVT (Senders this) (Senders that)) then false else
      if negb (equal_elems empty_Message Message_EqualVT (Messages this) (Messages that)) then false else
      bool_decide (Envelope_unknownFields this = Envelope_unknownFields that)
  | _, _ => false
  end.

(** ** Marshalling *)

Definition put_bytes (tag : Z) (s : list byte) : wstate -> result wstate :=
  when (0 <? zlen s) (put_delimited tag s).

(** An [int32] field: sign-extended to 64 bits, left out when zero. *)
Definition put_int32 (tag v : Z) : wstate -> result wstate :=
  when (negb (v =? 0)) (put_varint tag (u64 v)).

Definition Message_MarshalToSizedBufferVT (m : option Message) (dAtA : list byte) : result (list byte * Z) :=
  match m with
  | None => Ok (dAtA, 0)
  | Some m => marshal_from (
      copy_back (Message_unknownFields m) ;;>
      when (Priority m) (put_byte (if Priority m then 1 else 0) ;;> put_byte 0x28) ;;>
      put_int32 0x20 (TypeNameIndex m) ;;>
      put_int32 0x18 (SenderIndex m) ;;>
      put_int32 0x10 (TargetIndex m) ;;>
      put_bytes 0xa (Data m)) dAtA
  end.

Definition TestMessage_MarshalToSizedBufferVT (m : option TestMessage) (dAtA : list byte) : result (list byte * Z) :=
  match m with
  | None => Ok (dAtA, 0)
  | Some m => marshal_from (copy_back (Test_unknownFields m) ;;> put_bytes 0xa (Test_Data m)) dAtA
  end.

Definition Envelope_MarshalToSizedBufferVT (m : option Envelope) (dAtA : list byte) : result (list byte * Z) :=
  match m with
  | None => Ok (dAtA, 0)
  | Some m => marshal_from (
      copy_back (Envelope_unknownFields m) ;;>
      put_each (fun x => put_message 0x22 (Message_MarshalToSizedBufferVT x)) (Messages m) ;;>
      put_each (fun x => put_message 0x1a (PID_MarshalToSizedBufferVT x)) (Senders m) ;;>
      put_each (fun x => put_message 0x12 (PID_MarshalToSizedBufferVT x)) (Targets m) ;;>
      put_each (fun s => put_delimited 0xa (str_bytes s)) (TypeNames m)) dAtA
  end.

Definition size_int32 (v : Z) : Z := if negb (v =? 0) then 1 + sov (u64 v) else 0.
Definition size_bytes (s : list byte) : Z := if 0 <? zlen s then size_delimited (zlen s) else 0.

Definition Message_SizeVT (m : option Message) : Z :=
  match m with
  | None => 0
  | Some m =>
      size_bytes (Data m) + size_int32 (TargetIndex m) + size_int32 (SenderIndex m) +
      size_int32 (TypeNameIndex m) + (if Priority m then 2 else 0) + zlen (Message_unknownFields m)
  end.

Definition TestMessage_SizeVT (m : option TestMessage) : Z :=
  match m with
  | None => 0
  | Some m => size_bytes (Test_Data m) + zlen (Test_unknownFields m)
  end.

(** [for _, e := range xs { l = e.SizeVT(); n += 1 + l + sov(uint64(l)) }] *)
Definition size_each {A} (size : A -> Z) (xs : list A) (n : Z) : Z :=
  foldl (fun n x => n + size_delimited (size x)) n xs.

Definition Envelope_SizeVT (m : option Envelope) : Z :=
  match m with
  | None => 0
  | Some m =>
      let n := size_each (fun s => zlen (str_bytes s)) (TypeNames m) 0 in
      let n := size_each PID_SizeVT (Targets m) n in
      let n := size_each PID_SizeVT (Senders m) n in
      let n := size_each Message_SizeVT (Messages m) n in
      n + zlen (Envelope_unknownFields m)
  end.

Definition Message_MarshalVT (m : option Message) : result (list byte) :=
  match m with None => Ok [] | Some _ => marshal_vt (Message_SizeVT m) (Message_MarshalToSizedBufferVT m) end.
Definition TestMessage_MarshalVT (m : option TestMessage) : result (list byte) :=
  match m with None => Ok [] | Some _ => marshal_vt (TestMessage_SizeVT m) (TestMessage_MarshalToSizedBufferVT m) end.
Definition Envelope_MarshalVT (m : option Envelope) : result (list byte) :=
  match m with None => Ok [] | Some _ => marshal_vt (Envelope_SizeVT m) (Envelope_MarshalToSizedBufferVT m) end.

(** ** Parsing *)

(** An [int32] field is accumulated in an [int32]. *)
Definition read_int32 (dAtA : list byte) (l iNdEx : Z) : parsed (Z * Z) := read_varint i32 dAtA l iNdEx.

Definition Message_field (fieldNum : Z) : option (Z -> list byte -> Z -> Z -> Message -> parsed (Message * Z)) :=
  if fieldNum =? 1 then Some (typed 2 (fun dAtA l iNdEx m =>
    '(s, iNdEx) ⇐ read_bytes dAtA l iNdEx;
    done_ (mkMessage s (TargetIndex m) (SenderIndex m) (TypeNameIndex m) (Priority m) (Message_unknownFields m), iNdEx)))
  else if fieldNum =? 2 then Some (typed 0 (fun dAtA l iNdEx m =>
    '(v, iNdEx) ⇐ read_int32 dAtA l iNdEx;
    done_ (mkMessage (Data m) v (SenderIndex m) (TypeNameIndex m) (Priority m) (Message_unknownFields m), iNdEx)))
  else if fieldNum =? 3 then Some (typed 0 (fun dAtA l iNdEx m =>
    '(v, iNdEx) ⇐ read_int32 dAtA l iNdEx;
    done_ (mkMessage (Data m) (TargetIndex m) v (TypeNameIndex m) (Priority m) (Message_unknownFields m), iNdEx)))
  else if fieldNum =? 4 then Some (typed 0 (fun dAtA l iNdEx m =>
    '(v, iNdEx) ⇐ read_int32 dAtA l iNdEx;
    done_ (mkMessage (Data m) (TargetIndex m) (SenderIndex m) v (Priority m) (Message_unknownFields m), iNdEx)))
  else if fieldNum =? 5 then Some (typed 0 (fun dAtA l iNdEx m =>
    '(v, iNdEx) ⇐ read_varint i64 dAtA l iNdEx;
    done_ (mkMessage (Data m) (TargetIndex m) (SenderIndex m) (TypeNameIndex m) (negb (v =? 0)) (Message_unknownFields m), iNdEx)))
  else None.

Definition Message_unknown (u : list byte) (m : Message) : Message :=
  mkMessage (Data m) (TargetIndex m) (SenderIndex m) (TypeNameIndex m) (Priority m) (Message_unknownFields m ++ u).

Definition Message_UnmarshalVT (dAtA : list byte) (m : Message) : parsed Message :=
  unmarshal Message_field Message_unknown dAtA m.

Definition TestMessage_field (fieldNum : Z) : option (Z -> list byte -> Z -> Z -> TestMessage -> parsed (TestMessage * Z)) :=
  if fieldNum =? 1 then Some (typed 2 (fun dAtA l iNdEx m =>
    '(s, iNdEx) ⇐ read_bytes dAtA l iNdEx; done_ (mkTestMessage s (Test_unknownFields m), iNdEx)))
  else None.

Definition TestMessage_unknown (u : list byte) (m : TestMessage) : TestMessage :=
  mkTestMessage (Test_Data m) (Test_unknownFields m ++ u).

Definition TestMessage_UnmarshalVT (dAtA : list byte) (m : TestMessage) : parsed TestMessage :=
  unmarshal TestMessage_field TestMessage_unknown dAtA m.

Definition add_TypeName (m : Envelope) (s : string) : Envelope :=
  mkEnvelope (TypeNames m ++ [s]) (Targets m) (Senders m) (Messages m) (Envelope_unknownFields m).
Definition add_Target (m : Envelope) (p : PID) : Envelope :=
  mkEnvelope (TypeNames m) (Targets m ++ [Some p]) (Senders m) (Messages m) (Envelope_unknownFields m).
Definition add_Sender (m : Envelope) (p : PID) : Envelope :=
  mkEnvelope (TypeNames m) (Targets m) (Senders m ++ [Some p]) (Messages m) (Envelope_unknownFields m).
Definition add_Message (m : Envelope) (x : Message) : Envelope :=
  mkEnvelope (TypeNames m) (Targets m) (Senders m) (Messages m ++ [Some x]) (Envelope_unknownFields m).

Definition Envelope_field (fieldNum : Z) : option (Z -> list byte -> Z -> Z -> Envelope -> parsed (Envelope * Z)) :=
  if fieldNum =? 1 then Some (typed 2 (fun dAtA l iNdEx m =>
    '(s, iNdEx) ⇐ read_string dAtA l iNdEx; done_ (add_TypeName m s, iNdEx)))
  else if fieldNum =? 2 then Some (typed 2 (fun dAtA l iNdEx m =>
    '(s, iNdEx) ⇐ read_bytes dAtA l iNdEx; p ⇐ PID_UnmarshalVT s empty_PID; done_ (add_Target m p, iNdEx)))
  else if fieldNum =? 3 then Some (typed 2 (fun dAtA l iNdEx m =>
    '(s, iNdEx) ⇐ read_bytes dAtA l iNdEx; p ⇐ PID_UnmarshalVT s empty_PID; done_ (add_Sender m p, iNdEx)))
  else if fieldNum =? 4 then Some (typed 2 (fun dAtA l iNdEx m =>
    '(s, iNdEx) ⇐ read_bytes dAtA l iNdEx; x ⇐ Message_UnmarshalVT s empty_Message; done_ (add_Message m x, iNdEx)))
  else None.

Definition Envelope_unknown (u : list byte) (m : Envelope) : Envelope :=
  mkEnvelope (TypeNames m) (Targets m) (Senders m) (Messages m) (Envelope_unknownFields m ++ u).

Definition Envelope_UnmarshalVT (dAtA : list byte) (m : Envelope) : parsed Envelope :=
  unmarshal Envelope_field Envelope_unknown dAtA m.

(** ** Reference encodings *)

Definition bytes_field (tag : Z) (s : list byte) : list byte :=
  if 0 <? zlen s then z2b tag :: delimited s else [].
Definition int32_field (tag v : Z) : list byte :=
  if negb (v =? 0) then z2b tag :: varint (u64 v) else [].

Definition Message_encode (m : Message) : list byte :=
  bytes_field 0xa (Data m) ++ int32_field 0x10 (TargetIndex m) ++ int32_field 0x18 (SenderIndex m) ++
  int32_field 0x20 (TypeNameIndex m) ++ (if Priority m then [z2b 0x28; z2b 1] else []) ++ Message_unknownFields m.

Definition TestMessage_encode (m : TestMessage) : list byte := bytes_field 0xa (Test_Data m) ++ Test_unknownFields m.

(** Nil elements are written like empty ones. *)
Definition PID_elem (tag : Z) (p : option PID) : list byte := z2b tag :: delimited (PID_encode (default empty_PID p)).
Definition Message_elem (m : option Message) : list byte := z2b 0x22 :: delimited (Message_encode (default empty_Message m)).
Definition TypeName_elem (s : string) : list byte := z2b 0xa :: delimited (str_bytes s).

Definition Envelope_encode (m : Envelope) : list byte :=
  concat (TypeName_elem <$> TypeNames m) ++ concat (PID_elem 0x12 <$> Targets m) ++
  concat (PID_elem 0x1a <$> Senders m) ++ concat (Message_elem <$> Messages m) ++ Envelope_unknownFields m.

(** ** Marshalling is exact *)

Lemma two63_64 : two63 < two64.
Proof. done. Qed.

Lemma writes_bytes tag s : zlen s < two64 -> writes (put_bytes tag s) (bytes_field tag s).
Proof. intros Hs. apply writes_when. intros _. by apply writes_delimited. Qed.

Lemma u64_range v : 0 <= u64 v < two64.
Proof. unfold u64. apply Z.mod_pos_bound. done. Qed.

Lemma writes_int32 tag v : writes (put_int32 tag v) (int32_field tag v).
Proof. apply writes_when. intros _. apply writes_varint, u64_range. Qed.

Lemma bytes_field_size tag s : zlen s < two64 -> zlen (bytes_field tag s) = size_bytes s.
Proof. intros Hs. apply zlen_when. intros _. by apply zlen_delimited. Qed.

Lemma int32_field_size tag v : zlen (int32_field tag v) = size_int32 v.
Proof. apply zlen_when. intros _. apply zlen_varint, u64_range. Qed.

Lemma bytes_field_bound tag s : zlen s <= zlen (bytes_field tag s).
Proof.
  unfold bytes_field. destruct (Z.ltb_spec 0 (zlen s)); [|unfold zlen at 2; simpl; lia].
  unfold delimited. rewrite zlen_cons, zlen_app. pose proof (zlen_nonneg (varint (zlen s))). lia.
Qed.

Lemma Message_marshal m : zlen (Message_encode m) < two63 ->
  marshals (Message_MarshalToSizedBufferVT (Some m)) (Message_encode m) /\
  Message_SizeVT (Some m) = zlen (Message_encode m).
Proof.
  intros Hz. assert (Hd : zlen (Data m) < two64).
  { unfold Message_encode in Hz. rewrite zlen_app in Hz. pose proof (bytes_field_bound 0xa (Data m)).
    match type of Hz with _ + zlen ?r < _ => pose proof (zlen_nonneg r) end. pose proof two63_64. lia. }
  split.
  - apply (writes_marshals (_ ;;> _)). unfold Message_encode. rewrite !app_assoc.
    apply writes_then; [apply writes_copy_back|].
    apply writes_then.
    { apply writes_when. intros ->. apply (writes_then _ _ [z2b 1] [z2b 0x28]); apply writes_put_byte. }
    do 3 (apply writes_then; [apply writes_int32|]). by apply writes_bytes.
  - unfold Message_encode, Message_SizeVT. rewrite !zlen_app, bytes_field_size, !int32_field_size by done.
    rewrite (zlen_when (Priority m) [z2b 0x28; z2b 1] 2) by done. lia.
Qed.

Lemma TestMessage_marshal m : zlen (TestMessage_encode m) < two63 ->
  marshals (TestMessage_MarshalToSizedBufferVT (Some m)) (TestMessage_encode m) /\
  TestMessage_SizeVT (Some m) = zlen (TestMessage_encode m).
Proof.
  intros Hz. assert (Hd : zlen (Test_Data m) < two64).
  { unfold TestMessage_encode in Hz. rewrite zlen_app in Hz. pose proof (bytes_field_bound 0xa (Test_Data m)).
    pose proof (zlen_nonneg (Test_unknownFields m)). pose proof two63_64. lia. }
  split.
  - apply (writes_marshals (_ ;;> _)). apply writes_then; [apply writes_copy_back|by apply writes_bytes].
  - unfold TestMessage_encode, TestMessage_SizeVT. by rewrite zlen_app, bytes_field_size.
Qed.

(** Each part of a concatenation is no longer than the whole. *)
Lemma concat_bound {A} (enc : A -> list byte) xs n :
  zlen (concat (enc <$> xs)) < n -> Forall (fun x => zlen (enc x) < n) xs.
Proof.
  induction xs as [|x xs IH]; intros Hz; [done|]. rewrite fmap_cons in Hz. cbn [concat] in Hz. rewrite zlen_app in Hz.
  pose proof (zlen_nonneg (enc x)). pose proof (zlen_nonneg (concat (enc <$> xs))).
  apply Forall_cons. split; [lia|]. apply IH. lia.
Qed.

Lemma size_each_ok {A} (size : A -> Z) (enc : A -> list byte) xs n :
  Forall (fun x => zlen (enc x) = size_delimited (size x)) xs ->
  size_each size xs n = n + zlen (concat (enc <$> xs)).
Proof.
  intros Hx. revert n. unfold size_each. induction Hx as [|x xs Hx _ IH]; intros n; cbn [foldl].
  - by rewrite Z.add_0_r.
  - rewrite fmap_cons. cbn [concat]. rewrite IH, zlen_app, Hx. lia.
Qed.

(** An element that is nil or not, its encoding and its size. *)
Lemma PID_elem_ok tag p : zlen (PID_elem tag p) < two63 ->
  zlen (PID_elem tag p) = size_delimited (PID_SizeVT p) /\
  writes (put_message tag (PID_MarshalToSizedBufferVT p)) (PID_elem tag p).
Proof.
  intros Hz. unfold PID_elem in *. rewrite zlen_cons in Hz. pose proof two63_64.
  assert (Hs : zlen (PID_encode (default empty_PID p)) < two63) by (apply delimited_lt; lia).
  destruct p as [p|]; simpl default in *.
  - rewrite PID_size by done. split; [apply zlen_delimited; lia|]. apply writes_message; [lia|by apply PID_marshals].
  - split; [done|]. apply writes_message; [lia|]. intros dAtA _. exists dAtA. split; [done|]. split; [done|].
    by rewrite Nat.sub_0_r, drop_all.
Qed.

Lemma Message_elem_ok x : zlen (Message_elem x) < two63 ->
  zlen (Message_elem x) = size_delimited (Message_SizeVT x) /\
  writes (put_message 0x22 (Message_MarshalToSizedBufferVT x)) (Message_elem x).
Proof.
  intros Hz. unfold Message_elem in *. rewrite zlen_cons in Hz. pose proof two63_64.
  assert (Hs : zlen (Message_encode (default empty_Message x)) < two63) by (apply delimited_lt; lia).
  destruct x as [m|]; simpl default in *.
  - destruct (Message_marshal m Hs) as [H1 ->]. split; [apply zlen_delimited; lia|]. apply writes_message; [lia|done].
  - split; [done|]. apply writes_message; [lia|]. intros dAtA _. exists dAtA. split; [done|]. split; [done|].
    by rewrite Nat.sub_0_r, drop_all.
Qed.

Lemma TypeName_elem_ok s : zlen (TypeName_elem s) < two63 ->
  zlen (TypeName_elem s) = size_delimited (zlen (str_bytes s)) /\
  writes (put_delimited 0xa (str_bytes s)) (TypeName_elem s).
Proof.
  unfold TypeName_elem. intros Hz. pose proof two63_64.
  assert (Hs : zlen (str_bytes s) < two63) by (apply delimited_lt; rewrite zlen_cons in Hz; lia).
  split; [apply zlen_delimited; lia|apply writes_delimited; lia].
Qed.

Lemma Forall_and_split {A} (P Q R : A -> Prop) xs :
  (forall x, P x -> Q x /\ R x) -> Forall P xs -> Forall Q xs /\ Forall R xs.
Proof. intros H HP. split; (eapply Forall_impl; [exact HP|]); intros x Hx; by apply H. Qed.

Lemma Envelope_marshal m : zlen (Envelope_encode m) < two63 ->
  marshals (Envelope_MarshalToSizedBufferVT (Some m)) (Envelope_encode m) /\
  Envelope_SizeVT (Some m) = zlen (Envelope_encode m).
Proof.
  intros Hz. assert (Hparts : zlen (concat (TypeName_elem <$> TypeNames m)) < two63 /\
    zlen (concat (PID_elem 0x12 <$> Targets m)) < two63 /\ zlen (concat (PID_elem 0x1a <$> Senders m)) < two63 /\
    zlen (concat (Message_elem <$> Messages m)) < two63).
  { unfold Envelope_encode in Hz. rewrite !zlen_app in Hz.
    pose proof (zlen_nonneg (concat (TypeName_elem <$> TypeNames m))).
    pose proof (zlen_nonneg (concat (PID_elem 0x12 <$> Targets m))).
    pose proof (zlen_nonneg (concat (PID_elem 0x1a <$> Senders m))).
    pose proof (zlen_nonneg (concat (Message_elem <$> Messages m))).
    pose proof (zlen_nonneg (Envelope_unknownFields m)). lia. }
  destruct Hparts as (H1 & H2 & H3 & H4).
  destruct (Forall_and_split _ _ _ _ TypeName_elem_ok (concat_bound _ _ _ H1)) as [S1 W1].
  destruct (Forall_and_split _ _ _ _ (PID_elem_ok 0x12) (concat_bound _ _ _ H2)) as [S2 W2].
  destruct (Forall_and_split _ _ _ _ (PID_elem_ok 0x1a) (concat_bound _ _ _ H3)) as [S3 W3].
  destruct (Forall_and_split _ _ _ _ Message_elem_ok (concat_bound _ _ _ H4)) as [S4 W4].
  split.
  - apply (writes_marshals (_ ;;> _)). unfold Envelope_encode. rewrite !app_assoc.
    apply writes_then; [apply writes_copy_back|].
    do 3 (apply writes_then; [by apply writes_each|]). by apply writes_each.
  - unfold Envelope_SizeVT, Envelope_encode. rewrite !zlen_app.
    rewrite (size_each_ok _ _ _ _ S4), (size_each_ok _ _ _ _ S3), (size_each_ok _ _ _ _ S2), (size_each_ok _ _ _ _ S1). lia.
Qed.

(** ** Parsing is the inverse *)

Definition int32_range (v : Z) : Prop := - two31 <= v < two31.

(** What a message must satisfy to be a Go value without unknown fields. *)
Definition Message_ok (m : Message) : Prop :=
  int32_range (TargetIndex m) /\ int32_range (SenderIndex m) /\ int32_range (TypeNameIndex m) /\
  Message_unknownFields m = [].

Lemma i32_u64 v : int32_range v -> i32 (u64 v) = v.
Proof.
  intros Hv. rewrite <-(i32_id v Hv) at 2. change (sw 31 (u64 v) = sw 31 v).
  apply Z.bits_inj'. intros n Hn. rewrite (sw_testbit 31 (u64 v)), (sw_testbit 31 v) by lia.
  unfold u64, two64. change 18446744073709551616 with (2 ^ 64). apply Z.mod_pow2_bits_low. lia.
Qed.

Lemma eats_bytes_field {Msg} field unknown (set : list byte -> Msg -> Msg) num s (m : Msg) :
  1 <= num < 16 ->
  field num = Some (typed 2 (fun dAtA l iNdEx m => '(s, iNdEx) ⇐ read_bytes dAtA l iNdEx; done_ (set s m, iNdEx))) ->
  (s = [] -> set s m = m) ->
  eats field unknown (bytes_field (num * 8 + 2) s) m (set s m).
Proof.
  intros Hn Hf Hempty. apply eats_when.
  - intros _. eapply (eats_field _ _ num 2); [done|done|lia|lia|exact Hf|apply delimited_nonempty|].
    intros dAtA i rest Hd Hat. cbv beta. rewrite (read_bytes_back s dAtA i rest Hd Hat). done.
  - intros Hlen. symmetry. apply Hempty. by destruct s.
Qed.

Lemma eats_int32_field {Msg} field unknown (set : Z -> Msg -> Msg) num v (m : Msg) :
  1 <= num < 16 -> int32_range v ->
  field num = Some (typed 0 (fun dAtA l iNdEx m => '(v, iNdEx) ⇐ read_int32 dAtA l iNdEx; done_ (set v m, iNdEx))) ->
  (v = 0 -> set v m = m) ->
  eats field unknown (int32_field (num * 8 + 0) v) m (set v m).
Proof.
  intros Hn Hv Hf Hempty. apply eats_when.
  - intros _. eapply (eats_field _ _ num 0); [done|done|lia|lia|exact Hf|apply varint_nonempty|].
    intros dAtA i rest Hd Hat. cbv beta. unfold read_int32.
    rewrite (read_varint_back i32 (u64 v) dAtA i rest (u64_range v) Hat). unfold done_ at 1. cbn [pbind].
    by rewrite i32_u64.
  - intros Hz. symmetry. apply Hempty. apply negb_false_iff in Hz. lia.
Qed.

Lemma Message_eats m : Message_ok m -> eats Message_field Message_unknown (Message_encode m) empty_Message m.
Proof.
  destruct m as [d t s n p u]. intros (Ht & Hs & Hn & Hu). simpl in *. subst u.
  unfold Message_encode. cbn [Data TargetIndex SenderIndex TypeNameIndex Priority Message_unknownFields].
  rewrite app_nil_r.
  eapply eats_app. { apply (eats_bytes_field Message_field Message_unknown (fun s m => mkMessage s (TargetIndex m) (SenderIndex m) (TypeNameIndex m) (Priority m) (Message_unknownFields m)) 1 d empty_Message); [lia|done|by intros ->]. }
  eapply eats_app. { apply (eats_int32_field Message_field Message_unknown (fun v m => mkMessage (Data m) v (SenderIndex m) (TypeNameIndex m) (Priority m) (Message_unknownFields m)) 2 t); [lia|done|done|by intros ->]. }
  eapply eats_app. { apply (eats_int32_field Message_field Message_unknown (fun v m => mkMessage (Data m) (TargetIndex m) v (TypeNameIndex m) (Priority m) (Message_unknownFields m)) 3 s); [lia|done|done|by intros ->]. }
  eapply eats_app. { apply (eats_int32_field Message_field Message_unknown (fun v m => mkMessage (Data m) (TargetIndex m) (SenderIndex m) v (Priority m) (Message_unknownFields m)) 4 n); [lia|done|done|by intros ->]. }
  apply eats_when; [|by intros ->]. intros ->.
  eapply (eats_field _ _ 5 0); [done|lia|lia|lia|done|done|].
  intros dAtA i rest Hd Hat. cbv beta.
  rewrite (read_varint_back i64 1 dAtA i rest); [done|done|exact Hat].
Qed.

Lemma Message_back m : Message_ok m -> zlen (Message_encode m) < two63 ->
  Message_UnmarshalVT (Message_encode m) empty_Message = done_ m.
Proof. intros Hm Hz. by apply eats_unmarshal, Message_eats. Qed.

(** Appending parsed elements one by one. *)
Lemma eats_pid_elem add num p m :
  1 <= num < 16 ->
  Envelope_field num = Some (typed 2 (fun dAtA l iNdEx m =>
    '(s, iNdEx) ⇐ read_bytes dAtA l iNdEx; p ⇐ PID_UnmarshalVT s empty_PID; done_ (add m p, iNdEx))) ->
  unknownFields (default empty_PID p) = [] ->
  eats Envelope_field Envelope_unknown (PID_elem (num * 8 + 2) p) m (add m (default empty_PID p)).
Proof.
  intros Hn Hf Hu.
  apply (eats_pid_field Envelope_field Envelope_unknown (fun _ => empty_PID) (fun p m => add m p) num); done.
Qed.

Lemma eats_message_elem x m :
  Message_ok (default empty_Message x) ->
  eats Envelope_field Envelope_unknown (Message_elem x) m (add_Message m (default empty_Message x)).
Proof.
  intros Hx. unfold Message_elem.
  eapply (eats_field _ _ 4 2); [done|lia|lia|lia|done|apply delimited_nonempty|].
  intros dAtA i rest Hd Hat. cbv beta. rewrite (read_bytes_back _ dAtA i rest Hd Hat). unfold done_ at 1. cbn [pbind].
  rewrite Message_back; [done|done|]. apply delimited_lt. pose proof (at_zlen _ _ _ Hat) as Hz.
  rewrite zlen_app in Hz. pose proof (zlen_nonneg rest). destruct Hat. lia.
Qed.

Lemma eats_typename_elem s m : eats Envelope_field Envelope_unknown (TypeName_elem s) m (add_TypeName m s).
Proof.
  unfold TypeName_elem. eapply (eats_field _ _ 1 2); [done|lia|lia|lia|done|apply delimited_nonempty|].
  intros dAtA i rest Hd Hat. cbv beta. by rewrite (read_string_back _ dAtA i rest Hd Hat).
Qed.

(** What an envelope must satisfy to be parsed back; nil elements come back as
    empty messages. *)
Definition PID_known (p : option PID) : Prop := unknownFields (default empty_PID p) = [].
Definition Envelope_ok (m : Envelope) : Prop :=
  Forall PID_known (Targets m) /\ Forall PID_known (Senders m) /\
  Forall (fun x => Message_ok (default empty_Message x)) (Messages m) /\ Envelope_unknownFields m = [].
Definition fill_nil (m : Envelope) : Envelope :=
  mkEnvelope (TypeNames m) ((fun p => Some (default empty_PID p)) <$> Targets m)
    ((fun p => Some (default empty_PID p)) <$> Senders m)
    ((fun x => Some (default empty_Message x)) <$> Messages m) (Envelope_unknownFields m).

Lemma foldl_TypeNames xs m : foldl add_TypeName m xs =
  mkEnvelope (TypeNames m ++ xs) (Targets m) (Senders m) (Messages m) (Envelope_unknownFields m).
Proof.
  revert m. induction xs as [|x xs IH]; intros m; simpl; [rewrite app_nil_r; by destruct m|].
  rewrite IH. simpl. by rewrite <-app_assoc.
Qed.
Lemma foldl_Targets xs m : foldl (fun m p => add_Target m (default empty_PID p)) m xs =
  mkEnvelope (TypeNames m) (Targets m ++ ((fun p => Some (default empty_PID p)) <$> xs)) (Senders m) (Messages m) (Envelope_unknownFields m).
Proof.
  revert m. induction xs as [|x xs IH]; intros m; simpl; [rewrite app_nil_r; by destruct m|].
  rewrite IH. simpl. by rewrite <-app_assoc.
Qed.
Lemma foldl_Senders xs m : foldl (fun m p => add_Sender m (default empty_PID p)) m xs =
  mkEnvelope (TypeNames m) (Targets m) (Senders m ++ ((fun p => Some (default empty_PID p)) <$> xs)) (Messages m) (Envelope_unknownFields m).
Proof.
  revert m. induction xs as [|x xs IH]; intros m; simpl; [rewrite app_nil_r; by destruct m|].
  rewrite IH. simpl. by rewrite <-app_assoc.
Qed.
Lemma foldl_Messages xs m : foldl (fun m x => add_Message m (default empty_Message x)) m xs =
  mkEnvelope (TypeNames m) (Targets m) (Senders m) (Messages m ++ ((fun x => Some (default empty_Message x)) <$> xs)) (Envelope_unknownFields m).
Proof.
  revert m. induction xs as [|x xs IH]; intros m; simpl; [rewrite app_nil_r; by destruct m|].
  rewrite IH. simpl. by rewrite <-app_assoc.
Qed.

Lemma Envelope_eats m : Envelope_ok m ->
  eats Envelope_field Envelope_unknown (Envelope_encode m) empty_Envelope (fill_nil m).
Proof.
  intros (Ht & Hs & Hm & Hu). unfold Envelope_encode. rewrite Hu, app_nil_r.
  assert (Hall : forall A (P : A -> Prop) (xs : list A), (forall x, P x) -> Forall P xs) by (intros; by apply Forall_true).
  pose proof (eats_list Envelope_field Envelope_unknown TypeName_elem add_TypeName (TypeNames m) empty_Envelope
    (Hall _ _ _ eats_typename_elem)) as E1. rewrite foldl_TypeNames in E1. simpl in E1.
  eapply eats_app; [exact E1|]. clear E1.
  eapply eats_app.
  { apply (eats_list _ _ (PID_elem 0x12) (fun m p => add_Target m (default empty_PID p))).
    eapply Forall_impl; [exact Ht|]. intros p Hp m'. by apply (eats_pid_elem add_Target 2). }
  rewrite foldl_Targets. simpl.
  eapply eats_app.
  { apply (eats_list _ _ (PID_elem 0x1a) (fun m p => add_Sender m (default empty_PID p))).
    eapply Forall_impl; [exact Hs|]. intros p Hp m'. by apply (eats_pid_elem add_Sender 3). }
  rewrite foldl_Senders. simpl.
  assert (Hfin : fill_nil m = foldl (fun m x => add_Message m (default empty_Message x))
    (mkEnvelope (TypeNames m) ((fun p => Some (default empty_PID p)) <$> Targets m)
      ((fun p => Some (default empty_PID p)) <$> Senders m) [] []) (Messages m)).
  { rewrite foldl_Messages. unfold fill_nil. simpl. by rewrite Hu. }
  rewrite Hfin. apply eats_list. eapply Forall_impl; [exact Hm|]. intros x Hx m'. by apply eats_message_elem.
Qed.

Lemma TestMessage_eats m : Test_unknownFields m = [] ->
  eats TestMessage_field TestMessage_unknown (TestMessage_encode m) empty_TestMessage m.
Proof.
  destruct m as [d u]. simpl. intros ->. unfold TestMessage_encode. simpl. rewrite app_nil_r.
  apply (eats_bytes_field TestMessage_field TestMessage_unknown
    (fun s m => mkTestMessage s (Test_unknownFields m)) 1 d empty_TestMessage); [lia|done|by intros ->].
Qed.

(** ** No input is fatal *)

Lemma Message_field_good : field_good Message_field.
Proof.
  intros n f wt dAtA i m Hf Hd Hi. unfold Message_field in Hf.
  assert (Hb : forall k : list byte -> Message, good (fun '(_, i') => i <= i' <= zlen dAtA)
    ('(s, i') ⇐ read_bytes dAtA (zlen dAtA) i; done_ (k s, i'))).
  { intros k. eapply good_bind; [apply read_bytes_good; lia|]. intros [s i'] [Hi' _]. exact Hi'. }
  assert (Hv : forall wrap `{Wrap wrap} (k : Z -> Message), good (fun '(_, i') => i <= i' <= zlen dAtA)
    ('(v, i') ⇐ read_varint wrap dAtA (zlen dAtA) i; done_ (k v, i'))).
  { intros wrap Hw k. eapply good_bind; [apply (read_varint_good wrap); lia|]. intros [v i'] [Hi' _]. simpl. lia. }
  destruct (n =? 1); [injection Hf as <-; apply typed_good, Hb|].
  destruct (n =? 2); [injection Hf as <-; apply typed_good|].
  { apply (Hv i32 _ (fun v => mkMessage (Data m) v (SenderIndex m) (TypeNameIndex m) (Priority m) (Message_unknownFields m))). }
  destruct (n =? 3); [injection Hf as <-; apply typed_good|].
  { apply (Hv i32 _ (fun v => mkMessage (Data m) (TargetIndex m) v (TypeNameIndex m) (Priority m) (Message_unknownFields m))). }
  destruct (n =? 4); [injection Hf as <-; apply typed_good|].
  { apply (Hv i32 _ (fun v => mkMessage (Data m) (TargetIndex m) (SenderIndex m) v (Priority m) (Message_unknownFields m))). }
  destruct (n =? 5); [injection Hf as <-; apply typed_good|done].
  apply (Hv i64 _ (fun v => mkMessage (Data m) (TargetIndex m) (SenderIndex m) (TypeNameIndex m) (negb (v =? 0)) (Message_unknownFields m))).
Qed.

Lemma TestMessage_field_good : field_good TestMessage_field.
Proof.
  intros n f wt dAtA i m Hf Hd Hi. unfold TestMessage_field in Hf. destruct (n =? 1); [|done]. injection Hf as <-.
  apply typed_good. eapply good_bind; [apply read_bytes_good; lia|]. intros [s i'] [Hi' _]. exact Hi'.
Qed.

Lemma Envelope_field_good : field_good Envelope_field.
Proof.
  intros n f wt dAtA i m Hf Hd Hi. unfold Envelope_field in Hf.
  assert (Hb : forall A (parse : list byte -> parsed A) (k : A -> Envelope),
    (forall s, zlen s < two63 -> good (fun _ => True) (parse s)) -> good (fun '(_, i') => i <= i' <= zlen dAtA)
    ('(s, i') ⇐ read_bytes dAtA (zlen dAtA) i; x ⇐ parse s; done_ (k x, i'))).
  { intros A parse k Hp. eapply good_bind; [apply read_bytes_good; lia|]. intros [s i'] [Hi' Hs].
    eapply good_bind; [by apply Hp|]. intros x _. exact Hi'. }
  assert (HP : forall s, zlen s < two63 -> good (fun _ => True) (PID_UnmarshalVT s empty_PID)).
  { intros s Hs. by apply unmarshal_good; [apply PID_field_good|]. }
  destruct (n =? 1).
  { injection Hf as <-. apply typed_good. eapply good_bind; [apply read_string_good; lia|]. intros [s i'] Hi'. exact Hi'. }
  destruct (n =? 2); [injection Hf as <-; by apply typed_good, Hb|].
  destruct (n =? 3); [injection Hf as <-; by apply typed_good, Hb|].
  destruct (n =? 4); [injection Hf as <-|done]. apply typed_good, Hb. intros s Hs.
  by apply unmarshal_good; [apply Message_field_good|].
Qed.

(** ** Equality *)

Lemma Message_EqualVT_spec a b : Message_EqualVT a b = true <-> a = b.
Proof.
  destruct a as [[d1 t1 s1 n1 p1 u1]|], b as [[d2 t2 s2 n2 p2 u2]|]; simpl; try done.
  case_bool_decide; simpl; [|split; congruence].
  destruct (Z.eqb_spec t1 t2); simpl; [|split; congruence]. destruct (Z.eqb_spec s1 s2); simpl; [|split; congruence].
  destruct (Z.eqb_spec n1 n2); simpl; [|split; congruence].
  destruct (Bool.eqb_spec p1 p2); simpl; [|split; congruence].
  rewrite bool_decide_eq_true. split; congruence.
Qed.

Lemma equal_elems_spec {A} (empty : A) eq xs ys :
  (forall a b, eq a b = true <-> a = b) ->
  equal_elems empty eq xs ys = true <-> default empty <$> xs = default empty <$> ys.
Proof.
  intros Heq. revert ys. induction xs as [|x xs IH]; intros [|y ys]; try done.
  cbn [equal_elems]. rewrite !fmap_cons, andb_true_iff, Heq, IH.
  split; [intros [Hx Hl]; injection Hx as Hx; by f_equal|intros [= Hx Hl]; by rewrite Hx].
Qed.

Lemma if_negb_false (b c : bool) : (if negb b then false else c) = true <-> b = true /\ c = true.
Proof. destruct b; simpl; (split; [intros H; by split|by intros [??]]) || (split; [done|by intros []]). Qed.

(** ** Correctness of the codecs *)

(** Sizes and buffers.  Marshalling an envelope — with any tables, nil
    elements, negative indices and unknown fields — never runs outside the buffer
    allocated from [SizeVT] and yields exactly the reference encoding; the same
    for [Message] and [TestMessage]. *)
Theorem remote_marshal_exact (e : Envelope) (m : Message) (t : TestMessage)
    (He : zlen (Envelope_encode e) < two63) (Hm : zlen (Message_encode m) < two63)
    (Ht : zlen (TestMessage_encode t) < two63) :
  (Envelope_MarshalVT (Some e) = Ok (Envelope_encode e) /\ Envelope_SizeVT (Some e) = zlen (Envelope_encode e)) /\
  (Message_MarshalVT (Some m) = Ok (Message_encode m) /\ Message_SizeVT (Some m) = zlen (Message_encode m)) /\
  (TestMessage_MarshalVT (Some t) = Ok (TestMessage_encode t) /\ TestMessage_SizeVT (Some t) = zlen (TestMessage_encode t)).
Proof.
  destruct (Envelope_marshal e He) as [E1 E2]. destruct (Message_marshal m Hm) as [M1 M2].
  destruct (TestMessage_marshal t Ht) as [T1 T2].
  split; [|split]; (split; [apply marshal_vt_ok; [assumption|symmetry; assumption]|assumption]).
Qed.

Definition demo_message : Message := mkMessage [x01; x02; x03] 1 0 0 true [].
Definition demo_envelope : Envelope :=
  mkEnvelope ["actor.Ping"; "remote.TestMessage"] [Some (NewPID "b:1" "x"); Some (NewPID "b:1" "y")]
    [None; Some (NewPID "a:1" "z")] [Some demo_message; Some (mkMessage [] 0 (-1) 1 false [])] [].

Lemma remote_marshal_exact_witness :
  (Envelope_MarshalVT (Some demo_envelope) = Ok (Envelope_encode demo_envelope) /\
   Envelope_SizeVT (Some demo_envelope) = zlen (Envelope_encode demo_envelope)) /\
  (Message_MarshalVT (Some demo_message) = Ok [x0a; x03; x01; x02; x03; x10; x01; x28; x01] /\
   Message_SizeVT (Some demo_message) = 9) /\
  (TestMessage_MarshalVT (Some (mkTestMessage [xff] [])) = Ok [x0a; x01; xff] /\
   TestMessage_SizeVT (Some (mkTestMessage [xff] [])) = 3).
Proof. apply (remote_marshal_exact demo_envelope demo_message (mkTestMessage [xff] [])); vm_compute; reflexivity. Defined.

(** C15: Round trip.  An envelope that is marshalled and parsed comes back the same
    (up to nil elements, which come back as empty messages), hence equal for
    [EqualVT]; messages with their 32-bit indices (negative ones too) and test
    messages come back exactly. *)
Theorem remote_roundtrip (e : Envelope) (m : Message) (t : TestMessage)
    (Hoke : Envelope_ok e) (Hokm : Message_ok m) (Hokt : Test_unknownFields t = [])
    (He : zlen (Envelope_encode e) < two63) (Hm : zlen (Message_encode m) < two63)
    (Ht : zlen (TestMessage_encode t) < two63) :
  exists be bm bt,
    Envelope_MarshalVT (Some e) = Ok be /\ Envelope_UnmarshalVT be empty_Envelope = done_ (fill_nil e) /\
    Envelope_EqualVT (Some e) (Some (fill_nil e)) = true /\
    Message_MarshalVT (Some m) = Ok bm /\ Message_UnmarshalVT bm empty_Message = done_ m /\
    TestMessage_MarshalVT (Some t) = Ok bt /\ TestMessage_UnmarshalVT bt empty_TestMessage = done_ t.
Proof.
  exists (Envelope_encode e), (Message_encode m), (TestMessage_encode t).
  destruct (Envelope_marshal e He) as [E1 E2]. destruct (Message_marshal m Hm) as [M1 M2].
  destruct (TestMessage_marshal t Ht) as [T1 T2]. split_and!.
  - by apply marshal_vt_ok.
  - by apply eats_unmarshal, Envelope_eats.
  - cbn [Envelope_EqualVT fill_nil TypeNames Targets Senders Messages Envelope_unknownFields].
    rewrite !if_negb_false, !bool_decide_eq_true, !(equal_elems_spec empty_PID) by apply PID_EqualVT_spec.
    rewrite (equal_elems_spec empty_Message) by apply Message_EqualVT_spec.
    rewrite <-!list_fmap_compose. done.
  - by apply marshal_vt_ok.
  - by apply Message_back.
  - by apply marshal_vt_ok.
  - by apply eats_unmarshal, TestMessage_eats.
Qed.

Ltac solve_range := split; [vm_compute; discriminate|vm_compute; reflexivity].

Lemma demo_message_ok : Message_ok demo_message.
Proof. split; [solve_range|split; [solve_range|split; [solve_range|reflexivity]]]. Qed.

Lemma demo_envelope_ok : Envelope_ok demo_envelope.
Proof.
  split; [repeat (constructor; [reflexivity|]); constructor|].
  split; [repeat (constructor; [reflexivity|]); constructor|]. split; [|reflexivity].
  constructor; [exact demo_message_ok|]. constructor; [|constructor].
  split; [solve_range|split; [solve_range|split; [solve_range|reflexivity]]].
Qed.

Lemma remote_roundtrip_witness :
  exists be bm bt,
    Envelope_MarshalVT (Some demo_envelope) = Ok be /\ Envelope_UnmarshalVT be empty_Envelope = done_ (fill_nil demo_envelope) /\
    Envelope_EqualVT (Some demo_envelope) (Some (fill_nil demo_envelope)) = true /\
    Message_MarshalVT (Some demo_message) = Ok bm /\ Message_UnmarshalVT bm empty_Message = done_ demo_message /\
    TestMessage_MarshalVT (Some (mkTestMessage [xff] [])) = Ok bt /\
    TestMessage_UnmarshalVT bt empty_TestMessage = done_ (mkTestMessage [xff] []).
Proof.
  apply (remote_roundtrip demo_envelope demo_message (mkTestMessage [xff] [])).
  - exact demo_envelope_ok.
  - exact demo_message_ok.
  - reflexivity.
  - vm_compute. reflexivity.
  - vm_compute. reflexivity.
  - vm_compute. reflexivity.
Defined.

(** C16: Hostile input.  Whatever bytes arrive from another node (fewer than 2^63),
    parsing them as an envelope, message or test message terminates with a value
    or an error; it neither panics nor loops. *)
Theorem remote_unmarshal_total (dAtA : list byte) (e : Envelope) (m : Message) (t : TestMessage)
    (Hlen : zlen dAtA < two63) :
  (exists r, Envelope_UnmarshalVT dAtA e = Some (Ok r)) /\
  (exists r, Message_UnmarshalVT dAtA m = Some (Ok r)) /\
  (exists r, TestMessage_UnmarshalVT dAtA t = Some (Ok r)).
Proof.
  assert (Hg : forall (A : Type) (m : parsed A), good (fun _ => True) m -> exists r, m = Some (Ok r)).
  { intros A [[r|]|] Hm; try done. by exists r. }
  split_and!; apply Hg, unmarshal_good; try done.
  - apply Envelope_field_good.
  - apply Message_field_good.
  - apply TestMessage_field_good.
Qed.

Lemma remote_unmarshal_total_witness :
  let bad := [x22; x05; x0a; x7f; x00; x00; x00] in
  (exists r, Envelope_UnmarshalVT bad empty_Envelope = Some (Ok r)) /\
  (exists r, Message_UnmarshalVT bad empty_Message = Some (Ok r)) /\
  (exists r, TestMessage_UnmarshalVT bad empty_TestMessage = Some (Ok r)).
Proof. apply remote_unmarshal_total. vm_compute. reflexivity. Defined.

(** C40: [EqualVT] of envelopes is equality up to nil elements (a nil element and
    an empty one are equal), of messages plain equality; [CloneVT] copies. *)
Theorem remote_equal_clone (a b : Envelope) (m n : option Message) (e : option Envelope) :
  (Envelope_EqualVT (Some a) (Some b) = true <-> fill_nil a = fill_nil b) /\
  (Message_EqualVT m n = true <-> m = n) /\
  Message_CloneVT m = m /\ Envelope_CloneVT e = e.
Proof.
  assert (Hp : forall p, PID_CloneVT p = p) by (intros [[? ? ?]|]; simpl; by rewrite ?if_id).
  assert (Hm : forall m, Message_CloneVT m = m).
  { intros [[d t s k p u]|]; [|done]. cbn [Message_CloneVT Data TargetIndex SenderIndex TypeNameIndex Priority Message_unknownFields].
    unfold copy_unknown. by rewrite if_id. }
  split; [|split; [apply Message_EqualVT_spec|split; [apply Hm|]]].
  - destruct a as [tn1 t1 s1 m1 u1], b as [tn2 t2 s2 m2 u2].
    cbn [Envelope_EqualVT TypeNames Targets Senders Messages Envelope_unknownFields].
    rewrite !if_negb_false, !bool_decide_eq_true, !(equal_elems_spec empty_PID) by apply PID_EqualVT_spec.
    rewrite (equal_elems_spec empty_Message) by apply Message_EqualVT_spec. unfold fill_nil. simpl.
    assert (Hinj : forall A (d : A) (xs ys : list (option A)),
      (fun p => Some (default d p)) <$> xs = (fun p => Some (default d p)) <$> ys <-> default d <$> xs = default d <$> ys).
    { intros A d xs. induction xs as [|x xs IH]; intros [|y ys]; try done. rewrite !fmap_cons. split.
      - intros [= Hx Hl]. by rewrite Hx, (proj1 (IH ys) Hl).
      - intros [= Hx Hl]. by rewrite Hx, (proj2 (IH ys) Hl). }
    split.
    + intros (-> & Ht & Hs & Hms & ->). apply Hinj in Ht as ->, Hs as ->, Hms as ->. done.
    + intros [= -> Ht Hs Hms ->]. apply Hinj in Ht, Hs, Hms. done.
  - destruct e as [[tn t s ms u]|]; [|done]. simpl. unfold copy_unknown. rewrite if_id.
    assert (Hid : forall A (f : A -> A) (xs : list A), (forall x, f x = x) -> f <$> xs = xs).
    { intros A f xs Hf. induction xs as [|x xs IH]; [done|]. by rewrite fmap_cons, Hf, IH. }
    by rewrite !Hid.
Qed.

(** ** Into a buffer of the caller *)

Definition Envelope_MarshalToVT (m : option Envelope) : list byte -> result (list byte * Z) :=
  marshal_to_vt (Envelope_SizeVT m) (Envelope_MarshalToSizedBufferVT m).
Definition Message_MarshalToVT (m : option Message) : list byte -> result (list byte * Z) :=
  marshal_to_vt (Message_SizeVT m) (Message_MarshalToSizedBufferVT m).
Definition TestMessage_MarshalToVT (m : option TestMessage) : list byte -> result (list byte * Z) :=
  marshal_to_vt (TestMessage_SizeVT m) (TestMessage_MarshalToSizedBufferVT m).

(** A buffer that is long enough gets the encoding of the envelope at its front and
    keeps the rest; a shorter one makes the call panic. *)
Theorem envelope_marshal_to (env : Envelope) (dAtA : list byte) (Henv : zlen (Envelope_encode env) < two63) :
  Envelope_MarshalToVT (Some env) dAtA =
    if zlen dAtA <? zlen (Envelope_encode env) then Panic IndexOutOfRange
    else Ok (Envelope_encode env ++ drop (length (Envelope_encode env)) dAtA, zlen (Envelope_encode env)).
Proof. destruct (Envelope_marshal env Henv) as [H1 H2]. unfold Envelope_MarshalToVT. rewrite H2. by apply marshal_to_vt_ok. Qed.
