(* ===== verification/Stream.v ===== *)
(** * Batching messages between nodes
    ([remote/stream_writer.go], [remote/stream_reader.go])

    The stream writer of a remote address packs a batch of [*streamDeliver]
    messages into one envelope with tables of type names, targets and senders;
    the stream reader on the other side unpacks it and sends each message to a
    local process.  The serializer and the hash behind [LookupKey] are
    third-party code and parameters. *)

From S2P Require Import Prelude Pid Messages Wire ActorWire RemoteWire.

Section stream.
(** [xxh3.Hash]. *)
Variable hash : string -> Z.
(** [ProtoSerializer]: the type assertion to [proto.Message] may panic. *)
Variable TypeName : any -> result string.
Variable Serialize : any -> result (option (list byte)).
Variable Deserialize : list byte -> string -> option any.

(** ** The writer *)

Definition lookupPIDs (m : gmap Z Z) (pid : option PID) (pids : list PID) : Z * gmap Z Z * list PID :=
  match pid with
  | None => (0, m, pids)
  | Some pid =>
      let max := i32 (Z.of_nat (size m)) in
      let key := LookupKey hash pid in
      match m !! key with
      | Some id => (id, m, pids)
      | None => (max, <[key := max]> m, pids ++ [pid])
      end
  end.

Definition lookupTypeName (m : gmap string Z) (name : string) (types : list string)
  : Z * gmap string Z * list string :=
  let max := i32 (Z.of_nat (size m)) in
  match m !! name with
  | Some id => (id, m, types)
  | None => (max, <[name := max]> m, types ++ [name])
  end.

(** The local variables of [Invoke]. *)
Record batch := mkBatch {
  typeLookup : gmap string Z; typeNames : list string;
  senderLookup : gmap Z Z; senders : list PID;
  targetLookup : gmap Z Z; targets : list PID;
  messages : list (option Message);
}.

Definition empty_batch : batch := mkBatch ∅ [] ∅ [] ∅ [] [].

(** One round of the loop of [Invoke]; a message that does not serialize leaves
    its slot nil. *)
Definition add_message (msg : Messages.Envelope) (b : batch) : result batch :=
  match Msg msg with
  | AStreamDeliver sender target m priority =>
      tn ← TypeName m;
      let '(typeID, tl, tns) := lookupTypeName (typeLookup b) tn (typeNames b) in
      let '(senderID, sl, ss) := lookupPIDs (senderLookup b) sender (senders b) in
      let '(targetID, gl, ts) := lookupPIDs (targetLookup b) target (targets b) in
      data ← Serialize m;
      let slot := match data with
                  | None => None
                  | Some d => Some (mkMessage d targetID senderID typeID priority [])
                  end in
      Ok (mkBatch tl tns sl ss gl ts (messages b ++ [slot]))
  | _ => Panic TypeAssertion
  end.

Fixpoint add_messages (msgs : list Messages.Envelope) (b : batch) : result batch :=
  match msgs with
  | [] => Ok b
  | m :: ms => b ← add_message m b; add_messages ms b
  end.

Definition batch_envelope (b : batch) : Envelope :=
  mkEnvelope (typeNames b) (Some <$> targets b) (Some <$> senders b) (messages b) [].

(** The envelope [Invoke] sends for a batch. *)
Definition pack (msgs : list Messages.Envelope) : result Envelope :=
  b ← add_messages msgs empty_batch; Ok (batch_envelope b).

(** ** The reader *)

Record delivery := mkDelivery {
  d_priority : bool; d_target : option PID; d_msg : any; d_sender : option PID
}.

(** The loop over the messages of an envelope: the calls of [SendLocal] and
    [SendPriorityLocal] it makes, and whether it stopped with an error. *)
Fixpoint read_messages (env : Envelope) (msgs : list (option Message)) : result (list delivery * bool) :=
  match msgs with
  | [] => Ok ([], false)
  | None :: _ => Panic NilDeref
  | Some msg :: msgs =>
      tname ← slice_get (TypeNames env) (TypeNameIndex msg);
      match Deserialize (Data msg) tname with
      | None => Ok ([], true)
      | Some payload =>
          target ← slice_get (Targets env) (TargetIndex msg);
          sender ← (if 0 <? zlen (Senders env) then slice_get (Senders env) (SenderIndex msg) else Ok None);
          '(ds, err) ← read_messages env msgs;
          Ok (mkDelivery (Priority msg) target payload sender :: ds, err)
      end
  end.

Definition unpack (env : Envelope) : result (list delivery * bool) := read_messages env (Messages env).

(** ** The tables *)

(** The lookup map inverts the table; no key is in it twice. *)
Definition table_ok {K A} `{Countable K} (key : A -> K) (m : gmap K Z) (xs : list A) : Prop :=
  size m = length xs /\
  forall k i, m !! k = Some i -> exists x, 0 <= i /\ xs !! Z.to_nat i = Some x /\ key x = k.

Lemma table_add {K A} `{Countable K} (key : A -> K) m xs x :
  table_ok key m xs -> zlen xs < two31 -> m !! key x = None ->
  let max := i32 (Z.of_nat (size m)) in
  max = zlen xs /\ table_ok key (<[key x := max]> m) (xs ++ [x]) /\ (xs ++ [x]) !! Z.to_nat max = Some x.
Proof.
  intros [Hs Hm] Hl Hn max.
  assert (Hmax : max = zlen xs) by (unfold max; rewrite Hs; apply i32_id; unfold zlen in *; unfold two31 in *; lia).
  assert (Hlook : (xs ++ [x]) !! Z.to_nat max = Some x).
  { rewrite Hmax. unfold zlen. rewrite Nat2Z.id. by apply list_lookup_middle. }
  split; [done|]. split; [|done]. split.
  - rewrite map_size_insert_None, length_app, Hs by done. simpl. lia.
  - intros k i [[<- <-]|[_ Hk]]%lookup_insert_Some.
    + exists x. split; [rewrite Hmax; unfold zlen; lia|done].
    + destruct (Hm k i Hk) as (y & Hi & Hy & Hky). exists y. split; [done|]. split; [by apply lookup_app_l_Some|done].
Qed.

Lemma lookupTypeName_ok m name types :
  table_ok id m types -> zlen types < two31 ->
  exists id m' types', lookupTypeName m name types = (id, m', types') /\ table_ok Datatypes.id m' types' /\
    types `prefix_of` types' /\ zlen types' <= zlen types + 1 /\ 0 <= id /\ types' !! Z.to_nat id = Some name.
Proof.
  intros Ht Hl. unfold lookupTypeName. destruct (m !! name) as [i|] eqn:E.
  - destruct (proj2 Ht name i E) as (x & Hi & Hx & Hk). unfold Datatypes.id in Hk. subst x.
    exists i, m, types. split_and!; try done. lia.
  - destruct (table_add id m types name Ht Hl E) as (Hmax & Ht' & Hlook).
    eexists _, _, _. split_and!; [done|exact Ht'|by exists [name]| | |exact Hlook].
    + unfold zlen. rewrite length_app. simpl. lia.
    + rewrite Hmax. unfold zlen. lia.
Qed.

Lemma lookupPIDs_ok m p pids :
  table_ok (LookupKey hash) m pids -> zlen pids < two31 ->
  exists id m' pids', lookupPIDs m (Some p) pids = (id, m', pids') /\ table_ok (LookupKey hash) m' pids' /\
    (pids' = pids \/ pids' = pids ++ [p]) /\ 0 <= id /\
    exists q, pids' !! Z.to_nat id = Some q /\ LookupKey hash q = LookupKey hash p.
Proof.
  intros Ht Hl. unfold lookupPIDs. destruct (m !! LookupKey hash p) as [i|] eqn:E.
  - destruct (proj2 Ht _ i E) as (q & Hi & Hq & Hk). exists i, m, pids. split_and!; eauto.
  - destruct (table_add _ m pids p Ht Hl E) as (Hmax & Ht' & Hlook).
    eexists _, _, _. split_and!; [done|exact Ht'|by right| |by exists p].
    rewrite Hmax. unfold zlen. lia.
Qed.

(** ** Packing and unpacking a batch *)

(** A message on its way to another node. *)
Record outgoing := mkOutgoing {
  o_sender : option PID; o_target : PID; o_msg : any; o_priority : bool
}.
Definition out_env (o : outgoing) : Messages.Envelope :=
  Messages.mkEnvelope (AStreamDeliver (o_sender o) (Some (o_target o)) (o_msg o) (o_priority o)) None.

(** It serializes, and deserializes to itself. *)
Definition serializable (o : outgoing) : Prop :=
  exists tn data, TypeName (o_msg o) = Ok tn /\ Serialize (o_msg o) = Ok (Some data) /\
    Deserialize data tn = Some (o_msg o).

(** The PID stored at [i] stands for [p]. *)
Definition stands_for (pids : list PID) (i : Z) (p : PID) : Prop :=
  0 <= i /\ exists q, pids !! Z.to_nat i = Some q /\ LookupKey hash q = LookupKey hash p.

Definition slot_ok (types : list string) (ss ts : list PID) (o : outgoing) (slot : option Message) : Prop :=
  exists m tn, slot = Some m /\ TypeName (o_msg o) = Ok tn /\ Deserialize (Data m) tn = Some (o_msg o) /\
    Priority m = o_priority o /\ Message_unknownFields m = [] /\ 0 <= TypeNameIndex m /\ types !! Z.to_nat (TypeNameIndex m) = Some tn /\
    stands_for ts (TargetIndex m) (o_target o) /\
    match o_sender o with Some p => stands_for ss (SenderIndex m) p | None => SenderIndex m = 0 end.

Lemma stands_for_grow ps qs i p : ps `prefix_of` qs -> stands_for ps i p -> stands_for qs i p.
Proof. intros Hp (Hi & q & Hq & Hk). split; [done|]. exists q. split; [by eapply prefix_lookup_Some|done]. Qed.

Lemma slot_ok_grow tns tns' ss ss' ts ts' o slot :
  tns `prefix_of` tns' -> ss `prefix_of` ss' -> ts `prefix_of` ts' ->
  slot_ok tns ss ts o slot -> slot_ok tns' ss' ts' o slot.
Proof.
  intros H1 H2 H3 (m & tn & -> & Htn & Hd & Hp & Hu & Hi & Hl & Ht & Hs). exists m, tn.
  split_and!; try done; [by eapply prefix_lookup_Some|by eapply stands_for_grow|].
  destruct (o_sender o); [by eapply stands_for_grow|done].
Qed.

(** The state of the loop after [os]. *)
Definition packed (os : list outgoing) (b : batch) : Prop :=
  table_ok id (typeLookup b) (typeNames b) /\ table_ok (LookupKey hash) (senderLookup b) (senders b) /\
  table_ok (LookupKey hash) (targetLookup b) (targets b) /\
  zlen (typeNames b) <= zlen os /\ zlen (senders b) <= zlen os /\ zlen (targets b) <= zlen os /\
  Forall (fun p => p ∈ omap o_sender os) (senders b) /\ head (senders b) = head (omap o_sender os) /\
  Forall (fun p => p ∈ o_target <$> os) (targets b) /\
  Forall2 (slot_ok (typeNames b) (senders b) (targets b)) os (messages b).

(** One sender or target more. *)
Lemma lookup_sender m s pids :
  table_ok (LookupKey hash) m pids -> zlen pids < two31 ->
  exists id m' pids', lookupPIDs m s pids = (id, m', pids') /\ table_ok (LookupKey hash) m' pids' /\
    pids `prefix_of` pids' /\ zlen pids' <= zlen pids + 1 /\
    (pids' = pids \/ exists p, s = Some p /\ pids' = pids ++ [p]) /\
    (match s with Some p => stands_for pids' id p | None => id = 0 end) /\
    (pids' = [] -> s = None).
Proof.
  intros Ht Hl. destruct s as [p|].
  - destruct (lookupPIDs_ok m p pids Ht Hl) as (id & m' & pids' & -> & Ht' & Hor & Hi & q & Hq & Hk).
    exists id, m', pids'. split; [done|]. split; [done|].
    split; [destruct Hor as [->| ->]; [done|by exists [p]]|].
    split; [destruct Hor as [->| ->]; unfold zlen; rewrite ?length_app; simpl; lia|].
    split; [destruct Hor as [->| ->]; [by left|right; eauto]|].
    split; [split; [done|by exists q]|]. intros ->. by rewrite lookup_nil in Hq.
  - exists 0, m, pids. split_and!; try done; [lia|by left].
Qed.

Lemma add_message_ok os o b :
  packed os b -> serializable o -> zlen os + 1 < two31 ->
  exists b', add_message (out_env o) b = Ok b' /\ packed (os ++ [o]) b'.
Proof.
  intros (T1 & T2 & T3 & L1 & L2 & L3 & F2 & H2 & F3 & Hslots) (tn & data & Htn & Hser & Hdes) Hlen.
  destruct (lookupTypeName_ok _ tn _ T1 ltac:(lia)) as (ti & tl & tns & E1 & T1' & P1 & L1' & I1 & K1).
  destruct (lookup_sender _ (o_sender o) _ T2 ltac:(lia)) as (si & sl & ss & E2 & T2' & P2 & L2' & O2 & S2 & N2).
  destruct (lookup_sender _ (Some (o_target o)) _ T3 ltac:(lia)) as (gi & gl & ts & E3 & T3' & P3 & L3' & O3 & S3 & _).
  unfold add_message. cbn [out_env Msg]. rewrite Htn. cbn [mbind result_bind]. rewrite E1, E2, E3, Hser.
  cbn [mbind result_bind]. eexists. split; [done|].
  unfold packed; cbn [typeLookup typeNames senderLookup senders targetLookup targets messages].
  assert (Hz : zlen (os ++ [o]) = zlen os + 1) by (unfold zlen; rewrite length_app; simpl; lia).
  rewrite Hz, omap_app, fmap_app. split_and!; try done; try lia.
  - destruct O2 as [->|(p & Hp & ->)].
    + eapply Forall_impl; [exact F2|]. intros x Hx. apply elem_of_app. by left.
    + apply Forall_app. split; [eapply Forall_impl; [exact F2|]; intros x Hx; apply elem_of_app; by left|].
      apply Forall_singleton, elem_of_app. right. simpl. rewrite Hp. by left.
  - destruct (senders b) as [|x l] eqn:Hsb.
    + destruct (omap o_sender os) as [|y l']; [|done]. simpl. destruct O2 as [->|(p & Hp & ->)].
      * by rewrite N2.
      * by rewrite Hp.
    + destruct (omap o_sender os) as [|y l']; [done|]. destruct O2 as [->|(p & Hp & ->)]; done.
  - destruct O3 as [->|(p & Hp & ->)].
    + eapply Forall_impl; [exact F3|]. intros x Hx. apply elem_of_app. by left.
    + apply Forall_app. split; [eapply Forall_impl; [exact F3|]; intros x Hx; apply elem_of_app; by left|].
      apply Forall_singleton, elem_of_app. right. injection Hp as <-. simpl. by left.
  - apply Forall2_app; [eapply Forall2_impl; [exact Hslots|]; intros; by eapply slot_ok_grow|].
    apply Forall2_cons. split; [|constructor]. eexists _, tn. split_and!; done.
Qed.

Lemma add_messages_ok os done_ b :
  packed done_ b -> Forall serializable os -> zlen done_ + zlen os < two31 ->
  exists b', add_messages (out_env <$> os) b = Ok b' /\ packed (done_ ++ os) b'.
Proof.
  revert done_ b. induction os as [|o os IH]; intros done_ b Hb Hs Hl.
  { exists b. rewrite app_nil_r. done. }
  apply Forall_cons in Hs as [Ho Hs].
  assert (Hz : zlen (o :: os) = 1 + zlen os) by (unfold zlen; simpl; lia).
  assert (Hz0 : 0 <= zlen os) by (unfold zlen; lia).
  destruct (add_message_ok done_ o b Hb Ho ltac:(lia)) as (b1 & H1 & Hb1).
  destruct (IH (done_ ++ [o]) b1 Hb1 Hs) as (b2 & H2 & Hb2).
  { unfold zlen in *. rewrite length_app. simpl. lia. }
  exists b2. rewrite fmap_cons. cbn [add_messages]. rewrite H1. cbn [mbind result_bind].
  split; [done|]. by rewrite <-app_assoc in Hb2.
Qed.

Lemma packed_empty : packed [] empty_batch.
Proof. by split_and!. Qed.

(** What the other side does with a message: the target and the sender are PIDs of
    the batch that hash like the real ones; without a sender, the first sender of
    the batch is used. *)
Definition received_as (ss ts : list PID) (o : outgoing) (d : delivery) : Prop :=
  d_priority d = o_priority o /\ d_msg d = o_msg o /\
  (exists t, d_target d = Some t /\ t ∈ ts /\ LookupKey hash t = LookupKey hash (o_target o)) /\
  match o_sender o with
  | Some s => exists s', d_sender d = Some s' /\ s' ∈ ss /\ LookupKey hash s' = LookupKey hash s
  | None => d_sender d = head ss
  end.

Lemma slice_get_fmap {A B} (f : A -> B) xs i x :
  0 <= i -> xs !! Z.to_nat i = Some x -> slice_get (f <$> xs) i = Ok (f x).
Proof. intros Hi Hx. apply slice_get_ok; [done|]. by rewrite list_lookup_fmap, Hx. Qed.

Lemma read_messages_ok tns ss ts all os slots :
  Forall2 (slot_ok tns ss ts) os slots ->
  exists ds, read_messages (mkEnvelope tns (Some <$> ts) (Some <$> ss) all []) slots = Ok (ds, false) /\
    Forall2 (received_as ss ts) os ds.
Proof.
  induction 1 as [|o slot os slots (m & tn & -> & Htn & Hd & Hp & Hu & Hi & Hl & (Hti & t & Ht & Htk) & Hs) _ IH].
  { by exists []. }
  destruct IH as (ds & Hread & Hds). cbn [read_messages TypeNames Targets Senders].
  rewrite (slice_get_ok _ _ tn Hi Hl). cbn [mbind result_bind]. rewrite Hd.
  rewrite (slice_get_fmap Some ts _ t Hti Ht). cbn [mbind result_bind].
  assert (Hsender : exists s', (if 0 <? zlen (Some <$> ss) then slice_get (Some <$> ss) (SenderIndex m) else Ok None) = Ok s' /\
    match o_sender o with Some s => exists s'', s' = Some s'' /\ s'' ∈ ss /\ LookupKey hash s'' = LookupKey hash s
                      | None => s' = head ss end).
  { destruct (o_sender o) as [s|].
    - destruct Hs as (Hsi & q & Hq & Hk). exists (Some q). split; [|exists q; split; [done|]; split; [by eapply list_elem_of_lookup_2|done]].
      destruct ss as [|x ss]; [by rewrite lookup_nil in Hq|]. by rewrite (slice_get_fmap Some (x :: ss) _ q Hsi Hq).
    - destruct ss as [|x ss]; [by exists None|]. exists (Some x). rewrite Hs. done. }
  destruct Hsender as (s' & -> & Hs'). cbn [mbind result_bind]. rewrite Hread. cbn [mbind result_bind].
  eexists. split; [done|]. constructor; [|done]. split_and!; [done|done| |exact Hs'].
  exists t. split; [done|]. split; [by eapply list_elem_of_lookup_2|done].
Qed.

Lemma pack_unpack os :
  Forall serializable os -> zlen os < two31 ->
  exists b, pack (out_env <$> os) = Ok (batch_envelope b) /\ packed os b /\
    exists ds, unpack (batch_envelope b) = Ok (ds, false) /\ Forall2 (received_as (senders b) (targets b)) os ds.
Proof.
  intros Hs Hl. destruct (add_messages_ok os [] empty_batch packed_empty Hs Hl) as (b & Hb & Hp).
  exists b. unfold pack. rewrite Hb. split; [done|]. split; [done|].
  destruct Hp as (_ & _ & _ & _ & _ & _ & _ & _ & _ & Hslots).
  exact (read_messages_ok _ _ _ (messages b) _ _ Hslots).
Qed.

(** The PIDs of a batch. *)
Definition batch_pids (os : list outgoing) : list PID := (o_target <$> os) ++ omap o_sender os.

Lemma lookup_range {A} (xs : list A) i x n : zlen xs < n -> 0 <= i -> xs !! Z.to_nat i = Some x -> i < n.
Proof. intros Hn Hi Hx. apply lookup_lt_Some in Hx. unfold zlen in Hn. lia. Qed.

(** The envelope of a batch survives the wire. *)
Lemma packed_wire os b :
  packed os b -> zlen os < two31 -> Forall (fun p => unknownFields p = []) (batch_pids os) ->
  Envelope_ok (batch_envelope b) /\ fill_nil (batch_envelope b) = batch_envelope b.
Proof.
  intros (_ & _ & _ & L1 & L2 & L3 & F2 & _ & F3 & Hslots) Hl Hu. rewrite Forall_forall in Hu.
  assert (Hss : Forall (fun p => unknownFields p = []) (senders b)).
  { eapply Forall_impl; [exact F2|]. intros p Hp. apply Hu, elem_of_app. by right. }
  assert (Hts : Forall (fun p => unknownFields p = []) (targets b)).
  { eapply Forall_impl; [exact F3|]. intros p Hp. apply Hu, elem_of_app. by left. }
  assert (Hms : Forall (fun x => exists m, x = Some m /\ Message_ok m) (messages b)).
  { apply Forall_forall. intros x [i Hx]%list_elem_of_lookup_1.
    destruct (Forall2_lookup_r _ _ _ _ _ Hslots Hx) as (o & _ & m & tn & -> & _ & _ & _ & Hum & Hi & Hlk & (Hti & t & Ht & _) & Hs).
    exists m. split; [done|]. split; [|split; [|split; [|done]]]; unfold int32_range, two31 in *.
    - pose proof (lookup_range (targets b) _ _ 2147483648 ltac:(lia) Hti Ht). lia.
    - destruct (o_sender o); [destruct Hs as (Hsi & q & Hq & _); pose proof (lookup_range (senders b) _ _ 2147483648 ltac:(lia) Hsi Hq)|]; lia.
    - pose proof (lookup_range (typeNames b) _ _ 2147483648 ltac:(lia) Hi Hlk). lia. }
  assert (Hmap : forall A (d : A) (xs : list (option A)), Forall (fun x => exists m, x = Some m) xs -> (fun x => Some (default d x)) <$> xs = xs).
  { intros A d xs. induction 1 as [|x xs [m ->] _ IH]; [done|]. by rewrite fmap_cons, IH. }
  split.
  - split; [by apply Forall_fmap|]. split; [by apply Forall_fmap|]. split; [|done].
    eapply Forall_impl; [exact Hms|]. intros x (m & -> & Hm). exact Hm.
  - unfold fill_nil, batch_envelope; cbn [Targets Senders Messages TypeNames Envelope_unknownFields].
    rewrite !Hmap; [done| | |]; try (apply Forall_fmap; apply Forall_forall; intros p _; by exists p).
    eapply Forall_impl; [exact Hms|]. intros x (m & -> & _). by exists m.
Qed.
End stream.

(** ** Correctness of the streams *)

(** A message arrives as it was sent; one without a sender arrives with the first
    sender of its batch, if there is one. *)
Definition arrives_as (first_sender : option PID) (o : outgoing) (d : delivery) : Prop :=
  d_priority d = o_priority o /\ d_msg d = o_msg o /\ d_target d = Some (o_target o) /\
  d_sender d = match o_sender o with Some s => Some s | None => first_sender end.

(** The batch [os] crosses the wire: packed, marshalled, parsed and unpacked, every
    message arrives, in order. *)
Definition crosses (hash : string -> Z) (TypeName : any -> result string)
    (Serialize : any -> result (option (list byte))) (Deserialize : list byte -> string -> option any)
    (os : list outgoing) : Prop :=
  exists env bytes ds, pack hash TypeName Serialize (out_env <$> os) = Ok env /\
    Envelope_MarshalVT (Some env) = Ok bytes /\ Envelope_UnmarshalVT bytes empty_Envelope = done_ env /\
    unpack Deserialize env = Ok (ds, false) /\ Forall2 (arrives_as (head (omap o_sender os))) os ds.

(** What is asked of the PIDs and the size of a batch: the hash behind [LookupKey]
    tells the PIDs apart, they have no unknown fields, and lengths stay in range. *)
Definition batch_fits (hash : string -> Z) (TypeName : any -> result string)
    (Serialize : any -> result (option (list byte))) (os : list outgoing) : Prop :=
  zlen os < two31 /\
  (forall p q, p ∈ batch_pids os -> q ∈ batch_pids os -> LookupKey hash p = LookupKey hash q -> pid_equiv p q) /\
  Forall (fun p => unknownFields p = []) (batch_pids os) /\
  forall env, pack hash TypeName Serialize (out_env <$> os) = Ok env -> zlen (Envelope_encode env) < two63.

Lemma batch_crosses (hash : string -> Z) (TypeName : any -> result string)
    (Serialize : any -> result (option (list byte))) (Deserialize : list byte -> string -> option any)
    (os : list outgoing) :
  Forall (serializable TypeName Serialize Deserialize) os -> batch_fits hash TypeName Serialize os ->
  crosses hash TypeName Serialize Deserialize os.
Proof.
  intros Hser (Hlen & Hhash & Hknown & Hsize).
  destruct (pack_unpack hash TypeName Serialize Deserialize os Hser Hlen) as (b & Hpack & Hp & ds & Hun & Hds).
  destruct (packed_wire _ _ _ os b Hp Hlen Hknown) as [Hok Hfill].
  destruct (Envelope_marshal (batch_envelope b) (Hsize _ Hpack)) as [M1 M2].
  exists (batch_envelope b), (Envelope_encode (batch_envelope b)), ds.
  split; [done|]. split; [by apply marshal_vt_ok|].
  split; [rewrite <-Hfill at 2; apply eats_unmarshal; [by apply Hsize|by apply Envelope_eats]|].
  split; [done|]. destruct Hp as (_ & _ & _ & _ & _ & _ & F2 & Hh & F3 & _).
  rewrite Forall_forall in F2, F3, Hknown.
  assert (Heq : forall p q, p ∈ batch_pids os -> q ∈ batch_pids os -> LookupKey hash p = LookupKey hash q -> p = q).
  { intros p q Hp Hq Hk. destruct (proj1 (Equals_spec p q) (Hhash p q Hp Hq Hk)) as [Ha Hi].
    apply Hknown in Hp, Hq. destruct p, q; simpl in *. congruence. }
  eapply Forall2_impl_in; [exact Hds|]. intros o d Ho (H1 & H2 & (t & Ht & Hti & Htk) & H4).
  assert (Hot : o_target o ∈ batch_pids os) by (apply elem_of_app; left; by apply list_elem_of_fmap_2).
  split_and!; [done|done| |].
  - rewrite Ht. f_equal. apply Heq; [apply elem_of_app; left; by apply F3|done|done].
  - destruct (o_sender o) as [s|] eqn:Hs; [|by rewrite H4, Hh].
    destruct H4 as (s' & -> & Hs' & Hk). f_equal. apply Heq; [apply elem_of_app; right; by apply F2| |done].
    apply elem_of_app. right. apply list_elem_of_omap. by exists o.
Qed.

(** A batch crosses the wire.  A batch of messages that serialize, packed by the stream
    writer, marshalled, parsed on the other node and unpacked by its stream
    reader, is delivered in order, each message to its target with its payload,
    priority and sender — except that a message without sender gets the first
    sender of the batch.  (The hash behind [LookupKey] must tell the PIDs of the
    batch apart.) *)
Theorem stream_roundtrip (hash : string -> Z) (TypeName : any -> result string)
    (Serialize : any -> result (option (list byte))) (Deserialize : list byte -> string -> option any)
    (os : list outgoing)
    (Hser : Forall (serializable TypeName Serialize Deserialize) os)
    (Hlen : zlen os < two31)
    (Hhash : forall p q, p ∈ batch_pids os -> q ∈ batch_pids os ->
       LookupKey hash p = LookupKey hash q -> pid_equiv p q)
    (Hknown : Forall (fun p => unknownFields p = []) (batch_pids os))
    (Hsize : forall env, pack hash TypeName Serialize (out_env <$> os) = Ok env -> zlen (Envelope_encode env) < two63) :
  exists env bytes ds, pack hash TypeName Serialize (out_env <$> os) = Ok env /\
    Envelope_MarshalVT (Some env) = Ok bytes /\ Envelope_UnmarshalVT bytes empty_Envelope = done_ env /\
    unpack Deserialize env = Ok (ds, false) /\ Forall2 (arrives_as (head (omap o_sender os))) os ds.
Proof. by apply batch_crosses. Qed.

(** A toy serializer: the data of a user message, one byte per number. *)
Definition demo_TypeName (m : any) : result string :=
  match m with AUser ty _ => Ok ty | _ => Panic TypeAssertion end.
Definition demo_Serialize (m : any) : result (option (list byte)) :=
  match m with
  | AUser "bad" _ => Ok None
  | AUser _ d => Ok (Some (z2b <$> d))
  | _ => Panic TypeAssertion
  end.
Definition demo_Deserialize (data : list byte) (tn : string) : option any := Some (AUser tn (b2z <$> data)).
(** A toy hash: the string read as a number. *)
Fixpoint demo_hash (s : string) : Z :=
  match s with
  | EmptyString => 1
  | String a s => Z.of_N (Ascii.N_of_ascii a) + 256 * demo_hash s
  end.

Definition demo_batch : list outgoing :=
  [mkOutgoing (Some (NewPID "a:1" "x")) (NewPID "b:1" "y") (AUser "ping" [1; 2]) false;
   mkOutgoing None (NewPID "b:1" "z") (AUser "pong" [3]) true;
   mkOutgoing (Some (NewPID "a:1" "w")) (NewPID "b:1" "y") (AUser "ping" []) false].

Lemma stream_roundtrip_witness :
  exists env bytes ds, pack demo_hash demo_TypeName demo_Serialize (out_env <$> demo_batch) = Ok env /\
    Envelope_MarshalVT (Some env) = Ok bytes /\ Envelope_UnmarshalVT bytes empty_Envelope = done_ env /\
    unpack demo_Deserialize env = Ok (ds, false) /\
    Forall2 (arrives_as (Some (NewPID "a:1" "x"))) demo_batch ds.
Proof.
  apply (stream_roundtrip demo_hash demo_TypeName demo_Serialize demo_Deserialize demo_batch).
  - repeat (constructor; [eexists _, _; split; [reflexivity|split; [reflexivity|vm_compute; reflexivity]]|]); constructor.
  - vm_compute. reflexivity.
  - assert (Hall : forallb (fun p => forallb (fun q => implb (LookupKey demo_hash p =? LookupKey demo_hash q) (Equals p q))
      (batch_pids demo_batch)) (batch_pids demo_batch) = true) by (vm_compute; reflexivity).
    intros p q Hp Hq Hk. rewrite forallb_forall in Hall. apply list_elem_of_In in Hp, Hq.
    specialize (Hall p Hp). rewrite forallb_forall in Hall. specialize (Hall q Hq).
    by rewrite (proj2 (Z.eqb_eq _ _) Hk) in Hall.
  - vm_compute. repeat constructor.
  - intros env He. vm_compute in He. injection He as <-. vm_compute. reflexivity.
Defined.

(** A message that does not serialize corrupts the batch: its slot travels as
    a nil message, which arrives as an empty one, so the reader delivers empty
    data as the type, to the target and from the sender of the first message of
    the batch. *)
Theorem unserializable_message_misdelivered (hash : string -> Z) (TypeName : any -> result string)
    (Serialize : any -> result (option (list byte))) (Deserialize : list byte -> string -> option any)
    (o bad : outgoing) (tn tn' : string) (payload : any)
    (Hser : serializable TypeName Serialize Deserialize o)
    (Htn : TypeName (o_msg o) = Ok tn) (Htn' : TypeName (o_msg bad) = Ok tn')
    (Hbad : Serialize (o_msg bad) = Ok None)
    (Hempty : Deserialize [] tn = Some payload) :
  exists env, pack hash TypeName Serialize [out_env o; out_env bad] = Ok env /\
    unpack Deserialize (fill_nil env) =
      Ok ([mkDelivery (o_priority o) (Some (o_target o)) (o_msg o) (head (omap o_sender [o; bad]));
           mkDelivery false (Some (o_target o)) payload (head (omap o_sender [o; bad]))], false).
Proof.
  destruct Hser as (tn0 & data & Htn0 & Hdata & Hdes). assert (tn0 = tn) as -> by congruence.
  assert (H1 : add_message hash TypeName Serialize (out_env o) empty_batch =
    Ok (mkBatch (<[tn := 0]> ∅) [tn] (match o_sender o with Some s => <[LookupKey hash s := 0]> ∅ | None => ∅ end)
      (match o_sender o with Some s => [s] | None => [] end) (<[LookupKey hash (o_target o) := 0]> ∅) [o_target o]
      [Some (mkMessage data 0 0 0 (o_priority o) [])])).
  { unfold add_message. cbn [out_env Msg]. rewrite Htn, Hdata. cbn [mbind result_bind].
    unfold lookupTypeName, lookupPIDs, empty_batch. cbn [typeLookup typeNames senderLookup senders targetLookup targets messages].
    rewrite !lookup_empty. by destruct (o_sender o); rewrite ?lookup_empty. }
  unfold pack. cbn [add_messages]. rewrite H1. cbn [mbind result_bind]. clear H1.
  unfold add_message. cbn [out_env Msg]. rewrite Htn', Hbad.
  assert (Htl : forall m, exists i m' rest, lookupTypeName m tn' [tn] = (i, m', tn :: rest)).
  { intros m. unfold lookupTypeName. destruct (m !! tn'); [by eexists _, _, []|by eexists _, _, [tn']]. }
  assert (Hl : forall m s p, exists i m' rest, lookupPIDs hash m s [p] = (i, m', p :: rest)).
  { intros m [s|] p; unfold lookupPIDs; [|by eexists _, _, []].
    destruct (m !! LookupKey hash s); [by eexists _, _, []|by eexists _, _, [s]]. }
  assert (Hs : forall m, m = match o_sender o with Some s => <[LookupKey hash s := 0]> ∅ | None => ∅ end ->
    exists i m' ss, lookupPIDs hash m (o_sender bad) (match o_sender o with Some s => [s] | None => [] end) = (i, m', ss) /\
      head ss = head (omap o_sender [o; bad])).
  { intros m ->. simpl. destruct (o_sender o) as [s|].
    - destruct (Hl (<[LookupKey hash s := 0]> ∅) (o_sender bad) s) as (i & m' & rest & ->). by eexists _, _, _.
    - destruct (o_sender bad) as [s|]; simpl; rewrite ?lookup_empty; by eexists _, _, _. }
  cbn [mbind result_bind typeLookup typeNames senderLookup senders targetLookup targets messages].
  destruct (Htl (<[tn := 0]> ∅)) as (i1 & m1 & r1 & ->).
  destruct (Hs _ eq_refl) as (i2 & m2 & ss & -> & Hhead).
  destruct (Hl (<[LookupKey hash (o_target o) := 0]> ∅) (Some (o_target bad)) (o_target o)) as (i3 & m3 & r3 & ->).
  cbn [mbind result_bind]. eexists. split; [done|].
  rewrite <-Hhead. unfold unpack, fill_nil, batch_envelope; cbn.
  change (Z.to_nat 0) with 0%nat. cbn. rewrite Hdes. cbn. rewrite Hempty. by destruct ss.
Qed.

Lemma unserializable_message_misdelivered_witness :
  let o := mkOutgoing (Some (NewPID "a:1" "x")) (NewPID "b:1" "y") (AUser "ping" [1]) true in
  let bad := mkOutgoing None (NewPID "b:1" "z") (AUser "bad" []) false in
  exists env, pack demo_hash demo_TypeName demo_Serialize [out_env o; out_env bad] = Ok env /\
    unpack demo_Deserialize (fill_nil env) =
      Ok ([mkDelivery true (Some (NewPID "b:1" "y")) (AUser "ping" [1]) (Some (NewPID "a:1" "x"));
           mkDelivery false (Some (NewPID "b:1" "y")) (AUser "ping" []) (Some (NewPID "a:1" "x"))], false).
Proof.
  intros o bad.
  apply (unserializable_message_misdelivered demo_hash demo_TypeName demo_Serialize demo_Deserialize o bad
    "ping" "bad" (AUser "ping" [])); try reflexivity.
  eexists _, _. split; [reflexivity|]. split; [reflexivity|]. vm_compute. reflexivity.
Defined.
