(* ===== verification/Router.v ===== *)
(** * The stream router ([remote/stream_router.go])

    The router is the actor that owns the table of stream writers, one per
    remote address.  How a writer starts is a parameter here; [Writer] has the
    definition. *)

From S2P Require Import Prelude RemoteWire Stream Pid Messages Process Engine.

(** ** The stream router *)

Section router.
Variable fuel : nat.
(** [Start] of the stream writer of an address, as seen by the engine. *)
Variable writer_start : string -> Engine -> outcome Engine.

Definition streams : Type := gmap string PID.

(** The PID [newStreamWriter] gives its process. *)
Definition writer_pid (e : Engine) (addr : string) : PID := NewPID (address e) ("stream" +:+ "/" +:+ addr).

Definition newStreamWriter (e : Engine) (addr : string) : Processer := PMailbox (writer_pid e addr) [].

Definition deliverStream (sender : option PID) (target : PID) (msg : any) (priority : bool)
    (s : streams) (e : Engine) : outcome (streams * Engine) :=
  let addr := Address target in
  obind
    (match s !! addr with
     | Some swpid => Returns (e, swpid, s)
     | None => obind (SpawnProc fuel (newStreamWriter e addr) (writer_start addr) e) (fun '(e, swpid) =>
                 Returns (e, swpid, <[addr := swpid]> s))
     end)
    (fun '(e, swpid, s) =>
       obind (Send fuel (Some swpid) (AStreamDeliver sender (Some target) msg priority) e) (fun e =>
         Returns (s, e))).

Definition handleTerminateStream (listenAddr : string) (s : streams) : streams := delete listenAddr s.

Definition router_Receive (msg : any) (s : streams) (e : Engine) : outcome (streams * Engine) :=
  match msg with
  | AStreamDeliver sender (Some target) m priority => deliverStream sender target m priority s e
  | AStreamDeliver _ None _ _ => Panics (PVRuntime NilDeref)
  | ARemoteUnreachableEvent addr => Returns (handleTerminateStream addr s, e)
  | _ => Returns (s, e)
  end.

(** The router on a list of messages to deliver. *)
Fixpoint route_all (os : list outgoing) (s : streams) (e : Engine) : outcome (streams * Engine) :=
  match os with
  | [] => Returns (s, e)
  | o :: os => obind (router_Receive (Msg (out_env o)) s e) (fun '(s, e) => route_all os s e)
  end.

(** The router takes one message from its mailbox and handles it; [n] of them. *)
Definition router_step (self : PID) (s : streams) (e : Engine) : outcome (streams * Engine) :=
  match pop_mailbox (ID self) e with
  | None => Blocks
  | Some (env, e) => router_Receive (Msg env) s e
  end.

Fixpoint router_steps (n : nat) (self : PID) (s : streams) (e : Engine) : outcome (streams * Engine) :=
  match n with
  | O => Returns (s, e)
  | S n => obind (router_step self s e) (fun '(s, e) => router_steps n self s e)
  end.
End router.

Section routing.
Variable fuel : nat.
#[local] Abbreviation route_all := (route_all (S fuel) (fun _ => Returns)).

(** Every known writer is registered under its address. *)
Definition streams_ok (s : streams) (e : Engine) : Prop :=
  forall addr p, s !! addr = Some p -> p = writer_pid e addr /\ is_Some (mailbox e (ID p)).

(** Addresses without a writer have no process in its place. *)
Definition free_writers (s : streams) (e : Engine) : Prop :=
  forall addr, s !! addr = None -> registry e !! ID (writer_pid e addr) = None.

Definition sent_to (addr : string) (os : list outgoing) : list Envelope :=
  out_env <$> List.filter (fun o => bool_decide (Address (o_target o) = addr)) os.

(** What the writer of [addr] holds. *)
Definition writer_queue (e : Engine) (addr : string) : list Envelope :=
  default [] (mailbox e (ID (writer_pid e addr))).

Lemma writer_id_inj e a b : ID (writer_pid e a) = ID (writer_pid e b) -> a = b.
Proof. intros H. cbn [ID writer_pid NewPID] in H. by do 2 apply (inj (String.append _)) in H. Qed.

Lemma out_env_eq o : mkEnvelope (AStreamDeliver (o_sender o) (Some (o_target o)) (o_msg o) (o_priority o)) None = out_env o.
Proof. done. Qed.

(** Sending to a registered writer. *)
Lemma send_writer addr m e q :
  wf e -> mailbox e (ID (writer_pid e addr)) = Some q ->
  exists e', Send (S fuel) (Some (writer_pid e addr)) m e = Returns e' /\ wf_like e e' /\
    delivers false (ID (writer_pid e addr)) (mkEnvelope m None) e e'.
Proof.
  intros Hwf Hq. destruct (mailbox_spec e _ q (proj1 Hwf) Hq) as (pid & Hl & _).
  pose proof (send_with_arrives false fuel (Some (writer_pid e addr)) m None e Hwf) as Hs.
  unfold destination_of in Hs. rewrite decide_True, Hl in Hs by done.
  destruct Hs as (e' & Hs & Hd). exists e'. split; [exact Hs|]. split; [by eapply delivers_wf|done].
Qed.

(** Nothing but writers has changed. *)
Definition only_writers (e e' : Engine) : Prop :=
  same_shape e e' /\ results e' = results e /\ outbox e' = outbox e /\
  forall id, (forall a, id <> ID (writer_pid e a)) -> registry e' !! id = registry e !! id.

(** The engine and the table once the writer of an address is known. *)
Lemma writer_known addr s e :
  wf e -> streams_ok s e -> free_writers s e ->
  exists e1 s1, (match s !! addr with
      | Some swpid => Returns (e, swpid, s)
      | None => obind (SpawnProc (S fuel) (newStreamWriter e addr) Returns e) (fun '(e, swpid) =>
                  Returns (e, swpid, <[addr := swpid]> s)) end) = Returns (e1, writer_pid e addr, s1) /\
      wf e1 /\ address e1 = address e /\ streams_ok s1 e1 /\ free_writers s1 e1 /\
      is_Some (mailbox e1 (ID (writer_pid e addr))) /\
      (forall a, writer_queue e1 a = writer_queue e a) /\ only_writers e e1.
Proof.
  intros Hwf Hs Hf. destruct (s !! addr) as [p|] eqn:Hl.
  - destruct (Hs addr p Hl) as [-> Hm]. by exists e, s.
  - pose proof (Hf addr Hl) as Hfree. unfold SpawnProc, add. cbn [newStreamWriter proc_PID]. rewrite Hfree. cbn [obind].
    set (e1 := set_registry _ e). exists e1, (<[addr := writer_pid e addr]> s). split; [done|].
    assert (Hwp : forall a, writer_pid e1 a = writer_pid e a) by done.
    assert (Hlook : forall a, registry e1 !! ID (writer_pid e a) =
      if decide (a = addr) then Some (PMailbox (writer_pid e addr) []) else registry e !! ID (writer_pid e a)).
    { intros a. unfold e1. simpl. case_decide as Ha; [subst; by rewrite lookup_insert_eq|].
      rewrite lookup_insert_ne; [done|]. intros Heq. apply Ha. symmetry. exact (writer_id_inj e _ _ Heq). }
    split_and!.
    + pose proof (add_fine fuel (newStreamWriter e addr) e Hwf eq_refl) as Hfine. unfold add in Hfine.
      cbn [newStreamWriter proc_PID] in Hfine. rewrite Hfree in Hfine. apply Hfine.
    + done.
    + intros a p [[<- <-]|[Hne Ha]]%lookup_insert_Some.
      * split; [done|]. unfold mailbox. rewrite Hlook, decide_True by done. by eexists.
      * destruct (Hs a p Ha) as [-> Hm]. split; [done|]. unfold mailbox in *. by rewrite Hlook, decide_False.
    + intros a [Ha Hne]%lookup_insert_None. rewrite Hwp, Hlook, decide_False by done. by apply Hf.
    + unfold mailbox. rewrite Hlook, decide_True by done. by eexists.
    + intros a. unfold writer_queue, mailbox. rewrite Hwp, Hlook. case_decide; [subst; by rewrite Hfree|done].
    + split_and!; [done..|]. intros id Hid. unfold e1. cbn [set_registry registry].
      by rewrite lookup_insert_ne by (intros Heq; by apply (Hid addr)).
Qed.

Lemma deliver_one o s e :
  wf e -> streams_ok s e -> free_writers s e ->
  exists s' e', router_Receive (S fuel) (fun _ => Returns) (Msg (out_env o)) s e = Returns (s', e') /\
    wf e' /\ address e' = address e /\ streams_ok s' e' /\ free_writers s' e' /\
    (forall addr, writer_queue e' addr = writer_queue e addr ++ sent_to addr [o]) /\ only_writers e e'.
Proof.
  intros Hwf Hs Hf. set (addr := Address (o_target o)).
  destruct (writer_known addr s e Hwf Hs Hf) as (e1 & s1 & E1 & Hwf1 & Ha1 & Hs1 & Hf1 & [q Hq] & Hw1 & Hmb1).
  assert (Hwp : forall a, writer_pid e1 a = writer_pid e a) by (intros a; unfold writer_pid; by rewrite Ha1).
  rewrite <-Hwp in Hq. destruct (send_writer addr (Msg (out_env o)) e1 q Hwf1 Hq) as (e2 & E2 & Hw2 & Hd).
  exists s1, e2. unfold router_Receive. cbn [out_env Msg]. unfold deliverStream. fold addr. rewrite E1. cbn [obind].
  rewrite <-Hwp. cbn [out_env Msg] in E2. rewrite E2. cbn [obind].
  destruct Hw2 as [(Ha2 & _) Hwf2].
  assert (Hwp2 : forall a, writer_pid e2 a = writer_pid e1 a) by (intros a; unfold writer_pid; by rewrite Ha2).
  destruct (mailbox_delivers _ _ _ _ _ Hd) as (q' & Hq1 & Hq2). assert (q' = q) as -> by congruence.
  destruct Hd as (_ & Hother & Hsh & Hres & Hob & _). split_and!; try done; [congruence| | | |].
  - intros a p Hp. destruct (Hs1 a p Hp) as [-> Hm]. rewrite Hwp2. split; [done|].
    destruct (decide (ID (writer_pid e1 a) = ID (writer_pid e1 addr))) as [Heq|Hne]; [by rewrite Heq, Hq2|].
    unfold mailbox in *. by rewrite Hother.
  - intros a Hn. rewrite Hwp2, Hother; [by apply Hf1|]. intros Heq.
    apply Hf1 in Hn. unfold mailbox in Hq. rewrite Heq in Hn. by rewrite Hn in Hq.
  - intros a. rewrite <-(Hw1 a). unfold writer_queue. rewrite Hwp2. unfold sent_to. cbn [List.filter].
    destruct (decide (a = addr)) as [->|Hne].
    + rewrite Hq, Hq2, bool_decide_true by done. done.
    + rewrite bool_decide_false by (unfold addr in Hne; congruence). rewrite fmap_nil, app_nil_r.
      unfold mailbox. rewrite Hother; [done|]. intros Heq. by apply writer_id_inj in Heq.
  - destruct Hmb1 as ((B1 & B2 & B3) & B4 & B5 & B6), Hsh as (C1 & C2 & C3).
    unfold only_writers, same_shape. split_and!; [congruence..|]. intros id Hid. rewrite <-(B6 id Hid). apply Hother. intros Heq. apply (Hid addr). by rewrite <-Hwp.
Qed.
End routing.

(** The router keeps one stream per remote address, in order.  Delivering any
    sequence of messages hands to the stream writer of each address exactly the
    messages for targets at that address, in the order they were sent, spawning
    each writer on first use (connections being up). *)
Theorem router_partitions (fuel : nat) (os : list outgoing) (s : streams) (e : Engine)
    (Hwf : wf e) (Hs : streams_ok s e) (Hf : free_writers s e) :
  exists s' e', route_all (S fuel) (fun _ => Returns) os s e = Returns (s', e') /\
    forall addr, writer_queue e' addr = writer_queue e addr ++ sent_to addr os.
Proof.
  revert s e Hwf Hs Hf. induction os as [|o os IH]; intros s e Hwf Hs Hf.
  { exists s, e. split; [done|]. intros addr. by rewrite app_nil_r. }
  destruct (deliver_one fuel o s e Hwf Hs Hf) as (s1 & e1 & H1 & Hwf1 & Ha1 & Hs1 & Hf1 & Hq1 & _).
  destruct (IH s1 e1 Hwf1 Hs1 Hf1) as (s2 & e2 & H2 & Hq2). exists s2, e2. cbn [route_all]. rewrite H1.
  split; [done|]. intros addr. rewrite Hq2, Hq1, <-app_assoc. f_equal.
  unfold sent_to. simpl. by destruct (bool_decide _).
Qed.

Lemma router_partitions_witness :
  exists s' e', route_all 1 (fun _ => Returns) demo_batch ∅ demo_engine = Returns (s', e') /\
    forall addr, writer_queue e' addr = writer_queue demo_engine addr ++ sent_to addr demo_batch.
Proof.
  apply (router_partitions 0 demo_batch ∅ demo_engine demo_engine_wf); [done|].
  intros addr _. destruct (registry demo_engine !! ID (writer_pid demo_engine addr)) eqn:E; [|done].
  apply elem_of_map_to_list in E. vm_compute in E.
  repeat (apply elem_of_cons in E as [E|E]; [discriminate E|]). by apply not_elem_of_nil in E.
Defined.
