(* ===== verification/Writer.v ===== *)
(** * Stream writers ([remote/stream_writer.go])

    The process that owns the connection to one remote address: dialling with
    retries, opening the stream, sending batches, and shutting down.  The network
    and drpc are third-party code and a parameter. *)

From S2P Require Import Prelude RemoteWire Stream Pid Messages Process Engine Router.

Section writer.
Context {conn stream : Type}.

(** What the network answers: the [i]-th dial, [SetDeadline] on a connection, and
    opening the stream ([client.Receive]). *)
Record network := mkNetwork {
  dial : nat -> option conn;
  deadline_ok : conn -> bool;
  open_stream : conn -> option stream;
}.

(** A [net.Conn] variable: a nil interface, or an interface holding a pointer
    that may itself be nil. *)
Definition net_conn : Type := option (option conn).

Record streamWriter := mkWriter {
  writeToAddr : string;
  rawconn : net_conn;
  dconn : option conn;              (* the drpc connection, over [rawconn] *)
  sw_stream : option stream;
  routerPID : option PID;
  sw_pid : PID;
  tlsConfig : bool;                 (* tlsConfig != nil *)
  inbox_running : bool;
  stream_closed : bool;
}.

Definition new_writer (e : Engine) (rpid : option PID) (addr : string) (tls : bool) : streamWriter :=
  mkWriter addr None None None rpid (writer_pid e addr) tls false false.

(** [rawconn.SetDeadline] fails on a nil interface and on a nil pointer in it. *)
Definition SetDeadline (net : network) (c : net_conn) : result bool :=
  match c with
  | Some (Some c) => Ok (deadline_ok net c)
  | _ => Panic NilDeref
  end.

Definition maxRetries : nat := 3.
(** [delay]: 500 milliseconds, in nanoseconds. *)
Definition delay : Z := 500000000.

(** What a failed dial assigns to [rawconn]: [net.Dial] returns a nil interface,
    [tls.Dial] a nil [*tls.Conn], which the assignment wraps. *)
Definition failed_dial (tls : bool) : net_conn := if tls then Some None else None.

(** The retry loop of [init], from attempt [i], with [n] attempts left: the
    connection and the times it slept. *)
Fixpoint dial_loop (net : network) (tls : bool) (n i : nat) (c : net_conn) : net_conn * list Z :=
  match n with
  | O => (c, [])
  | S n =>
      match dial net i with
      | Some c => (Some (Some c), [])
      | None =>
          let '(c, ds) := dial_loop net tls n (S i) (failed_dial tls) in
          (c, delay * (Z.of_nat i * 2) :: ds)
      end
  end.

Section engine.
Variable fuel : nat.

Definition Shutdown (w : streamWriter) (e : Engine) : outcome (streamWriter * Engine) :=
  let evt := ARemoteUnreachableEvent (writeToAddr w) in
  obind (Send fuel (routerPID w) evt e) (fun e =>
  obind (BroadcastEvent fuel evt e) (fun e =>
    let closed := match sw_stream w with Some _ => true | None => stream_closed w end in
    Returns (mkWriter (writeToAddr w) (rawconn w) (dconn w) (sw_stream w) (routerPID w) (sw_pid w) (tlsConfig w) false closed,
             Remove (sw_pid w) e))).

Definition set_rawconn c w := mkWriter (writeToAddr w) c (dconn w) (sw_stream w) (routerPID w) (sw_pid w) (tlsConfig w) (inbox_running w) (stream_closed w).
Definition set_stream c st w := mkWriter (writeToAddr w) (rawconn w) (Some c) (Some st) (routerPID w) (sw_pid w) (tlsConfig w) (inbox_running w) (stream_closed w).
Definition start_inbox w := mkWriter (writeToAddr w) (rawconn w) (dconn w) (sw_stream w) (routerPID w) (sw_pid w) (tlsConfig w) true (stream_closed w).

(** [init], with the times it slept. *)
Definition init (net : network) (w : streamWriter) (e : Engine) : outcome (list Z * streamWriter * Engine) :=
  let '(c, slept) := dial_loop net (tlsConfig w) maxRetries 0 None in
  match c with
  | None => obind (Shutdown w e) (fun '(w, e) => Returns (slept, w, e))
  | Some p =>
      let w := set_rawconn c w in
      match SetDeadline net c with
      | Panic v => Panics (PVRuntime v)
      | Ok false => Returns (slept, w, e)
      | Ok true =>
          match p with
          | None => Panics (PVRuntime NilDeref)
          | Some c =>
              match open_stream net c with
              | None => obind (Shutdown w e) (fun '(w, e) => Returns (slept, w, e))
              | Some st => Returns (slept, set_stream c st w, e)
              end
          end
      end
  end.

Definition Start (net : network) (w : streamWriter) (e : Engine) : outcome (list Z * streamWriter * Engine) :=
  init net (start_inbox w) e.

(** [Start] as [Registry.add] sees it. *)
Definition start_writer (net : network) (rpid : option PID) (tls : bool) (addr : string) (e : Engine) : outcome Engine :=
  obind (Start net (new_writer e rpid addr tls) e) (fun '(_, _, e) => Returns e).
End engine.

(** ** Sending a batch *)

Inductive send_result := SendOk | SendEOF | SendErr.

(** What [Invoke] does to the network. *)
Inductive waction := WSend (st : stream) (env : RemoteWire.Envelope) | WCloseConn (c : conn) | WSetDeadline.

Definition Invoke (hash : string -> Z) (TypeName : any -> result string) (Serialize : any -> result (option (list byte)))
    (stream_send : stream -> RemoteWire.Envelope -> send_result) (net : network)
    (w : streamWriter) (msgs : list Envelope) : result (list waction) :=
  env ← pack hash TypeName Serialize msgs;
  match sw_stream w with
  | None => Panic NilDeref
  | Some st =>
      match stream_send st env, dconn w with
      | SendEOF, Some c => Ok [WSend st env; WCloseConn c]
      | SendEOF, None => Panic NilDeref
      | _, _ => _ ← SetDeadline net (rawconn w); Ok [WSend st env; WSetDeadline]
      end
  end.
End writer.
Arguments network : clear implicits.
Arguments streamWriter : clear implicits.

(** ** Mailboxes along the way *)

Lemma delivers_mail id env e e' id' :
  delivers false id env e e' ->
  mailbox e' id' = if decide (id' = id) then (fun q => q ++ [env]) <$> mailbox e id' else mailbox e id'.
Proof.
  intros Hd. case_decide as Hid; [subst id'|].
  - destruct (mailbox_delivers _ _ _ _ _ Hd) as (q & -> & ->). done.
  - destruct Hd as (_ & Hother & _). unfold mailbox. by rewrite Hother.
Qed.

Lemma delivers_absent p id env e e' id' :
  delivers p id env e e' -> registry e !! id' = None -> registry e' !! id' = None.
Proof.
  intros ((pid & q & Hq & Hq') & Hother & _) Hn. rewrite Hother; [done|]. intros ->. congruence.
Qed.

Lemma published_mail msg e e' es id' :
  published msg e e' -> eventStream e = Some es ->
  mailbox e' id' = if decide (id' = ID es) then (fun q => q ++ [mkEnvelope msg None]) <$> mailbox e id' else mailbox e id'.
Proof. unfold published. intros H Hes. rewrite Hes in H. by apply delivers_mail. Qed.

Lemma Send_mailbox fuel t m e :
  wf e -> Address t = address e -> is_Some (mailbox e (ID t)) ->
  exists e', Send (S fuel) (Some t) m e = Returns e' /\ wf_like e e' /\
    delivers false (ID t) (mkEnvelope m None) e e'.
Proof.
  intros Hwf Ha [q Hq]. destruct (mailbox_spec e _ q (proj1 Hwf) Hq) as (pid & Hl & _).
  pose proof (send_with_arrives false fuel (Some t) m None e Hwf) as Hs.
  unfold destination_of in Hs. rewrite decide_True, Hl in Hs by done.
  destruct Hs as (e' & Hs & Hd). exists e'. split; [exact Hs|]. split; [by eapply delivers_wf|done].
Qed.

Section outcomes.
Context {conn stream : Type}.
Implicit Types (net : network conn stream) (w : streamWriter conn stream).

(** The writer of [w] has gone: the router has the event in its mailbox, then the
    event stream has it, and the process is out of the registry. *)
Definition gone w (rp : PID) (e : Engine) (w' : streamWriter conn stream) (e' : Engine) : Prop :=
  inbox_running w' = false /\ stream_closed w' = stream_closed w || bool_decide (is_Some (sw_stream w)) /\
  exists e1 e2, delivers false (ID rp) (mkEnvelope (ARemoteUnreachableEvent (writeToAddr w)) None) e e1 /\
    published (ARemoteUnreachableEvent (writeToAddr w)) e1 e2 /\ e' = Remove (sw_pid w) e2.

Lemma Shutdown_gone fuel w rp e :
  wf e -> routerPID w = Some rp -> Address rp = address e -> is_Some (mailbox e (ID rp)) ->
  exists w' e', Shutdown (S fuel) w e = Returns (w', e') /\ gone w rp e w' e'.
Proof.
  intros Hwf Hrp Ha Hm. unfold Shutdown. rewrite Hrp.
  destruct (Send_mailbox fuel rp (ARemoteUnreachableEvent (writeToAddr w)) e Hwf Ha Hm) as (e1 & -> & [_ Hwf1] & Hd).
  cbn [obind]. destruct (BroadcastEvent_ok fuel (ARemoteUnreachableEvent (writeToAddr w)) e1 Hwf1) as (e2 & -> & Hp).
  cbn [obind]. eexists _, _. split; [done|]. split; [done|]. split; [|by eauto].
  simpl. destruct (sw_stream w); [rewrite bool_decide_true by by eexists|rewrite bool_decide_false by by intros [? [=]]].
  - by rewrite orb_true_r.
  - by rewrite orb_false_r.
Qed.

(** The first dial that succeeds, if one of the three does. *)
Definition first_dial net : nat * option conn :=
  match dial net 0, dial net 1, dial net 2 with
  | Some c, _, _ => (0%nat, Some c)
  | None, Some c, _ => (1%nat, Some c)
  | None, None, Some c => (2%nat, Some c)
  | None, None, None => (3%nat, None)
  end.

Definition backoff (k : nat) : list Z := take k [0; 1000000000; 2000000000].

Lemma dial_loop_spec net tls :
  dial_loop net tls maxRetries 0 None =
  (match (first_dial net).2 with Some c => Some (Some c) | None => failed_dial tls end, backoff (first_dial net).1).
Proof.
  unfold maxRetries, first_dial. cbn [dial_loop].
  destruct (dial net 0), (dial net 1), (dial net 2); reflexivity.
Qed.

(** How a writer can come out of [Start]. *)
Definition started_as net w (rp : PID) (e : Engine) (o : outcome (list Z * streamWriter conn stream * Engine)) : Prop :=
  let '(k, found) := first_dial net in
  match found with
  | None =>
      if tlsConfig w then o = Panics (PVRuntime NilDeref)
      else exists w' e', o = Returns (backoff 3, w', e') /\ gone w rp e w' e'
  | Some c =>
      if deadline_ok net c then
        match open_stream net c with
        | None => exists w' e', o = Returns (backoff k, w', e') /\ gone w rp e w' e'
        | Some st => exists w', o = Returns (backoff k, w', e) /\ sw_stream w' = Some st /\
            dconn w' = Some c /\ rawconn w' = Some (Some c) /\ inbox_running w' = true
        end
      else exists w', o = Returns (backoff k, w', e) /\ sw_stream w' = None /\ inbox_running w' = true
  end.

Lemma gone_start net w rp e w' e' c : gone (set_rawconn c (start_inbox w)) rp e w' e' -> gone w rp e w' e'.
Proof. done. Qed.

Lemma Start_started fuel net w rp e :
  wf e -> routerPID w = Some rp -> Address rp = address e -> is_Some (mailbox e (ID rp)) -> sw_stream w = None ->
  started_as net w rp e (Start (S fuel) net w e).
Proof.
  intros Hwf Hrp Ha Hm Hst. unfold started_as, Start, init. rewrite dial_loop_spec.
  destruct (first_dial net) as [k [c|]] eqn:Ed; cbn [fst snd].
  - cbn [SetDeadline]. destruct (deadline_ok net c); [|by eexists].
    destruct (open_stream net c) as [st|]; [by eexists|].
    destruct (Shutdown_gone fuel (set_rawconn (Some (Some c)) (start_inbox w)) rp e Hwf Hrp Ha Hm) as (w' & e' & -> & Hg).
    by exists w', e'.
  - assert (k = 3%nat) as -> by (unfold first_dial in Ed; destruct (dial net 0), (dial net 1), (dial net 2); congruence).
    cbn [start_inbox tlsConfig]. destruct (tlsConfig w); cbn [failed_dial]; [done|].
    destruct (Shutdown_gone fuel (start_inbox w) rp e Hwf Hrp Ha Hm) as (w' & e' & -> & Hg).
    by exists w', e'.
Qed.
End outcomes.

(** C30: Connecting.  Starting a stream writer dials at most three times, sleeping
    0, 1 and 2 seconds after the failures.  If no dial succeeds (without TLS) or
    the stream cannot be opened, the router is told the address is unreachable,
    the event is broadcast, the mailbox stops and the process leaves the
    registry; with TLS, three failed dials panic.  If setting the deadline fails, the writer stays registered with
    its mailbox running and no stream; otherwise it ends up connected over the
    first connection obtained. *)
Theorem writer_start_outcomes {conn stream : Type} (fuel : nat) (net : network conn stream)
    (w : streamWriter conn stream) (rp : PID) (e : Engine)
    (Hwf : wf e) (Hrp : routerPID w = Some rp) (Ha : Address rp = address e)
    (Hm : is_Some (mailbox e (ID rp))) (Hst : sw_stream w = None) :
  started_as net w rp e (Start (S fuel) net w e).
Proof. by apply Start_started. Qed.

Definition demo_net (up : bool) : network nat nat :=
  mkNetwork (fun i => if up && (i =? 1)%nat then Some 7%nat else None) (fun _ => true) (fun c => Some c).

Lemma writer_start_outcomes_witness :
  started_as (demo_net true) (new_writer demo_engine (Some demo_actor) "10.0.0.2:4000" false) demo_actor demo_engine
    (Start 1 (demo_net true) (new_writer demo_engine (Some demo_actor) "10.0.0.2:4000" false) demo_engine).
Proof.
  apply (writer_start_outcomes 0); [exact demo_engine_wf|reflexivity|reflexivity| |reflexivity].
  eexists. vm_compute. reflexivity.
Defined.

(** A fresh writer for [addr] in a well-formed engine where its id is free. *)
Lemma add_writer e addr :
  wf e -> registry e !! ID (writer_pid e addr) = None ->
  let e0 := set_registry (<[ID (writer_pid e addr) := newStreamWriter e addr]> (registry e)) e in
  wf_like e e0 /\ mailbox e0 (ID (writer_pid e addr)) = Some [] /\
  forall id, id <> ID (writer_pid e addr) -> mailbox e0 id = mailbox e id.
Proof.
  intros Hwf Hfree e0. split_and!.
  - pose proof (add_fine 0 (newStreamWriter e addr) e Hwf eq_refl) as Hfine. unfold add in Hfine.
    cbn [newStreamWriter proc_PID] in Hfine. by rewrite Hfree in Hfine.
  - unfold mailbox, e0. cbn [set_registry registry]. by rewrite lookup_insert_eq.
  - intros id Hne. unfold mailbox, e0. cbn [set_registry registry]. by rewrite lookup_insert_ne by congruence.
Qed.

(** A message to an unreachable address.  When no dial succeeds, delivering to
    an address without a writer leaves no writer behind: the message is published
    as a dead letter of the stream process (the [*streamDeliver] inside), after
    the unreachable event; and the event the router then takes from its own
    mailbox restores its table, so the next message dials again. *)
Theorem unreachable_dead_letters {conn stream : Type} (fuel : nat) (net : network conn stream) (rp es : PID)
    (qr qs : list Envelope) (o : outgoing) (s : streams) (e : Engine)
    (Hwf : wf e) (Hrp : Address rp = address e) (Hes : eventStream e = Some es) (Hne : ID rp <> ID es)
    (Hqr : mailbox e (ID rp) = Some qr) (Hqs : mailbox e (ID es) = Some qs)
    (Hs : s !! Address (o_target o) = None)
    (Hfree : registry e !! ID (writer_pid e (Address (o_target o))) = None)
    (Hdown : first_dial net = (3%nat, None)) :
  let addr := Address (o_target o) in
  let wp := writer_pid e addr in
  let down := ARemoteUnreachableEvent addr in
  let start := start_writer (S fuel) net (Some rp) false in
  exists e', router_Receive (S fuel) start (Msg (out_env o)) s e = Returns (<[addr := wp]> s, e') /\
    wf e' /\ registry e' !! ID wp = None /\
    mailbox e' (ID rp) = Some (qr ++ [mkEnvelope down None]) /\
    mailbox e' (ID es) = Some (qs ++ [mkEnvelope down None;
      mkEnvelope (ADeadLetterEvent (Some wp) (Msg (out_env o)) None) None]) /\
    router_Receive (S fuel) start down (<[addr := wp]> s) e' = Returns (s, e').
Proof.
  intros addr wp down start.
  fold addr in Hs, Hfree.
  destruct (add_writer e addr Hwf Hfree) as ([(Ha0 & Hr0 & Hes0) Hwf0] & _ & Hm0).
  set (e0 := set_registry _ e) in *. fold wp in Hm0, Hfree.
  assert (Hwr : ID rp <> ID wp) by (intros Heq; unfold mailbox in Hqr; rewrite Heq, Hfree in Hqr; done).
  assert (Hwe : ID es <> ID wp) by (intros Heq; unfold mailbox in Hqs; rewrite Heq, Hfree in Hqs; done).
  assert (Hwp0 : writer_pid e0 addr = wp) by done.
  (* the writer starts and goes away *)
  set (w := new_writer e0 (Some rp) addr false : streamWriter conn stream).
  assert (Hst : started_as net w rp e0 (Start (S fuel) net w e0)).
  { apply Start_started; [done|done|by rewrite Ha0| |done]. rewrite Hm0 by done. by eexists. }
  unfold started_as in Hst. rewrite Hdown in Hst. cbn [tlsConfig new_writer w] in Hst.
  destruct Hst as (w' & e3 & Hst & _ & _ & e1 & e2 & Hd1 & Hp2 & ->).
  pose proof (delivers_wf _ _ _ _ _ Hwf0 Hd1) as [(Ha1 & _ & Hes1) Hwf1].
  pose proof (published_wf _ _ _ Hwf1 Hp2) as [(Ha2 & _ & Hes2) Hwf2].
  assert (Hese : forall e', eventStream e' = eventStream e -> eventStream e' = Some es) by (intros; congruence).
  cbn [sw_pid new_writer w] in *. rewrite Hwp0 in *.
  assert (Hwf3 : wf_like e2 (Remove wp e2)) by (apply wf_Remove; [done|intros es'; congruence]).
  destruct Hwf3 as [(Ha3 & _ & Hes3) Hwf3]. set (e3 := Remove wp e2) in *.
  assert (Hm3 : forall id, id <> ID wp -> mailbox e3 id = mailbox e2 id).
  { intros id Hid. unfold mailbox, e3, Remove. cbn [set_registry registry]. by rewrite lookup_delete_ne by congruence. }
  assert (Hgone : registry e3 !! ID wp = None) by (unfold e3, Remove; cbn [set_registry registry]; by rewrite lookup_delete_eq).
  (* the message becomes a dead letter *)
  pose proof (send_with_arrives false fuel (Some wp) (Msg (out_env o)) None e3 Hwf3) as Hsend.
  assert (Haw : Address wp = address e3) by (rewrite Ha3, Ha2, Ha1, Ha0; done).
  unfold destination_of in Hsend. rewrite decide_True, Hgone in Hsend by done.
  destruct Hsend as (e4 & Hsend & Hp4). exists e4.
  assert (Hm : forall id, id <> ID wp -> mailbox e4 id = mailbox e id ≫= fun q => Some (q ++
      (if decide (id = ID rp) then [mkEnvelope down None] else []) ++
      (if decide (id = ID es) then [mkEnvelope down None; mkEnvelope (ADeadLetterEvent (Some wp) (Msg (out_env o)) None) None] else []))).
  { intros id Hid. rewrite (published_mail _ _ _ es id Hp4) by (apply Hese; congruence).
    rewrite Hm3 by done. rewrite (published_mail _ _ _ es id Hp2) by (apply Hese; congruence).
    rewrite (delivers_mail _ _ _ _ id Hd1), Hm0 by done.
    destruct (mailbox e id) as [q|]; repeat case_decide; simplify_eq/=; try done; by rewrite ?app_nil_r, <-?app_assoc. }
  split_and!.
  - unfold router_Receive. cbn [out_env Msg]. unfold deliverStream. fold addr. rewrite Hs.
    unfold SpawnProc, add. cbn [newStreamWriter proc_PID]. fold wp. rewrite Hfree.
    unfold start, start_writer. change (set_registry _ e) with e0. fold w. rewrite Hst. cbn [obind].
    cbn [out_env Msg] in Hsend. unfold Send, send. by rewrite Hsend.
  - by apply (published_wf _ _ _ Hwf3) in Hp4 as [_ ?].
  - unfold published in Hp4. rewrite (Hese e3) in Hp4 by congruence. by eapply delivers_absent.
  - rewrite Hm, Hqr, decide_True, decide_False by done. simpl. by rewrite ?app_nil_r.
  - rewrite Hm, Hqs, decide_False, decide_True by done. done.
  - unfold router_Receive, handleTerminateStream, down. exact (f_equal (fun t => Returns (t, e4)) (delete_insert_id (M:=gmap string) s addr wp Hs)).

Qed.

Definition demo_out : outgoing :=
  mkOutgoing None (NewPID "10.0.0.2:4000" "player/7") (AUser "msg" [1]) false.

Lemma unreachable_dead_letters_witness :
  let addr := "10.0.0.2:4000"%string in
  let wp := writer_pid demo_engine addr in
  let down := ARemoteUnreachableEvent addr in
  let start := start_writer 1 (demo_net false) (Some demo_actor) false in
  exists e', router_Receive 1 start (Msg (out_env demo_out)) ∅ demo_engine = Returns (<[addr := wp]> ∅, e') /\
    wf e' /\ registry e' !! ID wp = None /\
    mailbox e' (ID demo_actor) = Some ([] ++ [mkEnvelope down None]) /\
    mailbox e' (ID demo_stream) = Some ([] ++ [mkEnvelope down None;
      mkEnvelope (ADeadLetterEvent (Some wp) (Msg (out_env demo_out)) None) None]) /\
    router_Receive 1 start down (<[addr := wp]> ∅) e' = Returns (∅, e').
Proof.
  apply (unreachable_dead_letters 0 (demo_net false) demo_actor demo_stream [] [] demo_out ∅ demo_engine demo_engine_wf);
    vm_compute; try reflexivity; discriminate.
Defined.

(** A writer without a stream.  With TLS, three failed dials do not lead to the
    shutdown above: the connection variable holds a typed nil, the test for nil
    fails, and setting the deadline panics inside the router.  If instead the
    deadline of an established connection cannot be set, the writer stays
    registered and accepts messages, and the first batch it can pack panics on
    the stream that was never opened. *)
Theorem streamless_writer_panics {conn stream : Type} (fuel : nat) (net : network conn stream) (rp : PID)
    (o : outgoing) (s : streams) (e : Engine) (c : conn) (k : nat)
    (hash : string -> Z) (TypeName : any -> result string) (Serialize : any -> result (option (list byte)))
    (stream_send : stream -> RemoteWire.Envelope -> send_result)
    (msgs : list Envelope) (env : RemoteWire.Envelope)
    (Hwf : wf e) (Hrp : Address rp = address e) (Hm : is_Some (mailbox e (ID rp)))
    (Hs : s !! Address (o_target o) = None)
    (Hfree : registry e !! ID (writer_pid e (Address (o_target o))) = None)
    (Hpack : pack hash TypeName Serialize msgs = Ok env) :
  let addr := Address (o_target o) in
  let wp := writer_pid e addr in
  let deliver tls := router_Receive (S fuel) (start_writer (S fuel) net (Some rp) tls) (Msg (out_env o)) s e in
  (first_dial net = (3%nat, None) -> deliver true = Panics (PVRuntime NilDeref)) /\
  (first_dial net = (k, Some c) -> deadline_ok net c = false -> forall tls,
     exists e' w, deliver tls = Returns (<[addr := wp]> s, e') /\
       mailbox e' (ID wp) = Some [out_env o] /\
       Start (S fuel) net (new_writer e (Some rp) addr tls) e = Returns (backoff k, w, e) /\
       Invoke hash TypeName Serialize stream_send net w msgs = Panic NilDeref).
Proof.
  intros addr wp deliver. fold addr in Hs, Hfree.
  destruct (add_writer e addr Hwf Hfree) as ([(Ha0 & Hr0 & Hes0) Hwf0] & Hw0 & Hm0).
  set (e0 := set_registry _ e) in *. fold wp in Hm0, Hfree, Hw0.
  assert (Hd : forall tls, deliver tls =
    obind (start_writer (S fuel) net (Some rp) tls addr e0) (fun e =>
    obind (Send (S fuel) (Some wp) (Msg (out_env o)) e) (fun e => Returns (<[addr := wp]> s, e)))).
  { intros tls. unfold deliver, router_Receive. cbn [out_env Msg]. unfold deliverStream. fold addr. rewrite Hs.
    unfold SpawnProc, add. cbn [newStreamWriter proc_PID]. fold wp. rewrite Hfree.
    change (set_registry _ e) with e0. by destruct (start_writer _ _ _ _ _ _). }
  split.
  - intros Hdown. rewrite Hd. unfold start_writer, Start, init. rewrite dial_loop_spec, Hdown. done.
  - intros Hup Hbad tls.
    assert (Hstart : start_writer (S fuel) net (Some rp) tls addr e0 = Returns e0).
    { unfold start_writer, Start, init. rewrite dial_loop_spec, Hup. cbn [fst snd SetDeadline]. by rewrite Hbad. }
    destruct (Send_mailbox fuel wp (Msg (out_env o)) e0 Hwf0 (eq_sym Ha0)) as (e1 & Hsend & _ & Hdel);
      [by rewrite Hw0|].
    eexists e1, _. rewrite Hd, Hstart. cbn [obind]. rewrite Hsend. cbn [obind]. split_and!; [done| | |].
    + rewrite (delivers_mail _ _ _ _ _ Hdel), decide_True, Hw0 by done. done.
    + unfold Start, init. rewrite dial_loop_spec, Hup. cbn [fst snd SetDeadline]. by rewrite Hbad.
    + unfold Invoke. rewrite Hpack. done.
Qed.

Lemma streamless_writer_panics_witness :
  let net := mkNetwork (fun i => if (i =? 0)%nat then Some 7%nat else None) (fun _ => false) (fun c => Some c) in
  let addr := "10.0.0.2:4000"%string in
  let deliver tls := router_Receive 1 (start_writer 1 net (Some demo_actor) tls) (Msg (out_env demo_out)) ∅ demo_engine in
  exists e' (w : streamWriter nat nat), deliver false = Returns (<[addr := writer_pid demo_engine addr]> ∅, e') /\
    Invoke demo_hash demo_TypeName demo_Serialize (fun _ _ => SendOk) net w [out_env demo_out] = Panic NilDeref.
Proof.
  intros net addr deliver.
  destruct (pack demo_hash demo_TypeName demo_Serialize [out_env demo_out]) as [env|] eqn:Hp; [|by vm_compute in Hp].
  destruct (proj2 (streamless_writer_panics 0 net demo_actor demo_out ∅ demo_engine 7%nat 0 demo_hash demo_TypeName
    demo_Serialize (fun _ _ => SendOk) [out_env demo_out] env demo_engine_wf eq_refl
    ltac:(eexists; vm_compute; reflexivity) eq_refl ltac:(vm_compute; reflexivity) Hp) eq_refl eq_refl false)
    as (e' & w & H1 & _ & _ & H2).
  by exists e', w.
Defined.
