(* ===== verification/Reconnect.v ===== *)
(** * Losing a connection and coming back ([remote/stream_writer.go],
    [remote/stream_router.go])

    When a connection is lost, the shutdown of its stream writer runs in a goroutine
    of its own, next to the router: it tells the router first, and leaves the
    registry last.  What the router does in between decides whether the address can
    be reached again. *)

From S2P Require Import Prelude Stream Pid Messages Process Engine Router Writer.

(** [streamWriter.Shutdown] up to the message to the router, and the rest of it. *)
Definition shutdown_head {conn stream : Type} (fuel : nat) (w : streamWriter conn stream) (e : Engine) : outcome Engine :=
  Send fuel (routerPID w) (ARemoteUnreachableEvent (writeToAddr w)) e.
Definition shutdown_tail {conn stream : Type} (fuel : nat) (w : streamWriter conn stream) (e : Engine) : outcome Engine :=
  obind (BroadcastEvent fuel (ARemoteUnreachableEvent (writeToAddr w)) e) (fun e => Returns (Remove (sw_pid w) e)).

Lemma Shutdown_two_parts {conn stream : Type} fuel (w : streamWriter conn stream) e :
  obind (Shutdown fuel w e) (fun '(_, e) => Returns e) = obind (shutdown_head fuel w e) (shutdown_tail fuel w).
Proof.
  unfold Shutdown, shutdown_head, shutdown_tail. destruct (Send _ _ _ _) as [e1| | |]; try done. cbn [obind].
  by destruct (BroadcastEvent _ _ _).
Qed.

(** The router has a writer for the address that is not registered. *)
Definition cut_off (addr : string) (s : streams) (e : Engine) : Prop :=
  s !! addr = Some (writer_pid e addr) /\ registry e !! ID (writer_pid e addr) = None.

Section after.
Variable fuel : nat.
Variable start : string -> Engine -> outcome Engine.

(** The dead letter a message becomes there. *)
Definition dead_letter (wp : PID) (o : outgoing) : Envelope := mkEnvelope (ADeadLetterEvent (Some wp) (Msg (out_env o)) None) None.

Lemma deliver_cut_off addr o s e :
  wf e -> Address (o_target o) = addr -> cut_off addr s e ->
  exists e', router_Receive (S fuel) start (Msg (out_env o)) s e = Returns (s, e') /\
    published (ADeadLetterEvent (Some (writer_pid e addr)) (Msg (out_env o)) None) e e' /\ wf_like e e' /\ cut_off addr s e'.
Proof.
  intros Hwf Ho [Hs Hfree]. set (wp := writer_pid e addr) in *.
  pose proof (send_with_arrives false fuel (Some wp) (Msg (out_env o)) None e Hwf) as Hsend.
  unfold destination_of in Hsend. rewrite decide_True, Hfree in Hsend by done. destruct Hsend as (e' & Hsend & Hp).
  pose proof (published_wf _ _ _ Hwf Hp) as Hl. exists e'. split; [|split; [done|split; [done|]]].
  - unfold router_Receive. cbn [out_env Msg]. unfold deliverStream. rewrite Ho, Hs. cbn [obind].
    unfold Send, send. cbn [out_env Msg] in Hsend. by rewrite Hsend.
  - assert (Hwp : writer_pid e' addr = wp) by (unfold wp, writer_pid; by destruct Hl as [(-> & _) _]).
    split; [by rewrite Hwp|]. rewrite Hwp. unfold published in Hp. destruct (eventStream e); [by eapply delivers_absent|by rewrite Hp].
Qed.

(** Once an address is cut off, the router never starts a writer for it again: every
    message for it becomes a dead letter. *)
Lemma cut_off_forever addr es q os s e :
  wf e -> eventStream e = Some es -> mailbox e (ID es) = Some q -> cut_off addr s e ->
  Forall (fun o => Address (o_target o) = addr) os ->
  exists e', route_all (S fuel) start os s e = Returns (s, e') /\ cut_off addr s e' /\
    mailbox e' (ID es) = Some (q ++ (dead_letter (writer_pid e addr) <$> os)).
Proof.
  intros Hwf Hes Hq Hc Hos. revert e q Hwf Hes Hq Hc. induction Hos as [|o os Ho _ IH]; intros e q Hwf Hes Hq Hc.
  { exists e. by rewrite app_nil_r. }
  destruct (deliver_cut_off addr o s e Hwf Ho Hc) as (e1 & H1 & Hp & [(Ha & _ & Hes1) Hwf1] & Hc1).
  destruct (IH e1 (q ++ [dead_letter (writer_pid e addr) o])) as (e2 & H2 & Hc2 & Hq2); [done|congruence| |done|].
  { rewrite (published_mail _ _ _ es (ID es) Hp Hes), decide_True, Hq by done. done. }
  exists e2. cbn [route_all]. rewrite H1. split; [exact H2|]. split; [done|]. rewrite Hq2.
  assert (writer_pid e1 addr = writer_pid e addr) as -> by (unfold writer_pid; by rewrite Ha). by rewrite <-app_assoc.
Qed.
End after.

(** ** The two orders *)

Section orders.
Context {conn stream : Type}.
Variable fuel : nat.
Variable start : string -> Engine -> outcome Engine.
Variables (w : streamWriter conn stream) (rp es : PID) (s : streams) (e : Engine) (qw qs : list Envelope) (o : outgoing).
#[local] Abbreviation addr := (writeToAddr w).
#[local] Abbreviation wp := (writer_pid e (writeToAddr w)).

(** A connected writer, known to the idle router and registered. *)
Record connected : Prop := mkConnected {
  c_wf : wf e;
  c_router : routerPID w = Some rp /\ Address rp = address e /\ mailbox e (ID rp) = Some [];
  c_stream : eventStream e = Some es /\ mailbox e (ID es) = Some qs;
  c_writer : sw_pid w = wp /\ s !! addr = Some wp /\ mailbox e (ID wp) = Some qw;
  c_apart : ID rp <> ID es /\ ID rp <> ID wp /\ ID es <> ID wp;
}.
Hypothesis Hconn : connected.
Hypothesis Ho : Address (o_target o) = addr.

(** The shutdown tells the router, and the router forgets the writer. *)
Lemma told : exists e1 e2, shutdown_head (S fuel) w e = Returns e1 /\ router_step (S fuel) start rp s e1 = Returns (delete addr s, e2) /\
  wf_like e e2 /\ forall id, mailbox e2 id = mailbox e id.
Proof using Hconn.
  destruct Hconn as [Hwf (Hr & Ha & Hqr) _ _ _]. unfold shutdown_head. rewrite Hr.
  destruct (Send_mailbox fuel rp (ARemoteUnreachableEvent addr) e Hwf Ha) as (e1 & H1 & Hl1 & Hd); [by rewrite Hqr|].
  destruct (mailbox_delivers _ _ _ _ _ Hd) as (q & Hq & Hq1). assert (q = []) as -> by congruence.
  destruct (pop_mailbox_ok _ _ _ e1 (proj2 Hl1) Hq1) as (e2 & Hpop & Hl2 & Hq2 & Hother & _).
  exists e1, e2. split; [exact H1|]. unfold router_step. rewrite Hpop. split; [done|]. split; [by eapply wf_like_trans|].
  intros id. destruct (decide (id = ID rp)) as [->|Hne]; [by rewrite Hq2|]. destruct Hd as (_ & Ho1 & _). unfold mailbox. by rewrite Hother, Ho1.
Qed.

(** If it handles a message before the writer has left the registry, the new writer
    finds its id taken, and the message goes to the old one. *)
Lemma overtaken e2 : wf_like e e2 -> (forall id, mailbox e2 id = mailbox e id) ->
  exists e3 e4, Send (S fuel) (Some rp) (Msg (out_env o)) e2 = Returns e3 /\
    router_step (S fuel) start rp (delete addr s) e3 = Returns (s, e4) /\
    wf_like e e4 /\ mailbox e4 (ID wp) = Some (qw ++ [out_env o]) /\
    mailbox e4 (ID es) = Some (qs ++ [mkEnvelope (AActorDuplicateIdEvent wp) None]).
Proof using Hconn Ho.
  intros Hl2 Hm2. destruct Hconn as [Hwf (Hr & Ha & Hqr) (Hes & Hqs) (Hwp & Hs & Hqw) (N1 & N2 & N3)].
  destruct Hl2 as [(Ha2 & Hr2 & Hes2) Hwf2].
  destruct (Send_mailbox fuel rp (Msg (out_env o)) e2 Hwf2) as (e3 & H3 & [(Ha3 & Hr3 & Hes3) Hwf3] & Hd3); [congruence|by rewrite Hm2, Hqr|].
  pose proof (delivers_mail _ _ _ _ (ID rp) Hd3) as Hq3. rewrite decide_True, Hm2, Hqr in Hq3 by done. cbn [fmap option_fmap option_map app] in Hq3.
  destruct (pop_mailbox_ok _ _ _ e3 Hwf3 Hq3) as (f & Hpop & [(Haf & Hrf & Hesf) Hwff] & Hqf & Hotherf & _).
  assert (Hmf : forall id, id <> ID rp -> mailbox f id = mailbox e id).
  { intros id Hn. rewrite <-Hm2.
    pose proof (delivers_mail _ _ _ _ id Hd3) as Hid. rewrite decide_False in Hid by done. rewrite <-Hid. unfold mailbox. by rewrite Hotherf. }
  assert (Hwpf : writer_pid f addr = wp) by (unfold writer_pid; congruence).
  destruct (mailbox_spec f (ID wp) qw (proj1 Hwff)) as (pid & Hlf & _ & _); [by rewrite Hmf|].
  destruct (BroadcastEvent_ok fuel (AActorDuplicateIdEvent wp) f Hwff) as (g & Hg & Hpg).
  destruct (published_wf _ _ _ Hwff Hpg) as [(Hag & Hrg & Hesg) Hwfg].
  assert (Hmg : forall id, mailbox g id = if decide (id = ID es) then (fun q => q ++ [mkEnvelope (AActorDuplicateIdEvent wp) None]) <$> mailbox f id else mailbox f id).
  { intros id. apply (published_mail _ _ _ _ _ Hpg). congruence. }
  destruct (Send_mailbox fuel wp (Msg (out_env o)) g Hwfg) as (e4 & H4 & [(Ha4 & Hr4 & Hes4) Hwf4] & Hd4).
  { cbn [writer_pid NewPID Address]. congruence. }
  { rewrite Hmg, decide_False, Hmf, Hqw by done. by eexists. }
  exists e3, e4. split; [exact H3|]. split; [|split; [split; [unfold same_shape; split_and!; congruence|done]|split]].
  - unfold router_step. rewrite Hpop. unfold router_Receive. cbn [out_env Msg]. unfold deliverStream.
    rewrite Ho, (lookup_delete_eq (M:=gmap string) s addr).
    unfold SpawnProc, add. cbn [newStreamWriter proc_PID]. rewrite Hwpf, Hlf, Hg. cbn [obind]. cbn [out_env Msg] in H4. rewrite H4. cbn [obind].
    do 2 f_equal. by apply (insert_delete_id (M:=gmap string)).
  - rewrite (delivers_mail _ _ _ _ (ID wp) Hd4), decide_True, Hmg, decide_False, Hmf, Hqw by done. done.
  - rewrite (delivers_mail _ _ _ _ (ID es) Hd4), decide_False, Hmg, decide_True, Hmf, Hqs by done. done.
Qed.

(** The writer leaves. *)
Lemma leaves e4 q : wf_like e e4 -> mailbox e4 (ID es) = Some q ->
  exists e5, shutdown_tail (S fuel) w e4 = Returns e5 /\ wf_like e e5 /\ registry e5 !! ID wp = None /\
    mailbox e5 (ID es) = Some (q ++ [mkEnvelope (ARemoteUnreachableEvent addr) None]) /\
    forall id, id <> ID es -> id <> ID wp -> mailbox e5 id = mailbox e4 id.
Proof using Hconn.
  intros Hl4 Hq. destruct Hconn as [Hwf _ (Hes & Hqs) (Hwp & Hs & Hqw) (N1 & N2 & N3)]. pose proof Hl4 as [(Ha4 & Hr4 & Hes4) Hwf4].
  destruct (BroadcastEvent_ok fuel (ARemoteUnreachableEvent addr) e4 Hwf4) as (g & Hg & Hpg).
  pose proof (published_wf _ _ _ Hwf4 Hpg) as Hlg. pose proof Hlg as [(Hag & Hrg & Hesg) Hwfg].
  assert (Hlr : wf_like g (Remove wp g)) by (apply wf_Remove; [done|intros es'; congruence]).
  assert (Hm : forall id, id <> ID wp -> mailbox (Remove wp g) id =
    if decide (id = ID es) then (fun q => q ++ [mkEnvelope (ARemoteUnreachableEvent addr) None]) <$> mailbox e4 id else mailbox e4 id).
  { intros id Hn. rewrite <-(published_mail _ _ _ _ _ Hpg) by congruence. unfold mailbox, Remove. cbn [set_registry registry].
    by rewrite lookup_delete_ne by congruence. }
  exists (Remove wp g). unfold shutdown_tail. rewrite Hg, Hwp. split; [done|].
  split; [eapply wf_like_trans; [exact Hl4|eapply wf_like_trans; [exact Hlg|exact Hlr]]|].
  split; [unfold Remove; cbn [set_registry registry]; by rewrite lookup_delete_eq|].
  split; [by rewrite Hm, decide_True, Hq by done|]. intros id H1 H2. by rewrite Hm, decide_False by done.
Qed.
End orders.

(** Reconnecting.  The shutdown of a writer tells the router, broadcasts, and
    leaves the registry.  If it is through before the router handles the next message
    for the address, that message starts a new writer.  If the router handles one in
    between, the new writer finds its id taken and is not started, the message goes
    into the mailbox of the old one and is lost with it, and the address is cut off:
    the router takes it for connected, and every later message for it becomes a dead
    letter, without another attempt to connect. *)
Theorem reconnect_race {conn stream : Type} (fuel : nat) (start : string -> Engine -> outcome Engine)
    (w : streamWriter conn stream) (rp es : PID) (s : streams) (e : Engine) (qw qs : list Envelope) (o : outgoing)
    (Hconn : connected w rp es s e qw qs) (Ho : Address (o_target o) = writeToAddr w) :
  let addr := writeToAddr w in let wp := writer_pid e addr in let rest := delete addr s : streams in
  exists e1 e2, shutdown_head (S fuel) w e = Returns e1 /\ router_step (S fuel) start rp s e1 = Returns (rest, e2) /\
    (exists e3, shutdown_tail (S fuel) w e2 = Returns e3 /\
       router_Receive (S fuel) start (Msg (out_env o)) rest e3 =
         obind (start addr (set_registry (<[ID wp := PMailbox wp []]> (registry e3)) e3)) (fun e4 =>
         obind (Send (S fuel) (Some wp) (Msg (out_env o)) e4) (fun e5 => Returns (<[addr := wp]> rest, e5)))) /\
    exists e3 e4 e5 q, Send (S fuel) (Some rp) (Msg (out_env o)) e2 = Returns e3 /\
      router_step (S fuel) start rp rest e3 = Returns (s, e4) /\ mailbox e4 (ID wp) = Some (qw ++ [out_env o]) /\
      shutdown_tail (S fuel) w e4 = Returns e5 /\ cut_off addr s e5 /\ mailbox e5 (ID es) = Some q /\
      forall os, Forall (fun o => Address (o_target o) = addr) os ->
        exists e6, route_all (S fuel) start os s e5 = Returns (s, e6) /\ cut_off addr s e6 /\
          mailbox e6 (ID es) = Some (q ++ (dead_letter wp <$> os)).
Proof.
  intros addr wp rest. destruct (told fuel start w rp es s e qw qs Hconn) as (e1 & e2 & H1 & H2 & Hl2 & Hm2).
  assert (Hqs : mailbox e (ID es) = Some qs) by apply Hconn.
  assert (Hwp : forall e', wf_like e e' -> writer_pid e' addr = wp) by (intros e' [(Ha & _) _]; unfold wp, writer_pid; by rewrite Ha).
  exists e1, e2. split; [exact H1|]. split; [exact H2|]. split.
  - destruct (leaves fuel w rp es s e qw qs Hconn e2 qs Hl2) as (e3 & H3 & Hl3 & Hfree & _); [by rewrite Hm2|].
    exists e3. split; [exact H3|]. unfold router_Receive. cbn [out_env Msg]. unfold deliverStream. unfold rest.
    rewrite Ho, (lookup_delete_eq (M:=gmap string) s addr). unfold SpawnProc, add. cbn [newStreamWriter proc_PID]. fold addr.
    rewrite (Hwp e3 Hl3). change (registry e3 !! ID wp = None) in Hfree. rewrite Hfree. unfold newStreamWriter. rewrite (Hwp e3 Hl3). by destruct (start addr _).
  - destruct (overtaken fuel start w rp es s e qw qs o Hconn Ho e2 Hl2 Hm2) as (e3 & e4 & H3 & H4 & Hl4 & Hqw4 & Hqs4).
    destruct (leaves fuel w rp es s e qw qs Hconn e4 _ Hl4 Hqs4) as (e5 & H5 & Hl5 & Hfree & Hq5 & _).
    assert (Hcut : cut_off addr s e5).
    { split; rewrite (Hwp e5 Hl5); [apply Hconn|exact Hfree]. }
    eexists e3, e4, e5, _. do 4 (split; [done|]). split; [exact Hcut|]. split; [exact Hq5|]. intros os Hos.
    rewrite <-(Hwp e5 Hl5). apply cut_off_forever; [apply Hl5| |exact Hq5|exact Hcut|exact Hos].
    destruct Hl5 as [(_ & _ & ->) _]. apply Hconn.
Qed.

(** The demo engine with a connected writer. *)
Definition demo_connected : Engine :=
  set_registry (<["stream/10.0.0.2:4000" := PMailbox (writer_pid demo_engine "10.0.0.2:4000") []]> (registry demo_engine)) demo_engine.
Definition demo_lost : streamWriter nat nat := new_writer demo_connected (Some demo_actor) "10.0.0.2:4000" false.
Definition demo_routes : streams := {["10.0.0.2:4000" := writer_pid demo_engine "10.0.0.2:4000"]}.

Lemma demo_lost_connected : connected demo_lost demo_actor demo_stream demo_routes demo_connected [] [].
Proof.
  split.
  - destruct (add_writer demo_engine "10.0.0.2:4000" demo_engine_wf) as ([_ Hwf] & _); [vm_compute; reflexivity|exact Hwf].
  - vm_compute. done.
  - vm_compute. done.
  - vm_compute. done.
  - vm_compute. done.
Qed.

Lemma reconnect_race_witness :
  exists e3 e4 e5, Send 1 (Some demo_actor) (Msg (out_env demo_out)) e3 = Returns e4 /\
    cut_off "10.0.0.2:4000" demo_routes e5 /\
    exists e6, route_all 1 (fun _ => Returns) [demo_out; demo_out] demo_routes e5 = Returns (demo_routes, e6).
Proof.
  destruct (reconnect_race 0 (fun _ => Returns) demo_lost demo_actor demo_stream demo_routes demo_connected [] [] demo_out
    demo_lost_connected eq_refl) as (e2 & e3 & _ & _ & _ & e4 & e4a & e5 & q & H1 & _ & _ & _ & Hcut & _ & Hos).
  destruct (Hos [demo_out; demo_out]) as (e6 & H6 & _); [by repeat constructor|].
  exists e3, e4, e5. split; [exact H1|]. split; [exact Hcut|]. by exists e6.
Defined.
