(* ===== verification/Links.v ===== *)
(** * The connections of a node, under any interleaving
    ([remote/stream_router.go], [remote/stream_writer.go])

    The router, the stream writers of all addresses and the goroutines that shut
    them down, as a step relation over the engine they run on.  Every step is a call
    of the code of [Router], [Writer] and [Reconnect]; the router handles a message
    in one step, and the network of each dial is chosen by the step, with or without
    TLS.  What an address goes through refines an automaton of eight phases with two
    dead ends: [Cut], where the race of [Reconnect] leads, and [Mute], a writer whose
    connection would not take a deadline, so that it has no stream.  (The first
    message a mute writer takes makes it panic in [Invoke], which ends the program,
    and so does what follows a TLS dial that fails, a panic inside the router; see
    [Writer.streamless_writer_panics].  Runs end there: the dial makes no step, and
    what a writer does with a message it takes is in [Writer].) *)

From S2P Require Import Prelude Stream Pid Messages Process Engine Router Writer Reconnect.

(** How a dial ends: with a stream, without one, with the shutdown of the writer, or
    with a panic. *)
Inductive dialled := Connected | Muted | Gone | Crashed.
#[export] Instance dialled_eq_dec : EqDecision dialled.
Proof. solve_decision. Defined.

Section links.
Context {conn stream : Type}.
Variable fuel : nat.
(** The router's PID, and that of the event stream. *)
Variables rp es : PID.
(** Whether the engine has a TLS configuration, and the networks a dial may meet. *)
Variable tls : bool.
Variable nets : network conn stream -> Prop.

(** The engine, the table of the router, the writers whose goroutine waits for
    [conn.Closed()], and those in [Shutdown] that have told the router. *)
Record node := mkNode {
  eng : Engine;
  routes : streams;
  connections : list (streamWriter conn stream);
  leaving : list (streamWriter conn stream);
}.

Definition set_eng e n := mkNode e (routes n) (connections n) (leaving n).

#[local] Abbreviation start net := (start_writer (S fuel) net (Some rp) tls).

(** The writer whose goroutine the handling of [env] leaves behind: one that was
    started and came to the end of [init]. *)
Definition opened (net : network conn stream) (env : Envelope) (s : streams) (e : Engine)
  : list (streamWriter conn stream) :=
  match Msg env with
  | AStreamDeliver _ (Some target) _ _ =>
      let addr := Address target in
      match s !! addr, registry e !! ID (writer_pid e addr) with
      | None, None =>
          let e0 := set_registry (<[ID (writer_pid e addr) := newStreamWriter e addr]> (registry e)) e in
          match Start (S fuel) net (new_writer e0 (Some rp) addr tls) e0 with
          | Returns (_, w, _) => match sw_stream w with Some _ => [w] | None => [] end
          | _ => []
          end
      | _, _ => []
      end
  | _ => []
  end.

(** A dial can meet a connection that takes no deadline. *)
Definition can_mute : Prop := exists net c, nets net /\ deadline_ok net c = false.

Definition dials (net : network conn stream) : dialled :=
  match (first_dial net).2 with
  | None => if tls then Crashed else Gone
  | Some c => if deadline_ok net c then match open_stream net c with Some _ => Connected | None => Gone end else Muted
  end.

Inductive kstep : node -> node -> Prop :=
  (** [Remote.Send] *)
  | k_send o n e : Send (S fuel) (Some rp) (Msg (out_env o)) (eng n) = Returns e -> kstep n (set_eng e n)
  (** the router handles its next message *)
  | k_router net n env e s' e' : nets net -> pop_mailbox (ID rp) (eng n) = Some (env, e) ->
      router_Receive (S fuel) (start net) (Msg env) (routes n) e = Returns (s', e') ->
      kstep n (mkNode e' s' (opened net env (routes n) e ++ connections n) (leaving n))
  (** a connection is lost: [Shutdown] tells the router *)
  | k_lost l1 w l2 n e : connections n = l1 ++ w :: l2 -> shutdown_head (S fuel) w (eng n) = Returns e ->
      kstep n (mkNode e (routes n) (l1 ++ l2) (w :: leaving n))
  (** and leaves the registry *)
  | k_left l1 w l2 n e : leaving n = l1 ++ w :: l2 -> shutdown_tail (S fuel) w (eng n) = Returns e ->
      kstep n (mkNode e (routes n) (connections n) (l1 ++ l2))
  (** another process takes a message *)
  | k_other id env n e : id <> ID rp -> pop_mailbox id (eng n) = Some (env, e) -> kstep n (set_eng e n).

(** ** What an address goes through *)

Inductive phase :=
  | Idle      (** unknown to the router, nobody registered *)
  | Up        (** known, registered, its goroutine waits for the connection to close *)
  | Told      (** in [Shutdown]: the router has been told and has not listened yet *)
  | Left      (** the writer has gone, the router has not listened yet *)
  | Forgot    (** the router has listened, the writer is still registered *)
  | Taken     (** the router has taken the dying writer for a new one *)
  | Mute      (** known and registered, without a stream *)
  | Cut       (** known, with nobody there *).

(** [mute] says whether there are connections that take no deadline. *)
Inductive pstep (mute : Prop) : phase -> phase -> Prop :=
  | p_dial : pstep mute Idle Up
  | p_dial_fails : pstep mute Idle Left
  | p_dial_mute : mute -> pstep mute Idle Mute
  | p_lost : pstep mute Up Told
  | p_listen : pstep mute Told Forgot
  | p_leave_first : pstep mute Told Left
  | p_listen_late : pstep mute Left Idle
  | p_leave : pstep mute Forgot Idle
  | p_overtake : pstep mute Forgot Taken
  | p_cut : pstep mute Taken Cut.

(** Whether the router knows the address, whether its writer is registered, how
    many goroutines wait for its connection and are leaving, and how many
    messages wait to tell the router. *)
Record view_t := mkView { known : bool; registered : bool; live : nat; dying : nat; told : nat }.

Definition tells (a : string) (env : Envelope) : bool :=
  match Msg env with ARemoteUnreachableEvent b => bool_decide (b = a) | _ => false end.
Definition times (a : string) (ws : list (streamWriter conn stream)) : nat :=
  length (List.filter (fun w => bool_decide (writeToAddr w = a)) ws).
Definition told_in (a : string) (e : Engine) : nat :=
  length (List.filter (tells a) (default [] (mailbox e (ID rp)))).
Definition present (a : string) (e : Engine) : bool :=
  bool_decide (is_Some (mailbox e (ID (writer_pid e a)))).

Definition view (a : string) (n : node) : view_t :=
  mkView (bool_decide (is_Some (routes n !! a))) (present a (eng n))
    (times a (connections n)) (times a (leaving n)) (told_in a (eng n)).

Definition of_phase (ph : phase) : view_t :=
  match ph with
  | Idle => mkView false false 0 0 0
  | Up => mkView true true 1 0 0
  | Told => mkView true true 0 1 1
  | Left => mkView true false 0 0 1
  | Forgot => mkView false true 0 1 0
  | Taken => mkView true true 0 1 0
  | Mute => mkView true true 0 0 0
  | Cut => mkView true false 0 0 0
  end%nat.
End links.

Arguments node : clear implicits.

(** ** Engine steps that keep everybody registered *)

Section calm.
Variables rp es : PID.

Definition writer_id (a : string) : string := ("stream" +:+ "/" +:+ a)%string.

(** Everybody stays registered, nobody is added, and the mailboxes but those of
    [ids] stay as they are. *)
Record calm (ids : list string) (e e' : Engine) : Prop := {
  calm_like : wf_like e e';
  calm_some id : is_Some (mailbox e' id) <-> is_Some (mailbox e id);
  calm_none id : registry e !! id = None -> registry e' !! id = None;
  calm_mail id : id ∉ ids -> mailbox e' id = mailbox e id;
}.

Lemma calm_trans ids1 ids2 e1 e2 e3 : calm ids1 e1 e2 -> calm ids2 e2 e3 -> calm (ids1 ++ ids2) e1 e3.
Proof.
  intros [L1 S1 N1 M1] [L2 S2 N2 M2]. split.
  - by eapply wf_like_trans.
  - intros id. by rewrite S2, S1.
  - auto.
  - intros id [? ?]%not_elem_of_app. by rewrite M2, M1.
Qed.

Lemma delivers_calm id env e e' : wf e -> delivers false id env e e' -> calm [id] e e'.
Proof.
  intros Hwf Hd. split.
  - by eapply delivers_wf.
  - intros id'. rewrite (delivers_mail _ _ _ _ id' Hd). case_decide; [|done]. by rewrite fmap_is_Some.
  - intros id'. by apply (delivers_absent _ _ _ _ _ _ Hd).
  - intros id' Hn. rewrite (delivers_mail _ _ _ _ id' Hd), decide_False; [done|]. set_solver.
Qed.

Lemma published_calm m e e' : wf e -> eventStream e = Some es -> published m e e' -> calm [ID es] e e'.
Proof. intros Hwf Hes Hp. unfold published in Hp. rewrite Hes in Hp. by eapply delivers_calm. Qed.

Lemma broadcast_calm fuel m e : wf e -> eventStream e = Some es ->
  exists e', BroadcastEvent (S fuel) m e = Returns e' /\ calm [ID es] e e'.
Proof.
  intros Hwf Hes. destruct (BroadcastEvent_ok fuel m e Hwf) as (e' & H & Hp).
  exists e'. split; [done|]. by eapply published_calm.
Qed.

Lemma pop_calm id env e e' : wf e -> pop_mailbox id e = Some (env, e') ->
  calm [id] e e' /\ exists q, mailbox e id = Some (env :: q) /\ mailbox e' id = Some q.
Proof.
  intros Hwf Hpop. assert (Hq : exists q, mailbox e id = Some (env :: q)).
  { unfold pop_mailbox in Hpop. unfold mailbox. destruct (registry e !! id) as [[pid [|env' q]|]|]; try done.
    injection Hpop as -> _. by exists q. }
  destruct Hq as [q Hq]. destruct (pop_mailbox_ok id env q e Hwf Hq) as (e1 & H1 & Hl & Hq1 & Hother & _).
  rewrite Hpop in H1. injection H1 as <-. split; [|by eauto].
  assert (Hm : forall id', id' <> id -> mailbox e' id' = mailbox e id') by (intros id' Hn; unfold mailbox; by rewrite Hother).
  split; [done| | |].
  - intros id'. destruct (decide (id' = id)) as [->|Hn]; [|by rewrite Hm]. rewrite Hq, Hq1. split; eauto.
  - intros id' Hn. rewrite Hother; [done|]. intros ->. unfold mailbox in Hq. by rewrite Hn in Hq.
  - intros id' Hn. apply Hm. set_solver.
Qed.

(** What becomes of a message to the writer of [a], whose mailbox was [before]: it
    is appended, or it is a dead letter if there is none. *)
Definition fate (a : string) (m : any) (before : option (list Envelope)) (e' : Engine) : Prop :=
  mailbox e' (writer_id a) = (fun q => q ++ [mkEnvelope m None]) <$> before /\
  (before = None -> exists q, mailbox e' (ID es) =
     Some (q ++ [mkEnvelope (ADeadLetterEvent (Some (writer_pid e' a)) m None) None])).

(** A message to a writer, registered or not, ends up in its mailbox or with the
    event stream. *)
Lemma writer_send_calm fuel a m e : wf e -> eventStream e = Some es -> ID es <> writer_id a ->
  (registry e !! writer_id a = None \/ is_Some (mailbox e (writer_id a))) ->
  exists e', Send (S fuel) (Some (writer_pid e a)) m e = Returns e' /\ calm [writer_id a; ID es] e e' /\
    fate a m (mailbox e (writer_id a)) e'.
Proof.
  intros Hwf Hes Hne Hr. pose proof (send_with_arrives false fuel (Some (writer_pid e a)) m None e Hwf) as Hs.
  unfold destination_of in Hs. rewrite decide_True in Hs by done.
  change (ID (writer_pid e a)) with (writer_id a) in Hs.
  assert (Hmono : forall ids e', calm ids e e' -> (forall id, id ∈ ids -> id ∈ [writer_id a; ID es]) -> calm [writer_id a; ID es] e e').
  { intros ids e' [L S N M] Hi. split; [done..|]. intros id Hn. apply M. intros Hin. by apply Hn, Hi. }
  destruct Hr as [Hn|[q Hq]].
  - rewrite Hn in Hs. destruct Hs as (e' & H1 & Hp). exists e'. split; [exact H1|].
    assert (C : calm [ID es] e e') by by eapply published_calm.
    split; [eapply Hmono; [exact C|set_solver]|].
    assert (Hm : mailbox e (writer_id a) = None) by (unfold mailbox; by rewrite Hn). rewrite Hm. split.
    + rewrite (calm_mail _ _ _ C), Hm; [done|]. set_solver.
    + intros _. destruct (proj2 Hwf es Hes) as [_ [q Hq]]. exists q. rewrite (published_mail _ _ _ _ _ Hp Hes), decide_True, Hq by done.
      cbn. do 5 f_equal. unfold writer_pid. by destruct C as [[(-> & _) _] _ _ _].
  - pose proof Hq as Hm. unfold mailbox in Hq. destruct (registry e !! writer_id a) as [[pid q'|]|]; try done.
    destruct Hs as (e' & H1 & Hd). exists e'. split; [exact H1|]. split; [eapply Hmono; [by eapply delivers_calm|set_solver]|].
    split; [by rewrite (delivers_mail _ _ _ _ _ Hd), decide_True|]. by rewrite Hm.
Qed.
End calm.

(** ** What a step does to the engine *)

Section effects.
Context {conn stream : Type}.
Variable fuel : nat.
Variables rp es : PID.
Variable tls : bool.
Hypothesis Hapart : ID rp <> ID es /\ forall a, ID rp <> writer_id a /\ ID es <> writer_id a.
Implicit Types (n : node conn stream) (net : network conn stream) (w : streamWriter conn stream).

#[local] Abbreviation start net := (start_writer (S fuel) net (Some rp) tls).

(** Nothing but a writer is registered under a writer's id. *)
Definition kind (a : string) (e : Engine) : Prop :=
  is_Some (mailbox e (writer_id a)) \/ registry e !! writer_id a = None.

Record sound (e : Engine) : Prop := {
  s_wf : wf e;
  s_router : Address rp = address e /\ is_Some (mailbox e (ID rp));
  s_stream : eventStream e = Some es;
  s_kind a : kind a e;
}.

(** The writer of [b] is registered afterwards or not, the others as before, and
    the router gets [more]. *)
Record effect (b : string) (pres : bool) (more : list Envelope) (e e' : Engine) : Prop := {
  f_sound : sound e';
  f_address : address e' = address e;
  f_here : present b e' = pres;
  f_there a : a <> b -> present a e' = present a e;
  f_router : mailbox e' (ID rp) = (fun q => q ++ more) <$> mailbox e (ID rp);
}.

Lemma present_iff a e e' :
  (is_Some (mailbox e' (writer_id a)) <-> is_Some (mailbox e (writer_id a))) -> present a e' = present a e.
Proof. intros H. unfold present. by apply bool_decide_ext. Qed.

Lemma calm_sound ids e e' : calm ids e e' -> sound e -> sound e'.
Proof.
  intros [[(Ha & _ & He) Hwf] S N M] [Hw [Hr Hq] Hs K]. split; [done| |congruence|].
  - split; [congruence|]. by apply S.
  - intros a. destruct (K a) as [H|H]; [left; by apply S|right; by apply N].
Qed.

Lemma calm_effect_but b ids e e' : calm ids e e' -> sound e ->
  sound e' /\ address e' = address e /\ present b e' = present b e /\ forall a, a <> b -> present a e' = present a e.
Proof.
  intros C S. split; [by eapply calm_sound|]. destruct C as [[(Ha & _) _] Hs _ _].
  split; [done|]. split; [apply present_iff, Hs|]. intros a _. apply present_iff, Hs.
Qed.

Lemma calm_effect b ids e e' : calm ids e e' -> sound e -> ID rp ∉ ids -> effect b (present b e) [] e e'.
Proof.
  intros C S Hn. destruct (calm_effect_but b _ _ _ C S) as (S' & A' & P' & T'). split; [done..|].
  rewrite (calm_mail _ _ _ C) by done. destruct (mailbox e (ID rp)); simpl; by rewrite ?app_nil_r.
Qed.

(** The writers' ids and the event stream's are not the router's. *)
Lemma router_apart b : ID rp ∉ [writer_id b; ID es].
Proof using Hapart.
  destruct Hapart as [H1 H2]. destruct (H2 b) as [H3 _]. intros [H|[H|[]%elem_of_nil]%elem_of_cons]%elem_of_cons; congruence.
Qed.

Lemma effect_trans b p1 p2 m1 m2 e1 e2 e3 :
  effect b p1 m1 e1 e2 -> effect b p2 m2 e2 e3 -> effect b p2 (m1 ++ m2) e1 e3.
Proof.
  intros [_ A1 _ T1 R1] [S2 A2 H2 T2 R2]. split; [done|congruence|done| |].
  - intros a Hn. by rewrite T2, T1.
  - rewrite R2, R1. destruct (mailbox e1 (ID rp)); simpl; by rewrite ?app_assoc.
Qed.

(** Telling the router. *)
Lemma tell_effect b env e e' : sound e -> delivers false (ID rp) env e e' -> effect b (present b e) [env] e e'.
Proof using Hapart.
  intros S Hd. pose proof (delivers_calm _ _ _ _ (s_wf _ S) Hd) as C.
  destruct (calm_effect_but b _ _ _ C S) as (S' & A' & P' & T'). split; [done..|].
  by rewrite (delivers_mail _ _ _ _ _ Hd), decide_True.
Qed.

Lemma send_router_effect b m e : sound e ->
  exists e', Send (S fuel) (Some rp) m e = Returns e' /\ effect b (present b e) [mkEnvelope m None] e e'.
Proof using Hapart.
  intros S. destruct (s_router _ S) as [Ha Hq].
  destruct (Send_mailbox fuel rp m e (s_wf _ S) Ha Hq) as (e' & H & _ & Hd).
  exists e'. split; [done|]. by apply tell_effect.
Qed.

(** A writer leaves the registry. *)
Lemma remove_effect b e : sound e -> effect b false [] e (Remove (writer_pid e b) e).
Proof using Hapart.
  intros [Hwf [Ha Hq] Hes K]. destruct Hapart as [_ Hap]. destruct (Hap b) as [Hb1 Hb2].
  assert (Hm : forall id, id <> writer_id b -> mailbox (Remove (writer_pid e b) e) id = mailbox e id).
  { intros id Hn. unfold mailbox, Remove. cbn [set_registry registry]. rewrite lookup_delete_ne; [done|].
    change (ID (writer_pid e b)) with (writer_id b). congruence. }
  assert (Hb : registry (Remove (writer_pid e b) e) !! writer_id b = None).
  { unfold Remove. cbn [set_registry registry]. apply lookup_delete_eq. }
  assert (Hinj : forall a, a <> b -> writer_id a <> writer_id b) by (intros a Hn Heq; by apply Hn, (writer_id_inj e)).
  destruct (wf_Remove (writer_pid e b) e Hwf) as [_ Hwf'].
  { intros es' He. rewrite Hes in He. injection He as <-. intros Heq. by apply Hb2. }
  split; [|done| | |].
  - split; [done|split; [done|]; by rewrite Hm|done|]. intros a. destruct (decide (a = b)) as [->|Hn]; [by right|].
    destruct (K a) as [H|H]; [left; by rewrite Hm by by apply Hinj|right].
    unfold Remove. cbn [set_registry registry]. rewrite lookup_delete_ne; [done|]. intros Heq. by apply (Hinj a Hn).
  - apply bool_decide_eq_false. unfold mailbox. change (ID (writer_pid _ b)) with (writer_id b). rewrite Hb. by intros [? ?].
  - intros a Hn. apply present_iff. by rewrite Hm by by apply Hinj.
  - rewrite Hm by congruence. destruct (mailbox e (ID rp)); simpl; by rewrite ?app_nil_r.
Qed.

Lemma head_effect w e : sound e -> routerPID w = Some rp ->
  exists e', shutdown_head (S fuel) w e = Returns e' /\
    effect (writeToAddr w) (present (writeToAddr w) e) [mkEnvelope (ARemoteUnreachableEvent (writeToAddr w)) None] e e'.
Proof using Hapart. intros S Hr. unfold shutdown_head. rewrite Hr. by apply send_router_effect. Qed.

Lemma tail_effect w e : sound e -> sw_pid w = writer_pid e (writeToAddr w) ->
  exists e', shutdown_tail (S fuel) w e = Returns e' /\ effect (writeToAddr w) false [] e e'.
Proof using Hapart.
  intros S Hp. unfold shutdown_tail.
  destruct (broadcast_calm es fuel (ARemoteUnreachableEvent (writeToAddr w)) e (s_wf _ S) (s_stream _ S)) as (e1 & -> & C).
  cbn [obind]. eexists. split; [done|]. rewrite Hp.
  assert (writer_pid e (writeToAddr w) = writer_pid e1 (writeToAddr w)) as ->.
  { unfold writer_pid. by destruct C as [[(-> & _) _] _ _ _]. }
  eapply (effect_trans _ (present (writeToAddr w) e) _ [] []).
  - eapply calm_effect; [exact C|done|]. apply not_elem_of_cons. split; [apply Hapart|apply not_elem_of_nil].
  - apply remove_effect. by eapply calm_sound.
Qed.

(** A writer of this node. *)
Definition belongs (e : Engine) w : Prop := routerPID w = Some rp /\ sw_pid w = writer_pid e (writeToAddr w).

(** A writer that shuts down while it starts. *)
Lemma gone_effect w e w' e' : sound e -> belongs e w -> gone w rp e w' e' ->
  effect (writeToAddr w) false [mkEnvelope (ARemoteUnreachableEvent (writeToAddr w)) None] e e'.
Proof using Hapart.
  intros S [_ Hp] (_ & _ & e1 & e2 & Hd & Hpub & ->).
  pose proof (tell_effect (writeToAddr w) _ _ _ S Hd) as E1. pose proof (f_sound _ _ _ _ _ E1) as S1.
  pose proof (published_calm es _ _ _ (s_wf _ S1) (s_stream _ S1) Hpub) as C.
  assert (E2 : effect (writeToAddr w) (present (writeToAddr w) e1) [] e1 e2).
  { eapply calm_effect; [exact C|done|]. apply not_elem_of_cons. split; [apply Hapart|apply not_elem_of_nil]. }
  pose proof (effect_trans _ _ _ _ _ _ _ _ E1 E2) as E12. cbn [app] in E12.
  assert (writer_pid e (writeToAddr w) = writer_pid e2 (writeToAddr w)) as Heq.
  { unfold writer_pid. by rewrite (f_address _ _ _ _ _ E12). }
  rewrite Hp, Heq. apply (effect_trans _ _ _ _ [] _ _ _ E12). apply remove_effect, (f_sound _ _ _ _ _ E12).
Qed.

(** A dialled writer is registered. *)
Lemma insert_effect b e : sound e -> registry e !! writer_id b = None ->
  effect b true [] e (set_registry (<[ID (writer_pid e b) := newStreamWriter e b]> (registry e)) e).
Proof using Hapart.
  intros [Hwf [Ha Hq] Hes K] Hfree. destruct Hapart as [_ Hap]. destruct (Hap b) as [Hb1 Hb2].
  destruct (add_writer e b Hwf Hfree) as ([_ Hwf'] & Hnew & Hm). set (e0 := set_registry _ e) in *.
  assert (Hinj : forall a, a <> b -> writer_id a <> writer_id b) by (intros a Hn Heq; by apply Hn, (writer_id_inj e)).
  split; [|done| | |].
  - split; [done|split; [done|]; by rewrite Hm|done|]. intros a. destruct (decide (a = b)) as [->|Hn]; [left; by eexists|].
    destruct (K a) as [H|H]; [left; by rewrite Hm by by apply Hinj|right].
    unfold e0. cbn [set_registry registry]. rewrite lookup_insert_ne; [done|]. intros Heq. by apply (Hinj a Hn).
  - apply bool_decide_eq_true. by eexists.
  - intros a Hn. apply present_iff. by rewrite Hm by by apply Hinj.
  - rewrite Hm by done. destruct (mailbox e (ID rp)); simpl; by rewrite ?app_nil_r.
Qed.

(** ** What the router does with a message *)

(** A writer keeps its address and its PIDs, and has a stream afterwards if it got
    one. *)
Definition same_writer w w' : Prop :=
  writeToAddr w' = writeToAddr w /\ routerPID w' = routerPID w /\ sw_pid w' = sw_pid w.

Lemma Shutdown_same w e w' e' : Shutdown (S fuel) w e = Returns (w', e') -> same_writer w w' /\ sw_stream w' = sw_stream w.
Proof.
  unfold Shutdown. destruct (Send _ _ _ _); try done. cbn [obind].
  destruct (BroadcastEvent _ _ _); try done. by intros [= <- <-].
Qed.

Lemma Start_same net w e ds w' e' : sw_stream w = None -> Start (S fuel) net w e = Returns (ds, w', e') ->
  same_writer w w' /\
  match dials (tlsConfig w) net with Connected => is_Some (sw_stream w') | _ => sw_stream w' = None end.
Proof.
  intros Hst. unfold Start, init, dials. rewrite dial_loop_spec. cbn [start_inbox tlsConfig].
  assert (Hshut : forall (v : streamWriter conn stream) (slept : list Z), same_writer w v -> sw_stream v = None ->
    obind (Shutdown (S fuel) v e) (fun '(w, e) => Returns (slept, w, e)) = Returns (ds, w', e') ->
    same_writer w w' /\ sw_stream w' = None).
  { intros v slept (V1 & V2 & V3) Hv. destruct (Shutdown (S fuel) v e) as [[w1 e1]| | |] eqn:Hs; try done. intros [= <- <- <-].
    destruct (Shutdown_same _ _ _ _ Hs) as [(U1 & U2 & U3) U4]. unfold same_writer. split_and!; congruence. }
  destruct (first_dial net) as [k [c|]]; cbn [fst snd]; [|by destruct (tlsConfig w); cbn [failed_dial]; [|apply Hshut]].
  cbn [SetDeadline]. destruct (deadline_ok net c); [|by intros [= <- <- <-]]. destruct (open_stream net c) as [st|] eqn:Ho.
  - intros [= <- <- <-]. by split; [|eexists].
  - by apply Hshut.
Qed.

(** Starting a writer that was just registered. *)
Lemma start_effect net b e : sound e -> present b e = true ->
  let w := new_writer e (Some rp) b tls in
  match dials tls net with
  | Crashed => Start (S fuel) net w e = Panics (PVRuntime NilDeref)
  | how => exists ds w' e', Start (S fuel) net w e = Returns (ds, w', e') /\ belongs e w' /\ writeToAddr w' = b /\
      match how with
      | Connected => is_Some (sw_stream w') /\ e' = e
      | Muted => sw_stream w' = None /\ e' = e
      | _ => sw_stream w' = None /\ effect b false [mkEnvelope (ARemoteUnreachableEvent b) None] e e'
      end
  end.
Proof using Hapart.
  intros S Hpr w. destruct (s_router _ S) as [Ha Hq].
  pose proof (Start_started fuel net w rp e (s_wf _ S) eq_refl Ha Hq eq_refl) as Hst.
  assert (Hb : belongs e w) by done.
  assert (Hrest : forall ds w' e', Start (Datatypes.S fuel) net w e = Returns (ds, w', e') ->
    belongs e w' /\ writeToAddr w' = b /\ match dials tls net with Connected => is_Some (sw_stream w') | _ => sw_stream w' = None end).
  { intros ds w' e' Hs. destruct (Start_same net w e ds w' e' eq_refl Hs) as [(W1 & W2 & W3) Hw].
    split; [unfold belongs; rewrite W1, W2, W3; exact Hb|]. by split. }
  assert (Hshut : forall k, (exists w' e', Start (Datatypes.S fuel) net w e = Returns (backoff k, w', e') /\ gone w rp e w' e') ->
    dials tls net = Gone -> exists ds w' e', Start (Datatypes.S fuel) net w e = Returns (ds, w', e') /\ belongs e w' /\ writeToAddr w' = b /\
      sw_stream w' = None /\ effect b false [mkEnvelope (ARemoteUnreachableEvent b) None] e e').
  { intros k (w' & e' & Hs & Hg) Hd. exists (backoff k), w', e'. split; [done|].
    destruct (Hrest _ _ _ Hs) as (H1 & H2 & H3). rewrite Hd in H3. split_and!; [done..|]. exact (gone_effect w _ _ _ S Hb Hg). }
  unfold started_as in Hst. unfold dials in *. destruct (first_dial net) as [k [c|]]; cbn [snd] in *.
  - destruct (deadline_ok net c).
    + destruct (open_stream net c) as [st|].
      * destruct Hst as (w' & Hs & _). exists (backoff k), w', e. split; [done|]. by destruct (Hrest _ _ _ Hs) as (H1 & H2 & H3).
      * by apply (Hshut k).
    + destruct Hst as (w' & Hs & _). exists (backoff k), w', e. split; [done|]. by destruct (Hrest _ _ _ Hs) as (H1 & H2 & H3).
  - cbn [new_writer tlsConfig w] in Hst. destruct tls; [done|by apply (Hshut 3%nat)].
Qed.

Lemma present_kind b e : sound e ->
  if present b e then is_Some (mailbox e (writer_id b)) else registry e !! writer_id b = None.
Proof.
  intros S. unfold present. change (ID (writer_pid e b)) with (writer_id b).
  case_bool_decide as Hp; [done|]. by destruct (s_kind _ S b).
Qed.

(** What remains of a delivery once the writer is known. *)
Lemma forward_effect b m e : sound e ->
  exists e', Send (S fuel) (Some (writer_pid e b)) m e = Returns e' /\ effect b (present b e) [] e e' /\
    fate es b m (mailbox e (writer_id b)) e'.
Proof using Hapart.
  intros S. destruct (writer_send_calm es fuel b m e (s_wf _ S) (s_stream _ S)) as (e' & H & C & F).
  { apply Hapart. }
  { destruct (s_kind _ S b); [by right|by left]. }
  exists e'. split; [done|]. split; [|exact F]. eapply calm_effect; [exact C|done|apply router_apart].
Qed.

Lemma deliver_known net sender t m prio s e :
  sound e -> s !! Address t = Some (writer_pid e (Address t)) ->
  exists e', router_Receive (S fuel) (start net) (AStreamDeliver sender (Some t) m prio) s e = Returns (s, e') /\
    effect (Address t) (present (Address t) e) [] e e' /\
    opened fuel rp tls net (mkEnvelope (AStreamDeliver sender (Some t) m prio) None) s e = [] /\
    fate es (Address t) (AStreamDeliver sender (Some t) m prio) (mailbox e (writer_id (Address t))) e'.
Proof using Hapart.
  intros S Hs. destruct (forward_effect (Address t) (AStreamDeliver sender (Some t) m prio) e S) as (e' & H & E & F).
  exists e'. cbn [router_Receive]. unfold deliverStream, opened. cbn [Msg]. rewrite Hs. cbn [obind]. by rewrite H.
Qed.

Lemma deliver_taken net sender t m prio s e :
  sound e -> s !! Address t = None -> present (Address t) e = true ->
  exists e', router_Receive (S fuel) (start net) (AStreamDeliver sender (Some t) m prio) s e =
      Returns (<[Address t := writer_pid e (Address t)]> s, e') /\
    effect (Address t) true [] e e' /\
    opened fuel rp tls net (mkEnvelope (AStreamDeliver sender (Some t) m prio) None) s e = [] /\
    fate es (Address t) (AStreamDeliver sender (Some t) m prio) (mailbox e (writer_id (Address t))) e'.
Proof using Hapart.
  intros S Hs Hp. set (b := Address t) in *. pose proof (present_kind b e S) as Hk. rewrite Hp in Hk. destruct Hk as [q Hq].
  destruct (mailbox_spec e (writer_id b) q (proj1 (s_wf _ S)) Hq) as (pid & Hl & _).
  destruct (broadcast_calm es fuel (AActorDuplicateIdEvent (writer_pid e b)) e (s_wf _ S) (s_stream _ S)) as (e1 & H1 & C).
  assert (E1 : effect b (present b e) [] e e1).
  { eapply calm_effect; [exact C|done|]. apply not_elem_of_cons. split; [apply Hapart|apply not_elem_of_nil]. }
  assert (Hwp : writer_pid e1 b = writer_pid e b) by (unfold writer_pid; by rewrite (f_address _ _ _ _ _ E1)).
  destruct (forward_effect b (AStreamDeliver sender (Some t) m prio) e1 (f_sound _ _ _ _ _ E1)) as (e2 & H2 & E2 & F).
  pose proof (effect_trans _ _ _ _ _ _ _ _ E1 E2) as E. rewrite (f_here _ _ _ _ _ E1), Hp in E.
  rewrite (calm_mail _ _ _ C) in F by (destruct (proj2 Hapart b); set_solver).
  exists e2. cbn [router_Receive]. unfold deliverStream, opened. cbn [Msg]. fold b. rewrite Hs.
  unfold SpawnProc, add. cbn [newStreamWriter proc_PID]. change (ID (writer_pid e b)) with (writer_id b). rewrite Hl, H1.
  cbn [obind]. rewrite <-Hwp, H2. done.
Qed.

(** The message finds a mailbox. *)
Definition boxed (how : dialled) : option (list Envelope) :=
  match how with Connected | Muted => Some [] | _ => None end.

Lemma deliver_new net sender t m prio s e :
  sound e -> s !! Address t = None -> present (Address t) e = false ->
  let received := router_Receive (S fuel) (start net) (AStreamDeliver sender (Some t) m prio) s e in
  let op := opened fuel rp tls net (mkEnvelope (AStreamDeliver sender (Some t) m prio) None) s e in
  if decide (dials tls net = Crashed) then received = Panics (PVRuntime NilDeref)
  else exists e', received = Returns (<[Address t := writer_pid e (Address t)]> s, e') /\
    fate es (Address t) (AStreamDeliver sender (Some t) m prio) (boxed (dials tls net)) e' /\
    match dials tls net with
    | Connected => effect (Address t) true [] e e' /\ exists w, op = [w] /\ belongs e w /\ writeToAddr w = Address t
    | Muted => effect (Address t) true [] e e' /\ op = []
    | _ => effect (Address t) false [mkEnvelope (ARemoteUnreachableEvent (Address t)) None] e e' /\ op = []
    end.
Proof using Hapart.
  intros S Hs Hp received op. set (b := Address t) in *. pose proof (present_kind b e S) as Hk. rewrite Hp in Hk.
  pose proof (insert_effect b e S Hk) as E0. set (e0 := set_registry _ e) in E0.
  pose proof (start_effect net b e0 (f_sound _ _ _ _ _ E0) (f_here _ _ _ _ _ E0)) as Hst. cbv zeta in Hst.
  assert (Hrec : received = obind (start net b e0) (fun e =>
    obind (Send (Datatypes.S fuel) (Some (writer_pid e0 b)) (AStreamDeliver sender (Some t) m prio) e) (fun e => Returns (<[b := writer_pid e0 b]> s, e)))).
  { unfold received. cbn [router_Receive]. unfold deliverStream. fold b. rewrite Hs. unfold SpawnProc, add. cbn [newStreamWriter proc_PID].
    change (ID (writer_pid e b)) with (writer_id b). rewrite Hk.
    change (set_registry (<[writer_id b := newStreamWriter e b]> (registry e)) e) with e0. by destruct (start net b e0). }
  case_decide as Hcr.
  { rewrite Hrec. rewrite Hcr in Hst. unfold start_writer. by rewrite Hst. }
  assert (Hret : exists ds w e1, Start (Datatypes.S fuel) net (new_writer e0 (Some rp) b tls) e0 = Returns (ds, w, e1) /\
    belongs e0 w /\ writeToAddr w = b /\ exists pres more, effect b pres more e e1 /\ mailbox e1 (writer_id b) = boxed (dials tls net) /\
    match dials tls net with
    | Connected => pres = true /\ more = [] /\ is_Some (sw_stream w)
    | Muted => pres = true /\ more = [] /\ sw_stream w = None
    | _ => pres = false /\ more = [mkEnvelope (ARemoteUnreachableEvent b) None] /\ sw_stream w = None
    end).
  { assert (Hm0 : mailbox e0 (writer_id b) = Some []).
    { unfold mailbox, e0. cbn [set_registry registry]. change (ID (writer_pid e b)) with (writer_id b). by rewrite lookup_insert_eq. }
    destruct (dials tls net); [| | |done]; destruct Hst as (ds & w & e1 & H1 & H2 & H3 & H4 & H5); exists ds, w, e1; (split; [done|]);
      (split; [done|]); (split; [done|]).
    1, 2: rewrite H5; exists true, []; by split_and!.
    eexists _, _. split; [exact (effect_trans _ _ _ _ _ _ _ _ E0 H5)|]. split; [|done].
    pose proof (f_here _ _ _ _ _ H5) as Hg. apply bool_decide_eq_false in Hg. by apply eq_None_not_Some. }
  destruct Hret as (ds & w & e1 & Hstart & Hb & Hw & pres & more & E1 & Hm1 & Hpm).
  assert (Hwp : writer_pid e1 b = writer_pid e b) by (unfold writer_pid; by rewrite (f_address _ _ _ _ _ E1)).
  destruct (forward_effect b (AStreamDeliver sender (Some t) m prio) e1 (f_sound _ _ _ _ _ E1)) as (e2 & H2 & E2 & F).
  pose proof (effect_trans _ _ _ _ _ _ _ _ E1 E2) as E. rewrite (f_here _ _ _ _ _ E1), app_nil_r in E. rewrite Hm1 in F.
  exists e2. split.
  - rewrite Hrec. unfold start_writer. rewrite Hstart. cbn [obind]. change (writer_pid e0 b) with (writer_pid e b). by rewrite <-Hwp, H2.
  - split; [exact F|].
    assert (Hop : op = match sw_stream w with Some _ => [w] | None => [] end).
    { unfold op, opened. cbn [Msg]. fold b. rewrite Hs. change (ID (writer_pid e b)) with (writer_id b). rewrite Hk.
      change (set_registry (<[writer_id b := newStreamWriter e b]> (registry e)) e) with e0. by rewrite Hstart. }
    rewrite Hop. destruct (dials tls net); [| | |done]; destruct Hpm as (-> & -> & Hpm); [|by rewrite Hpm..].
    destruct Hpm as [st ->]. split; [done|]. exists w. split; [done|]. split; [|done].
    unfold belongs, writer_pid in *. by rewrite (f_address _ _ _ _ _ E0) in Hb.
Qed.
End effects.

(** ** The refinement *)

Section refinement.
Context {conn stream : Type}.
Variable fuel : nat.
Variables rp es : PID.
Variable tls : bool.
Variable nets : network conn stream -> Prop.
Hypothesis Hapart : ID rp <> ID es /\ forall a, ID rp <> writer_id a /\ ID es <> writer_id a.
Implicit Types (n : node conn stream) (net : network conn stream) (w : streamWriter conn stream).

#[local] Abbreviation pstep := (pstep (can_mute nets)).
#[local] Abbreviation view := (view rp).
#[local] Abbreviation told_in := (told_in rp).
#[local] Abbreviation kstep := (kstep fuel rp tls nets).
#[local] Abbreviation effect := (effect rp es).

Record sane n : Prop := {
  n_sound : sound rp es (eng n);
  n_routes a p : routes n !! a = Some p -> p = writer_pid (eng n) a;
  n_writers : Forall (belongs rp (eng n)) (connections n ++ leaving n);
}.

Definition tellings (a : string) (q : list Envelope) : nat := length (List.filter (tells a) q).

Lemma tellings_app a q1 q2 : tellings a (q1 ++ q2) = (tellings a q1 + tellings a q2)%nat.
Proof. unfold tellings. by rewrite List.filter_app, length_app. Qed.

Lemma tellings_tell a b : tellings a [mkEnvelope (ARemoteUnreachableEvent b) None] = if decide (b = a) then 1%nat else 0%nat.
Proof. unfold tellings. cbn. case_bool_decide as H; by case_decide. Qed.

Lemma effect_told a b pres more e e' : sound rp es e -> effect b pres more e e' ->
  told_in a e' = (told_in a e + tellings a more)%nat.
Proof.
  intros [_ [_ [q Hq]] _ _] E. unfold Links.told_in. rewrite (f_router _ _ _ _ _ _ _ E), Hq. cbn [fmap option_fmap option_map default id].
  apply tellings_app.
Qed.

Lemma effect_present a b pres more e e' : effect b pres more e e' ->
  present a e' = if decide (a = b) then pres else present a e.
Proof. intros E. case_decide as Ha; [subst; apply E|by apply E]. Qed.

Lemma effect_belongs b pres more e e' (ws : list (streamWriter conn stream)) : effect b pres more e e' -> Forall (belongs rp e) ws -> Forall (belongs rp e') ws.
Proof.
  intros E F. eapply Forall_impl; [exact F|]. intros w. unfold belongs, writer_pid. by rewrite (f_address _ _ _ _ _ _ _ E).
Qed.

Lemma effect_pid b pres more e e' a : effect b pres more e e' -> writer_pid e' a = writer_pid e a.
Proof. intros E. unfold writer_pid. by rewrite (f_address _ _ _ _ _ _ _ E). Qed.

Lemma times_middle a ws1 w ws2 : times a (ws1 ++ w :: ws2) = ((if decide (writeToAddr w = a) then 1 else 0) + times a (ws1 ++ ws2))%nat.
Proof.
  unfold times. rewrite !List.filter_app, !length_app. cbn [List.filter].
  case_bool_decide as H; case_decide; try done; cbn [length]; lia.
Qed.

Lemma times_cons a w ws : times a (w :: ws) = ((if decide (writeToAddr w = a) then 1 else 0) + times a ws)%nat.
Proof. apply (times_middle a [] w ws). Qed.

Lemma popped env e e' : sound rp es e -> pop_mailbox (ID rp) e = Some (env, e') ->
  sound rp es e' /\ address e' = address e /\ (forall a, present a e' = present a e) /\
  forall a, told_in a e = ((if tells a env then 1 else 0) + told_in a e')%nat.
Proof.
  intros S Hp. destruct (pop_calm _ _ _ _ (s_wf _ _ _ S) Hp) as [C (q & Hq & Hq')].
  destruct (calm_effect_but rp es "" _ _ _ C S) as (S' & A' & _). split; [done|]. split; [done|]. split.
  - intros a. apply present_iff, C.
  - intros a. unfold Links.told_in. rewrite Hq, Hq'. cbn. by destruct (tells a env).
Qed.

(** One step moves every address by at most one step of the automaton. *)
Definition moves n n' : Prop := forall a ph, view a n = of_phase ph ->
  exists ph', view a n' = of_phase ph' /\ (ph' = ph \/ pstep ph ph').

Lemma moves_same n n' : (forall a, view a n' = view a n) -> moves n n'.
Proof. intros H a ph Hv. exists ph. rewrite H. by split; [|left]. Qed.

(** A step that acts on one address, the way [t] says. *)
Lemma moves_at b (t : view_t -> view_t) n n' :
  (forall a, view a n' = if decide (a = b) then t (view a n) else view a n) ->
  (forall ph, view b n = of_phase ph -> exists ph', t (of_phase ph) = of_phase ph' /\ (ph' = ph \/ pstep ph ph')) ->
  moves n n'.
Proof.
  intros Hv Ht a ph Ha. rewrite Hv, Ha. case_decide as Hab; [subst; by apply Ht|]. exists ph. by split; [|left].
Qed.

(** What the steps do to the view of their address. *)
Definition t_lost v := mkView (known v) (registered v) (pred (live v)) (Datatypes.S (dying v)) (Datatypes.S (told v)).
Definition t_left v := mkView (known v) false (live v) (pred (dying v)) (told v).
Definition t_listen v := mkView false (registered v) (live v) (dying v) (pred (told v)).
Definition t_dial (how : dialled) v :=
  match how with
  | Connected => mkView true true (Datatypes.S (live v)) (dying v) (told v)
  | Muted => mkView true true (live v) (dying v) (told v)
  | _ => mkView true false (live v) (dying v) (Datatypes.S (told v))
  end.
Definition t_take v := mkView true true (live v) (dying v) (told v).

Ltac to_phase ph := exists ph; split; [done|by (left + (right; constructor; eauto))].
Ltac phases := match goal with ph : phase |- _ => destruct ph end; cbn in *; try lia; try done;
  first [to_phase Idle|to_phase Up|to_phase Told|to_phase Left|to_phase Forgot|to_phase Taken|to_phase Mute|to_phase Cut].

Lemma phase_lost ph : (0 < live (of_phase ph))%nat -> exists ph', t_lost (of_phase ph) = of_phase ph' /\ (ph' = ph \/ pstep ph ph').
Proof. intros H. phases. Qed.
Lemma phase_left ph : (0 < dying (of_phase ph))%nat -> exists ph', t_left (of_phase ph) = of_phase ph' /\ (ph' = ph \/ pstep ph ph').
Proof. intros H. phases. Qed.
Lemma phase_listen ph : (0 < told (of_phase ph))%nat -> exists ph', t_listen (of_phase ph) = of_phase ph' /\ (ph' = ph \/ pstep ph ph').
Proof. intros H. phases. Qed.
Lemma phase_dial net ph : nets net -> known (of_phase ph) = false -> registered (of_phase ph) = false ->
  exists ph', t_dial (dials tls net) (of_phase ph) = of_phase ph' /\ (ph' = ph \/ pstep ph ph').
Proof.
  intros Hn H1 H2. assert (Hmute : dials tls net = Muted -> can_mute nets).
  { unfold dials. destruct (first_dial net).2 as [c|]; [|by destruct tls]. destruct (deadline_ok net c) eqn:Ed; [|by exists net, c].
    by destruct (open_stream net c). }
  destruct (dials tls net); try specialize (Hmute eq_refl); phases.
Qed.
Lemma phase_take ph : known (of_phase ph) = false -> registered (of_phase ph) = true ->
  exists ph', t_take (of_phase ph) = of_phase ph' /\ (ph' = ph \/ pstep ph ph').
Proof. intros H1 H2. phases. Qed.

(** *** The steps *)

Lemma send_step_ok o n e : sane n -> Send (S fuel) (Some rp) (Msg (out_env o)) (eng n) = Returns e ->
  sane (set_eng e n) /\ moves n (set_eng e n).
Proof using Hapart.
  intros [S R W] Hs. destruct (send_router_effect fuel rp es Hapart "" (Msg (out_env o)) (eng n) S) as (e' & Hs' & E).
  rewrite Hs in Hs'. injection Hs' as <-. split; [split; cbn|].
  - apply E.
  - intros a p Hp. rewrite (effect_pid _ _ _ _ _ _ E). by apply R.
  - by eapply effect_belongs.
  - apply moves_same. intros a. unfold Links.view. cbn.
    rewrite (effect_told _ _ _ _ _ _ S E), (effect_present _ _ _ _ _ _ E). cbn. rewrite Nat.add_0_r. by case_decide; subst.
Qed.

Lemma other_step_ok id env n e : sane n -> id <> ID rp -> pop_mailbox id (eng n) = Some (env, e) ->
  sane (set_eng e n) /\ moves n (set_eng e n).
Proof using Hapart.
  intros [S R W] Hid Hp. destruct (pop_calm _ _ _ _ (s_wf _ _ _ S) Hp) as [C _].
  assert (E : effect "" (present "" (eng n)) [] (eng n) e) by (eapply calm_effect; [exact C|done|set_solver]).
  split; [split; cbn|].
  - apply E.
  - intros a p Hr. rewrite (effect_pid _ _ _ _ _ _ E). by apply R.
  - by eapply effect_belongs.
  - apply moves_same. intros a. unfold Links.view. cbn.
    rewrite (effect_told _ _ _ _ _ _ S E), (effect_present _ _ _ _ _ _ E). cbn. rewrite Nat.add_0_r. by case_decide; subst.
Qed.

Lemma writers_middle (P : streamWriter conn stream -> Prop) l1 w l2 ws :
  Forall P ((l1 ++ w :: l2) ++ ws) -> P w /\ Forall P ((l1 ++ l2) ++ ws).
Proof. rewrite !Forall_app, Forall_cons. tauto. Qed.

Lemma view_live a n : live (view a n) = times a (connections n).
Proof. done. Qed.
Lemma view_dying a n : dying (view a n) = times a (leaving n).
Proof. done. Qed.

Lemma lost_step_ok l1 w l2 n e : sane n -> connections n = l1 ++ w :: l2 ->
  shutdown_head (S fuel) w (eng n) = Returns e ->
  let n' := mkNode e (routes n) (l1 ++ l2) (w :: leaving n) in sane n' /\ moves n n'.
Proof using Hapart.
  intros [S R W] Hc Hs n'. rewrite Hc in W. destruct (writers_middle _ _ _ _ _ W) as [Hw W'].
  destruct (head_effect fuel rp es Hapart w (eng n) S (proj1 Hw)) as (e' & Hs' & E).
  rewrite Hs in Hs'. injection Hs' as <-. split; [split; cbn|].
  - apply E.
  - intros a p Hr. rewrite (effect_pid _ _ _ _ _ _ E). by apply R.
  - eapply effect_belongs; [exact E|]. apply Forall_app in W' as [W1 W2]. apply Forall_app. by split; [|constructor].
  - apply (moves_at (writeToAddr w) t_lost).
    + intros a. unfold Links.view, t_lost, n'. cbn [eng routes connections leaving known registered live dying told].
      rewrite (effect_told _ _ _ _ _ _ S E), (effect_present _ _ _ _ _ _ E), tellings_tell, Hc, times_middle, times_cons.
      case_decide; repeat case_decide; subst; try done; f_equal; cbn; lia.
    + intros ph Hv. apply phase_lost. rewrite <-Hv, view_live, Hc, times_middle, decide_True by done. lia.
Qed.

Lemma left_step_ok l1 w l2 n e : sane n -> leaving n = l1 ++ w :: l2 ->
  shutdown_tail (S fuel) w (eng n) = Returns e ->
  let n' := mkNode e (routes n) (connections n) (l1 ++ l2) in sane n' /\ moves n n'.
Proof using Hapart.
  intros [S R W] Hc Hs n'. rewrite Hc, (comm (++)) in W. destruct (writers_middle _ _ _ _ _ W) as [Hw W'].
  destruct (tail_effect fuel rp es Hapart w (eng n) S (proj2 Hw)) as (e' & Hs' & E).
  rewrite Hs in Hs'. injection Hs' as <-. split; [split; cbn|].
  - apply E.
  - intros a p Hr. rewrite (effect_pid _ _ _ _ _ _ E). by apply R.
  - eapply effect_belongs; [exact E|]. by rewrite (comm (++)).
  - apply (moves_at (writeToAddr w) t_left).
    + intros a. unfold Links.view, t_left, n'. cbn [eng routes connections leaving known registered live dying told].
      rewrite (effect_told _ _ _ _ _ _ S E), (effect_present _ _ _ _ _ _ E), Hc, times_middle. cbn.
      case_decide; repeat case_decide; subst; try done; f_equal; cbn; lia.
    + intros ph Hv. apply phase_left. rewrite <-Hv, view_dying, Hc, times_middle, decide_True by done. lia.
Qed.

(** *** The router *)

#[local] Abbreviation start net := (start_writer (Datatypes.S fuel) net (Some rp) tls).
#[local] Abbreviation opened := (opened fuel rp tls).

(** The node once the router has taken [env] from its mailbox. *)
Lemma popped_node env n e : sane n -> pop_mailbox (ID rp) (eng n) = Some (env, e) ->
  sane (set_eng e n) /\ (forall a, view a n =
    let v := view a (set_eng e n) in
    mkView (known v) (registered v) (live v) (dying v) ((if tells a env then 1 else 0) + told v)).
Proof.
  intros [S R W] Hp. destruct (popped env _ e S Hp) as (S' & A & P & T). split; [split; cbn; [done| |]|].
  - intros a p Hr. unfold writer_pid. rewrite A. by apply R.
  - eapply Forall_impl; [exact W|]. intros w. unfold belongs, writer_pid. by rewrite A.
  - intros a. unfold Links.view; cbn. by rewrite P, T.
Qed.

(** A message that is not from a writer and leaves table and engine alone. *)
Lemma listen_ok b sd n e : sane n -> pop_mailbox (ID rp) (eng n) = Some (mkEnvelope (ARemoteUnreachableEvent b) sd, e) ->
  let n' := mkNode e (delete b (routes n)) (connections n) (leaving n) in sane n' /\ moves n n'.
Proof.
  intros Hsane Hp n'. destruct (popped_node _ n e Hsane Hp) as [[S' R' W'] V]. split; [split; cbn; [done| |done]|].
  - intros a p [_ Hr]%lookup_delete_Some. by apply R'.
  - apply (moves_at b t_listen).
    + intros a. rewrite V. unfold Links.view, t_listen, n'. cbn [set_eng eng routes connections leaving known registered live dying told].
      unfold tells; cbn [Msg]. destruct (decide (a = b)) as [->|Hn].
      * rewrite (lookup_delete_eq (M:=gmap string) (routes n) b), (bool_decide_true (b = b)) by done. done.
      * rewrite (lookup_delete_ne (M:=gmap string) (routes n) b a), (bool_decide_false (b = a)) by congruence. done.
    + intros ph Hv. apply phase_listen. rewrite <-Hv, V. unfold tells; cbn [Msg told]. rewrite bool_decide_true by done. lia.
Qed.

(** The node after a delivery. *)
Lemma delivered_ok b (t : view_t -> view_t) pres more ops n e s' :
  sane n -> effect b pres more (eng n) e -> Forall (belongs rp (eng n)) ops -> s' = <[b := writer_pid (eng n) b]> (routes n) ->
  let n' := mkNode e s' (ops ++ connections n) (leaving n) in
  (forall a, view a n' = if decide (a = b) then t (view a n) else view a n) ->
  (forall ph, view b n = of_phase ph -> exists ph', t (of_phase ph) = of_phase ph' /\ (ph' = ph \/ pstep ph ph')) ->
  sane n' /\ moves n n'.
Proof.
  intros [S R W] E Ho -> n' Hv Hph. split; [split; cbn|by apply (moves_at b t)].
  - apply E.
  - intros a p. rewrite (effect_pid _ _ _ _ _ _ E). intros [[<- <-]|[_ Hr]]%(lookup_insert_Some (M:=gmap string)); [done|by apply R].
  - eapply effect_belongs; [exact E|]. rewrite <-(assoc (++)). by apply Forall_app.
Qed.

Lemma known_insert (s : streams) a b p :
  bool_decide (is_Some ((<[b := p]> s : streams) !! a)) = if decide (a = b) then true else bool_decide (is_Some (s !! a)).
Proof.
  case_decide as Hab; [subst; rewrite (lookup_insert_eq (M:=gmap string) s b p); by apply bool_decide_true|].
  by rewrite (lookup_insert_ne (M:=gmap string) s b a p) by congruence.
Qed.

Lemma deliver_ok net sender t m prio sd n s' e' : nets net -> sane n ->
  router_Receive (Datatypes.S fuel) (start net) (AStreamDeliver sender (Some t) m prio) (routes n) (eng n) = Returns (s', e') ->
  let n' := mkNode e' s' (opened net (mkEnvelope (AStreamDeliver sender (Some t) m prio) sd) (routes n) (eng n) ++ connections n) (leaving n) in
  sane n' /\ moves n n'.
Proof using Hapart.
  intros Hn Hsane Hrec. pose proof Hsane as [S R W]. set (b := Address t) in *.
  change (opened net (mkEnvelope (AStreamDeliver sender (Some t) m prio) sd)) with
    (opened net (mkEnvelope (AStreamDeliver sender (Some t) m prio) None)).
  destruct (routes n !! b) as [p|] eqn:Hl; [|destruct (present b (eng n)) eqn:Hp].
  - assert (p = writer_pid (eng n) b) as -> by by apply R.
    destruct (deliver_known fuel rp es tls Hapart net sender t m prio (routes n) (eng n) S Hl) as (e1 & H1 & E & -> & _).
    rewrite Hrec in H1. injection H1 as -> ->. fold b in E.
    eapply (delivered_ok b id _ _ [] n e1); [done|exact E|constructor|symmetry; by apply (insert_id (M:=gmap string) (routes n) b)| |].
    + intros a. unfold Links.view. cbn [eng routes connections leaving app].
      rewrite (effect_told _ _ _ _ _ _ S E), (effect_present _ _ _ _ _ _ E), Nat.add_0_r. by case_decide; subst.
    + intros ph _. exists ph. by split; [|left].
  - destruct (deliver_taken fuel rp es tls Hapart net sender t m prio (routes n) (eng n) S Hl Hp) as (e1 & H1 & E & -> & _).
    rewrite Hrec in H1. injection H1 as -> ->. fold b in E.
    eapply (delivered_ok b t_take _ _ [] n e1); [done|exact E|constructor|done| |].
    + intros a. unfold Links.view, t_take. cbn [eng routes connections leaving app known registered live dying told].
      rewrite (effect_told _ _ _ _ _ _ S E), (effect_present _ _ _ _ _ _ E), Nat.add_0_r. rewrite known_insert. fold b. by case_decide; subst.
    + intros ph Hv. apply phase_take; rewrite <-Hv; cbn; [by rewrite Hl|done].
  - pose proof (deliver_new fuel rp es tls Hapart net sender t m prio (routes n) (eng n) S Hl Hp) as Hd. cbv zeta in Hd.
    rewrite Hrec in Hd. case_decide as Hcr; [done|]. destruct Hd as (e1 & H1 & _ & Hc). injection H1 as -> ->. fold b in Hc.
    assert (Hdial : forall ph, view b n = of_phase ph ->
      exists ph', t_dial (dials tls net) (of_phase ph) = of_phase ph' /\ (ph' = ph \/ pstep ph ph')).
    { intros ph Hv. apply phase_dial; [done|rewrite <-Hv; cbn; by rewrite Hl|by rewrite <-Hv]. }
    destruct (dials tls net); [destruct Hc as (E & w & -> & Hw & Hwa)|destruct Hc as (E & ->)..|done].
    + eapply (delivered_ok b (t_dial Connected) _ _ [w] n e1); [done|exact E|by constructor|done| |done].
      intros a. unfold Links.view, t_dial. cbn [eng routes connections leaving app known registered live dying told].
      rewrite (effect_told _ _ _ _ _ _ S E), (effect_present _ _ _ _ _ _ E), Nat.add_0_r, known_insert, times_cons, Hwa. fold b.
      case_decide; case_decide; subst; try done.
    + eapply (delivered_ok b (t_dial Muted) _ _ [] n e1); [done|exact E|constructor|done| |done].
      intros a. unfold Links.view, t_dial. cbn [eng routes connections leaving app known registered live dying told].
      rewrite (effect_told _ _ _ _ _ _ S E), (effect_present _ _ _ _ _ _ E), Nat.add_0_r, known_insert. fold b. by case_decide; subst.
    + eapply (delivered_ok b (t_dial Gone) _ _ [] n e1); [done|exact E|constructor|done| |done].
      intros a. unfold Links.view, t_dial. cbn [eng routes connections leaving app known registered live dying told].
      rewrite (effect_told _ _ _ _ _ _ S E), (effect_present _ _ _ _ _ _ E), known_insert, tellings_tell. fold b.
      case_decide; case_decide; subst; try done; f_equal; lia.
Qed.

Lemma router_step_ok net env n e s' e' : nets net -> sane n -> pop_mailbox (ID rp) (eng n) = Some (env, e) ->
  router_Receive (Datatypes.S fuel) (start net) (Msg env) (routes n) e = Returns (s', e') ->
  let n' := mkNode e' s' (opened net env (routes n) e ++ connections n) (leaving n) in sane n' /\ moves n n'.
Proof using Hapart.
  intros Hdl Hsane Hp Hrec n'. destruct (popped_node env n e Hsane Hp) as [Hs V].
  assert (Hother : sane n' /\ moves (set_eng e n) n' -> (forall a, tells a env = false) -> sane n' /\ moves n n').
  { intros [H1 H2] Ht. split; [done|]. intros a ph Hv. apply H2. rewrite <-Hv, V, Ht. done. }
  assert (Hstay : Returns (routes n, e) = Returns (s', e') -> opened net env (routes n) e = [] ->
    (forall a, tells a env = false) -> sane n' /\ moves n n').
  { intros [= <- <-] Ho Ht. apply Hother; [|done]. unfold n'. rewrite Ho. split; [exact Hs|by apply moves_same]. }
  destruct env as [msg sd]. cbn [Msg] in Hrec. unfold tells in Hstay, Hother. cbn [Msg] in Hstay, Hother.
  destruct msg as [| | | | | | | | | | | | | | |addr| |sender [t|] m prio]; try (by apply Hstay).
  - cbn [router_Receive] in Hrec. injection Hrec as <- <-. exact (listen_ok addr sd n e Hsane Hp).
  - apply Hother; [|done]. exact (deliver_ok net sender t m prio sd (set_eng e n) s' e' Hdl Hs Hrec).
Qed.

Lemma kstep_ok n n' : sane n -> kstep n n' -> sane n' /\ moves n n'.
Proof using Hapart.
  intros Hsane Hs. destruct Hs as [o n e Hs|net n env e s' e' Hdl Hp Hs|l1 w l2 n e Hc Hs|l1 w l2 n e Hc Hs|id env n e Hid Hp].
  - by eapply send_step_ok.
  - by eapply router_step_ok.
  - by eapply lost_step_ok.
  - by eapply left_step_ok.
  - by eapply other_step_ok.
Qed.

Definition phased n : Prop := forall a, exists ph, view a n = of_phase ph /\ (ph = Mute -> can_mute nets).

Lemma ksteps_ok n n' : sane n -> phased n -> rtc kstep n n' -> sane n' /\ phased n'.
Proof using Hapart.
  intros Hs Hp Hr. revert Hs Hp. induction Hr as [n|n1 n2 n3 Hst _ IH]; intros Hs Hp; [done|].
  destruct (kstep_ok n1 n2 Hs Hst) as [Hs2 Hm]. apply IH; [done|]. intros a. destruct (Hp a) as (ph & Hv & Hmute).
  destruct (Hm a ph Hv) as (ph' & Hv' & Hph). exists ph'. split; [done|]. intros ->.
  destruct Hph as [<-|Hph]; [by apply Hmute|by inversion Hph].
Qed.

Lemma of_phase_inj ph ph' : of_phase ph = of_phase ph' -> ph = ph'.
Proof. by destruct ph, ph'. Qed.

(** No way leads out of [Cut]. *)
Lemma cut_stays a n n' : sane n -> view a n = of_phase Cut -> rtc kstep n n' -> sane n' /\ view a n' = of_phase Cut.
Proof using Hapart.
  intros Hs Hv Hr. revert Hs Hv. induction Hr as [n|n1 n2 n3 Hst _ IH]; intros Hs Hv; [done|].
  destruct (kstep_ok n1 n2 Hs Hst) as [Hs2 Hm]. apply IH; [done|].
  destruct (Hm a Cut Hv) as (ph' & Hv' & [->|Hp]); [done|inversion Hp].
Qed.

Lemma cut_is_off a n : sane n -> view a n = of_phase Cut -> cut_off a (routes n) (eng n).
Proof.
  intros [S R _] [= Hk Hp _ _ _]. split.
  - apply bool_decide_eq_true in Hk as [p Hk]. by rewrite (R a p Hk) in Hk.
  - pose proof (present_kind rp es a (eng n) S) as H. by rewrite Hp in H.
Qed.
End refinement.

(** ** Replaying a schedule *)

Inductive kact :=
  | KSend (o : outgoing)     (** [Remote.Send] *)
  | KRouter (net : network nat nat)   (** the router handles a message; the network *)
  | KLost (i : nat)          (** the [i]-th connection is lost *)
  | KLeft (i : nat)          (** the [i]-th leaving writer leaves *).

Section replay.
Variable rp : PID.
Variable tls : bool.
#[local] Abbreviation node := (node nat nat).
#[local] Abbreviation any_net := (fun _ : network nat nat => True).

Definition exec_kact (x : kact) (n : node) : option node :=
  match x with
  | KSend o =>
      match Send 1 (Some rp) (Msg (out_env o)) (eng n) with Returns e => Some (set_eng e n) | _ => None end
  | KRouter net =>
      '(env, e) ← pop_mailbox (ID rp) (eng n);
      match router_Receive 1 (start_writer 1 net (Some rp) tls) (Msg env) (routes n) e with
      | Returns (s', e') => Some (mkNode e' s' (opened 0 rp tls net env (routes n) e ++ connections n) (leaving n))
      | _ => None
      end
  | KLost i =>
      w ← connections n !! i;
      match shutdown_head 1 w (eng n) with
      | Returns e => Some (mkNode e (routes n) (take i (connections n) ++ drop (S i) (connections n)) (w :: leaving n))
      | _ => None
      end
  | KLeft i =>
      w ← leaving n !! i;
      match shutdown_tail 1 w (eng n) with
      | Returns e => Some (mkNode e (routes n) (connections n) (take i (leaving n) ++ drop (S i) (leaving n)))
      | _ => None
      end
  end.

Definition exec_kacts (xs : list kact) (n : node) : option node := foldl (fun on x => on ≫= exec_kact x) (Some n) xs.

Lemma exec_kact_sound x n n' : exec_kact x n = Some n' -> kstep 0 rp tls any_net n n'.
Proof.
  destruct x as [o|net|i|i]; cbn [exec_kact].
  - destruct (Send 1 _ _ _) as [e| | |] eqn:Hs; try done. intros [= <-]. by eapply k_send.
  - destruct (pop_mailbox _ _) as [[env e]|] eqn:Hp; [|done]. cbn [mbind option_bind].
    destruct (router_Receive 1 _ _ _ _) as [[s' e']| | |] eqn:Hr; try done. intros [= <-].
    by apply (k_router 0 rp tls any_net net).
  - destruct (connections n !! i) as [w|] eqn:Hi; [|done]. cbn [mbind option_bind].
    destruct (shutdown_head 1 _ _) as [e| | |] eqn:Hs; try done. intros [= <-].
    eapply k_lost; [|exact Hs]. symmetry. by apply take_drop_middle.
  - destruct (leaving n !! i) as [w|] eqn:Hi; [|done]. cbn [mbind option_bind].
    destruct (shutdown_tail 1 _ _) as [e| | |] eqn:Hs; try done. intros [= <-].
    eapply k_left; [|exact Hs]. symmetry. by apply take_drop_middle.
Qed.

Lemma exec_kacts_sound xs n n' : exec_kacts xs n = Some n' -> rtc (kstep 0 rp tls any_net) n n'.
Proof.
  unfold exec_kacts. revert n n'. induction xs as [|x xs IH] using rev_ind; intros n n'.
  { intros [= <-]. reflexivity. }
  rewrite foldl_app; cbn [foldl]. destruct (foldl _ (Some n) xs) as [n1|] eqn:H1; [|done].
  intros Hx. eapply rtc_r; [by apply IH|by eapply exec_kact_sound].
Qed.
End replay.

(** The demo engine, whose demo actor stands for the router. *)
Definition demo_node : node nat nat := mkNode demo_engine ∅ [] [].
Definition run_links (xs : list kact) : option (node nat nat) := exec_kacts demo_actor false xs demo_node.
Definition up : kact := KRouter (demo_net true).

Definition demo_addr : string := Address (o_target demo_out).

(** Up, lost and up again; and the race that cuts the address off. *)
Definition sched_again : list kact :=
  [KSend demo_out; up; KLost 0; up; KLeft 0; KSend demo_out; up].
Definition sched_race : list kact :=
  [KSend demo_out; up; KLost 0; KSend demo_out; up; up; KLeft 0].

(** ** Correctness of the connections of a node *)

(** A node before its first message: no writer is registered, and the router has
    been told nothing. *)
Record fresh (rp es : PID) (e : Engine) : Prop := {
  fr_wf : wf e;
  fr_router : Address rp = address e /\ is_Some (mailbox e (ID rp));
  fr_stream : eventStream e = Some es;
  fr_apart : ID rp <> ID es /\ forall a, ID rp <> writer_id a /\ ID es <> writer_id a;
  fr_writers a : registry e !! writer_id a = None;
  fr_told a : told_in rp a e = 0%nat;
}.

Lemma fresh_node {conn stream : Type} rp es e : fresh rp es e ->
  let n0 : node conn stream := mkNode e ∅ [] [] in sane rp es n0 /\ forall a, view rp a n0 = of_phase Idle.
Proof.
  intros [Hwf Hr Hs Ha Hw Ht] n0. split; [split; [split; [done..|]| |constructor]|].
  - intros a. by right.
  - by intros a p Hp.
  - intros a. unfold view. cbn. rewrite Ht. f_equal. apply bool_decide_eq_false. unfold mailbox.
    change (ID (writer_pid e a)) with (writer_id a). rewrite Hw. by intros [? ?].
Qed.

(** C29: The life of connections.  Whatever is sent, handled, dialled, with or
    without TLS, lost and shut down, in any order, every address of a node is in one
    of eight phases, and every step moves every address by at most one step of the
    automaton [pstep]: no writer is doubled, none outlives its shutdown, and no
    message to the router that an address is unreachable is one too many.  Nothing
    leads out of [Cut]: the router takes the address for connected and nobody is
    there, for good.  Once nobody is shutting down and the router has listened, an
    address is idle, up, cut off or mute; and it is never mute (known, registered and
    without a stream) if every connection of the networks it meets takes a deadline.
    Runs end where the program does or the router is replaced: a TLS dial that fails
    panics, and makes no step. *)
Theorem connection_lifecycle {conn stream : Type} (fuel : nat) (rp es : PID) (tls : bool) (nets : network conn stream -> Prop)
    (e : Engine) (n : node conn stream) (Hfresh : fresh rp es e)
    (Hreach : rtc (kstep fuel rp tls nets) (mkNode e ∅ [] []) n) :
  (forall a, exists ph, view rp a n = of_phase ph) /\
  (forall n' a ph, kstep fuel rp tls nets n n' -> view rp a n = of_phase ph ->
     exists ph', view rp a n' = of_phase ph' /\ (ph' = ph \/ pstep (can_mute nets) ph ph')) /\
  (forall n' a, view rp a n = of_phase Cut -> rtc (kstep fuel rp tls nets) n n' ->
     view rp a n' = of_phase Cut /\ cut_off a (routes n') (eng n')) /\
  (leaving n = [] -> (forall a, told_in rp a (eng n) = 0%nat) ->
     forall a, exists ph, ph ∈ [Idle; Up; Cut; Mute] /\ view rp a n = of_phase ph) /\
  ((forall net c, nets net -> deadline_ok net c = true) -> forall a, view rp a n <> of_phase Mute).
Proof.
  destruct (fresh_node (conn:=conn) (stream:=stream) rp es e Hfresh) as [S0 V0]. pose proof (fr_apart _ _ _ Hfresh) as Ha.
  destruct (ksteps_ok fuel rp es tls nets Ha _ n S0) with (2 := Hreach) as [S P].
  { intros a. exists Idle. by split. }
  split; [|split; [|split; [|split]]].
  - intros a. destruct (P a) as (ph & Hv & _). by exists ph.
  - intros n' a ph Hs Hv. destruct (kstep_ok fuel rp es tls nets Ha n n' S Hs) as [_ Hm]. by apply Hm.
  - intros n' a Hv Hr. destruct (cut_stays fuel rp es tls nets Ha a n n' S Hv Hr) as [S' Hv']. split; [done|].
    by apply (cut_is_off rp es).
  - intros Hl Ht a. destruct (P a) as (ph & Hv & _). exists ph. split; [|done].
    assert (H1 : dying (of_phase ph) = 0%nat) by (rewrite <-Hv; cbn; by rewrite Hl).
    assert (H2 : told (of_phase ph) = 0%nat) by (rewrite <-Hv; apply Ht).
    destruct ph; cbn in H1, H2; try done; repeat constructor.
  - intros Hdl a Hmute. destruct (P a) as (ph & Hv & Hm). rewrite Hv in Hmute. apply of_phase_inj in Hmute.
    destruct (Hm Hmute) as (net & c & Hn & Hc). by rewrite Hdl in Hc.
Qed.

Lemma demo_fresh : fresh demo_actor demo_stream demo_engine.
Proof.
  assert (Hw : forall a, registry demo_engine !! writer_id a = None).
  { intros a. destruct (registry demo_engine !! writer_id a) eqn:E; [|done].
    apply elem_of_map_to_list in E. vm_compute in E.
    repeat (apply elem_of_cons in E as [E|E]; [discriminate E|]). by apply not_elem_of_nil in E. }
  split; [exact demo_engine_wf|by split; [|vm_compute; eexists]|done| |exact Hw|done].
  split; [done|]. by intros a.
Qed.

Lemma connection_lifecycle_witness :
  exists n, run_links sched_race = Some n /\ view demo_actor demo_addr n = of_phase Cut /\
    forall n', rtc (kstep 0 demo_actor false (fun _ : network nat nat => True)) n n' -> cut_off demo_addr (routes n') (eng n').
Proof.
  destruct (run_links sched_race) as [n|] eqn:E; [|by vm_compute in E].
  exists n. split; [done|].
  assert (Hv : view demo_actor demo_addr n = of_phase Cut) by (vm_compute in E; injection E as <-; vm_compute; reflexivity).
  split; [exact Hv|]. intros n' Hr.
  destruct (connection_lifecycle 0 demo_actor demo_stream false (fun _ : network nat nat => True) demo_engine n demo_fresh)
    as (_ & _ & H & _).
  - exact (exec_kacts_sound demo_actor false sched_race demo_node n E).
  - by apply (H n' demo_addr Hv).
Defined.

(** A connection that is lost comes back with the next message, if the writer is
    gone before the router handles it. *)
Theorem connection_comes_back :
  exists n, run_links sched_again = Some n /\ view demo_actor demo_addr n = of_phase Up.
Proof. eexists. split; [vm_compute; reflexivity|]. vm_compute. reflexivity. Qed.

(** Nobody shuts a writer down that could not set its deadline: it stays known and
    registered. *)
Theorem mute_writer_stays :
  exists n, run_links [KSend demo_out; KRouter (mkNetwork (fun _ => Some 7%nat) (fun _ => false) Some)] = Some n /\
    view demo_actor demo_addr n = of_phase Mute.
Proof. eexists. split; [vm_compute; reflexivity|]. vm_compute. reflexivity. Qed.

(** From [Idle] a message for the address dials: it is up if the network connects,
    mute if the connection takes no deadline, and otherwise the router will hear that
    it is unreachable. *)
Theorem idle_dials {conn stream : Type} (fuel : nat) (rp es : PID) (tls : bool) (n : node conn stream) (net : network conn stream)
    (sender : option PID) (t : PID) (m : any) (prio : bool)
    (Hapart : ID rp <> ID es /\ forall a, ID rp <> writer_id a /\ ID es <> writer_id a)
    (Hsane : sane rp es n) (Hdial : dials tls net <> Crashed) (Hidle : view rp (Address t) n = of_phase Idle) :
  exists s' e', router_Receive (S fuel) (start_writer (S fuel) net (Some rp) tls)
      (AStreamDeliver sender (Some t) m prio) (routes n) (eng n) = Returns (s', e') /\
    view rp (Address t) (mkNode e' s'
      (opened fuel rp tls net (mkEnvelope (AStreamDeliver sender (Some t) m prio) None) (routes n) (eng n) ++ connections n) (leaving n)) =
    of_phase (match dials tls net with Connected => Up | Muted => Mute | _ => Left end).
Proof.
  destruct Hsane as [S R W]. set (b := Address t) in *. injection Hidle as Hk Hp Hlive Hdy Ht.
  assert (Hl : routes n !! b = None) by (destruct (routes n !! b); [by vm_compute in Hk|done]).
  pose proof (deliver_new fuel rp es tls Hapart net sender t m prio (routes n) (eng n) S Hl Hp) as Hd. cbv zeta in Hd.
  rewrite decide_False in Hd by done. destruct Hd as (e' & H1 & _ & Hc). eexists _, e'. split; [exact H1|].
  unfold view. cbn [eng routes connections leaving]. fold b in Hc |- *. rewrite known_insert, decide_True by done.
  destruct (dials tls net); [destruct Hc as (E & w & -> & _ & Hw)|destruct Hc as (E & ->)..|done].
  all: rewrite (effect_told rp es _ _ _ _ _ _ S E), (effect_present rp es _ _ _ _ _ _ E), decide_True by done.
  - cbn [app]. rewrite times_cons, decide_True, Hlive, Hdy, Ht by done. done.
  - cbn [app]. by rewrite Hlive, Hdy, Ht.
  - rewrite tellings_tell, decide_True by done. cbn [app]. by rewrite Hlive, Hdy, Ht.
Qed.

(** Where a message ends up, by the phase of its address when the router handles
    it (as long as the router does not panic in a TLS dial).  Only an address that is
    up, or idle with a network whose dial connects, has a writer to send it; a writer that
    is on its way out takes it along, one without a stream panics on it, and with
    nobody registered it becomes a dead letter. *)
Theorem message_fate {conn stream : Type} (fuel : nat) (rp es : PID) (tls : bool) (n : node conn stream) (net : network conn stream)
    (sender : option PID) (t : PID) (m : any) (prio : bool) (ph : phase)
    (Hapart : ID rp <> ID es /\ forall a, ID rp <> writer_id a /\ ID es <> writer_id a)
    (Hsane : sane rp es n) (Hdial : dials tls net <> Crashed) (Hph : view rp (Address t) n = of_phase ph) :
  let b := Address t in
  let msg := AStreamDeliver sender (Some t) m prio in
  let box := mailbox (eng n) (writer_id b) in
  exists s' e', router_Receive (S fuel) (start_writer (S fuel) net (Some rp) tls) msg (routes n) (eng n) = Returns (s', e') /\
    match ph with
    | Up | Told | Forgot | Taken | Mute => is_Some box /\ fate es b msg box e'
    | Idle => fate es b msg (boxed (dials tls net)) e'
    | Left | Cut => fate es b msg None e'
    end.
Proof.
  intros b msg box. destruct Hsane as [S R W].
  assert (Hk : bool_decide (is_Some (routes n !! b)) = known (of_phase ph)) by by rewrite <-Hph.
  assert (Hp : present b (eng n) = registered (of_phase ph)) by by rewrite <-Hph.
  pose proof (present_kind rp es b (eng n) S) as Hbox. rewrite Hp in Hbox. fold box in Hbox.
  assert (Hnone : registry (eng n) !! writer_id b = None -> box = None) by (intros H; unfold box, mailbox; by rewrite H).
  destruct (routes n !! b) as [p|] eqn:Hl.
  - assert (p = writer_pid (eng n) b) as -> by by apply R.
    destruct (deliver_known fuel rp es tls Hapart net sender t m prio (routes n) (eng n) S Hl) as (e' & H1 & _ & _ & F).
    eexists _, e'. split; [exact H1|]. fold b msg box in F.
    destruct ph; try done; cbn in Hbox; by rewrite <-?(Hnone Hbox).
  - destruct (present b (eng n)) eqn:Hpr.
    + destruct (deliver_taken fuel rp es tls Hapart net sender t m prio (routes n) (eng n) S Hl Hpr) as (e' & H1 & _ & _ & F).
      eexists _, e'. split; [exact H1|]. by destruct ph.
    + pose proof (deliver_new fuel rp es tls Hapart net sender t m prio (routes n) (eng n) S Hl Hpr) as Hd. cbv zeta in Hd.
      rewrite decide_False in Hd by done. destruct Hd as (e' & H1 & F & _).
      eexists _, e'. split; [exact H1|]. by destruct ph.
Qed.
