(* ===== verification/Remote.v ===== *)
(** * The remote ([remote/remote.go])

    Configuration, lifecycle and sending; and the path of a message from one node
    to another, through the remote, the router and a stream writer. *)

From S2P Require Import Prelude RemoteWire Stream Pid Messages Process Engine Router Writer.

(** ** Configuration *)

Record Config := mkConfig { TLSConfig : option Z (* the pointer *); BuffSize : Z }.

Definition NewConfig : Config := mkConfig None 0.
Definition WithTLS (tlsconf : option Z) (c : Config) : Config := mkConfig tlsconf (BuffSize c).
Definition WithBufferSize (size : Z) (c : Config) : Config := mkConfig (TLSConfig c) size.

(** ** Lifecycle *)

Inductive phase := stateInvalid | stateInitialized | stateRunning | stateStopped.
#[export] Instance phase_eq_dec : EqDecision phase.
Proof. solve_decision. Defined.

(** [stopCh] is nil or a channel with the goroutine of [Start] waiting on it (or
    not any more); [serving] says whether the server's context is alive. *)
Record Remote := mkRemote {
  addr : string;
  config : Config;
  streamRouterPID : option PID;
  stopCh : option bool;
  stopWg : option Z;
  state : phase;
  serving : bool;
}.

Definition New (a : string) (c : Config) : Remote := mkRemote a c None None None stateInitialized false.

Definition Address (r : Remote) : string := addr r.

Definition set_state (p : phase) (r : Remote) : Remote :=
  mkRemote (addr r) (config r) (streamRouterPID r) (stopCh r) (stopWg r) p (serving r).

(** What [Start] returns. *)
Inductive start_error := AlreadyStarted | ListenFailed | RegisterFailed.

Section remote.
Variable fuel : nat.
(** [Start] of the router's process. *)
Variable router_start : Engine -> outcome Engine.

(** [Start]: [listen_ok] and [register_ok] are the network's answers, [rnd] the
    random id of the router, [wg] the address of the new wait group. *)
Definition Start (listen_ok register_ok : bool) (rnd : string) (wg : Z) (r : Remote) (e : Engine)
  : outcome (Remote * Engine * option start_error) :=
  if negb (bool_decide (state r = stateInitialized)) then Returns (r, e, Some AlreadyStarted) else
  let r := set_state stateRunning r in
  if negb listen_ok then Returns (r, e, Some ListenFailed) else
  if negb register_ok then Returns (r, e, Some RegisterFailed) else
  obind (Spawn fuel "router" "" rnd router_start e) (fun '(e, pid) =>
    Returns (mkRemote (addr r) (config r) (Some pid) (Some true) (Some wg) (state r) true, e, None)).

(** [Stop] in two halves, as another call may come between them: the check of the
    state, and what follows it.  The result is the wait group: [None] is a fresh
    empty one. *)
Definition Stop_check (r : Remote) : bool := bool_decide (state r = stateRunning).

Definition Stop_rest (r : Remote) : outcome (Remote * option Z) :=
  let r := set_state stateStopped r in
  match stopCh r with
  | Some true =>
      Returns (mkRemote (addr r) (config r) (streamRouterPID r) (Some false) (stopWg r) (state r) false, stopWg r)
  | _ => Blocks
  end.

Definition Stop (r : Remote) : outcome (Remote * option Z) :=
  if Stop_check r then Stop_rest r else Returns (r, None).

(** [Send] and [SendPriority]. *)
Definition Send (priority : bool) (pid : option PID) (msg : any) (sender : option PID) (r : Remote) (e : Engine)
  : outcome Engine :=
  Engine.Send fuel (streamRouterPID r) (AStreamDeliver sender pid msg priority) e.

(** *** Histories of calls *)

Inductive call := CStart (listen_ok register_ok : bool) (rnd : string) (wg : Z) | CStop.
Inductive answer := AnsStart (err : option start_error) | AnsStop (wg : option Z).

Definition call_step (c : call) (r : Remote) (e : Engine) : outcome (Remote * Engine * answer) :=
  match c with
  | CStart l g rnd wg => obind (Start l g rnd wg r e) (fun '(r, e, err) => Returns (r, e, AnsStart err))
  | CStop => obind (Stop r) (fun '(r, wg) => Returns (r, e, AnsStop wg))
  end.

(** The answers up to the call that does not return, if there is one. *)
Fixpoint calls (cs : list call) (r : Remote) (e : Engine) : list answer * outcome Remote :=
  match cs with
  | [] => ([], Returns r)
  | c :: cs =>
      match call_step c r e with
      | Returns (r, e, a) => let '(as_, o) := calls cs r e in (a :: as_, o)
      | Panics v => ([], Panics v) | Blocks => ([], Blocks) | OutOfFuel => ([], OutOfFuel)
      end
  end.
End remote.

(** *** The specification of the lifecycle *)

Inductive life := Fresh | Broken | Serving (wg : Z) | Ended.

(** [None] is a call that never returns. *)
Definition life_step (c : call) (l : life) : option (life * answer) :=
  match c, l with
  | CStart false _ _ _, Fresh => Some (Broken, AnsStart (Some ListenFailed))
  | CStart true false _ _, Fresh => Some (Broken, AnsStart (Some RegisterFailed))
  | CStart true true _ wg, Fresh => Some (Serving wg, AnsStart None)
  | CStart _ _ _ _, _ => Some (l, AnsStart (Some AlreadyStarted))
  | CStop, Fresh | CStop, Ended => Some (l, AnsStop None)
  | CStop, Serving wg => Some (Ended, AnsStop (Some wg))
  | CStop, Broken => None
  end.

Fixpoint life_steps (cs : list call) (l : life) : list answer * option life :=
  match cs with
  | [] => ([], Some l)
  | c :: cs =>
      match life_step c l with
      | None => ([], None)
      | Some (l, a) => let '(as_, o) := life_steps cs l in (a :: as_, o)
      end
  end.

(** What a phase means for the remote. *)
Definition lives (l : life) (r : Remote) : Prop :=
  match l with
  | Fresh => state r = stateInitialized /\ stopCh r = None /\ serving r = false
  | Broken => state r = stateRunning /\ stopCh r = None /\ serving r = false
  | Serving wg => state r = stateRunning /\ stopCh r = Some true /\ stopWg r = Some wg /\ serving r = true
  | Ended => state r = stateStopped /\ serving r = false
  end.

Lemma Spawn_fine fuel kind rnd start e :
  wf e -> (forall e, wf e -> exists e', start e = Returns e' /\ wf e') ->
  exists e' pid, Spawn (S fuel) kind "" rnd start e = Returns (e', pid) /\ wf e'.
Proof.
  intros Hwf Hstart. unfold Spawn, SpawnProc. cbn [String.length Nat.eqb proc_PID].
  set (p := PMailbox _ _). pose proof (add_fine fuel p e Hwf eq_refl) as Hfine. revert Hfine. unfold add.
  destruct (registry e !! ID (proc_PID p)).
  - destruct (BroadcastEvent (S fuel) _ e) as [e'| | |] eqn:Hb; intros Hf; try done.
    + exists e', (proc_PID p). split; [done|apply Hf].
    + destruct (BroadcastEvent_ok fuel (AActorDuplicateIdEvent (proc_PID p)) e Hwf) as (e' & Hb' & _).
      by rewrite Hb in Hb'.
  - intros [_ Hf]. destruct (Hstart _ Hf) as (e' & -> & Hwf'). by exists e', (proc_PID p).
Qed.

Lemma call_step_life fuel start c l r e :
  wf e -> (forall e, wf e -> exists e', start e = Returns e' /\ wf e') -> lives l r ->
  match life_step c l with
  | Some (l', a) => exists r' e', call_step (S fuel) start c r e = Returns (r', e', a) /\ wf e' /\ lives l' r'
  | None => call_step (S fuel) start c r e = Blocks
  end.
Proof.
  intros Hwf Hstart Hl. destruct c as [lo reg rnd wg|].
  - cbn [call_step]. unfold Start. destruct l.
    + destruct Hl as (Hst & Hch & Hser). rewrite bool_decide_true by done. cbn [negb].
      destruct lo; [|by eexists _, e]. destruct reg; [|by eexists _, e]. cbn [negb life_step].
      destruct (Spawn_fine fuel "router" rnd start e Hwf Hstart) as (e' & pid & -> & Hwf').
      cbn [obind]. by eexists _, e'.
    + pose proof (proj1 Hl) as Hst. rewrite bool_decide_false by (rewrite Hst; discriminate). destruct lo, reg; by eexists r, e.
    + pose proof (proj1 Hl) as Hst. rewrite bool_decide_false by (rewrite Hst; discriminate). destruct lo, reg; by eexists r, e.
    + pose proof (proj1 Hl) as Hst. rewrite bool_decide_false by (rewrite Hst; discriminate). destruct lo, reg; by eexists r, e.
  - cbn [call_step]. unfold Stop, Stop_check, Stop_rest. cbn [set_state stopCh stopWg].
    destruct l; destruct Hl as (Hst & Hl); cbn [life_step].
    + rewrite bool_decide_false by (rewrite Hst; discriminate). by eexists r, e.
    + rewrite bool_decide_true by done. by rewrite (proj1 Hl).
    + rewrite bool_decide_true by done. destruct Hl as (-> & -> & _). by eexists _, e.
    + rewrite bool_decide_false by (rewrite Hst; discriminate). by eexists r, e.
Qed.

Lemma calls_life fuel start cs l r e :
  wf e -> (forall e, wf e -> exists e', start e = Returns e' /\ wf e') -> lives l r ->
  match life_steps cs l with
  | (as_, Some l') => exists r', calls (S fuel) start cs r e = (as_, Returns r') /\ lives l' r'
  | (as_, None) => calls (S fuel) start cs r e = (as_, Blocks)
  end.
Proof.
  intros Hwf Hstart. revert l r e Hwf. induction cs as [|c cs IH]; intros l r e Hwf Hl; [by exists r|].
  pose proof (call_step_life fuel start c l r e Hwf Hstart Hl) as Hc. cbn [calls life_steps].
  destruct (life_step c l) as [[l' a]|]; [|by rewrite Hc].
  destruct Hc as (r' & e' & -> & Hwf' & Hl'). specialize (IH l' r' e' Hwf' Hl').
  destruct (life_steps cs l') as [as_ [l''|]]; [destruct IH as (r'' & -> & Hl''); by exists r''|by rewrite IH].
Qed.

(** C28: Lifecycle of a remote.  Any sequence of [Start] and [Stop] calls answers as
    the four-phase specification does: only the first [Start] does anything; if it
    succeeds, the first [Stop] after it ends the server and returns its wait
    group, and every other call is an error or a no-op; if it fails, the remote
    counts as running, cannot be started again, and the next [Stop] never
    returns. *)
Theorem remote_lifecycle (fuel : nat) (router_start : Engine -> outcome Engine) (a : string) (c : Config)
    (cs : list call) (e : Engine) (Hwf : wf e)
    (Hstart : forall e, wf e -> exists e', router_start e = Returns e' /\ wf e') :
  match life_steps cs Fresh with
  | (as_, Some l) => exists r, calls (S fuel) router_start cs (New a c) e = (as_, Returns r) /\ lives l r
  | (as_, None) => calls (S fuel) router_start cs (New a c) e = (as_, Blocks)
  end.
Proof. by apply calls_life. Qed.

Lemma remote_lifecycle_witness :
  (exists r, calls 1 Returns [CStop; CStart true true "3" 9; CStart true true "4" 10; CStop; CStop] (New "a:1" NewConfig) demo_engine =
     ([AnsStop None; AnsStart None; AnsStart (Some AlreadyStarted); AnsStop (Some 9); AnsStop None], Returns r) /\ lives Ended r) /\
  calls 1 Returns [CStart false true "3" 9; CStop] (New "a:1" NewConfig) demo_engine = ([AnsStart (Some ListenFailed)], Blocks).
Proof.
  split.
  - apply (remote_lifecycle 0 Returns "a:1" NewConfig [CStop; CStart true true "3" 9; CStart true true "4" 10; CStop; CStop] demo_engine demo_engine_wf).
    intros e He. by exists e.
  - apply (remote_lifecycle 0 Returns "a:1" NewConfig [CStart false true "3" 9; CStop] demo_engine demo_engine_wf).
    intros e He. by exists e.
Defined.

(** Two stops at once.  If a second [Stop] checks the state before the first one
    changes it, the first returns the wait group and the second never returns. *)
Theorem concurrent_stops (r r' : Remote) (wg : option Z)
    (Hfirst : Stop_check r = true) (Hrest : Stop_rest r = Returns (r', wg)) :
  Stop r = Returns (r', wg) /\ Stop_check r' = false /\ Stop r' = Returns (r', None) /\ Stop_rest r' = Blocks.
Proof.
  unfold Stop. rewrite Hfirst. split; [done|]. unfold Stop_rest in Hrest. cbn [set_state stopCh] in Hrest.
  destruct (stopCh r) as [[]|]; simplify_eq. done.
Qed.

Lemma concurrent_stops_witness :
  let r := mkRemote "a:1" NewConfig (Some demo_actor) (Some true) (Some 9) stateRunning true in
  exists r' wg, Stop r = Returns (r', wg) /\ Stop_rest r' = Blocks.
Proof.
  intros r. eexists _, _.
  destruct (concurrent_stops r _ (Some 9) eq_refl eq_refl) as (H1 & _ & _ & H2). split; [exact H1|exact H2].
Defined.

(** ** From node to node *)

Section path.
Variable fuel : nat.

(** The messages [os] handed to [Send] or [SendPriority], one after the other. *)
Fixpoint send_all (os : list outgoing) (r : Remote) (e : Engine) : outcome Engine :=
  match os with
  | [] => Returns e
  | o :: os => obind (Send fuel (o_priority o) (Some (o_target o)) (o_msg o) (o_sender o) r e) (send_all os r)
  end.
End path.

(** The engine of a running remote whose router is at [rp]. *)
Definition routed (rp : PID) (s : streams) (e : Engine) : Prop :=
  wf e /\ Pid.Address rp = address e /\ streams_ok s e /\ free_writers s e /\
  (forall a, ID rp <> ID (writer_pid e a)).

Lemma routed_like rp s e e' :
  routed rp s e -> wf_like e e' ->
  (forall a, registry e !! ID (writer_pid e a) = registry e' !! ID (writer_pid e a)) -> routed rp s e'.
Proof.
  intros (Hwf & Ha & Hs & Hf & Hne) [(Ha' & _) Hwf'] Hr.
  assert (Hwp : forall a, writer_pid e' a = writer_pid e a) by (intros a; unfold writer_pid; by rewrite Ha').
  split_and!; [done|congruence| | |intros a; by rewrite Hwp].
  - intros a p Hp. destruct (Hs a p Hp) as [-> Hm]. rewrite Hwp. split; [done|]. unfold mailbox in *. by rewrite <-Hr.
  - intros a Ha0. rewrite Hwp, <-Hr. by apply Hf.
Qed.

(** What neither the router nor the writers touch. *)
Definition beside (rp : PID) (e e' : Engine) : Prop :=
  same_shape e e' /\ results e' = results e /\ outbox e' = outbox e /\
  forall id, id <> ID rp -> (forall a, id <> ID (writer_pid e a)) -> registry e' !! id = registry e !! id.

Lemma beside_refl rp e : beside rp e e.
Proof. done. Qed.

Lemma beside_trans rp e1 e2 e3 : beside rp e1 e2 -> beside rp e2 e3 -> beside rp e1 e3.
Proof.
  intros ((A1 & A2 & A3) & A4 & A5 & A6) ((B1 & B2 & B3) & B4 & B5 & B6). unfold beside, same_shape. split_and!; [congruence..|].
  intros id Hr Hw. rewrite B6, A6; [done|done|done|done|]. intros a. unfold writer_pid. rewrite A1. apply Hw.
Qed.

Lemma delivers_beside priority rp env e e' : delivers priority (ID rp) env e e' -> beside rp e e'.
Proof. intros (_ & Hother & Hsh & Hr & Ho & _). split_and!; [done..|]. intros id Hne _. by apply Hother. Qed.

Lemma only_writers_beside rp e e' : only_writers e e' -> beside rp e e'.
Proof. intros (Hsh & Hr & Ho & Hw). split_and!; [done..|]. intros id _. apply Hw. Qed.

Lemma send_all_ok fuel os r rp s e q :
  streamRouterPID r = Some rp -> routed rp s e -> mailbox e (ID rp) = Some q ->
  exists e', send_all (S fuel) os r e = Returns e' /\ routed rp s e' /\
    mailbox e' (ID rp) = Some (q ++ (out_env <$> os)) /\ address e' = address e /\
    (forall a, writer_queue e' a = writer_queue e a) /\ beside rp e e'.
Proof.
  intros Hr. revert e q. induction os as [|o os IH]; intros e q Hrt Hq.
  { exists e. rewrite app_nil_r. split_and!; (done || apply beside_refl). }
  pose proof Hrt as (Hwf & Ha & _ & _ & Hne).
  cbn [send_all]. unfold Send. rewrite Hr.
  destruct (Send_mailbox fuel rp (Msg (out_env o)) e Hwf Ha) as (e1 & Hsend & Hwf1 & Hd); [by rewrite Hq|].
  cbn [out_env Msg] in Hsend. rewrite Hsend. cbn [obind].
  assert (Hreg : forall a, registry e !! ID (writer_pid e a) = registry e1 !! ID (writer_pid e a)).
  { intros a. destruct Hd as (_ & Hother & _). symmetry. apply Hother. intros Heq. by apply (Hne a). }
  assert (Ha1 : address e1 = address e) by apply Hwf1.
  destruct (IH e1 (q ++ [out_env o])) as (e2 & H2 & Hrt2 & Hq2 & Ha2 & Hw2 & Hb2).
  { by eapply routed_like. }
  { rewrite (delivers_mail _ _ _ _ _ Hd), decide_True, Hq by done. done. }
  exists e2. split; [done|]. split; [done|]. split; [by rewrite Hq2, <-app_assoc|]. split; [congruence|].
  split; [|eapply beside_trans; [by eapply delivers_beside|done]]. intros a. rewrite Hw2. unfold writer_queue, mailbox, writer_pid. rewrite Ha1. fold (writer_pid e a). by rewrite <-Hreg.
Qed.

Lemma router_steps_ok fuel os rp s e q :
  routed rp s e -> mailbox e (ID rp) = Some ((out_env <$> os) ++ q) ->
  exists s' e', router_steps (S fuel) (fun _ => Returns) (length os) rp s e = Returns (s', e') /\
    address e' = address e /\ mailbox e' (ID rp) = Some q /\
    (forall a, writer_queue e' a = writer_queue e a ++ sent_to a os) /\ wf e' /\ beside rp e e'.
Proof.
  revert s e. induction os as [|o os IH]; intros s e Hrt Hq.
  { exists s, e. split_and!; [done|done|done| |apply Hrt|apply beside_refl]. intros a. by rewrite app_nil_r. }
  rewrite fmap_cons in Hq. pose proof Hrt as (Hwf & Ha & _ & _ & Hne).
  destruct (pop_mailbox_ok _ _ _ e Hwf Hq) as (e0 & Hpop & Hwf0 & Hq0 & Hother & Hres0 & Hout0).
  cbn [length router_steps]. unfold router_step. rewrite Hpop.
  assert (Hrt0 : routed rp s e0).
  { eapply routed_like; [done|done|]. intros a. symmetry. apply Hother. intros Heq. by apply (Hne a). }
  pose proof Hrt0 as (Hwf0' & Ha0 & Hs0 & Hf0 & Hne0).
  destruct (deliver_one fuel o s e0 Hwf0' Hs0 Hf0) as (s1 & e1 & H1 & Hwf1 & Ha1 & Hs1 & Hf1 & Hw1 & Hm1).
  rewrite H1. cbn [obind].
  destruct (IH s1 e1) as (s2 & e2 & H2 & Ha2 & Hq2 & Hw2 & Hwf2 & Hb2).
  { split_and!; [done|congruence|done|done|]. intros a. unfold writer_pid. rewrite Ha1. apply Hne0. }
  { destruct Hm1 as (_ & _ & _ & Hm1). unfold mailbox in *. by rewrite Hm1. }
  exists s2, e2. split; [done|]. split; [rewrite Ha2, Ha1; apply Hwf0|]. split; [done|].
  split; [|split; [done|eapply beside_trans; [|eapply beside_trans; [by apply only_writers_beside|done]]]].
  2: { split_and!; [apply Hwf0|done|done|]. intros id Hn _. by apply Hother. }
  intros a. rewrite Hw2, Hw1.
  assert (writer_queue e0 a = writer_queue e a) as ->.
  { assert (writer_pid e0 a = writer_pid e a) as Hwp by (unfold writer_pid; by destruct Hwf0 as [(-> & _) _]).
    unfold writer_queue, mailbox. rewrite Hwp, Hother; [done|]. intros Heq. by apply (Hne a). }
  rewrite <-app_assoc. f_equal. unfold sent_to. cbn [List.filter]. by destruct (bool_decide _).
Qed.

(** The messages for targets at [a]. *)
Definition bound_for (a : string) (os : list outgoing) : list outgoing :=
  List.filter (fun o => bool_decide (Pid.Address (o_target o) = a)) os.

(** From node to node.  Messages handed to a running remote (connections being
    up) go through the router's mailbox to the stream writer of each address, each
    address getting exactly its messages in the order they were sent; and however
    the writer's mailbox splits them into batches, every batch of messages that
    serialize is packed, marshalled, parsed and unpacked on the other node into
    the same messages, in order, with payload, target, priority and sender (the
    first sender of the batch where there is none). *)
Theorem remote_end_to_end (fuel : nat) (hash : string -> Z) (TypeName : any -> result string)
    (Serialize : any -> result (option (list byte))) (Deserialize : list byte -> string -> option any)
    (r : Remote) (rp : PID) (e : Engine) (os : list outgoing)
    (Hrun : streamRouterPID r = Some rp) (Hrt : routed rp ∅ e) (Hq : mailbox e (ID rp) = Some [])
    (Hser : Forall (serializable TypeName Serialize Deserialize) os) :
  exists e1 s2 e2, send_all (S fuel) os r e = Returns e1 /\
    router_steps (S fuel) (fun _ => Returns) (length os) rp ∅ e1 = Returns (s2, e2) /\
    forall a batches, concat batches = bound_for a os ->
      writer_queue e2 a = writer_queue e a ++ (out_env <$> concat batches) /\
      (Forall (batch_fits hash TypeName Serialize) batches ->
       Forall (crosses hash TypeName Serialize Deserialize) batches).
Proof.
  destruct (send_all_ok fuel os r rp ∅ e [] Hrun Hrt Hq) as (e1 & H1 & Hrt1 & Hq1 & Ha1 & Hw1 & _).
  destruct (router_steps_ok fuel os rp ∅ e1 [] Hrt1) as (s2 & e2 & H2 & _ & _ & Hw2 & _); [by rewrite app_nil_r|].
  exists e1, s2, e2. split; [done|]. split; [done|]. intros a batches Hb. split.
  - rewrite Hw2, Hw1, Hb. done.
  - assert (Hall : Forall (fun b => Forall (serializable TypeName Serialize Deserialize) b) batches).
    { apply Forall_concat. rewrite Hb. apply List.Forall_forall. intros o Ho%filter_In.
      rewrite List.Forall_forall in Hser. apply Hser, Ho. }
    intros Hfits. rewrite Forall_forall in Hall, Hfits. apply Forall_forall. intros b Hin.
    apply batch_crosses; auto.
Qed.

Definition demo_router : PID := demo_actor.
Definition demo_remote : Remote := mkRemote "local" NewConfig (Some demo_router) (Some true) (Some 9) stateRunning true.

Lemma demo_routed : routed demo_router ∅ demo_engine.
Proof.
  split; [exact demo_engine_wf|]. split; [reflexivity|]. split; [intros a p Hp; discriminate Hp|]. split.
  - intros a _. destruct (registry demo_engine !! ID (writer_pid demo_engine a)) eqn:E; [|done].
    apply elem_of_map_to_list in E. vm_compute in E.
    repeat (apply elem_of_cons in E as [E|E]; [discriminate E|]). by apply not_elem_of_nil in E.
  - intros a. discriminate.
Qed.

Lemma remote_end_to_end_witness :
  exists e1 s2 e2, send_all 1 demo_batch demo_remote demo_engine = Returns e1 /\
    router_steps 1 (fun _ => Returns) 3 demo_router ∅ e1 = Returns (s2, e2) /\
    forall a batches, concat batches = bound_for a demo_batch ->
      writer_queue e2 a = writer_queue demo_engine a ++ (out_env <$> concat batches) /\
      (Forall (batch_fits demo_hash demo_TypeName demo_Serialize) batches ->
       Forall (crosses demo_hash demo_TypeName demo_Serialize demo_Deserialize) batches).
Proof.
  apply (remote_end_to_end 0 demo_hash demo_TypeName demo_Serialize demo_Deserialize demo_remote demo_router demo_engine demo_batch
    eq_refl demo_routed); [vm_compute; reflexivity|].
  repeat (constructor; [eexists _, _; split; [reflexivity|split; [reflexivity|vm_compute; reflexivity]]|]); constructor.
Defined.
