(* ===== verification/Nodes.v ===== *)
(** * Two nodes ([remote/stream_reader.go], and the path of a message through
    [actor/engine.go], [remote/remote.go], [remote/stream_router.go] and
    [remote/stream_writer.go])

    The stream reader hands what it unpacks to the engine of its node as it goes;
    with that the path from a send on one engine to the mailboxes of another is
    closed. *)

From S2P Require Import Prelude Wire ActorWire RemoteWire Stream Pid Messages Process Engine Router Writer Remote.

(** ** The stream reader *)

(** A panic of a slice or a nil pointer, in a call. *)
Definition lift {A B} (m : result A) (k : A -> outcome B) : outcome B :=
  match m with Ok a => k a | Panic p => Panics (PVRuntime p) end.

(** What [stream.Recv()] returns. *)
Inductive recv := RecvEnvelope (env : RemoteWire.Envelope) | RecvCanceled | RecvError.

Section reader.
Variable fuel : nat.
Variable Deserialize : list byte -> string -> option any.

(** One message for a process of this node. *)
Definition hand_over (d : delivery) (e : Engine) : outcome Engine :=
  if d_priority d then SendPriorityLocal fuel (d_target d) (d_msg d) (d_sender d) e
  else SendLocal fuel (d_target d) (d_msg d) (d_sender d) e.

Fixpoint hand_all (ds : list delivery) (e : Engine) : outcome Engine :=
  match ds with [] => Returns e | d :: ds => obind (hand_over d e) (hand_all ds) end.

(** The loop over the messages of an envelope; the result says whether it stopped
    with an error. *)
Fixpoint receive_messages (env : RemoteWire.Envelope) (msgs : list (option Message)) (e : Engine) : outcome (Engine * bool) :=
  match msgs with
  | [] => Returns (e, false)
  | None :: _ => Panics (PVRuntime NilDeref)
  | Some msg :: msgs =>
      lift (slice_get (TypeNames env) (TypeNameIndex msg)) (fun tname =>
      match Deserialize (Data msg) tname with
      | None => Returns (e, true)
      | Some payload =>
          lift (slice_get (Targets env) (TargetIndex msg)) (fun target =>
          lift (if 0 <? zlen (Senders env) then slice_get (Senders env) (SenderIndex msg) else Ok None) (fun sender =>
          obind (hand_over (mkDelivery (Priority msg) target payload sender) e) (fun e =>
          receive_messages env msgs e)))
      end)
  end.

(** [Receive]: the engine it leaves behind, and whether it returns an error; without
    another result of [Recv] it waits. *)
Fixpoint Receive (rs : list recv) (e : Engine) : outcome (Engine * bool) :=
  match rs with
  | [] => Blocks
  | RecvEnvelope env :: rs =>
      obind (receive_messages env (Messages env) e) (fun '(e, err) => if err : bool then Returns (e, true) else Receive rs e)
  | RecvCanceled :: _ => Returns (e, false)
  | RecvError :: _ => Returns (e, true)
  end.

(** Reading first and handing over afterwards comes to the same, if nothing panics. *)
Lemma receive_read env msgs ds err e :
  read_messages Deserialize env msgs = Ok (ds, err) ->
  receive_messages env msgs e = obind (hand_all ds e) (fun e => Returns (e, err)).
Proof.
  revert ds e. induction msgs as [|[msg|] msgs IH]; intros ds e Hr; [by injection Hr as <- <-| |done].
  cbn [read_messages receive_messages] in *. destruct (slice_get (TypeNames env) _) as [tn|]; [|done].
  cbn [mbind result_bind lift] in *. destruct (Deserialize _ _) as [m|]; [|by injection Hr as <- <-].
  destruct (slice_get (Targets env) _) as [t|]; [|done]. cbn [mbind result_bind lift] in *.
  destruct (if 0 <? zlen (Senders env) then _ else _) as [s|]; [|done]. cbn [mbind result_bind lift] in *.
  destruct (read_messages _ _ msgs) as [[ds' err']|] eqn:E; [|done]. injection Hr as <- <-. cbn [hand_all].
  destruct (hand_over _ e) as [e1| | |]; [|done..]. cbn [obind]. by apply IH.
Qed.

(** *** What it does to the mailboxes *)

(** A priority message goes to the front. *)
Definition put (q : list Envelope) (d : delivery) : list Envelope :=
  let env := mkEnvelope (d_msg d) (d_sender d) in if d_priority d then env :: q else q ++ [env].

(** The messages for a process. *)
Definition mail_for (id : string) (ds : list delivery) : list delivery :=
  List.filter (fun d => match d_target d with Some t => String.eqb (ID t) id | None => false end) ds.

Definition reachable (e : Engine) (d : delivery) : Prop := exists t, d_target d = Some t /\ is_Some (mailbox e (ID t)).

End reader.

Lemma hand_over_ok fuel d t e :
  wf e -> d_target d = Some t -> is_Some (mailbox e (ID t)) ->
  exists e', hand_over fuel d e = Returns e' /\ delivers (d_priority d) (ID t) (mkEnvelope (d_msg d) (d_sender d)) e e'.
Proof.
  intros [Hwf _] Ht [q Hq]. destruct (mailbox_spec e _ q Hwf Hq) as (pid & Hl & Hid & _).
  unfold hand_over, SendPriorityLocal, SendLocal, send_local. rewrite Ht. cbn [get]. rewrite Hl.
  destruct (d_priority d); by apply proc_send_delivers.
Qed.

Lemma hand_all_ok fuel ds e :
  wf e -> Forall (reachable e) ds ->
  exists e', hand_all fuel ds e = Returns e' /\ wf_like e e' /\
    forall id, mailbox e' id = (fun q => foldl put q (mail_for id ds)) <$> mailbox e id.
Proof.
  revert e. induction ds as [|d ds IH]; intros e Hwf Hds.
  { exists e. split; [done|]. split; [by apply wf_like_refl|]. intros id. by destruct (mailbox e id). }
  apply Forall_cons in Hds as [(t & Ht & Hq) Hds].
  destruct (hand_over_ok fuel d t e Hwf Ht Hq) as (e1 & H1 & Hd). pose proof (delivers_wf _ _ _ _ _ Hwf Hd) as Hl1.
  destruct (IH e1 (proj2 Hl1)) as (e2 & H2 & Hl2 & Hm2).
  { eapply Forall_impl; [exact Hds|]. intros x (t' & Ht' & Hq'). exists t'. split; [done|]. by eapply delivers_mailbox. }
  exists e2. cbn [hand_all]. rewrite H1. split; [done|]. split; [by eapply wf_like_trans|].
  intros id. rewrite Hm2. unfold mail_for. cbn [List.filter]. rewrite Ht.
  destruct (String.eqb_spec (ID t) id) as [<-|Hne].
  - destruct (mailbox_delivers _ _ _ _ _ Hd) as (q & -> & ->). cbn [fmap option_fmap option_map foldl]. f_equal.
  - destruct Hd as (_ & Hother & _). unfold mailbox. by rewrite Hother by congruence.
Qed.

(** ** The sending node *)

Section sender.
Variable fuel : nat.

Definition outgoing_of (m : remote_send) : outgoing := mkOutgoing (rs_sender m) (rs_target m) (rs_msg m) (rs_priority m).

(** [e.remote.Send] and [e.remote.SendPriority], for what the engine gives its remote. *)
Definition flush (r : Remote) (e : Engine) : outcome Engine :=
  send_all fuel (outgoing_of <$> outbox e) r
    (mkEngine (registry e) (address e) (remote e) (eventStream e) (results e) [] (next_ref e) (done_ctx e)).

(** [send] and [sendPriority] on an engine with its remote. *)
Definition node_send (o : outgoing) (r : Remote) (e : Engine) : outcome Engine :=
  obind (send_with (BroadcastEvent fuel) (o_priority o) (Some (o_target o)) (o_msg o) (o_sender o) e) (flush r).

Fixpoint node_sends (os : list outgoing) (r : Remote) (e : Engine) : outcome Engine :=
  match os with [] => Returns e | o :: os => obind (node_send o r e) (node_sends os r) end.
End sender.

(** A send to another address is a send of the remote. *)
Lemma node_send_away fuel o r e :
  outbox e = [] -> remote e = true -> Pid.Address (o_target o) <> address e ->
  node_send fuel o r e = Remote.Send fuel (o_priority o) (Some (o_target o)) (o_msg o) (o_sender o) r e.
Proof.
  intros Ho Hr Ha. unfold node_send, send_with, isLocalMessage. rewrite bool_decide_false by congruence. rewrite Hr. cbn [negb obind].
  unfold flush. cbn [to_remote outbox registry address remote eventStream results next_ref done_ctx]. rewrite Ho.
  cbn [app]. rewrite fmap_cons. cbn [fmap list_fmap send_all outgoing_of rs_sender rs_target rs_msg rs_priority o_priority o_target o_msg o_sender].
  destruct e. cbn in Ho, Hr. subst. cbn [Engine.registry Engine.address Engine.remote Engine.eventStream Engine.results Engine.next_ref Engine.done_ctx].
  destruct (Remote.Send _ _ _ _ _ _ _); done.
Qed.

Lemma node_sends_away fuel os r rp s e q :
  streamRouterPID r = Some rp -> routed rp s e -> mailbox e (ID rp) = Some q -> outbox e = [] -> remote e = true ->
  Forall (fun o => Pid.Address (o_target o) <> address e) os ->
  node_sends (S fuel) os r e = send_all (S fuel) os r e.
Proof.
  intros Hr. revert e q. induction os as [|o os IH]; intros e q Hrt Hq Ho Hrem Haway; [done|].
  apply Forall_cons in Haway as [Ha Haway]. cbn [node_sends send_all]. rewrite node_send_away by done.
  pose proof Hrt as (Hwf & Hra & _ & _ & Hne). unfold Remote.Send. rewrite Hr.
  destruct (Send_mailbox fuel rp (Msg (out_env o)) e Hwf Hra) as (e1 & Hsend & Hwf1 & Hd); [by rewrite Hq|].
  cbn [out_env Msg] in Hsend. rewrite Hsend. cbn [obind].
  pose proof Hd as (_ & Hother & (Ha1 & Hr1 & _) & _ & Hob & _).
  destruct (mailbox_delivers _ _ _ _ _ Hd) as (q1 & _ & Hq1).
  eapply IH; [|exact Hq1|congruence|congruence|by rewrite Ha1].
  eapply routed_like; [exact Hrt|done|]. intros a. symmetry. apply Hother. intros Heq. by apply (Hne a).
Qed.

(** ** From mailbox to mailbox *)

(** What arrives of some batches: each message as it was sent, up to the sender of
    those that have none. *)
Definition arrived (batches : list (list outgoing)) (dss : list (list delivery)) : Prop :=
  Forall2 (fun os ds => Forall2 (arrives_as (head (omap o_sender os))) os ds) batches dss.

Lemma arrived_reachable batches dss e :
  arrived batches dss -> Forall (fun o => is_Some (mailbox e (ID (o_target o)))) (concat batches) ->
  Forall (reachable e) (concat dss).
Proof.
  induction 1 as [|os ds batches dss Hb _ IH]; [constructor|]. cbn [concat]. rewrite !Forall_app. intros [Ho Hos].
  split; [|by apply IH]. clear IH. revert Hb. generalize (head (omap o_sender os)). intros s Hb.
  induction Hb as [|o d os1 ds1 (_ & _ & Ht & _) _ IH]; [constructor|].
  apply Forall_cons in Ho as [Ho Hos']. constructor; [by exists (o_target o)|by apply IH].
Qed.

(** The reader takes batches one after the other. *)
Lemma Receive_batches fuel Deserialize envs dss rs e :
  wf e -> Forall2 (fun env ds => unpack Deserialize env = Ok (ds, false)) envs dss -> Forall (reachable e) (concat dss) ->
  exists e', Receive (S fuel) Deserialize ((RecvEnvelope <$> envs) ++ rs) e = Receive (S fuel) Deserialize rs e' /\
    wf_like e e' /\ forall id, mailbox e' id = (fun q => foldl put q (mail_for id (concat dss))) <$> mailbox e id.
Proof.
  intros Hwf Hu. revert e Hwf. induction Hu as [|env ds envs dss Hr _ IH]; intros e Hwf Hds.
  { exists e. split; [done|]. split; [by apply wf_like_refl|]. intros id. by destruct (mailbox e id). }
  cbn [concat] in Hds. apply Forall_app in Hds as [Hd Hds]. destruct (hand_all_ok (S fuel) ds e Hwf Hd) as (e1 & H1 & Hl1 & Hm1).
  destruct (IH e1 (proj2 Hl1)) as (e2 & H2 & Hl2 & Hm2).
  { eapply Forall_impl; [exact Hds|]. intros x (t & Ht & [q Hq]). exists t. split; [done|]. rewrite Hm1, Hq. by eexists. }
  exists e2. rewrite fmap_cons. cbn [app Receive]. rewrite (receive_read _ _ _ _ ds false) by exact Hr.
  rewrite H1. cbn [obind]. split; [exact H2|]. split; [by eapply wf_like_trans|].
  intros id. rewrite Hm2, Hm1. cbn [concat]. destruct (mailbox e id) as [q|]; [|done]. cbn [fmap option_fmap option_map]. f_equal.
  unfold mail_for. by rewrite List.filter_app, foldl_app.
Qed.

(** C10: From mailbox to mailbox.  Take an engine with a running remote, whatever
    was sent from it to other addresses, and the router working off its mailbox;
    let the writer of the address [b] send its messages in any batches, and the
    reader of the engine at [b] read what arrives.  If the messages serialize and
    the processes they are for are registered there, the reader hands over all of
    them and reports no error until its stream ends; and the mailbox of every
    process of that engine gains exactly the messages that were sent to it, in
    order — ordinary messages at the back and priority messages at the front —
    each with its payload and its sender (the first sender of the batch if it has
    none). *)
Theorem nodes_end_to_end (fuel : nat) (hash : string -> Z) (TypeName : any -> result string)
    (Serialize : any -> result (option (list byte))) (Deserialize : list byte -> string -> option any)
    (r : Remote) (rp : PID) (A B : Engine) (os : list outgoing) (batches : list (list outgoing))
    (Hrun : streamRouterPID r = Some rp) (Hrt : routed rp ∅ A) (Hq : mailbox A (ID rp) = Some [])
    (Hout : outbox A = []) (Hremote : remote A = true)
    (Haway : Forall (fun o => Pid.Address (o_target o) <> address A) os)
    (Hser : Forall (serializable TypeName Serialize Deserialize) os)
    (HB : wf B) (Hthere : Forall (fun o => is_Some (mailbox B (ID (o_target o)))) (bound_for (address B) os))
    (Hbatches : concat batches = bound_for (address B) os)
    (Hfits : Forall (batch_fits hash TypeName Serialize) batches) :
  exists A1 s2 A2 envs bytes dss B',
    node_sends (S fuel) os r A = Returns A1 /\
    router_steps (S fuel) (fun _ => Returns) (length os) rp ∅ A1 = Returns (s2, A2) /\
    writer_queue A2 (address B) = writer_queue A (address B) ++ (out_env <$> concat batches) /\
    Forall2 (fun batch env => pack hash TypeName Serialize (out_env <$> batch) = Ok env) batches envs /\
    Forall2 (fun env bs => Envelope_MarshalVT (Some env) = Ok bs /\ Envelope_UnmarshalVT bs empty_Envelope = done_ env) envs bytes /\
    Receive (S fuel) Deserialize ((RecvEnvelope <$> envs) ++ [RecvCanceled]) B = Returns (B', false) /\
    arrived batches dss /\
    forall id, mailbox B' id = (fun q => foldl put q (mail_for id (concat dss))) <$> mailbox B id.
Proof.
  destruct (send_all_ok fuel os r rp ∅ A [] Hrun Hrt Hq) as (A1 & H1 & Hrt1 & Hq1 & Ha1 & Hw1 & _).
  destruct (router_steps_ok fuel os rp ∅ A1 [] Hrt1) as (s2 & A2 & H2 & _ & _ & Hw2 & _); [by rewrite app_nil_r|].
  assert (Hall : Forall (fun b => Forall (serializable TypeName Serialize Deserialize) b) batches).
  { apply Forall_concat. rewrite Hbatches. apply List.Forall_forall. intros o Ho%filter_In.
    rewrite List.Forall_forall in Hser. apply Hser, Ho. }
  assert (Hc : exists envs bytes dss,
    Forall2 (fun batch env => pack hash TypeName Serialize (out_env <$> batch) = Ok env) batches envs /\
    Forall2 (fun env bs => Envelope_MarshalVT (Some env) = Ok bs /\ Envelope_UnmarshalVT bs empty_Envelope = done_ env) envs bytes /\
    Forall2 (fun env ds => unpack Deserialize env = Ok (ds, false)) envs dss /\ arrived batches dss).
  { clear Hbatches. induction batches as [|b bs IH]; [exists [], [], []; split_and!; constructor|].
    apply Forall_cons in Hfits as [Hf Hfits], Hall as [Hs Hall]. destruct (IH Hfits Hall) as (envs & bytes & dss & C1 & C2 & C3 & C4).
    destruct (batch_crosses hash TypeName Serialize Deserialize b Hs Hf) as (env & by_ & ds & D1 & D2 & D3 & D4 & D5).
    exists (env :: envs), (by_ :: bytes), (ds :: dss). split_and!; [by constructor|constructor; [by split|done]|by constructor|unfold arrived; by constructor]. }
  destruct Hc as (envs & bytes & dss & C1 & C2 & C3 & C4).
  destruct (Receive_batches fuel Deserialize envs dss [RecvCanceled] B HB C3) as (B' & HR & _ & Hm).
  { apply (arrived_reachable batches); [done|]. by rewrite Hbatches. }
  exists A1, s2, A2, envs, bytes, dss, B'.
  split; [by rewrite (node_sends_away fuel os r rp ∅ A [])|]. split; [done|]. split; [by rewrite Hw2, Hw1, Hbatches|].
  split; [done|]. split; [done|]. split; [by rewrite HR|]. by split.
Qed.

(** Node A at [a:1] with its router, node B at [b:1] with an actor. *)
Definition demo_node (addr kind id : string) : Engine :=
  match NewEngine 1 (Engine.WithRemote addr NewEngineConfig) None "7" with
  | Returns (inl e) => match Spawn 1 kind id "" Returns e with Returns (e, _) => e | _ => e end
  | _ => new_engine "" false
  end.
Definition demo_A : Engine := demo_node "a:1" "router" "3".
Definition demo_B : Engine := demo_node "b:1" "demo" "y".
Definition demo_rp : PID := NewPID "a:1" "router/3".
Definition demo_sent : list outgoing :=
  [mkOutgoing (Some (NewPID "a:1" "x")) (NewPID "b:1" "demo/y") (AUser "ping" [1; 2]) false;
   mkOutgoing None (NewPID "b:1" "demo/y") (AUser "pong" [3]) true;
   mkOutgoing (Some (NewPID "a:1" "w")) (NewPID "b:1" "demo/y") (AUser "ping" []) false].

(** A finite engine is checked entry by entry. *)
Lemma checked_wf e :
  Forall (fun '(id, p) => ID (proc_PID p) = id /\ Pid.Address (proc_PID p) = address e) (map_to_list (registry e)) ->
  match eventStream e with Some es => Pid.Address es = address e /\ is_Some (mailbox e (ID es)) | None => True end -> wf e.
Proof.
  intros Hall Hes. split.
  - intros id p Hl%elem_of_map_to_list. rewrite Forall_forall in Hall. by specialize (Hall _ Hl).
  - intros es He. by rewrite He in Hes.
Qed.

Lemma demo_A_wf : wf demo_A.
Proof. apply checked_wf; vm_compute; [by repeat constructor|]. split; [reflexivity|by eexists]. Qed.
Lemma demo_B_wf : wf demo_B.
Proof. apply checked_wf; vm_compute; [by repeat constructor|]. split; [reflexivity|by eexists]. Qed.

Lemma demo_A_routed : routed demo_rp ∅ demo_A.
Proof.
  split; [exact demo_A_wf|]. split; [reflexivity|]. split; [intros a p Hp; discriminate Hp|]. split.
  - intros a _. destruct (registry demo_A !! ID (writer_pid demo_A a)) eqn:E; [|done].
    apply elem_of_map_to_list in E. vm_compute in E.
    repeat (apply elem_of_cons in E as [E|E]; [discriminate E|]). by apply not_elem_of_nil in E.
  - intros a. discriminate.
Qed.

Definition demo_A_remote : Remote := mkRemote "a:1" NewConfig (Some demo_rp) (Some true) (Some 9) stateRunning true.

Lemma demo_sent_fits batch : batch = demo_sent -> batch_fits demo_hash demo_TypeName demo_Serialize batch.
Proof.
  intros ->. split; [vm_compute; reflexivity|]. split; [|split; [vm_compute; repeat constructor|]].
  - assert (Hall : forallb (fun p => forallb (fun q => implb (LookupKey demo_hash p =? LookupKey demo_hash q) (Equals p q))
      (batch_pids demo_sent)) (batch_pids demo_sent) = true) by (vm_compute; reflexivity).
    intros p q Hp Hq Hk. rewrite forallb_forall in Hall. apply list_elem_of_In in Hp, Hq.
    specialize (Hall p Hp). rewrite forallb_forall in Hall. specialize (Hall q Hq).
    by rewrite (proj2 (Z.eqb_eq _ _) Hk) in Hall.
  - intros env He. vm_compute in He. injection He as <-. vm_compute. reflexivity.
Qed.

Lemma nodes_end_to_end_witness :
  exists envs dss B', Receive 1 demo_Deserialize ((RecvEnvelope <$> envs) ++ [RecvCanceled]) demo_B = Returns (B', false) /\
    arrived [demo_sent] dss /\ mailbox B' "demo/y" = Some (foldl put [] (mail_for "demo/y" (concat dss))).
Proof.
  assert (Hq : mailbox demo_A (ID demo_rp) = Some []) by (vm_compute; reflexivity).
  assert (Hout : outbox demo_A = []) by (vm_compute; reflexivity).
  assert (Hrem : remote demo_A = true) by (vm_compute; reflexivity).
  assert (Hadr : address demo_A = "a:1"%string /\ address demo_B = "b:1"%string) by (split; vm_compute; reflexivity).
  assert (Hmb : mailbox demo_B "demo/y" = Some []) by (vm_compute; reflexivity).
  destruct Hadr as [HadrA HadrB]. assert (Hb : bound_for (address demo_B) demo_sent = demo_sent) by (rewrite HadrB; reflexivity).
  destruct (nodes_end_to_end 0 demo_hash demo_TypeName demo_Serialize demo_Deserialize demo_A_remote demo_rp demo_A demo_B
    demo_sent [demo_sent] eq_refl demo_A_routed Hq Hout Hrem) as (_ & _ & _ & envs & _ & dss & B' & _ & _ & _ & _ & _ & H1 & H2 & H3).
  - rewrite HadrA. repeat (constructor; [discriminate|]); constructor.
  - repeat (constructor; [eexists _, _; split; [reflexivity|split; [reflexivity|vm_compute; reflexivity]]|]); constructor.
  - exact demo_B_wf.
  - rewrite Hb. repeat (constructor; [cbn [o_target ID NewPID]; rewrite Hmb; by eexists|]); constructor.
  - by rewrite Hb.
  - constructor; [by apply demo_sent_fits|constructor].
  - exists envs, dss, B'. split; [exact H1|]. split; [exact H2|]. by rewrite H3, Hmb.
Defined.
