(* ===== verification/Requests.v ===== *)
(** * A request between two nodes ([actor/engine.go], [actor/response.go],
    [actor/context.go] with the path of [remote/])

    [Request] on one engine for an actor of another, the actor's [Respond], and
    [Result]: both ways through the engine, the remote, the router, the wire and
    the reader of the other node (see [Nodes]). *)

From S2P Require Import Prelude Wire RemoteWire Stream Pid Messages Process Engine Router Writer Remote Nodes.

(** [Request] and [Respond] on an engine with its remote. *)
Definition node_Request (fuel : nat) (pid : option PID) (msg : any) (rnd : string) (r : Remote) (e : Engine)
  : outcome (Engine * Processer) :=
  obind (Request fuel pid msg rnd e) (fun '(e, resp) => obind (flush fuel r e) (fun e => Returns (e, resp))).

Definition node_Respond (fuel : nat) (sender : option PID) (msg : any) (r : Remote) (e : Engine) : outcome Engine :=
  obind (Respond fuel sender msg e) (flush fuel r).

(** A running node whose router is idle. *)
Record ready (r : Remote) (rp : PID) (e : Engine) : Prop := mkReady {
  ready_running : streamRouterPID r = Some rp;
  ready_routed : routed rp ∅ e;
  ready_idle : mailbox e (ID rp) = Some [];
  ready_outbox : outbox e = [];
  ready_remote : remote e = true;
}.

(** The message as the reader of the other node hands it over. *)
Definition as_delivery (o : outgoing) : delivery := mkDelivery (o_priority o) (Some (o_target o)) (o_msg o) (o_sender o).

Section path.
Variable fuel : nat.
Variable hash : string -> Z.
Variable TypeName : any -> result string.
Variable Serialize : any -> result (option (list byte)).
Variable Deserialize : list byte -> string -> option any.

(** It serializes, and a batch of it alone fits. *)
Definition sendable (o : outgoing) : Prop :=
  serializable TypeName Serialize Deserialize o /\ batch_fits hash TypeName Serialize [o].

(** The router of the node takes [o] to the writer of its address, which writes
    it as the envelope [env]; the other node parses the same envelope. *)
Definition travels (rp : PID) (o : outgoing) (e e' : Engine) (env : RemoteWire.Envelope) : Prop :=
  (exists s, router_steps (S fuel) (fun _ => Returns) 1 rp ∅ e = Returns (s, e')) /\
  writer_queue e' (Pid.Address (o_target o)) = writer_queue e (Pid.Address (o_target o)) ++ [out_env o] /\
  pack hash TypeName Serialize [out_env o] = Ok env /\
  exists bytes, Envelope_MarshalVT (Some env) = Ok bytes /\ Envelope_UnmarshalVT bytes empty_Envelope = done_ env.

(** One way: what a send to another node leads to. *)
Lemma one_way r rp o e :
  ready r rp e -> Pid.Address (o_target o) <> address e -> sendable o ->
  exists e1 e2 env, node_send (S fuel) o r e = Returns e1 /\ travels rp o e1 e2 env /\
    unpack Deserialize env = Ok ([as_delivery o], false) /\ wf e2 /\ beside rp e e2.
Proof.
  intros [Hrun Hrt Hq Hout Hrem] Haway [Hser Hfits].
  destruct (send_all_ok fuel [o] r rp ∅ e [] Hrun Hrt Hq) as (e1 & H1 & Hrt1 & Hq1 & Ha1 & Hw1 & Hb1).
  destruct (router_steps_ok fuel [o] rp ∅ e1 [] Hrt1) as (s & e2 & H2 & _ & _ & Hw2 & Hwf2 & Hb2); [by rewrite app_nil_r|].
  destruct (batch_crosses hash TypeName Serialize Deserialize [o]) as (env & bytes & ds & D1 & D2 & D3 & D4 & D5); [by constructor|done|].
  exists e1, e2, env. split.
  { pose proof (node_sends_away fuel [o] r rp ∅ e [] Hrun Hrt Hq Hout Hrem) as Hn. rewrite H1 in Hn. cbn [node_sends] in Hn.
    specialize (Hn ltac:(by repeat constructor)). by destruct (node_send _ _ _ _). }
  split.
  { split; [by exists s|]. split; [|split; [done|by exists bytes]]. rewrite Hw2, Hw1. f_equal. unfold sent_to. cbn [List.filter].
    by rewrite bool_decide_true. }
  split; [|split; [done|by eapply beside_trans]].
  rewrite D4. do 2 f_equal. apply list_eq_Forall2. apply Forall2_cons_inv_l in D5 as (d & ds' & Hd & Hnil & ->).
  apply Forall2_nil_inv_l in Hnil as ->. constructor; [|constructor]. destruct d, Hd as (P1 & P2 & P3 & P4). cbn in *.
  unfold as_delivery. f_equal; try done. rewrite P4. by destruct (o_sender o).
Qed.

(** The reader of the other node hands it over. *)
Lemma read_one env o rs e :
  unpack Deserialize env = Ok ([as_delivery o], false) ->
  Receive (S fuel) Deserialize (RecvEnvelope env :: rs) e =
    obind (hand_over (S fuel) (as_delivery o) e) (Receive (S fuel) Deserialize rs).
Proof.
  intros Hu. cbn [Receive]. rewrite (receive_read _ _ _ _ [as_delivery o] false) by exact Hu. cbn [hand_all].
  by destruct (hand_over (S fuel) (as_delivery o) e).
Qed.
End path.

(** ** Responses *)

Lemma hand_response fuel o e rp c :
  registry e !! ID (o_target o) = Some (PResponse rp c) ->
  hand_over fuel (as_delivery o) e =
    match default [] (results e !! c) with
    | [] => Returns (set_results (<[c := [o_msg o]]> (results e)) e)
    | _ => Blocks
    end.
Proof.
  intros Hl. unfold hand_over, as_delivery, SendPriorityLocal, SendLocal, send_local. cbn [d_priority d_target d_msg d_sender get].
  rewrite Hl. by destruct (o_priority o).
Qed.

Lemma hand_nobody fuel o e :
  wf e -> registry e !! ID (o_target o) = None ->
  exists e', hand_over (S fuel) (as_delivery o) e = Returns e' /\
    published (ADeadLetterEvent (Some (o_target o)) (o_msg o) (o_sender o)) e e'.
Proof.
  intros Hwf Hl. destruct (BroadcastEvent_ok fuel (ADeadLetterEvent (Some (o_target o)) (o_msg o) (o_sender o)) e Hwf) as (e' & He & Hp).
  exists e'. split; [|done]. unfold hand_over, as_delivery, SendPriorityLocal, SendLocal, send_local.
  cbn [d_priority d_target d_msg d_sender get]. rewrite Hl. by destruct (o_priority o).
Qed.

(** An engine with a fresh response registered at [rp]. *)
Definition expecting (rp : PID) (e : Engine) : Engine :=
  set_registry (<[ID rp := PResponse rp (next_ref e)]> (registry e)) (set_results (<[next_ref e := []]> (results e)) (fresh_ref e).2).

Definition response_pid (rnd : string) (e : Engine) : PID := NewPID (address e) ("response" +:+ pidSeparator +:+ rnd).

Lemma expecting_wf rnd e : wf e -> registry e !! ID (response_pid rnd e) = None -> wf (expecting (response_pid rnd e) e).
Proof.
  intros Hwf Hfree. pose proof (wf_new_response e Hwf) as [_ Hf].
  pose proof (add_fine 0 (PResponse (response_pid rnd e) (next_ref e)) _ Hf eq_refl) as H.
  unfold add in H. cbn [proc_PID] in H. change (registry (set_results _ _)) with (registry e) in H. rewrite Hfree in H. apply H.
Qed.

Lemma response_not_writer rnd e e' a : ID (response_pid rnd e) <> ID (writer_pid e' a).
Proof. discriminate. Qed.

Lemma expecting_ready r rp rnd e :
  ready r rp e -> registry e !! ID (response_pid rnd e) = None -> ready r rp (expecting (response_pid rnd e) e).
Proof.
  intros [Hrun (Hwf & Ha & Hs & Hf & Hne) Hq Hout Hrem] Hfree. split; [done| |  |done|done].
  - split_and!; [by apply expecting_wf|done|intros a p Hp; discriminate Hp| |done].
    intros a Hn. unfold expecting. cbn [set_registry registry]. rewrite lookup_insert_ne by apply response_not_writer. by apply (Hf a).
  - unfold mailbox in *. unfold expecting. cbn [set_registry registry]. destruct (decide (ID (response_pid rnd e) = ID rp)) as [Heq|Hd].
    + rewrite <-Heq, Hfree in Hq. done.
    + by rewrite lookup_insert_ne.
Qed.

Lemma node_Request_eq fuel t msg rnd r e :
  registry e !! ID (response_pid rnd e) = None ->
  let rp := response_pid rnd e in
  node_Request fuel (Some t) msg rnd r e =
  obind (node_send fuel (mkOutgoing (Some rp) t msg false) r (expecting rp e)) (fun e' => Returns (e', PResponse rp (next_ref e))).
Proof.
  intros Hfree rp. unfold node_Request, node_send. rewrite Request_eq. cbv zeta. fold (response_pid rnd e). fold rp in Hfree |- *. rewrite Hfree.
  cbn [obind o_priority o_target o_msg o_sender]. unfold send. fold (expecting rp e).
  by destruct (send_with _ _ _ _ _ _).
Qed.

Lemma node_Respond_eq fuel s msg r e :
  node_Respond fuel (Some s) msg r e = node_send fuel (mkOutgoing None s msg false) r e.
Proof. done. Qed.

(** ** There and back *)

Section round_trip.
Variable fuel : nat.
Variable hash : string -> Z.
Variable TypeName : any -> result string.
Variable Serialize : any -> result (option (list byte)).
Variable Deserialize : list byte -> string -> option any.
Variables (rA rB : Remote) (rpA rpB : PID) (A B : Engine) (t : PID) (msg reply : any) (rnd : string).
#[local] Abbreviation rp := (response_pid rnd A).
#[local] Abbreviation question := (mkOutgoing (Some (response_pid rnd A)) t msg false).
#[local] Abbreviation answer := (mkOutgoing None (response_pid rnd A) reply false).
#[local] Abbreviation travels := (travels fuel hash TypeName Serialize).
#[local] Abbreviation sendable := (sendable hash TypeName Serialize Deserialize).
#[local] Abbreviation Receive := (Nodes.Receive (S fuel) Deserialize).

Hypothesis HA : ready rA rpA A.
Hypothesis HB : ready rB rpB B.
Hypothesis Hnodes : address A <> address B.
Hypothesis Ht : Pid.Address t = address B.
Hypothesis Hactor : mailbox B (ID t) = Some [].
Hypothesis Hnot_router : ID t <> ID rpB.
Hypothesis Hfree : registry A !! ID (response_pid rnd A) = None.
Hypothesis Hquestion : sendable question.
Hypothesis Hanswer : sendable answer.

(** The question arrives. *)
Lemma asked : exists A1 A2 env B1 B2,
  node_Request (S fuel) (Some t) msg rnd rA A = Returns (A1, PResponse rp (next_ref A)) /\
  travels rpA question A1 A2 env /\
  Receive [RecvEnvelope env; RecvCanceled] B = Returns (B1, false) /\
  pop_mailbox (ID t) B1 = Some (mkEnvelope msg (Some rp), B2) /\ ready rB rpB B2 /\ address B2 = address B /\
  wf A2 /\ address A2 = address A /\ registry A2 !! ID rp = Some (PResponse rp (next_ref A)) /\ results A2 !! next_ref A = Some [].
Proof.
  pose proof (expecting_ready rA rpA rnd A HA Hfree) as HA'.
  destruct (one_way fuel hash TypeName Serialize Deserialize rA rpA question _ HA') as (A1 & A2 & env & H1 & H2 & H3 & H4 & H5).
  { cbn [o_target]. change (address (expecting rp A)) with (address A). congruence. }
  { exact Hquestion. }
  pose proof HB as [Hrun (Hwf & Ha & Hs & Hf & Hne) Hq Hout Hrem].
  destruct (hand_over_ok (S fuel) (as_delivery question) t B Hwf eq_refl) as (B1 & G1 & G2); [by rewrite Hactor|].
  destruct (mailbox_delivers _ _ _ _ _ G2) as (q & Hq0 & Hq1). assert (q = []) as -> by congruence.
  pose proof (delivers_wf _ _ _ _ _ Hwf G2) as [(S1 & S2 & S3) Hwf1].
  destruct (pop_mailbox_ok _ _ _ B1 Hwf1 Hq1) as (B2 & Hpop & Hl2 & _ & Hother2 & _ & Hout2).
  exists A1, A2, env, B1, B2. split; [rewrite node_Request_eq by done; cbv zeta; by rewrite H1|]. split; [done|].
  split; [rewrite (read_one fuel Deserialize env question) by exact H3; by rewrite G1|].
  split; [exact Hpop|].
  assert (Hother : forall id, id <> ID t -> registry B2 !! id = registry B !! id).
  { intros id Hn. rewrite Hother2 by done. by apply G2. }
  pose proof Hl2 as [(T1 & T2 & T3) _]. split.
  { split; [done| | | |].
    - eapply routed_like; [exact (ready_routed _ _ _ HB)| |].
      + eapply (wf_like_trans _ B1); [by apply (delivers_wf _ _ _ _ _ Hwf G2)|done].
      + intros a. symmetry. apply Hother. intros Heq. pose proof (Hf a eq_refl) as Hn. rewrite Heq in Hn.
        unfold mailbox in Hactor. by rewrite Hn in Hactor.
    - unfold mailbox in *. by rewrite Hother.
    - destruct G2 as (_ & _ & _ & _ & Ho & _). congruence.
    - congruence. }
  split; [congruence|]. split; [done|]. destruct H5 as ((E1 & _) & E2 & _ & E3). split; [exact E1|]. split.
  - rewrite E3; [|..].
    + unfold expecting. cbn [set_registry registry]. by rewrite lookup_insert_eq.
    + intros Heq. pose proof (ready_idle _ _ _ HA) as Hi. unfold mailbox in Hi. by rewrite <-Heq, Hfree in Hi.
    + intros a. apply response_not_writer.
  - rewrite E2. unfold expecting. cbn [set_registry set_results results]. by rewrite lookup_insert_eq.
Qed.

(** The reader of the asking node, with the answer on the stream [n] times. *)
Definition answered (env : RemoteWire.Envelope) (n : nat) : list recv := replicate n (RecvEnvelope env) ++ [RecvCanceled].

(** What the answer meets there. *)
Lemma answer_outcomes env e c :
  unpack Deserialize env = Ok ([as_delivery answer], false) -> wf e ->
  registry e !! ID rp = Some (PResponse rp c) -> results e !! c = Some [] ->
  (exists e3 e4, Receive (answered env 1) e = Returns (e3, false) /\
     Result rp c false false e3 = Returns (e4, Some reply) /\ registry e4 !! ID rp = None) /\
  Receive (answered env 2) e = Blocks /\
  (exists e3 e4, Result rp c true true e = Returns (e3, None) /\ Receive (answered env 1) e3 = Returns (e4, false) /\
     published (ADeadLetterEvent (Some rp) reply None) e3 e4).
Proof.
  intros Hu Hwf Hl Hc. unfold answered. cbn [replicate app]. rewrite !(read_one fuel Deserialize env answer) by exact Hu.
  rewrite (hand_response _ answer _ rp c) by exact Hl. rewrite Hc. cbn [default id obind o_msg].
  set (e3 := set_results _ e). assert (H3 : results e3 !! c = Some [reply]) by (simpl; by rewrite lookup_insert_eq).
  split; [|split].
  - exists e3. eexists. split; [done|]. unfold Result. rewrite H3. split; [done|]. simpl. by rewrite lookup_delete_eq.
  - rewrite (read_one fuel Deserialize env answer) by exact Hu. rewrite (hand_response _ answer e3 rp c) by exact Hl. by rewrite H3.
  - unfold Result. rewrite Hc. set (e5 := Remove rp e). assert (H5 : registry e5 !! ID rp = None) by (simpl; by rewrite lookup_delete_eq).
    destruct (hand_nobody fuel answer e5) as (e6 & H6 & Hp).
    { destruct (wf_Remove rp e) as [_ Hw]; [done| |done]. intros es Hes Heq. destruct (proj2 Hwf es Hes) as [_ Hm].
      unfold mailbox in Hm. rewrite <-Heq, Hl in Hm. by destruct Hm. }
    { exact H5. }
    exists e5, e6. split; [done|]. rewrite (read_one fuel Deserialize env answer) by exact Hu. by rewrite H6.
Qed.
End round_trip.

(** C11: A request between two nodes.  Requesting an actor of another node (both
    running, with idle routers, and the messages serializable) sends the question
    through the router, the wire and the reader of the other node into the mailbox
    of the actor, with the response as its sender; what the actor responds travels
    back the same way, and then [Result] returns it and unregisters the response.
    If the actor responds twice before [Result] was called, the reader of the node
    that asked waits for that call, and everything else from the other node with
    it; a response that comes after the time limit is a dead letter there. *)
Theorem request_across_nodes (fuel : nat) (hash : string -> Z) (TypeName : any -> result string)
    (Serialize : any -> result (option (list byte))) (Deserialize : list byte -> string -> option any)
    (rA rB : Remote) (rpA rpB : PID) (A B : Engine) (t : PID) (msg reply : any) (rnd : string)
    (HA : ready rA rpA A) (HB : ready rB rpB B) (Hnodes : address A <> address B) (Ht : Pid.Address t = address B)
    (Hactor : mailbox B (ID t) = Some []) (Hnot_router : ID t <> ID rpB) :
  let rp := response_pid rnd A in let c := next_ref A in
  let question := mkOutgoing (Some rp) t msg false in let answer := mkOutgoing None rp reply false in
  forall (Hfree : registry A !! ID rp = None)
    (Hquestion : sendable hash TypeName Serialize Deserialize question)
    (Hanswer : sendable hash TypeName Serialize Deserialize answer),
  exists A1 A2 env B1 B2 B3 B4 env',
    node_Request (S fuel) (Some t) msg rnd rA A = Returns (A1, PResponse rp c) /\
    travels fuel hash TypeName Serialize rpA question A1 A2 env /\
    Receive (S fuel) Deserialize [RecvEnvelope env; RecvCanceled] B = Returns (B1, false) /\
    pop_mailbox (ID t) B1 = Some (mkEnvelope msg (Some rp), B2) /\
    node_Respond (S fuel) (Some rp) reply rB B2 = Returns B3 /\
    travels fuel hash TypeName Serialize rpB answer B3 B4 env' /\
    (exists A3 A4, Receive (S fuel) Deserialize (answered env' 1) A2 = Returns (A3, false) /\
       Result rp c false false A3 = Returns (A4, Some reply) /\ registry A4 !! ID rp = None) /\
    Receive (S fuel) Deserialize (answered env' 2) A2 = Blocks /\
    (exists A3 A4, Result rp c true true A2 = Returns (A3, None) /\
       Receive (S fuel) Deserialize (answered env' 1) A3 = Returns (A4, false) /\
       published (ADeadLetterEvent (Some rp) reply None) A3 A4).
Proof.
  intros rp c question answer Hfree Hquestion Hanswer.
  destruct (asked fuel hash TypeName Serialize Deserialize rA rB rpA rpB A B t msg rnd) as
    (A1 & A2 & env & B1 & B2 & H1 & H2 & H3 & H4 & HB2 & Hadr & HwfA & _ & Hreg & Hres); [done..|].
  destruct (one_way fuel hash TypeName Serialize Deserialize rB rpB answer B2 HB2) as (B3 & B4 & env' & G1 & G2 & G3 & _);
    [rewrite Hadr; exact Hnodes|done|].
  exists A1, A2, env, B1, B2, B3, B4, env'. rewrite node_Respond_eq. do 6 (split; [done|]).
  by apply (answer_outcomes fuel Deserialize A reply rnd env' A2 c).
Qed.

(** Node A asks the actor [demo/y] of node B, which has a router too. *)
Definition demo_BB : Engine :=
  match Spawn 1 "router" "4" "" Returns demo_B with Returns (e, _) => e | _ => demo_B end.
Definition demo_rpB : PID := NewPID "b:1" "router/4".
Definition demo_B_remote : Remote := mkRemote "b:1" NewConfig (Some demo_rpB) (Some true) (Some 9) stateRunning true.
Definition demo_question : outgoing :=
  mkOutgoing (Some (NewPID "a:1" "response/5")) (NewPID "b:1" "demo/y") (AUser "ping" [1]) false.
Definition demo_answer : outgoing := mkOutgoing None (NewPID "a:1" "response/5") (AUser "pong" [2]) false.

Lemma demo_A_ready : ready demo_A_remote demo_rp demo_A.
Proof. split; [reflexivity|exact demo_A_routed|vm_compute; reflexivity..]. Qed.

Lemma demo_BB_ready : ready demo_B_remote demo_rpB demo_BB.
Proof.
  split; [reflexivity| |vm_compute; reflexivity..]. split; [|split; [reflexivity|split; [intros a p Hp; discriminate Hp|split]]].
  - apply checked_wf; vm_compute; [by repeat constructor|]. split; [reflexivity|by eexists].
  - intros a _. destruct (registry demo_BB !! ID (writer_pid demo_BB a)) eqn:E; [|done].
    apply elem_of_map_to_list in E. vm_compute in E.
    repeat (apply elem_of_cons in E as [E|E]; [discriminate E|]). by apply not_elem_of_nil in E.
  - intros a. discriminate.
Qed.

Lemma demo_sendable o : o = demo_question \/ o = demo_answer -> sendable demo_hash demo_TypeName demo_Serialize demo_Deserialize o.
Proof.
  intros Ho. split.
  { destruct Ho as [-> | ->]; eexists _, _; (split; [reflexivity|split; [reflexivity|vm_compute; reflexivity]]). }
  assert (Hall : forallb (fun p => forallb (fun q => implb (LookupKey demo_hash p =? LookupKey demo_hash q) (Equals p q))
    (batch_pids [o])) (batch_pids [o]) = true) by (destruct Ho as [-> | ->]; vm_compute; reflexivity).
  split; [vm_compute; reflexivity|]. split; [|split; [destruct Ho as [-> | ->]; vm_compute; repeat constructor|]].
  - intros p q Hp Hq Hk. rewrite forallb_forall in Hall. apply list_elem_of_In in Hp, Hq.
    specialize (Hall p Hp). rewrite forallb_forall in Hall. specialize (Hall q Hq).
    by rewrite (proj2 (Z.eqb_eq _ _) Hk) in Hall.
  - intros env He. destruct Ho as [-> | ->]; vm_compute in He; injection He as <-; vm_compute; reflexivity.
Qed.

Lemma request_across_nodes_witness :
  exists A1 A2 env', node_Request 1 (Some (NewPID "b:1" "demo/y")) (AUser "ping" [1]) "5" demo_A_remote demo_A =
      Returns (A1, PResponse (NewPID "a:1" "response/5") (next_ref demo_A)) /\
    (exists A3 A4, Receive 1 demo_Deserialize (answered env' 1) A2 = Returns (A3, false) /\
       Result (NewPID "a:1" "response/5") (next_ref demo_A) false false A3 = Returns (A4, Some (AUser "pong" [2]))) /\
    Receive 1 demo_Deserialize (answered env' 2) A2 = Blocks.
Proof.
  assert (Hr : response_pid "5" demo_A = NewPID "a:1" "response/5") by (vm_compute; reflexivity).
  assert (Hf : registry demo_A !! "response/5" = None) by (vm_compute; reflexivity).
  assert (Hm : mailbox demo_BB "demo/y" = Some []) by (vm_compute; reflexivity).
  assert (Hb : address demo_BB = "b:1"%string) by (vm_compute; reflexivity).
  assert (Ha : address demo_A = "a:1"%string) by (vm_compute; reflexivity).
  destruct (request_across_nodes 0 demo_hash demo_TypeName demo_Serialize demo_Deserialize demo_A_remote demo_B_remote demo_rp demo_rpB
    demo_A demo_BB (NewPID "b:1" "demo/y") (AUser "ping" [1]) (AUser "pong" [2]) "5" demo_A_ready demo_BB_ready)
    as (A1 & A2 & _ & _ & _ & _ & _ & env' & H1 & _ & _ & _ & _ & _ & (A3 & A4 & H2 & H3 & _) & H4 & _).
  - rewrite Ha, Hb. discriminate.
  - by rewrite Hb.
  - exact Hm.
  - discriminate.
  - by rewrite Hr.
  - rewrite Hr. apply demo_sendable. by left.
  - rewrite Hr. apply demo_sendable. by right.
  - rewrite Hr in H1, H3. exists A1, A2, env'. split; [exact H1|]. split; [|exact H4]. exists A3, A4. by split.
Defined.
