(* ===== verification/Serialize.v ===== *)
(** * Serializers ([remote/serialize.go], [remote/protoreg.go])

    [ProtoSerializer], which the streams use, is a thin layer over the protobuf
    library; [VTProtoSerializer] works on the registered instances themselves. *)

From S2P Require Import Prelude Pid Wire ActorWire.

(** ** [ProtoSerializer] *)

Section proto.
Context {any proto err : Type}.
(** The type assertion [msg.(proto.Message)], and the protobuf library. *)
Variable as_message : any -> option proto.
Variable of_message : proto -> any.
Variable MessageName : proto -> string.
Variable Marshal : proto -> list byte + err.
Variable FindMessageByName : string -> proto + err.   (* a new message of the type *)
Variable Unmarshal : list byte -> proto -> proto * option err.

Definition Proto_Serialize (msg : any) : result (list byte + err) :=
  match as_message msg with
  | None => Panic TypeAssertion
  | Some m => Ok (Marshal m)
  end.

(** Both results: the value and the error. *)
Definition Proto_Deserialize (data : list byte) (tname : string) : option any * option err :=
  match FindMessageByName tname with
  | inr e => (None, Some e)
  | inl pm => let '(pm, e) := Unmarshal data pm in (Some (of_message pm), e)
  end.

Definition Proto_TypeName (msg : any) : result string :=
  match as_message msg with
  | None => Panic TypeAssertion
  | Some m => Ok (MessageName m)
  end.

(** What is asked of a serializer holds of [ProtoSerializer]: if the protobuf
    library parses what it prints, then a protobuf message deserializes, by its
    own type name, to itself and without error; and a value that is no protobuf
    message makes both [Serialize] and [TypeName] panic. *)
Lemma proto_serializer_roundtrip (msg : any)
    (Hback : forall m data, of_message m = msg -> Marshal m = inl data ->
       exists pm, FindMessageByName (MessageName m) = inl pm /\ Unmarshal data pm = (m, None))
    (Hcast : forall m, as_message msg = Some m -> of_message m = msg) :
  match as_message msg with
  | None => Proto_Serialize msg = Panic TypeAssertion /\ Proto_TypeName msg = Panic TypeAssertion
  | Some m => exists tn, Proto_TypeName msg = Ok tn /\
      forall data, Proto_Serialize msg = Ok (inl data) -> Proto_Deserialize data tn = (Some msg, None)
  end.
Proof.
  unfold Proto_Serialize, Proto_TypeName, Proto_Deserialize.
  destruct (as_message msg) as [m|] eqn:E; [|done]. specialize (Hcast m eq_refl).
  exists (MessageName m). split; [done|]. intros data [= Hd].
  destruct (Hback m data Hcast Hd) as (pm & -> & ->). by rewrite Hcast.
Qed.
End proto.

(** ** The type registry and [VTProtoSerializer]

    Registered messages are pointers, so the store of messages is part of the
    state. *)

Section vt.
Context {V err : Type}.
Variable MessageName : V -> string.
Variable MarshalVT : V -> list byte + err.
(** [UnmarshalVT] writes into its receiver, also when it fails half-way. *)
Variable UnmarshalVT : list byte -> V -> V * option err.

(** [registry], from type names to pointers, and what the pointers point to. *)
Record types := mkTypes { registered : gmap string Z; store : gmap Z V }.

Definition RegisterType (v : Z) (t : types) : types :=
  match store t !! v with
  | Some m => mkTypes (<[MessageName m := v]> (registered t)) (store t)
  | None => t
  end.

Definition registryGetType (tname : string) (t : types) : option Z := registered t !! tname.

Definition VT_TypeName (v : Z) (t : types) : option string := MessageName <$> store t !! v.

Definition VT_Serialize (v : Z) (t : types) : option (list byte + err) := MarshalVT <$> store t !! v.

(** [None]: the type is not registered. *)
Definition VT_Deserialize (data : list byte) (mtype : string) (t : types) : option (types * Z * option err) :=
  match registryGetType mtype t with
  | None => None
  | Some v =>
      match store t !! v with
      | None => None
      | Some m => let '(m, e) := UnmarshalVT data m in
                  Some (mkTypes (registered t) (<[v := m]> (store t)), v, e)
      end
  end.
End vt.
Arguments types : clear implicits.

(** PIDs through [VTProtoSerializer]; [rest] is what a failed [UnmarshalVT] leaves. *)
Definition PID_into (rest : list byte -> PID -> PID) (data : list byte) (m : PID) : PID * option uerr :=
  match PID_UnmarshalVT data m with
  | Some (Ok (inr m)) => (m, None)
  | Some (Ok (inl e)) => (rest data m, Some e)
  | _ => (rest data m, Some ErrInvalidLength)
  end.

Lemma PID_into_encode rest p old :
  unknownFields p = [] -> zlen (PID_encode p) < two63 ->
  PID_into rest (PID_encode p) old = (PID_merge p old, None).
Proof.
  intros Hu Hz. unfold PID_into, PID_UnmarshalVT. by rewrite (eats_unmarshal _ _ _ _ _ Hz (PID_eats_merge p old Hu)).
Qed.

(** [VTProtoSerializer] has one instance per type.  Deserializing two PIDs by
    the registered type returns the same pointer both times: after the second
    call the result of the first one reads as the second PID, and a field absent
    from the second one still has the value of the first. *)
Theorem vt_deserialize_aliases (rest : list byte -> PID -> PID) (t : types PID) (v : Z) (old p q : PID)
    (Hreg : registered t !! "actor.PID"%string = Some v) (Hv : store t !! v = Some old)
    (Hp : unknownFields p = []) (Hq : unknownFields q = [])
    (Hzp : zlen (PID_encode p) < two63) (Hzq : zlen (PID_encode q) < two63) :
  exists t1 t2, VT_Deserialize (PID_into rest) (PID_encode p) "actor.PID" t = Some (t1, v, None) /\
    VT_Deserialize (PID_into rest) (PID_encode q) "actor.PID" t1 = Some (t2, v, None) /\
    store t1 !! v = Some (PID_merge p old) /\ store t2 !! v = Some (PID_merge q (PID_merge p old)).
Proof.
  unfold VT_Deserialize, registryGetType. rewrite Hreg, Hv, PID_into_encode by done.
  eexists _, _. split; [done|]. cbn [registered store]. rewrite Hreg, lookup_insert_eq, PID_into_encode by done.
  split; [done|]. cbn [store]. by rewrite !lookup_insert_eq.
Qed.

(** The registry as [init] of the package leaves it. *)
Definition demo_types : types PID := RegisterType (fun _ => "actor.PID"%string) 1 (mkTypes ∅ {[1 := empty_PID]}).

(** [b] has no address, and comes back with the address of [a]. *)
Lemma vt_deserialize_aliases_witness :
  let a := mkPID "10.0.0.1:4000" "player/7" [] in
  let b := mkPID "" "player/8" [] in
  exists t1 t2, VT_Deserialize (PID_into (fun _ m => m)) (PID_encode a) "actor.PID" demo_types = Some (t1, 1, None) /\
    VT_Deserialize (PID_into (fun _ m => m)) (PID_encode b) "actor.PID" t1 = Some (t2, 1, None) /\
    store t1 !! 1 = Some a /\ store t2 !! 1 = Some (mkPID "10.0.0.1:4000" "player/8" []).
Proof.
  intros a b. exact (vt_deserialize_aliases (fun _ m => m) demo_types 1 empty_PID a b eq_refl eq_refl eq_refl eq_refl
    ltac:(vm_compute; reflexivity) ltac:(vm_compute; reflexivity)).
Defined.
