(* ===== verification/MemberSet.v ===== *)
(** * Members and member sets ([cluster/member_set.go], [cluster/util.go])

    A member set is a map from ids to members; ranging over it visits the entries
    in an order that is not specified, which is a parameter. *)

From S2P Require Import Prelude Pid.

(** ** Members *)

Record Member := mkMember { MID : string; Host : string; Region : string; Kinds : list string }.
#[export] Instance Member_eq_dec : EqDecision Member.
Proof. solve_decision. Defined.

(** Where the agent and the provider of a member are. *)
Definition Member_PID (m : Member) : PID := NewPID (Host m) ("cluster/" +:+ MID m).
Definition memberToProviderPID (m : Member) : PID := NewPID (Host m) ("provider/" +:+ MID m).

Definition Member_Equals (m other : Member) : bool :=
  bool_decide (Host m = Host other) && bool_decide (MID m = MID other).

Fixpoint has_kind (kinds : list string) (kind : string) : bool :=
  match kinds with
  | [] => false
  | k :: ks => if String.eqb k kind then true else has_kind ks kind
  end.
Definition HasKind (m : Member) (kind : string) : bool := has_kind (Kinds m) kind.

Lemma has_kind_spec kinds kind : has_kind kinds kind = true <-> kind ∈ kinds.
Proof.
  induction kinds as [|k ks IH]; simpl; [by rewrite elem_of_nil|].
  rewrite elem_of_cons, <-IH. destruct (String.eqb_spec k kind) as [->|Hne]; split; auto.
  intros [->|?]; done.
Qed.

(** ** Ranging over a map *)

(** One order in which [for k, v := range m] may visit the entries of each map. *)
Class Range := {
  range : forall {V}, gmap string V -> list (string * V);
  range_perm : forall {V} (m : gmap string V), range m ≡ₚ map_to_list m;
}.

Lemma range_lookup `{Range} {V} (m : gmap string V) k v : (k, v) ∈ range m <-> m !! k = Some v.
Proof. by rewrite range_perm, elem_of_map_to_list. Qed.

(** The order of [map_to_list], for examples. *)
Definition map_order : Range := {| range := fun V m => map_to_list m; range_perm := fun V m => reflexivity _ |}.

(** ** Member sets *)

Record MemberSet := mkSet { members : gmap string Member }.

Section member_set.
Context `{Range}.

(** Members of the set, in range order. *)
Definition values (s : MemberSet) : list Member := (range (members s)).*2.

Definition add_member (m : gmap string Member) (member : Member) : gmap string Member := <[MID member := member]> m.
Definition NewMemberSet (ms : list Member) : MemberSet := mkSet (foldl add_member ∅ ms).
Definition Len (s : MemberSet) : Z := Z.of_nat (size (members s)).
Definition GetByHost (host : string) (s : MemberSet) : option Member :=
  foldl (fun theMember member => if String.eqb (Host member) host then Some member else theMember) None (values s).
Definition Add (member : Member) (s : MemberSet) : MemberSet := mkSet (add_member (members s) member).
(** The methods that take a [*Member] dereference it. *)
Definition Contains (member : option Member) (s : MemberSet) : result bool :=
  match member with
  | None => Panic NilDeref
  | Some m => Ok (bool_decide (is_Some (members s !! MID m)))
  end.
Definition Remove (member : option Member) (s : MemberSet) : result MemberSet :=
  match member with
  | None => Panic NilDeref
  | Some m => Ok (mkSet (delete (MID m) (members s)))
  end.
Definition RemoveByHost (host : string) (s : MemberSet) : result MemberSet :=
  match GetByHost host s with
  | None => Ok s
  | Some m => Remove (Some m) s
  end.
(** The slice has [len(s.members)] elements and is filled by index. *)
Definition Slice (s : MemberSet) : list Member := values s.
(** [fun] returns whether to go on. *)
Fixpoint for_each {S} (f : Member -> S -> bool * S) (ms : list Member) (st : S) : S :=
  match ms with
  | [] => st
  | m :: ms => let '(go, st) := f m st in if go then for_each f ms st else st
  end.
Definition ForEach {S} (f : Member -> S -> bool * S) (s : MemberSet) (st : S) : S := for_each f (values s) st.
Definition Except (ms : list Member) (s : MemberSet) : list Member :=
  let m := foldl add_member ∅ ms in
  List.filter (fun member => negb (bool_decide (is_Some (m !! MID member)))) (values s).
Definition FilterByKind (kind : string) (s : MemberSet) : list Member :=
  List.filter (fun member => HasKind member kind) (values s).

(** *** Lemmas *)

(** Every member is stored under its id. *)
Definition set_ok (s : MemberSet) : Prop := forall id m, members s !! id = Some m -> MID m = id.

(** The last member of the list with an id. *)
Definition last_with (id : string) (ms : list Member) : option Member :=
  foldl (fun acc m => if String.eqb (MID m) id then Some m else acc) None ms.

Lemma foldl_add m ms id :
  foldl add_member m ms !! id = match last_with id ms with Some x => Some x | None => m !! id end.
Proof.
  unfold last_with. induction ms as [|x ms IH] using rev_ind; [done|].
  rewrite !foldl_app. simpl. unfold add_member at 1.
  destruct (String.eqb_spec (MID x) id) as [->|Hne]; [by rewrite lookup_insert_eq|].
  by rewrite lookup_insert_ne.
Qed.

Lemma NewMemberSet_lookup ms id : members (NewMemberSet ms) !! id = last_with id ms.
Proof. unfold NewMemberSet. cbn [members]. rewrite foldl_add, lookup_empty. by destruct (last_with id ms). Qed.

Lemma last_with_spec id ms :
  match last_with id ms with
  | Some m => m ∈ ms /\ MID m = id
  | None => forall m, m ∈ ms -> MID m <> id
  end.
Proof.
  unfold last_with. induction ms as [|x ms IH] using rev_ind; [by intros m Hm%elem_of_nil|].
  rewrite foldl_app. simpl. destruct (String.eqb_spec (MID x) id) as [Hx|Hne].
  - split; [|done]. apply elem_of_app. right. by left.
  - destruct (foldl _ None ms) as [m|].
    + destruct IH as [Hm Hid]. split; [|done]. apply elem_of_app. by left.
    + intros m [Hm|Hm%list_elem_of_singleton]%elem_of_app; [by apply IH|by subst].
Qed.

Lemma NewMemberSet_ok ms : set_ok (NewMemberSet ms).
Proof.
  intros id m. rewrite NewMemberSet_lookup. pose proof (last_with_spec id ms) as Hl.
  destruct (last_with id ms); [|done]. intros [= <-]. apply Hl.
Qed.

Lemma elem_of_values s m : set_ok s -> m ∈ values s <-> members s !! MID m = Some m.
Proof.
  intros Hok. unfold values. rewrite list_elem_of_fmap. split.
  - intros ([k v] & -> & Hkv%range_lookup). simpl. by rewrite (Hok k v Hkv).
  - intros Hm. exists (MID m, m). split; [done|]. by apply range_lookup.
Qed.

Lemma last_with_values s id : set_ok s -> last_with id (values s) = members s !! id.
Proof.
  intros Hok. pose proof (last_with_spec id (values s)) as Hl. destruct (last_with id (values s)) as [m|].
  - destruct Hl as [Hm <-]. symmetry. by apply elem_of_values.
  - destruct (members s !! id) as [m|] eqn:Hm; [|done]. exfalso.
    pose proof (Hok id m Hm) as Hid. apply (Hl m); [|done]. apply elem_of_values; [done|]. by rewrite Hid.
Qed.

Lemma values_NoDup s : set_ok s -> NoDup (MID <$> values s).
Proof.
  intros Hok. unfold values. assert (Heq : MID <$> (range (members s)).*2 = (range (members s)).*1).
  { rewrite <-list_fmap_compose. apply list_fmap_ext. intros i [k m] Hi. simpl.
    apply (Hok k m). apply range_lookup. by eapply list_elem_of_lookup_2. }
  rewrite Heq, (range_perm (members s)). apply NoDup_fst_map_to_list.
Qed.

Lemma Except_NoDup ms s : set_ok s -> NoDup (MID <$> Except ms s).
Proof.
  intros Hok. pose proof (values_NoDup s Hok) as Hd. revert Hd. unfold Except.
  set (keep := fun _ : Member => _). generalize (values s) as l.
  induction l as [|m l IH]; [done|]. rewrite fmap_cons, NoDup_cons. intros [Hm Hl]. cbn [List.filter].
  destruct (keep m); [|by apply IH]. rewrite fmap_cons, NoDup_cons. split; [|by apply IH].
  intros (x & Hx & Hin)%list_elem_of_fmap. apply Hm. rewrite Hx. apply list_elem_of_fmap_2.
  apply list_elem_of_In, filter_In in Hin as [Hin _]. by apply list_elem_of_In.
Qed.

(** The members of [s] whose ids are not in [ms]. *)
Lemma elem_of_Except ms s m :
  set_ok s -> m ∈ Except ms s <-> members s !! MID m = Some m /\ last_with (MID m) ms = None.
Proof.
  intros Hok. unfold Except. rewrite list_elem_of_In, filter_In, <-list_elem_of_In, elem_of_values by done.
  rewrite foldl_add, lookup_empty. rewrite negb_true_iff, bool_decide_eq_false.
  assert (Hn : ~ is_Some (match last_with (MID m) ms with Some x => Some x | None => None end) <-> last_with (MID m) ms = None).
  { destruct (last_with (MID m) ms); [|by split; [|intros _ [? [=]]]]. split; [|done]. intros Hs. by destruct Hs. }
  by rewrite Hn.
Qed.
End member_set.
