(* ===== verification/Agent.v ===== *)
(** * The cluster agent ([cluster/agent.go], [cluster/activation.go])

    The agent of a node keeps the members of the cluster, the kinds they offer and
    the actors activated anywhere.  Its handlers are functions from the state to a
    new state and the calls they make on the engine, in order. *)

From S2P Require Import Prelude Pid MemberSet.

(** ** Messages *)

(** The wire messages of the cluster; a nil [*PID] or [*Member] field is [None]. *)
Inductive cmsg :=
  | MHandshake (m : option Member)
  | MMembers (ms : list Member)
  | MActorTopology (actors : list (option PID))     (* the PID of each [ActorInfo] *)
  | MActivation (pid : option PID)
  | MDeactivation (pid : option PID)
  | MActivationRequest (kind id : string)
  | MActivationResponse (pid : option PID) (success : bool)
  | MPing (from : option PID).

Inductive cevent :=
  | MemberJoinEvent (m : Member) | MemberLeaveEvent (m : Member)
  | ActivationEvent (pid : option PID) | DeactivationEvent (pid : option PID).

(** What [c.Respond] is called with. *)
Inductive reply :=
  | RPid (pid : option PID) | RPids (pids : list (option PID)) | RMembers (ms : list Member)
  | RKinds (ks : list string) | RMessage (m : cmsg).

(** Calls on the engine. *)
Inductive effect :=
  | ESend (to : option PID) (m : cmsg)
  | ERequest (to : PID) (m : cmsg)
  | ERespond (r : reply)
  | EBroadcast (ev : cevent)
  | ESpawn (kind id : string)       (* the id the process gets *)
  | EPoison (pid : option PID).

(** ** Activation configuration *)

Record ActivationDetails := mkDetails { det_Region : string; det_Members : list Member; det_Kind : string }.
Definition SelectMemberFunc : Type := ActivationDetails -> option Member.

Record ActivationConfig := mkActivationConfig {
  cfg_id : string; cfg_region : string; selectMember : option SelectMemberFunc
}.

(** What the calls of [rand.Intn] give while a message is handled: the index that the
    default selection picks, in [0 <= d_member < len(details.Members)], and the number
    that [Engine.Spawn] names a process by that was given no id, in decimal. *)
Record draws := mkDraws { d_member : Z; d_id : string }.

(** [rnd] is what [rand.Intn] returns. *)
Definition SelectRandomMember (rnd : Z) : SelectMemberFunc :=
  fun details => det_Members details !! Z.to_nat rnd.
Definition NewActivationConfig (rnd_id : string) (rnd : Z) : ActivationConfig :=
  mkActivationConfig rnd_id "default" (Some (SelectRandomMember rnd)).
Definition WithSelectMemberFunc (f : option SelectMemberFunc) (c : ActivationConfig) : ActivationConfig :=
  mkActivationConfig (cfg_id c) (cfg_region c) f.
Definition WithID (id : string) (c : ActivationConfig) : ActivationConfig :=
  mkActivationConfig id (cfg_region c) (selectMember c).
Definition WithRegion (region : string) (c : ActivationConfig) : ActivationConfig :=
  mkActivationConfig (cfg_id c) region (selectMember c).

(** The id [Engine.Spawn] gives a process: a random number if it is given none. *)
Definition options_ID (rnd : draws) (id : string) : string :=
  if (String.length id =? 0)%nat then d_id rnd else id.

(** ** The agent *)

Record Agent := mkAgent {
  a_members : MemberSet;
  kinds : gmap string bool;
  localKinds : gmap string unit;        (* the producers are user code *)
  activated : gmap string PID;
}.

Definition set_members m a := mkAgent m (kinds a) (localKinds a) (activated a).
Definition set_kinds k a := mkAgent (a_members a) k (localKinds a) (activated a).
Definition set_activated act a := mkAgent (a_members a) (kinds a) (localKinds a) act.

Definition NewAgent (names : list string) : Agent :=
  mkAgent (NewMemberSet []) (foldl (fun m k => <[k := true]> m) ∅ names)
    (foldl (fun m k => <[k := tt]> m) ∅ names) ∅.

(** A handler: the new state and the effects, or a panic. *)
Definition handler (A : Type) : Type := result (A * list effect).

Definition slash : Ascii.ascii := Ascii.ascii_of_nat 47.

(** [strings.Split(id, "/")[0]]. *)
Fixpoint before_slash (s : string) : string :=
  match s with
  | EmptyString => EmptyString
  | String c s => if Ascii.eqb c slash then EmptyString else String c (before_slash s)
  end.

Section agent.
Context `{Range}.
(** [a.cluster.engine.Address()]. *)
Variable self_address : string.

Definition addActivated (pid : option PID) (a : Agent) : result Agent :=
  match pid with
  | None => Panic NilDeref
  | Some p =>
      match activated a !! ID p with
      | Some _ => Ok a
      | None => Ok (set_activated (<[ID p := p]> (activated a)) a)
      end
  end.

Definition removeActivated (pid : option PID) (a : Agent) : result Agent :=
  match pid with
  | None => Panic NilDeref
  | Some p => Ok (set_activated (delete (ID p) (activated a)) a)
  end.

Definition hasKindLocal (name : string) (a : Agent) : bool := bool_decide (is_Some (localKinds a !! name)).

(** [if _, ok := kinds[kind]; !ok { kinds[kind] = true }] for each kind. *)
Definition track_kinds (ks : list string) (m : gmap string bool) : gmap string bool :=
  foldl (fun m k => match m !! k with Some _ => m | None => <[k := true]> m end) m ks.

Definition rebuildKinds (a : Agent) : Agent :=
  set_kinds (ForEach (fun m ks => (true, track_kinds (Kinds m) ks)) (a_members a) ∅) a.

Definition bcast (msg : cmsg) (a : Agent) : list effect :=
  ForEach (fun m es => (true, es ++ [ESend (Some (Member_PID m)) msg])) (a_members a) [].

Definition memberJoin (member : Member) (a : Agent) : handler Agent :=
  let a := set_members (Add member (a_members a)) a in
  let a := set_kinds (track_kinds (Kinds member) (kinds a)) a in
  let actorInfos := (fun '(_, pid) => Some pid) <$> range (activated a) in
  Ok (a, (if 0 <? zlen actorInfos then [ESend (Some (Member_PID member)) (MActorTopology actorInfos)] else [])
           ++ [EBroadcast (MemberJoinEvent member)]).

(** The loop over [a.activated], which deletes from the map it ranges over: an
    entry that was deleted before it is reached is not visited. *)
Definition drop_host (host : string) (act : gmap string PID) : gmap string PID :=
  foldl (fun act '(k, pid) =>
    match act !! k with
    | Some _ => if String.eqb (Address pid) host then delete (ID pid) act else act
    | None => act
    end) act (range act).

Definition memberLeave (member : Member) (a : Agent) : handler Agent :=
  ms ← Remove (Some member) (a_members a);
  let a := rebuildKinds (set_members ms a) in
  let a := set_activated (drop_host (Host member) (activated a)) a in
  Ok (a, [EBroadcast (MemberLeaveEvent member)]).

(** A loop of handlers. *)
Fixpoint handle_each {A} (f : A -> Agent -> handler Agent) (xs : list A) (a : Agent) : handler Agent :=
  match xs with
  | [] => Ok (a, [])
  | x :: xs => '(a, es) ← f x a; '(a, es') ← handle_each f xs a; Ok (a, es ++ es')
  end.

Definition handleMembers (ms : list Member) (a : Agent) : handler Agent :=
  let joined := Except (Slice (a_members a)) (NewMemberSet ms) in
  let left := Except ms (a_members a) in
  '(a, es) ← handle_each memberJoin joined a;
  '(a, es') ← handle_each memberLeave left a;
  Ok (a, es ++ es').

Definition handleActorTopology (actors : list (option PID)) (a : Agent) : handler Agent :=
  handle_each (fun pid a => a ← addActivated pid a; Ok (a, [])) actors a.

Definition handleActivation (pid : option PID) (a : Agent) : handler Agent :=
  a ← addActivated pid a; Ok (a, [EBroadcast (ActivationEvent pid)]).

Definition handleDeactivation (pid : option PID) (a : Agent) : handler Agent :=
  a ← removeActivated pid a; Ok (a, [EPoison pid; EBroadcast (DeactivationEvent pid)]).

(** The PID [Engine.Spawn] returns for a kind and an id. *)
Definition spawned (rnd : draws) (kind id : string) : PID :=
  NewPID self_address (kind +:+ pidSeparator +:+ options_ID rnd id).

(** The PID and the success flag of the response. *)
Definition handleActivationRequest (rnd : draws) (kind id : string) (a : Agent) : option PID * bool * list effect :=
  if negb (hasKindLocal kind a) then (None, false, [])
  else (Some (spawned rnd kind id), true, [ESpawn kind (options_ID rnd id)]).

(** [activate]: [resp] is the result of the request to another member, [None] on an
    error. *)
Definition activate (kind : string) (config : ActivationConfig) (rnd : draws) (resp : option cmsg) (a : Agent)
  : option PID * list effect :=
  let id := kind +:+ "/" +:+ cfg_id config in
  match activated a !! id with
  | Some _ => (None, [])
  | None =>
      let members := FilterByKind kind (a_members a) in
      if (length members =? 0)%nat then (None, []) else
      let select := default (SelectRandomMember (d_member rnd)) (selectMember config) in
      match select (mkDetails (cfg_region config) members kind) with
      | None => (None, [])
      | Some m =>
          if String.eqb (Host m) self_address then
            let '(pid, _, es) := handleActivationRequest rnd kind (cfg_id config) a in
            (pid, es ++ bcast (MActivation pid) a)
          else
            let req := ERequest (NewPID (Host m) ("cluster/" +:+ MID m)) (MActivationRequest kind (cfg_id config)) in
            match resp with
            | Some (MActivationResponse pid true) => (pid, req :: bcast (MActivation pid) a)
            | _ => (None, [req])
            end
      end
  end.

Definition handleGetActive (id kind : string) (a : Agent) : list effect :=
  (if (0 <? String.length id)%nat then [ERespond (RPid (activated a !! id))] else []) ++
  (if (0 <? String.length kind)%nat
   then [ERespond (RPids ((fun '(_, pid) => Some pid) <$>
           List.filter (fun '(id, _) => String.eqb kind (before_slash id)) (range (activated a))))]
   else []).

(** What the agent receives: wire messages and those of its own node. *)
Inductive amsg :=
  | AWire (m : cmsg)
  | AActivate (kind : string) (config : ActivationConfig)
  | ADeactivate (pid : option PID)
  | AGetMembers | AGetKinds
  | AGetActive (id kind : string)
  | AOther.

Definition Receive (rnd : draws) (resp : option cmsg) (msg : amsg) (a : Agent) : handler Agent :=
  match msg with
  | AWire (MActorTopology actors) => handleActorTopology actors a
  | AWire (MMembers ms) => handleMembers ms a
  | AWire (MActivation pid) => handleActivation pid a
  | AActivate kind config =>
      let '(pid, es) := activate kind config rnd resp a in Ok (a, es ++ [ERespond (RPid pid)])
  | ADeactivate pid => Ok (a, bcast (MDeactivation pid) a)
  | AWire (MDeactivation pid) => handleDeactivation pid a
  | AWire (MActivationRequest kind id) =>
      let '(pid, ok, es) := handleActivationRequest rnd kind id a in
      Ok (a, es ++ [ERespond (RMessage (MActivationResponse pid ok))])
  | AGetMembers => Ok (a, [ERespond (RMembers (Slice (a_members a)))])
  | AGetKinds => Ok (a, [ERespond (RKinds (range (kinds a)).*1)])
  | AGetActive id kind => Ok (a, handleGetActive id kind a)
  | AWire _ | AOther => Ok (a, [])
  end.

(** The agent on a sequence of messages (with the answers to its requests). *)
Fixpoint Receive_all (msgs : list (draws * option cmsg * amsg)) (a : Agent) : handler Agent :=
  match msgs with
  | [] => Ok (a, [])
  | (rnd, resp, msg) :: msgs =>
      '(a, es) ← Receive rnd resp msg a; '(a, es') ← Receive_all msgs a; Ok (a, es ++ es')
  end.
End agent.

(** ** The invariant *)

Section invariant.
Context `{Range}.

(** Members are stored by id and activated actors by the id of their PID; the kinds
    known are those of the members, and possibly local ones. *)
Definition agent_ok (a : Agent) : Prop :=
  set_ok (a_members a) /\
  (forall id p, activated a !! id = Some p -> ID p = id) /\
  (forall id m k, members (a_members a) !! id = Some m -> k ∈ Kinds m -> is_Some (kinds a !! k)) /\
  (forall k, is_Some (kinds a !! k) ->
     is_Some (localKinds a !! k) \/ exists id m, members (a_members a) !! id = Some m /\ k ∈ Kinds m).

Lemma track_kinds_lookup ks m k : is_Some (track_kinds ks m !! k) <-> k ∈ ks \/ is_Some (m !! k).
Proof.
  unfold track_kinds. revert m. induction ks as [|x ks IH]; intros m; simpl.
  { rewrite elem_of_nil. tauto. }
  rewrite IH, elem_of_cons. destruct (m !! x) eqn:Hx.
  - split; [tauto|]. intros [[->|?]|?]; [right; by eexists|tauto|tauto].
  - destruct (decide (k = x)) as [->|Hne]; [rewrite lookup_insert_eq; split; [tauto|]; intros _; right; by eexists|].
    rewrite lookup_insert_ne by done. split; [tauto|]. intros [[?|?]|?]; [done|tauto|tauto].
Qed.

Lemma options_ID_eq rnd id : options_ID rnd id = if decide (id = ""%string) then d_id rnd else id.
Proof. unfold options_ID. by destruct id; case_decide. Qed.

Lemma options_ID_given rnd id : id <> ""%string -> options_ID rnd id = id.
Proof. intros Hid. rewrite options_ID_eq. by rewrite decide_False. Qed.

Lemma for_each_true {S} (f : Member -> S -> S) ms st :
  for_each (fun m s => (true, f m s)) ms st = foldl (fun s m => f m s) st ms.
Proof. revert st. induction ms as [|m ms IH]; intros st; [done|]. apply IH. Qed.

Lemma rebuildKinds_lookup a k : set_ok (a_members a) ->
  is_Some (kinds (rebuildKinds a) !! k) <-> exists id m, members (a_members a) !! id = Some m /\ k ∈ Kinds m.
Proof.
  intros Hok. unfold rebuildKinds, ForEach. cbn [set_kinds kinds]. rewrite for_each_true.
  assert (Hg : forall ms acc, is_Some (foldl (fun s m => track_kinds (Kinds m) s) acc ms !! k) <->
    (exists m, m ∈ ms /\ k ∈ Kinds m) \/ is_Some (acc !! k)).
  { induction ms as [|m ms IH]; intros acc; simpl.
    - split; [by right|]. intros [(m & Hm%elem_of_nil & _)|?]; done.
    - rewrite IH, track_kinds_lookup. split.
      + intros [(x & Hx & Hk)|[Hk|?]]; [left; exists x; split; [by right|done]|left; exists m; split; [by left|done]|by right].
      + intros [(x & [->|Hx]%elem_of_cons & Hk)|?]; [right; by left|left; by exists x|right; by right]. }
  rewrite Hg, lookup_empty. split.
  - intros [(m & Hm & Hk)|[? [=]]]. exists (MID m), m. split; [by apply elem_of_values|done].
  - intros (id & m & Hm & Hk). left. exists m. split; [|done]. apply elem_of_values; [done|].
    by rewrite (Hok id m Hm).
Qed.

Lemma bcast_eq msg a : bcast msg a = (fun m => ESend (Some (Member_PID m)) msg) <$> values (a_members a).
Proof.
  unfold bcast, ForEach. rewrite for_each_true.
  assert (Hg : forall ms acc, foldl (fun es m => es ++ [ESend (Some (Member_PID m)) msg]) acc ms =
    acc ++ ((fun m => ESend (Some (Member_PID m)) msg) <$> ms)).
  { induction ms as [|m ms IH]; intros acc; [by rewrite app_nil_r|].
    cbn [foldl]. by rewrite IH, <-app_assoc, fmap_cons. }
  by rewrite Hg.
Qed.

(** *** One member joins, one leaves *)

Definition join_effects (m : Member) (act : gmap string PID) : list effect :=
  let infos := (fun '(_, pid) => Some pid) <$> range act in
  (if 0 <? zlen infos then [ESend (Some (Member_PID m)) (MActorTopology infos)] else []) ++ [EBroadcast (MemberJoinEvent m)].

Lemma memberJoin_ok m a :
  agent_ok a -> exists a', memberJoin m a = Ok (a', join_effects m (activated a)) /\
    activated a' = activated a /\ localKinds a' = localKinds a /\
    (forall id, members (a_members a') !! id = if decide (id = MID m) then Some m else members (a_members a) !! id) /\
    (forall k, is_Some (kinds a' !! k) <-> k ∈ Kinds m \/ is_Some (kinds a !! k)) /\ set_ok (a_members a').
Proof.
  intros (Hs & Hact & Hk1 & Hk2). eexists. split; [reflexivity|].
  cbn [set_kinds set_members activated localKinds a_members kinds Add members].
  assert (Hl : forall id, add_member (members (a_members a)) m !! id =
    if decide (id = MID m) then Some m else members (a_members a) !! id).
  { intros id. unfold add_member. case_decide; [subst; by rewrite lookup_insert_eq|by rewrite lookup_insert_ne]. }
  split_and!; [done|done|done|intros k; apply track_kinds_lookup|].
  intros id x. cbn [members]. rewrite Hl. case_decide; [|apply Hs]. intros [= <-]. done.
Qed.

Lemma drop_host_lookup host act id :
  (forall id p, act !! id = Some p -> ID p = id) ->
  drop_host host act !! id = match act !! id with
                             | Some p => if String.eqb (Address p) host then None else Some p
                             | None => None
                             end.
Proof.
  intros Hact. unfold drop_host.
  (* generalise over the entries still to visit *)
  assert (Hg : forall (l : list (string * PID)) (m : gmap string PID), (forall k p, (k, p) ∈ l -> act !! k = Some p) ->
    (forall k p, m !! k = Some p -> act !! k = Some p) ->
    foldl (fun act '(k, pid) => match act !! k with
      | Some _ => if String.eqb (Address pid) host then delete (ID pid) act else act
      | None => act end) m l !! id =
    match m !! id with
    | Some p => if String.eqb (Address p) host && bool_decide (id ∈ l.*1) then None else Some p
    | None => None
    end).
  { induction l as [|[k p] l IH]; intros m Hl Hm; cbn [foldl].
    - destruct (m !! id); [|done]. by rewrite andb_false_r.
    - assert (Hkp : act !! k = Some p) by (apply Hl; by left).
      assert (Hl' : forall k p, (k, p) ∈ l -> act !! k = Some p) by (intros; apply Hl; by right).
      pose proof (Hact k p Hkp) as Hid. rewrite fmap_cons. cbn [fst].
      destruct (decide (id = k)) as [->|Hne].
      + rewrite (bool_decide_true (k ∈ k :: l.*1)) by by left.
        destruct (m !! k) as [p'|] eqn:Hmk.
        * assert (p' = p) as -> by (apply Hm in Hmk; congruence). rewrite andb_true_r.
          destruct (String.eqb (Address p) host) eqn:Ea.
          -- rewrite IH; [|done|]; rewrite Hid; [by rewrite lookup_delete_eq|].
             intros k' q' [_ ?]%lookup_delete_Some. by apply Hm.
          -- rewrite IH by done. by rewrite Hmk, Ea.
        * rewrite IH by done. by rewrite Hmk.
      + assert (Hbd : bool_decide (id ∈ k :: l.*1) = bool_decide (id ∈ l.*1)).
        { apply bool_decide_ext. rewrite elem_of_cons. tauto. }
        rewrite Hbd. destruct (m !! k) eqn:Hmk; [|by apply IH].
        destruct (String.eqb (Address p) host); [|by apply IH].
        rewrite IH; [|done|intros k' q' [_ ?]%lookup_delete_Some; by apply Hm].
        rewrite Hid, lookup_delete_ne by congruence. done. }
  rewrite Hg; [|intros k p; apply range_lookup|done].
  destruct (act !! id) as [p|] eqn:E; [|done].
  rewrite bool_decide_true, andb_true_r; [done|]. apply list_elem_of_fmap. exists (id, p). split; [done|]. by apply range_lookup.
Qed.

Lemma memberLeave_ok m a :
  agent_ok a -> exists a', memberLeave m a = Ok (a', [EBroadcast (MemberLeaveEvent m)]) /\
    localKinds a' = localKinds a /\
    (forall id, members (a_members a') !! id = if decide (id = MID m) then None else members (a_members a) !! id) /\
    (forall id, activated a' !! id = match activated a !! id with
       | Some p => if String.eqb (Address p) (Host m) then None else Some p | None => None end) /\
    (forall k, is_Some (kinds a' !! k) <-> exists id m, members (a_members a') !! id = Some m /\ k ∈ Kinds m) /\
    set_ok (a_members a').
Proof.
  intros (Hs & Hact & Hk1 & Hk2). unfold memberLeave, Remove. cbn [mbind result_bind].
  set (s' := mkSet (delete (MID m) (members (a_members a)))).
  assert (Hs' : set_ok s') by (intros id x Hx; cbn [s' members] in Hx; apply lookup_delete_Some in Hx as [_ Hx]; by apply Hs).
  eexists. split; [reflexivity|]. split_and!.
  - done.
  - intros id. cbn [set_activated a_members rebuildKinds set_kinds set_members]. unfold s'. cbn [members].
    case_decide; [subst; by rewrite lookup_delete_eq|by rewrite lookup_delete_ne].
  - intros id. cbn [set_activated activated rebuildKinds set_kinds set_members]. by apply drop_host_lookup.
  - intros k. cbn [set_activated kinds a_members]. change (a_members (rebuildKinds (set_members s' a))) with s'.
    by apply (rebuildKinds_lookup (set_members s' a)).
  - done.
Qed.

Lemma memberJoin_inv m a a' es :
  agent_ok a -> members (a_members a) !! MID m = None -> memberJoin m a = Ok (a', es) -> agent_ok a'.
Proof.
  intros Hok Hnew He. destruct (memberJoin_ok m a Hok) as (a1 & H1 & Ha & Hl & Hm & Hk & Hs).
  rewrite H1 in He. injection He as <- _. destruct Hok as (_ & Hact & Hk1 & Hk2). split_and!; [done|by rewrite Ha| |].
  - intros id x k Hx Hin. apply Hk. rewrite Hm in Hx. case_decide; [simplify_eq; by left|right; by eapply Hk1].
  - intros k [Hin|Hs']%Hk.
    + right. exists (MID m), m. split; [|done]. by rewrite Hm, decide_True.
    + rewrite Hl. destruct (Hk2 k Hs') as [?|(id & x & Hx & Hin)]; [by left|right].
      exists id, x. rewrite Hm, decide_False; [done|]. intros ->. congruence.
Qed.

Lemma memberLeave_inv m a a' es : agent_ok a -> memberLeave m a = Ok (a', es) -> agent_ok a'.
Proof.
  intros Hok He. destruct (memberLeave_ok m a Hok) as (a1 & H1 & Hl & Hm & Hact' & Hk & Hs).
  rewrite H1 in He. injection He as <- _. destruct Hok as (_ & Hact & _). split_and!; [done| | |].
  - intros id p. rewrite Hact'. destruct (activated a !! id) as [q|] eqn:E; [|done].
    destruct (String.eqb _ _); [done|]. intros [= <-]. by apply Hact.
  - intros id x k Hx Hin. apply Hk. by exists id, x.
  - intros k Hs'. right. by apply Hk.
Qed.

Lemma last_with_cons id m ms :
  last_with id (m :: ms) = match last_with id ms with Some x => Some x | None => if String.eqb (MID m) id then Some m else None end.
Proof.
  unfold last_with. cbn [foldl]. generalize (if String.eqb (MID m) id then Some m else None) as acc.
  induction ms as [|x ms IH] using rev_ind; intros acc; [done|]. rewrite !foldl_app. cbn [foldl].
  by destruct (String.eqb (MID x) id).
Qed.

(** *** Many members join, many leave *)

Lemma joins_ok js a :
  agent_ok a -> NoDup (MID <$> js) -> (forall m, m ∈ js -> members (a_members a) !! MID m = None) ->
  exists a', handle_each memberJoin js a = Ok (a', concat ((fun m => join_effects m (activated a)) <$> js)) /\
    agent_ok a' /\ activated a' = activated a /\ localKinds a' = localKinds a /\
    (forall id, members (a_members a') !! id = match last_with id js with Some m => Some m | None => members (a_members a) !! id end) /\
    (js = [] -> a' = a).
Proof.
  revert a. induction js as [|m js IH]; intros a Hok Hnd Hnew; [by exists a|].
  rewrite fmap_cons, NoDup_cons in Hnd. destruct Hnd as [Hm Hnd].
  destruct (memberJoin_ok m a Hok) as (a1 & H1 & Ha1 & Hl1 & Hm1 & _ & _).
  assert (Hok1 : agent_ok a1) by (eapply memberJoin_inv; [done|apply Hnew; by left|exact H1]).
  destruct (IH a1 Hok1 Hnd) as (a2 & H2 & Hok2 & Ha2 & Hl2 & Hm2 & _).
  { intros x Hx. rewrite Hm1, decide_False; [apply Hnew; by right|]. intros Heq. apply Hm. rewrite <-Heq.
    by apply list_elem_of_fmap_2. }
  exists a2. cbn [handle_each]. rewrite H1. cbn [mbind result_bind]. rewrite H2. cbn [mbind result_bind].
  rewrite Ha1, fmap_cons. cbn [concat]. split; [done|]. split_and!; [done|congruence|congruence| |done].
  intros id. rewrite Hm2, last_with_cons, Hm1. destruct (last_with id js); [done|].
  destruct (String.eqb_spec (MID m) id) as [->|Hne]; [by rewrite decide_True|by rewrite decide_False by congruence].
Qed.

Definition on_host (ms : list Member) (p : PID) : bool := existsb (fun m => String.eqb (Address p) (Host m)) ms.

Lemma leaves_ok ls a :
  agent_ok a ->
  exists a', handle_each memberLeave ls a = Ok (a', (fun m => EBroadcast (MemberLeaveEvent m)) <$> ls) /\
    agent_ok a' /\ localKinds a' = localKinds a /\
    (forall id, members (a_members a') !! id = match last_with id ls with Some _ => None | None => members (a_members a) !! id end) /\
    (forall id, activated a' !! id = match activated a !! id with
       | Some p => if on_host ls p then None else Some p | None => None end) /\
    (ls <> [] -> forall k, is_Some (kinds a' !! k) <-> exists id m, members (a_members a') !! id = Some m /\ k ∈ Kinds m) /\
    (ls = [] -> a' = a).
Proof.
  revert a. induction ls as [|m ls IH]; intros a Hok.
  { exists a. split_and!; try done. intros id. by destruct (activated a !! id). }
  destruct (memberLeave_ok m a Hok) as (a1 & H1 & Hl1 & Hm1 & Ha1 & Hk1 & _).
  assert (Hok1 : agent_ok a1) by (by eapply memberLeave_inv).
  destruct (IH a1 Hok1) as (a2 & H2 & Hok2 & Hl2 & Hm2 & Ha2 & Hk2 & He2).
  exists a2. cbn [handle_each]. rewrite H1. cbn [mbind result_bind]. rewrite H2. cbn [mbind result_bind app].
  rewrite fmap_cons. split; [done|]. split_and!; [done|congruence| | | |done].
  - intros id. rewrite Hm2, last_with_cons, Hm1. destruct (last_with id ls); [done|].
    destruct (String.eqb_spec (MID m) id) as [->|Hne]; [by rewrite decide_True|by rewrite decide_False by congruence].
  - intros id. rewrite Ha2, Ha1. destruct (activated a !! id) as [p|]; [|done]. cbn [on_host existsb].
    by destruct (String.eqb (Address p) (Host m)).
  - intros _ k. destruct ls as [|m' ls]; [rewrite (He2 eq_refl); apply Hk1|by apply Hk2].
Qed.

Lemma handleMembers_ok ms a :
  agent_ok a ->
  let joined := Except (Slice (a_members a)) (NewMemberSet ms) in
  let left := Except ms (a_members a) in
  exists a', handleMembers ms a = Ok (a', concat ((fun m => join_effects m (activated a)) <$> joined) ++
      ((fun m => EBroadcast (MemberLeaveEvent m)) <$> left)) /\
    agent_ok a' /\ localKinds a' = localKinds a /\
    (forall id, members (a_members a') !! id =
       match last_with id ms with Some m => Some (default m (members (a_members a) !! id)) | None => None end) /\
    (forall id, activated a' !! id = match activated a !! id with
       | Some p => if on_host left p then None else Some p | None => None end) /\
    (left <> [] -> forall k, is_Some (kinds a' !! k) <-> exists id m, members (a_members a') !! id = Some m /\ k ∈ Kinds m).
Proof.
  intros Hok joined left. pose proof Hok as (Hs & _).
  assert (Hj : forall m, m ∈ joined <-> last_with (MID m) ms = Some m /\ members (a_members a) !! MID m = None).
  { intros m. unfold joined. rewrite elem_of_Except by apply NewMemberSet_ok.
    unfold Slice. by rewrite NewMemberSet_lookup, last_with_values. }
  assert (Hl : forall m, m ∈ left <-> members (a_members a) !! MID m = Some m /\ last_with (MID m) ms = None).
  { intros m. by apply elem_of_Except. }
  destruct (joins_ok joined a Hok) as (a1 & H1 & Hok1 & Ha1 & Hl1 & Hm1 & _).
  { apply Except_NoDup, NewMemberSet_ok. }
  { intros m Hm. by apply Hj. }
  destruct (leaves_ok left a1 Hok1) as (a2 & H2 & Hok2 & Hl2 & Hm2 & Ha2 & Hk2 & _).
  exists a2. unfold handleMembers. fold joined left. rewrite H1. cbn [mbind result_bind]. rewrite H2. cbn [mbind result_bind].
  split; [done|]. split_and!; [done|congruence| | |done].
  - intros id. rewrite Hm2, Hm1.
    assert (Hjid : last_with id joined = match members (a_members a) !! id with None => last_with id ms | Some _ => None end).
    { pose proof (last_with_spec id joined) as Hspec. destruct (last_with id joined) as [m|].
      - destruct Hspec as [[Hm Hn]%Hj Hid]. rewrite Hid in Hm, Hn. by rewrite Hn.
      - destruct (members (a_members a) !! id) eqn:E; [done|]. destruct (last_with id ms) as [m|] eqn:Em; [|done].
        exfalso. pose proof (last_with_spec id ms) as Hspec'. rewrite Em in Hspec'. destruct Hspec' as [_ Hid].
        apply (Hspec m); [|done]. apply Hj. by rewrite Hid. }
    assert (Hlid : last_with id left = match last_with id ms with None => members (a_members a) !! id | Some _ => None end).
    { pose proof (last_with_spec id left) as Hspec. destruct (last_with id left) as [m|].
      - destruct Hspec as [[Hm Hn]%Hl Hid]. rewrite Hid in Hm, Hn. by rewrite Hn.
      - destruct (last_with id ms) eqn:Em; [done|]. destruct (members (a_members a) !! id) as [m|] eqn:E; [|done].
        exfalso. pose proof (Hs id m E) as Hid. apply (Hspec m); [|done]. apply Hl. by rewrite Hid. }
    rewrite Hlid, Hjid. destruct (last_with id ms), (members (a_members a) !! id); done.
  - intros id. by rewrite Ha2, Ha1.
Qed.
End invariant.

(** ** Histories *)

Section history.
Context `{Range}.
Variable self_address : string.
#[local] Abbreviation Receive := (Receive self_address).
#[local] Abbreviation Receive_all := (Receive_all self_address).

(** The message carries no nil PID. *)
Definition no_nil (msg : amsg) : bool :=
  match msg with
  | AWire (MActivation None) | AWire (MDeactivation None) => false
  | AWire (MActorTopology actors) => forallb (fun p => bool_decide (is_Some p)) actors
  | _ => true
  end.

Lemma NewAgent_ok names : agent_ok (NewAgent names).
Proof.
  split_and!; cbn [NewAgent a_members activated kinds localKinds].
  - apply NewMemberSet_ok.
  - intros id p. by rewrite lookup_empty.
  - intros id m k. rewrite NewMemberSet_lookup. done.
  - intros k. assert (Hg : forall ks (m : gmap string bool) (n : gmap string unit),
      (is_Some (m !! k) -> is_Some (n !! k)) ->
      is_Some (foldl (fun m k => <[k := true]> m) m ks !! k) -> is_Some (foldl (fun m k => <[k := tt]> m) n ks !! k)).
    { induction ks as [|x ks IH]; intros m n Hmn; [done|]. apply IH.
      destruct (decide (k = x)) as [->|Hne]; [rewrite !lookup_insert_eq; by eexists|by rewrite !lookup_insert_ne]. }
    intros Hk. left. revert Hk. apply Hg. by intros [? [=]].
Qed.

Lemma addActivated_ok p a :
  agent_ok a -> exists a', addActivated (Some p) a = Ok a' /\ agent_ok a' /\ a_members a' = a_members a /\
    kinds a' = kinds a /\ localKinds a' = localKinds a /\
    forall id, activated a' !! id = match activated a !! id with
      | Some q => Some q | None => if decide (id = ID p) then Some p else None end.
Proof.
  intros (Hs & Hact & Hk). unfold addActivated. destruct (activated a !! ID p) as [q|] eqn:E.
  - exists a. split_and!; try done. intros id. destruct (activated a !! id) eqn:E'; [done|].
    rewrite decide_False; [done|]. intros ->. congruence.
  - eexists. split; [done|]. assert (Hl : forall id, <[ID p := p]> (activated a) !! id = match activated a !! id with
      | Some q => Some q | None => if decide (id = ID p) then Some p else None end).
    { intros id. case_decide as Hd; [subst; by rewrite lookup_insert_eq, E|].
      rewrite lookup_insert_ne by done. by destruct (activated a !! id). }
    split; [|by split_and!]. split; [done|]. split; [|done]. intros id q. cbn [set_activated activated]. rewrite Hl.
    destruct (activated a !! id) eqn:E'; [intros [= ->]; by apply Hact|]. case_decide; [by intros [= <-]|done].
Qed.

Lemma topology_ok actors a :
  agent_ok a ->
  if forallb (fun p => bool_decide (is_Some p)) actors
  then exists a', handleActorTopology actors a = Ok (a', []) /\ agent_ok a' /\ a_members a' = a_members a /\
    localKinds a' = localKinds a
  else handleActorTopology actors a = Panic NilDeref.
Proof.
  unfold handleActorTopology. revert a. induction actors as [|p actors IH]; intros a Hok; [by exists a|].
  cbn [forallb handle_each]. destruct p as [p|]; [|done].
  destruct (addActivated_ok p a Hok) as (a1 & -> & Hok1 & Hm1 & _ & Hl1 & _). cbn [mbind result_bind].
  rewrite bool_decide_true by by eexists. cbn [andb]. specialize (IH a1 Hok1).
  destruct (forallb _ actors); [|by rewrite IH].
  destruct IH as (a2 & -> & Hok2 & Hm2 & Hl2). exists a2. cbn [mbind result_bind app]. split_and!; [done|done|congruence..].
Qed.

Lemma removeActivated_ok p a :
  agent_ok a -> agent_ok (set_activated (delete (ID p) (activated a)) a).
Proof.
  intros (Hs & Hact & Hk). split; [done|]. split; [|done]. intros id q Hq. cbn [set_activated activated] in Hq.
  apply lookup_delete_Some in Hq as [_ Hq]. by apply Hact.
Qed.

(** One message. *)
Lemma Receive_ok rnd resp msg a :
  agent_ok a ->
  if no_nil msg
  then exists a' es, Receive rnd resp msg a = Ok (a', es) /\ agent_ok a' /\ localKinds a' = localKinds a
  else Receive rnd resp msg a = Panic NilDeref.
Proof.
  intros Hok. destruct msg as [[m|ms|actors|[p|]|[p|]|kind id|pid ok|from]|kind config|pid| | |id kind|];
    cbn [no_nil Agent.Receive]; try (by eexists a, _); try reflexivity.
  - destruct (handleMembers_ok ms a Hok) as (a' & H1 & Hok' & Hl & _). by eexists a', _.
  - pose proof (topology_ok actors a Hok) as Ht. destruct (forallb _ actors); [|done].
    destruct Ht as (a' & H1 & Hok' & _ & Hl). by exists a', [].
  - unfold handleActivation. destruct (addActivated_ok p a Hok) as (a' & -> & Hok' & _ & _ & Hl & _).
    cbn [mbind result_bind]. by eexists a', _.
  - eexists _, _. split; [reflexivity|]. split; [by apply removeActivated_ok|done].
  - destruct (handleActivationRequest _ _ _ _ _) as [[pid ok] es]. by exists a, (es ++ [ERespond (RMessage (MActivationResponse pid ok))]).
  - destruct (activate _ _ _ _ _ _) as [pid es]. by exists a, (es ++ [ERespond (RPid pid)]).
Qed.

Lemma Receive_all_ok msgs a :
  agent_ok a ->
  if forallb (fun '(_, _, msg) => no_nil msg) msgs
  then exists a' es, Receive_all msgs a = Ok (a', es) /\ agent_ok a' /\ localKinds a' = localKinds a
  else Receive_all msgs a = Panic NilDeref.
Proof.
  revert a. induction msgs as [|[[rnd resp] msg] msgs IH]; intros a Hok; [by exists a, []|].
  cbn [forallb Agent.Receive_all]. pose proof (Receive_ok rnd resp msg a Hok) as Hr.
  destruct (no_nil msg); [|by rewrite Hr]. destruct Hr as (a1 & es & -> & Hok1 & Hl1). cbn [mbind result_bind andb].
  specialize (IH a1 Hok1). destruct (forallb _ msgs); [|by rewrite IH].
  destruct IH as (a2 & es2 & -> & Hok2 & Hl2). eexists a2, _. split; [done|]. split; [done|congruence].
Qed.

Lemma Receive_all_app l1 l2 a b es :
  Receive_all l1 a = Ok (b, es) ->
  Receive_all (l1 ++ l2) a = '(c, es') ← Receive_all l2 b; Ok (c, es ++ es').
Proof.
  revert a es. induction l1 as [|[[rnd resp] m] l1 IH]; intros a es A1.
  - injection A1 as -> <-. cbn [app]. destruct (Receive_all l2 b) as [[? ?]|]; done.
  - cbn [app Agent.Receive_all] in *. destruct (Receive rnd resp m a) as [[b1 e1]|]; [|done].
    cbn [mbind result_bind] in *. destruct (Receive_all l1 b1) as [[b' e']|] eqn:E; [|done].
    injection A1 as -> <-. rewrite (IH b1 e' E). destruct (Receive_all l2 b) as [[? ?]|]; [|done].
    cbn [mbind result_bind]. by rewrite app_assoc.
Qed.

(** Recording activations, first come first served. *)
Definition first_with (id : string) (ps : list PID) : option PID := List.find (fun p => String.eqb (ID p) id) ps.

Definition activations (ps : list PID) : list (draws * option cmsg * amsg) :=
  (fun p => (mkDraws 0 "", None, AWire (MActivation (Some p)))) <$> ps.

Lemma activations_ok ps a :
  agent_ok a ->
  exists a', Receive_all (activations ps) a = Ok (a', (fun p => EBroadcast (ActivationEvent (Some p))) <$> ps) /\
    agent_ok a' /\
    forall id, activated a' !! id = match activated a !! id with Some q => Some q | None => first_with id ps end.
Proof.
  unfold activations. revert a. induction ps as [|p ps IH]; intros a Hok.
  { exists a. split_and!; try done. intros id. by destruct (activated a !! id). }
  rewrite !fmap_cons. cbn [Agent.Receive_all Agent.Receive]. unfold handleActivation.
  destruct (addActivated_ok p a Hok) as (a1 & -> & Hok1 & _ & _ & _ & Hl). cbn [mbind result_bind].
  destruct (IH a1 Hok1) as (a2 & -> & Hok2 & Hl2). cbn [mbind result_bind].
  exists a2. split; [done|]. split; [done|]. intros id. rewrite Hl2, Hl. destruct (activated a !! id); [done|].
  unfold first_with. cbn [List.find]. destruct (String.eqb_spec (ID p) id) as [->|Hne]; [by rewrite decide_True|].
  by rewrite decide_False by congruence.
Qed.
End history.

(** ** Correctness of the agent *)


(** C17: Membership.  Handling a list of members makes it the membership: exactly
    the ids of the list are members afterwards (a member already known keeps the
    data it joined with).  Everyone who joins is sent the table of activated
    actors, if there are any, and announced; everyone who leaves is announced, the
    actors activated at a host that left are forgotten and no others, and the
    kinds become those of the remaining members. *)
Theorem agent_follows_members `{Range} (self_address : string) (rnd : draws) (resp : option cmsg) (ms : list Member) (a : Agent)
    (Hok : agent_ok a) :
  let joined := Except (Slice (a_members a)) (NewMemberSet ms) in
  let left := Except ms (a_members a) in
  exists a', Receive self_address rnd resp (AWire (MMembers ms)) a =
      Ok (a', concat ((fun m => join_effects m (activated a)) <$> joined) ++
              ((fun m => EBroadcast (MemberLeaveEvent m)) <$> left)) /\
    (forall id, members (a_members a') !! id =
       match last_with id ms with Some m => Some (default m (members (a_members a) !! id)) | None => None end) /\
    (forall id, activated a' !! id = match activated a !! id with
       | Some p => if on_host left p then None else Some p | None => None end) /\
    (left <> [] -> forall k, is_Some (kinds a' !! k) <-> exists id m, members (a_members a') !! id = Some m /\ k ∈ Kinds m).
Proof.
  intros joined left. destruct (handleMembers_ok ms a Hok) as (a' & H1 & _ & _ & H2 & H3 & H4).
  exists a'. split; [exact H1|]. by split_and!.
Qed.

Definition demo_draws : draws := mkDraws 0 "8674665223082153551".
Definition demo_m1 : Member := mkMember "A" "10.0.0.1:4000" "default" ["player"; "room"].
Definition demo_m2 : Member := mkMember "B" "10.0.0.2:4000" "default" ["player"].
Definition demo_agent : Agent :=
  match @Receive_all map_order "10.0.0.1:4000"
    [(demo_draws, None, AWire (MMembers [demo_m1; demo_m2]));
     (demo_draws, None, AWire (MActivation (Some (NewPID "10.0.0.2:4000" "player/1"))))] (NewAgent ["player"; "room"]) with
  | Ok (a, _) => a
  | Panic _ => NewAgent []
  end.

Lemma demo_agent_ok : agent_ok demo_agent.
Proof.
  pose proof (@Receive_all_ok map_order "10.0.0.1:4000"
    [(demo_draws, None, AWire (MMembers [demo_m1; demo_m2]));
     (demo_draws, None, AWire (MActivation (Some (NewPID "10.0.0.2:4000" "player/1"))))] _ (NewAgent_ok ["player"; "room"])) as Hr.
  cbn [forallb no_nil andb] in Hr. destruct Hr as (a & es & Hr & Hok & _). unfold demo_agent. by rewrite Hr.
Qed.

(** The second member leaves, and its player with it. *)
Lemma agent_follows_members_witness :
  exists a', @Receive map_order "10.0.0.1:4000" demo_draws None (AWire (MMembers [demo_m1])) demo_agent =
      Ok (a', [EBroadcast (MemberLeaveEvent demo_m2)]) /\
    members (a_members a') !! "A"%string = Some demo_m1 /\ members (a_members a') !! "B"%string = None /\
    activated a' !! "player/1"%string = None.
Proof.
  destruct (@agent_follows_members map_order "10.0.0.1:4000" demo_draws None [demo_m1] demo_agent demo_agent_ok)
    as (a' & H1 & H2 & H3 & _).
  exists a'. split; [rewrite H1; vm_compute; reflexivity|]. split; [rewrite H2; vm_compute; reflexivity|].
  split; [rewrite H2; vm_compute; reflexivity|]. rewrite H3. vm_compute. reflexivity.
Defined.

(** Who is active where depends on who is heard first.  An agent records the
    first PID it hears for each id, announcing each activation.  So two agents that
    hear the same activations in different orders agree if every id stands for one
    PID; and if two PIDs share an id, hearing them in the two orders leaves the two
    agents with different PIDs for it. *)
Theorem activations_first_come `{Range} (self1 self2 : string) (a : Agent) (ps qs : list PID) (p q : PID)
    (Hok : agent_ok a) (Hperm : ps ≡ₚ qs) (Hnew : activated a !! ID p = None) (Hid : ID q = ID p) :
  exists a1 a2 b1 b2,
    Receive_all self1 (activations ps) a = Ok (a1, (fun p => EBroadcast (ActivationEvent (Some p))) <$> ps) /\
    Receive_all self2 (activations qs) a = Ok (a2, (fun p => EBroadcast (ActivationEvent (Some p))) <$> qs) /\
    (forall id, activated a1 !! id = match activated a !! id with Some x => Some x | None => first_with id ps end) /\
    ((forall x y, x ∈ ps -> y ∈ ps -> ID x = ID y -> x = y) -> forall id, activated a1 !! id = activated a2 !! id) /\
    Receive_all self1 (activations [p; q]) a = Ok (b1, [EBroadcast (ActivationEvent (Some p)); EBroadcast (ActivationEvent (Some q))]) /\
    Receive_all self2 (activations [q; p]) a = Ok (b2, [EBroadcast (ActivationEvent (Some q)); EBroadcast (ActivationEvent (Some p))]) /\
    activated b1 !! ID p = Some p /\ activated b2 !! ID p = Some q.
Proof.
  destruct (activations_ok self1 ps a Hok) as (a1 & H1 & _ & L1).
  destruct (activations_ok self2 qs a Hok) as (a2 & H2 & _ & L2).
  destruct (activations_ok self1 [p; q] a Hok) as (b1 & H3 & _ & L3).
  destruct (activations_ok self2 [q; p] a Hok) as (b2 & H4 & _ & L4).
  exists a1, a2, b1, b2. split; [done|]. split; [done|]. split; [done|]. split.
  - intros Huniq id. rewrite L1, L2. destruct (activated a !! id); [done|].
    assert (Hf : forall xs, match first_with id xs with
      | Some x => x ∈ xs /\ ID x = id | None => forall x, x ∈ xs -> ID x <> id end).
    { intros xs. unfold first_with. destruct (List.find _ xs) as [x|] eqn:E.
      - apply List.find_some in E as [Hin Heq%String.eqb_eq]. split; [by apply list_elem_of_In|done].
      - intros x Hin%list_elem_of_In Heq. apply (List.find_none _ _ E) in Hin. by rewrite Heq, String.eqb_refl in Hin. }
    pose proof (Hf ps) as F1. pose proof (Hf qs) as F2.
    destruct (first_with id ps) as [x|], (first_with id qs) as [y|]; try done.
    + f_equal. apply Huniq; [apply F1|rewrite Hperm; apply F2|destruct F1, F2; congruence].
    + destruct F1 as [Hin Hx]. exfalso. rewrite Hperm in Hin. by apply (F2 x).
    + destruct F2 as [Hin Hy]. exfalso. rewrite <-Hperm in Hin. by apply (F1 y).
  - split; [done|]. split; [done|]. rewrite L3, L4, Hnew. unfold first_with. cbn [List.find].
    by rewrite Hid, String.eqb_refl.
Qed.

Lemma activations_first_come_witness :
  let p := NewPID "10.0.0.1:4000" "player/2" in
  let q := NewPID "10.0.0.2:4000" "player/2" in
  exists b1 b2, @Receive_all map_order "A" (activations [p; q]) demo_agent =
      Ok (b1, [EBroadcast (ActivationEvent (Some p)); EBroadcast (ActivationEvent (Some q))]) /\
    @Receive_all map_order "B" (activations [q; p]) demo_agent =
      Ok (b2, [EBroadcast (ActivationEvent (Some q)); EBroadcast (ActivationEvent (Some p))]) /\
    activated b1 !! "player/2"%string = Some p /\ activated b2 !! "player/2"%string = Some q.
Proof.
  intros p q.
  destruct (@activations_first_come map_order "A" "B" demo_agent [] [] p q demo_agent_ok
    ltac:(reflexivity) ltac:(vm_compute; reflexivity) eq_refl) as (_ & _ & b1 & b2 & _ & _ & _ & _ & H).
  by exists b1, b2.
Defined.

(** The member an activation selects, if it gets that far. *)
Definition selected `{Range} (kind : string) (config : ActivationConfig) (rnd : draws) (a : Agent) : option Member :=
  default (SelectRandomMember (d_member rnd)) (selectMember config)
    (mkDetails (cfg_region config) (FilterByKind kind (a_members a)) kind).

(** C24: Activation.  An activation is refused, without any effect, if its id is
    active, if no member has the kind, or if no member is selected.  Selecting a
    member on this node spawns the actor here (if the kind is local), under the id
    asked for or a random number if none is; selecting another one asks its agent.
    On success the PID is announced to every member and returned; a request that
    fails or is refused returns nil and announces nothing, and so does a kind that
    is not local on this node, except that it announces the nil. *)
Theorem activate_outcomes `{Range} (self_address kind : string) (config : ActivationConfig) (rnd : draws)
    (resp : option cmsg) (a : Agent) :
  let id := kind +:+ "/" +:+ cfg_id config in
  let to_all m := (fun x => ESend (Some (Member_PID x)) m) <$> values (a_members a) in
  let o := activate self_address kind config rnd resp a in
  (is_Some (activated a !! id) -> o = (None, [])) /\
  ((forall m, m ∈ values (a_members a) -> kind ∉ Kinds m) -> o = (None, [])) /\
  (activated a !! id = None -> forall x, x ∈ values (a_members a) -> kind ∈ Kinds x ->
   match selected kind config rnd a with
   | None => o = (None, [])
   | Some m =>
       if decide (Host m = self_address) then
         let name := if decide (cfg_id config = "") then d_id rnd else cfg_id config in
         let pid := NewPID self_address (kind +:+ "/" +:+ name) in
         if hasKindLocal kind a
         then o = (Some pid, ESpawn kind name :: to_all (MActivation (Some pid)))
         else o = (None, to_all (MActivation None))
       else
         let ask := ERequest (Member_PID m) (MActivationRequest kind (cfg_id config)) in
         match resp with
         | Some (MActivationResponse pid true) => o = (pid, ask :: to_all (MActivation pid))
         | _ => o = (None, [ask])
         end
   end).
Proof.
  intros id to_all o. unfold o, activate. fold id.
  assert (Hfilter : forall x, x ∈ FilterByKind kind (a_members a) <-> x ∈ values (a_members a) /\ kind ∈ Kinds x).
  { intros x. unfold FilterByKind. rewrite list_elem_of_In, filter_In, <-list_elem_of_In. unfold HasKind. by rewrite has_kind_spec. }
  split_and!.
  - intros [p ->]. done.
  - intros Hnone. destruct (activated a !! id); [done|]. destruct (FilterByKind kind (a_members a)) as [|x l] eqn:E; [done|].
    exfalso. destruct (proj1 (Hfilter x)) as [Hx Hk]; [by left|]. by apply (Hnone x).
  - intros Hinact x Hx Hk. rewrite Hinact. destruct (Nat.eqb_spec (length (FilterByKind kind (a_members a))) 0) as [Hz|_].
    { exfalso. apply nil_length_inv in Hz. pose proof (proj2 (Hfilter x) (conj Hx Hk)) as Hin.
      rewrite Hz in Hin. by apply not_elem_of_nil in Hin. }
    unfold selected. destruct (default (SelectRandomMember (d_member rnd)) (selectMember config) (mkDetails _ _ _)) as [m|]; [|done].
    destruct (String.eqb_spec (Host m) self_address) as [Hh|Hh].
    + rewrite decide_True by done. unfold handleActivationRequest, spawned. rewrite options_ID_eq.
      destruct (hasKindLocal kind a); cbn [negb]; by rewrite bcast_eq.
    + rewrite decide_False by done. destruct resp as [[| | | | | |pid ok|]|]; try done. destruct ok; [|done].
      by rewrite bcast_eq.
Qed.

(** Ids are not unique across the cluster.  The agent looks an id up among the
    actors it has heard of, and an activation does not record the id itself: it is
    known when the announcement comes back.  So two activations of the same id
    handled one after the other before that both succeed, on different members if
    those are selected (an id, that is: without one each gets a number of its own), and announce two PIDs with one id; once an announcement has
    been handled, activating the id again is refused until it is removed. *)
Theorem activation_race `{Range} (self_address kind id : string) (rnd : draws) (m : Member) (a : Agent)
    (Hok : agent_ok a) (Hid : id <> ""%string) (Hfree : activated a !! (kind +:+ "/" +:+ id) = None)
    (Hself : hasKindLocal kind a = true) (me : Member) (Hme : members (a_members a) !! MID me = Some me)
    (Hhere : Host me = self_address) (Hmek : kind ∈ Kinds me) (Haway : Host m <> self_address) :
  let here := mkActivationConfig id "default" (Some (fun _ => Some me)) in
  let away := mkActivationConfig id "default" (Some (fun _ => Some m)) in
  let q := NewPID self_address (kind +:+ "/" +:+ id) in
  let p := NewPID (Host m) (kind +:+ "/" +:+ id) in
  exists es1 es2 a' es3, Receive_all self_address
      [(rnd, None, AActivate kind here); (rnd, Some (MActivationResponse (Some p) true), AActivate kind away)] a =
      Ok (a, (es1 ++ [ERespond (RPid (Some q))]) ++ (es2 ++ [ERespond (RPid (Some p))]) ++ []) /\
    In (ESend (Some (Member_PID me)) (MActivation (Some q))) es1 /\
    In (ESend (Some (Member_PID me)) (MActivation (Some p))) es2 /\
    Receive self_address rnd None (AWire (MActivation (Some q))) a = Ok (a', es3) /\
    Receive self_address rnd None (AActivate kind away) a' = Ok (a', [ERespond (RPid None)]).
Proof.
  intros here away q p.
  assert (Hin : me ∈ values (a_members a)) by (by apply elem_of_values; [apply Hok|]).
  assert (Hk : (length (FilterByKind kind (a_members a)) =? 0)%nat = false).
  { apply Nat.eqb_neq. intros Hz%nil_length_inv. assert (Hf : me ∈ FilterByKind kind (a_members a)).
    { unfold FilterByKind. apply list_elem_of_In, filter_In. split; [by apply list_elem_of_In|]. unfold HasKind. by apply has_kind_spec. }
    rewrite Hz in Hf. by apply not_elem_of_nil in Hf. }
  assert (Hsend : forall x, In (ESend (Some (Member_PID me)) x) (bcast x a)).
  { intros x. rewrite bcast_eq. apply list_elem_of_In. apply list_elem_of_fmap. exists me. split; [reflexivity|exact Hin]. }
  destruct (addActivated_ok q a Hok) as (a' & Ha' & Hok' & _ & _ & _ & Hl).
  exists (ESpawn kind id :: bcast (MActivation (Some q)) a),
    (ERequest (Member_PID m) (MActivationRequest kind id) :: bcast (MActivation (Some p)) a), a', [EBroadcast (ActivationEvent (Some q))].
  assert (H1 : activate self_address kind here rnd None a = (Some q, ESpawn kind id :: bcast (MActivation (Some q)) a)).
  { unfold activate. cbn [here cfg_id]. rewrite Hfree, Hk.
    change (default (SelectRandomMember (d_member rnd)) (selectMember here)) with (fun _ : ActivationDetails => Some me). cbv beta iota.
    destruct (String.eqb_spec (Host me) self_address); [|done]. unfold handleActivationRequest, spawned.
    by rewrite Hself, options_ID_given by done. }
  assert (H2 : activate self_address kind away rnd (Some (MActivationResponse (Some p) true)) a =
    (Some p, ERequest (Member_PID m) (MActivationRequest kind id) :: bcast (MActivation (Some p)) a)).
  { unfold activate. cbn [away cfg_id]. rewrite Hfree, Hk.
    change (default (SelectRandomMember (d_member rnd)) (selectMember away)) with (fun _ : ActivationDetails => Some m). cbv beta iota.
    by destruct (String.eqb_spec (Host m) self_address). }
  split_and!.
  - cbn [Receive_all Receive]. rewrite H1. cbn [mbind result_bind]. rewrite H2. done.
  - right. apply Hsend.
  - right. apply Hsend.
  - cbn [Receive]. unfold handleActivation. by rewrite Ha'.
  - cbn [Receive]. unfold activate. cbn [away cfg_id]. rewrite Hl, Hfree. cbn [q NewPID ID]. by rewrite decide_True.
Qed.

Lemma activation_race_witness :
  let q := NewPID "10.0.0.1:4000" "player/5" in
  let p := NewPID "10.0.0.2:4000" "player/5" in
  exists es1 es2, @Receive_all map_order "10.0.0.1:4000"
      [(demo_draws, None, AActivate "player" (mkActivationConfig "5" "default" (Some (fun _ => Some demo_m1))));
       (demo_draws, Some (MActivationResponse (Some p) true), AActivate "player" (mkActivationConfig "5" "default" (Some (fun _ => Some demo_m2))))]
      demo_agent = Ok (demo_agent, (es1 ++ [ERespond (RPid (Some q))]) ++ (es2 ++ [ERespond (RPid (Some p))]) ++ []).
Proof.
  intros q p.
  destruct (@activation_race map_order "10.0.0.1:4000" "player" "5" demo_draws demo_m2 demo_agent demo_agent_ok
    ltac:(discriminate) ltac:(vm_compute; reflexivity) ltac:(vm_compute; reflexivity) demo_m1 ltac:(vm_compute; reflexivity) eq_refl
    ltac:(left) ltac:(discriminate)) as (es1 & es2 & _ & _ & H & _).
  by exists es1, es2.
Defined.

(** A failed local activation poisons the cluster.  If the member selected has
    this node's address but the kind is not local (as after a node comes back with
    other kinds while its old entry is still a member), the agent does not look at
    the failure: it announces a nil PID to every member, and every agent that
    handles the announcement panics. *)
Theorem failed_local_activation_spreads `{Range} (self_address kind : string) (config : ActivationConfig) (rnd : draws)
    (a b : Agent) (m x : Member)
    (Hfree : activated a !! (kind +:+ "/" +:+ cfg_id config) = None)
    (Hx : x ∈ values (a_members a)) (Hk : kind ∈ Kinds x)
    (Hsel : selected kind config rnd a = Some m) (Hhere : Host m = self_address) (Hlocal : hasKindLocal kind a = false) :
  Receive self_address rnd None (AActivate kind config) a =
    Ok (a, ((fun y => ESend (Some (Member_PID y)) (MActivation None)) <$> values (a_members a)) ++ [ERespond (RPid None)]) /\
  forall addr resp, Receive addr rnd resp (AWire (MActivation None)) b = Panic NilDeref.
Proof.
  split; [|done]. cbn [Receive]. unfold activate. rewrite Hfree.
  destruct (Nat.eqb_spec (length (FilterByKind kind (a_members a))) 0) as [Hz|_].
  { exfalso. apply nil_length_inv in Hz. assert (Hf : x ∈ FilterByKind kind (a_members a)).
    { unfold FilterByKind. apply list_elem_of_In, filter_In. split; [by apply list_elem_of_In|]. unfold HasKind. by apply has_kind_spec. }
    rewrite Hz in Hf. by apply not_elem_of_nil in Hf. }
  unfold selected in Hsel. cbv zeta. rewrite Hsel. destruct (String.eqb_spec (Host m) self_address); [|done].
  unfold handleActivationRequest. rewrite Hlocal. cbn [negb]. by rewrite bcast_eq.
Qed.

(** A node that used to offer "room" at this address. *)
Definition demo_old : Member := mkMember "old" "10.0.0.1:4000" "default" ["room"].
Definition demo_back : Agent :=
  mkAgent (NewMemberSet [mkMember "A" "10.0.0.1:4000" "default" ["player"]; demo_old]) ∅ {["player" := tt]} ∅.

Lemma failed_local_activation_spreads_witness :
  exists es, @Receive map_order "10.0.0.1:4000" demo_draws None (AActivate "room" (mkActivationConfig "1" "default" None)) demo_back =
    Ok (demo_back, es ++ [ERespond (RPid None)]) /\ length es = 2%nat.
Proof.
  destruct (@failed_local_activation_spreads map_order "10.0.0.1:4000" "room" (mkActivationConfig "1" "default" None) demo_draws
    demo_back demo_back demo_old demo_old ltac:(vm_compute; reflexivity) ltac:(vm_compute; repeat first [left|right])
    ltac:(left) ltac:(vm_compute; reflexivity) eq_refl ltac:(vm_compute; reflexivity)) as [H _].
  eexists. split; [exact H|]. vm_compute. reflexivity.
Defined.
