(* ===== verification/Cluster.v ===== *)
(** * The cluster ([cluster/cluster.go])

    Configuration, kinds, and the queries that go through the agent.  A query is a
    request to the agent; its result ([None] on a timeout) is an argument. *)

From S2P Require Import Prelude Net Pid MemberSet Agent.

(** ** Configuration *)

Record Config := mkConfig {
  listenAddr : string; id : string; region : string;
  engine : option Z; provider : Z; requestTimeout : Z    (* pointers, and nanoseconds *)
}.

Definition defaultRequestTimeout : Z := 1000000000.
(** [rnd] is what [rand.Intn(50000)] returns. *)
Definition getRandomListenAddr (rnd : Z) : string := ("127.0.0.1:" +:+ Itoa (rnd + 10000))%string.
(** [rnd] and [rnd_id] are random; [self_managed] the default provider. *)
Definition NewConfig (rnd rnd_id : Z) (self_managed : Z) : Config :=
  mkConfig (getRandomListenAddr rnd) (Itoa rnd_id) "default" None self_managed defaultRequestTimeout.
Definition WithRequestTimeout (d : Z) (c : Config) : Config := mkConfig (listenAddr c) (id c) (region c) (engine c) (provider c) d.
Definition WithProvider (p : Z) (c : Config) : Config := mkConfig (listenAddr c) (id c) (region c) (engine c) p (requestTimeout c).
Definition WithEngine (e : option Z) (c : Config) : Config := mkConfig (listenAddr c) (id c) (region c) e (provider c) (requestTimeout c).
Definition WithListenAddr (a : string) (c : Config) : Config := mkConfig a (id c) (region c) (engine c) (provider c) (requestTimeout c).
Definition WithID (i : string) (c : Config) : Config := mkConfig (listenAddr c) i (region c) (engine c) (provider c) (requestTimeout c).
Definition WithRegion (r : string) (c : Config) : Config := mkConfig (listenAddr c) (id c) r (engine c) (provider c) (requestTimeout c).

(** ** The cluster of a node *)

Record Cluster := mkCluster {
  config : Config;
  address : string;              (* c.engine.Address() *)
  agentPID : option PID;
  providerPID : option PID;
  isStarted : bool;
  kinds : list string;           (* the names; producers are user code *)
}.

(** [New]: [e] is the engine it makes (with a remote on the listen address) if the
    configuration has none, [addr] the address of the engine it ends up with. *)
Definition New (c : Config) (addr : string) (e : Z) : Cluster :=
  mkCluster (WithEngine (Some (default e (engine c))) c) addr None None false [].

(** [Start]: spawns the agent and the provider under the cluster's id ([rnd] and
    [rnd'] are for the two calls of [Engine.Spawn], should it be empty). *)
Definition Start (rnd rnd' : draws) (c : Cluster) : Cluster * list effect :=
  (mkCluster (config c) (address c)
     (Some (spawned (address c) rnd "cluster" (id (config c))))
     (Some (spawned (address c) rnd' "provider" (id (config c)))) true (kinds c),
   [ESpawn "cluster" (options_ID rnd (id (config c))); ESpawn "provider" (options_ID rnd' (id (config c)))]).

(** [Stop] poisons the agent, then the provider. *)
Definition Stop (c : Cluster) : list effect := [EPoison (agentPID c); EPoison (providerPID c)].

Definition RegisterKind (kind : string) (c : Cluster) : Cluster :=
  if isStarted c then c
  else mkCluster (config c) (address c) (agentPID c) (providerPID c) (isStarted c) (kinds c ++ [kind]).

Definition HasKindLocal (name : string) (c : Cluster) : bool := has_kind (kinds c) name.

Definition kindsToString (c : Cluster) : list string := kinds c.

Definition Member_ (c : Cluster) : Member := mkMember (id (config c)) (address c) (region (config c)) (kinds c).

(** ** Queries *)

(** The type assertions on an answer ([any] in the code). *)
Definition as_PID (r : reply) : option (option PID) := match r with RPid p => Some p | _ => None end.
Definition as_PIDs (r : reply) : option (list (option PID)) := match r with RPids ps => Some ps | _ => None end.
Definition as_Members (r : reply) : option (list Member) := match r with RMembers ms => Some ms | _ => None end.
Definition as_strings (r : reply) : option (list string) := match r with RKinds ks => Some ks | _ => None end.

(** How a call ends: without an answer, with one of a type it did not expect, or
    with its assertion met. *)
Inductive exit := Failed | Unexpected | Asserted.
#[export] Instance exit_eq_dec : EqDecision exit.
Proof. solve_decision. Defined.

Definition asserting {A B} (assertion : reply -> option A) (failed unexpected : B) (met : A -> B) (resp : option reply)
  : exit * B :=
  match resp with
  | None => (Failed, failed)
  | Some r => match assertion r with None => (Unexpected, unexpected) | Some x => (Asserted, met x) end
  end.

(** The calls: what [Request] gives for the message they send the agent, and what
    they make of it. *)
Section calls.
Variable request : amsg -> option reply.

Definition on_members : option reply -> exit * list Member := asserting as_Members [] [] (fun ms => ms).
Definition on_kinds (name : string) : option reply -> exit * bool :=
  asserting as_strings false false (fun ks => bool_decide (name ∈ ks)).
Definition on_active_by_kind : option reply -> exit * list (option PID) :=
  asserting as_PIDs [None] [None] (fun pids => if (length pids =? 0)%nat then [None] else pids).
Definition on_active_by_id : option reply -> exit * option PID := asserting as_PID None None (fun pid => pid).
Definition on_activated : option reply -> exit * option PID := asserting as_PID None None (fun pid => pid).

Definition call_Members : exit * list Member := on_members (request AGetMembers).
Definition call_HasKind (name : string) : exit * bool := on_kinds name (request AGetKinds).
Definition call_GetActiveByKind (kind : string) : exit * list (option PID) := on_active_by_kind (request (AGetActive "" kind)).
Definition call_GetActiveByID (id : string) : exit * option PID := on_active_by_id (request (AGetActive id "")).
Definition call_Activate (kind : string) (config : ActivationConfig) : exit * option PID :=
  on_activated (request (AActivate kind config)).
End calls.

(** The values the calls return, from the result of the request. *)
Definition Members (resp : option reply) : list Member := (on_members resp).2.
Definition HasKind (name : string) (resp : option reply) : bool := (on_kinds name resp).2.
Definition GetActiveByKind (resp : option reply) : list (option PID) := (on_active_by_kind resp).2.
Definition GetActiveByID (resp : option reply) : option PID := (on_active_by_id resp).2.
Definition Activate (resp : option reply) : option PID := (on_activated resp).2.

(** [Deactivate]: the message sent to the agent. *)
Definition Deactivate (pid : option PID) : amsg := ADeactivate pid.

Definition Engine_ (c : Cluster) : option Z := engine (config c).
Definition Region_ (c : Cluster) : string := region (config c).
Definition ID_ (c : Cluster) : string := id (config c).
Definition PID_ (c : Cluster) : option PID := agentPID c.

(** [Address] dereferences the agent's PID, which is nil before [Start]. *)
Definition Address (c : Cluster) : result string :=
  match agentPID c with
  | None => Panic NilDeref
  | Some p => Ok (Pid.Address p)
  end.

(** [Spawn]: the actor is spawned on this node, whatever its kind and with the id of
    the options or a random one, and then announced to the members the agent answers
    with; [members] is [None] if it does not answer. *)
Definition tell_members (pid : PID) (members : option reply) : list effect :=
  (fun m => ESend (Some (Member_PID m)) (MActivation (Some pid))) <$> Members members.
Definition Spawn (rnd : draws) (kind id : string) (members : option reply) (c : Cluster) : PID * list effect :=
  let pid := spawned (address c) rnd kind id in
  (pid, ESpawn kind (options_ID rnd id) :: tell_members pid members).

(** The first answer of the agent, which is what a response holds. *)
Definition answer (es : list effect) : option reply :=
  head (omap (fun e => match e with ERespond r => Some r | _ => None end) es).

(** ** Kinds *)

Definition register_all (ks : list string) (c : Cluster) : Cluster := foldl (fun c k => RegisterKind k c) c ks.

Lemma register_all_kinds ks c :
  isStarted c = false -> isStarted (register_all ks c) = false /\ kinds (register_all ks c) = kinds c ++ ks /\
  config (register_all ks c) = config c /\ address (register_all ks c) = address c.
Proof.
  revert c. induction ks as [|k ks IH]; intros c Hs; [by rewrite app_nil_r|].
  assert (Hs' : isStarted (RegisterKind k c) = false) by (unfold RegisterKind; by rewrite Hs).
  cbn [register_all foldl]. destruct (IH (RegisterKind k c) Hs') as (H1 & H2 & H3 & H4).
  fold (register_all ks (RegisterKind k c)). clear Hs'. revert H1 H2 H3 H4. unfold RegisterKind. rewrite Hs. cbn [kinds config address]. intros H1 H2 H3 H4.
  split_and!; [done|by rewrite H2, <-app_assoc|done|done].
Qed.

Lemma register_started ks c : isStarted c = true -> register_all ks c = c.
Proof.
  intros Hs. induction ks as [|k ks IH]; [done|]. unfold register_all in *. cbn [foldl].
  assert (RegisterKind k c = c) as -> by (unfold RegisterKind; by rewrite Hs). exact IH.
Qed.

Lemma localKinds_spec names k : is_Some (localKinds (NewAgent names) !! k) <-> k ∈ names.
Proof.
  cbn [NewAgent localKinds].
  assert (Hg : forall (m : gmap string unit), is_Some (foldl (fun m k => <[k := tt]> m) m names !! k) <-> k ∈ names \/ is_Some (m !! k)).
  { induction names as [|n names IH]; intros m; cbn [foldl]; [rewrite elem_of_nil; tauto|].
    rewrite IH, elem_of_cons. destruct (decide (k = n)) as [->|Hne].
    - rewrite lookup_insert_eq. split; [tauto|]. intros _. right. by eexists.
    - rewrite lookup_insert_ne by done. tauto. }
  rewrite Hg, lookup_empty. split; [|by left]. intros [?|[? [=]]]; done.
Qed.

(** Kinds are fixed when the cluster starts.  Whatever is registered before,
    and whatever is tried after, the member the node presents, [HasKindLocal] and
    the agent's local kinds all list exactly the kinds registered before the
    start. *)
Theorem registered_kinds (cfg : Config) (addr : string) (e : Z) (rnd rnd' : draws) (before after : list string) :
  let c := register_all after (Start rnd rnd' (register_all before (New cfg addr e))).1 in
  Kinds (Member_ c) = before /\ kindsToString c = before /\
  forall k, (HasKindLocal k c = true <-> k ∈ before) /\
    (hasKindLocal k (NewAgent (kinds c)) = true <-> k ∈ before).
Proof.
  intros c. destruct (register_all_kinds before (New cfg addr e) eq_refl) as (_ & Hk & _).
  cbn [New kinds app] in Hk. assert (Hc : kinds c = before).
  { unfold c. rewrite register_started by done. exact Hk. }
  cbn [Member_ Kinds]. unfold kindsToString, HasKindLocal, hasKindLocal. rewrite Hc.
  split; [done|]. split; [done|]. intros k. split; [apply has_kind_spec|].
  rewrite bool_decide_eq_true. apply localKinds_spec.
Qed.

(** ** The protocol between the cluster and its agent *)

Definition responses (es : list effect) : list reply :=
  omap (fun e => match e with ERespond r => Some r | _ => None end) es.

Lemma activate_responds `{Range} self kind config rnd resp a :
  responses (activate self kind config rnd resp a).2 = [].
Proof.
  assert (Hb : forall m, responses (bcast m a) = []).
  { intros m. rewrite bcast_eq. unfold responses.
    induction (values (a_members a)) as [|x l IH]; [done|exact IH]. }
  unfold activate. destruct (activated a !! _); [done|]. cbv zeta.
  destruct (length _ =? 0)%nat; [done|].
  match goal with |- context [match ?sel with Some _ => _ | None => _ end] => destruct sel as [m|]; [|done] end.
  destruct (String.eqb _ _).
  - unfold handleActivationRequest. destruct (negb _); cbn [snd]; unfold responses in *; cbn [app omap list_omap]; apply Hb.
  - destruct resp as [[]|]; try done. destruct success; [|done]. unfold responses in *. cbn [snd omap list_omap]. apply Hb.
Qed.

(** What a call of the cluster gets: the first answer of the agent. *)
Definition asked `{Range} (self : string) (rnd : draws) (resp : option cmsg) (a : Agent) (msg : amsg) : option reply :=
  match Receive self rnd resp msg a with Ok (_, es) => answer es | Panic _ => None end.

Lemma asked_activate `{Range} self rnd resp kind config a :
  responses (activate self kind config rnd resp a).2 = [] /\
  asked self rnd resp a (AActivate kind config) = Some (RPid (activate self kind config rnd resp a).1).
Proof.
  pose proof (activate_responds self kind config rnd resp a) as Hr. split; [done|]. unfold asked, answer. cbn [Receive].
  destruct (activate self kind config rnd resp a) as [pid es]. cbn [snd fst] in *. unfold responses in Hr. by rewrite omap_app, Hr.
Qed.

(** C39: The calls get what they assert.  Whatever the state of the agent and
    whatever it hears from other members, its answers to [Activate], [Members] and
    [HasKind] meet the type assertions of these calls, which return what the agent
    found; so do its answers to [GetActiveByKind] and [GetActiveByID], except for an
    empty kind or id, which the agent does not answer, so that the call fails with a
    nil PID when its timeout is over.  None of these questions changes the agent,
    and none has a second answer, which would keep the agent waiting.  An answer of
    another type would not get through: the calls would return what they return
    without one. *)
Theorem cluster_replies_typed `{Range} (self : string) (rnd : draws) (resp : option cmsg) (a : Agent)
    (kind name id : string) (config : ActivationConfig) :
  let request := asked self rnd resp a in
  call_Activate request kind config = (Asserted, (activate self kind config rnd resp a).1) /\
  call_Members request = (Asserted, Slice (a_members a)) /\
  call_HasKind request name = (Asserted, bool_decide (is_Some (Agent.kinds a !! name))) /\
  call_GetActiveByKind request kind =
    (if decide (kind = "") then (Failed, [None])
     else (Asserted, let pids := (fun '(_, pid) => Some pid) <$>
             List.filter (fun '(id, _) => String.eqb kind (before_slash id)) (range (activated a)) in
           if decide (pids = []) then [None] else pids)) /\
  call_GetActiveByID request id = (if decide (id = "") then (Failed, None) else (Asserted, activated a !! id)) /\
  (forall msg, msg ∈ [AActivate kind config; AGetMembers; AGetKinds; AGetActive "" kind; AGetActive id ""] ->
     exists es, Receive self rnd resp msg a = Ok (a, es) /\ (length (responses es) <= 1)%nat) /\
  (forall r, (as_PID r = None -> Activate (Some r) = Activate None /\ GetActiveByID (Some r) = GetActiveByID None) /\
     (as_PIDs r = None -> GetActiveByKind (Some r) = GetActiveByKind None) /\
     (as_Members r = None -> Members (Some r) = Members None) /\
     (as_strings r = None -> HasKind name (Some r) = HasKind name None)).
Proof.
  intros request. destruct (asked_activate self rnd resp kind config a) as [Hresp Hact]. split_and!.
  - unfold request, call_Activate. by rewrite Hact.
  - done.
  - unfold request, call_HasKind, asked. cbn [Receive answer omap list_omap head on_kinds asserting as_strings].
    f_equal. apply bool_decide_ext. rewrite list_elem_of_fmap. split.
    + intros ([k' b] & -> & Hin). apply range_lookup in Hin. by eexists.
    + intros [b Hb]. exists (name, b). split; [done|]. by apply range_lookup.
  - unfold request, call_GetActiveByKind, asked. cbn [Receive]. unfold handleGetActive. cbn [String.length Nat.ltb app].
    destruct (decide (kind = "")) as [->|Hne]; [done|]. destruct kind as [|c kind]; [done|].
    cbn [String.length Nat.ltb Nat.leb answer omap list_omap head on_active_by_kind asserting as_PIDs]. f_equal.
    by destruct (fmap _ _).
  - unfold request, call_GetActiveByID, asked. cbn [Receive]. unfold handleGetActive.
    destruct (decide (id = "")) as [->|Hne]; [done|]. by destruct id.
  - intros msg Hmsg. repeat (apply elem_of_cons in Hmsg as [->|Hmsg]); [..|by apply elem_of_nil in Hmsg].
    + cbn [Receive]. revert Hresp. destruct (activate self kind config rnd resp a) as [pid es]. cbn [snd]. intros Hr.
      eexists. split; [done|]. unfold responses in *. rewrite omap_app, Hr. cbn. lia.
    + eexists. split; [done|]. cbn. lia.
    + eexists. split; [done|]. cbn. lia.
    + eexists. split; [done|]. unfold handleGetActive. destruct kind; cbn; lia.
    + eexists. split; [done|]. unfold handleGetActive. destruct id; cbn; lia.
  - intros []; by split_and!.
Qed.

(** C34: Queries.  Asked by kind, the cluster answers with exactly the PIDs the agent
    knows under an id of that kind, each once — or, if there are none or the agent
    does not answer, with a single nil PID, so the answer is never empty; asked by
    id, with the PID under that id or nil.  Members and kinds are those of the
    agent. *)
Theorem cluster_queries `{Range} (self : string) (rnd : draws) (kind name : string) (a : Agent) (Hok : agent_ok a)
    (Hkind : (0 < String.length kind)%nat) (Hname : (0 < String.length name)%nat) :
  let ask msg := match Receive self rnd None msg a with Ok (_, es) => answer es | Panic _ => None end in
  let pids := GetActiveByKind (ask (AGetActive "" kind)) in
  ((exists p, Some p ∈ pids) -> NoDup pids /\
     forall q, q ∈ pids <-> exists p id, q = Some p /\ activated a !! id = Some p /\ before_slash id = kind) /\
  ((forall id p, activated a !! id = Some p -> before_slash id <> kind) -> pids = [None]) /\
  GetActiveByKind None = [None] /\
  GetActiveByID (ask (AGetActive name "")) = activated a !! name /\
  (forall m, m ∈ Members (ask AGetMembers) <-> MemberSet.members (a_members a) !! MID m = Some m) /\
  (forall k, HasKind k (ask AGetKinds) = true <-> is_Some (Agent.kinds a !! k)).
Proof.
  intros ask pids. pose proof Hok as (Hs & Hact & _).
  set (l := (fun '(_, pid) => Some pid) <$> List.filter (fun '(id, _) => String.eqb kind (before_slash id)) (range (activated a)) : list (option PID)).
  assert (Hl : forall q, q ∈ l <-> exists p id, q = Some p /\ activated a !! id = Some p /\ before_slash id = kind).
  { intros q. unfold l. rewrite list_elem_of_fmap. split.
    - intros ([k p] & -> & Hin). apply list_elem_of_In, filter_In in Hin as [Hin Hk%String.eqb_eq].
      exists p, k. split_and!; [done| |done]. apply range_lookup. by apply list_elem_of_In.
    - intros (p & k & -> & Hp & Hk). exists (k, p). split; [done|]. apply list_elem_of_In, filter_In.
      split; [apply list_elem_of_In; by apply range_lookup|by apply String.eqb_eq]. }
  assert (Hpids : pids = if (length l =? 0)%nat then [None] else l).
  { unfold pids, ask. cbn [Receive]. unfold handleGetActive.
    change (0 <? String.length "")%nat with false. cbv iota. cbn [app].
    destruct (Nat.ltb_spec 0 (String.length kind)); [done|lia]. }
  split_and!.
  - intros [p Hp].
    assert (Hpl : pids = l).
    { rewrite Hpids. destruct l; [|done]. rewrite Hpids in Hp. by apply list_elem_of_singleton in Hp. }
    rewrite Hpl. split; [|exact Hl]. unfold l. apply NoDup_fmap_2_strong.
    + intros [k1 p1] [k2 p2] H1 H2 [= ->]. apply list_elem_of_In, filter_In in H1 as [H1%list_elem_of_In%range_lookup _], H2 as [H2%list_elem_of_In%range_lookup _].
      apply Hact in H1, H2. congruence.
    + apply NoDup_ListNoDup, List.NoDup_filter, NoDup_ListNoDup. rewrite range_perm. apply NoDup_map_to_list.
  - intros Hnone. rewrite Hpids. destruct l as [|q l'] eqn:El; [done|]. exfalso.
    destruct (proj1 (Hl q)) as (p & k & _ & Hp & Hk); [by left|]. by apply (Hnone k p).
  - done.
  - unfold ask. cbn [Receive]. unfold handleGetActive. destruct (Nat.ltb_spec 0 (String.length name)); [done|lia].
  - intros m. unfold ask. cbn [Receive]. by apply elem_of_values.
  - intros k. unfold ask. cbn [Receive answer omap list_omap head].
    unfold HasKind. cbn [on_kinds asserting as_strings snd]. rewrite bool_decide_eq_true.
    rewrite list_elem_of_fmap. split.
    + intros ([k' b] & -> & Hin). apply range_lookup in Hin. by eexists.
    + intros [b Hb]. exists (k, b). split; [done|]. by apply range_lookup.
Qed.

Lemma cluster_queries_witness :
  let ask msg := match @Receive map_order "" demo_draws None msg demo_agent with Ok (_, es) => answer es | Panic _ => None end in
  GetActiveByID (ask (AGetActive "player/1" "")) = Some (NewPID "10.0.0.2:4000" "player/1") /\
  (exists p, Some p ∈ GetActiveByKind (ask (AGetActive "" "player"))) /\
  GetActiveByKind (ask (AGetActive "" "room")) = [None].
Proof.
  intros ask.
  destruct (@cluster_queries map_order "" demo_draws "room" "player/1" demo_agent demo_agent_ok ltac:(cbn; lia) ltac:(cbn; lia))
    as (_ & H1 & _ & H2 & _).
  split; [unfold ask; rewrite H2; vm_compute; reflexivity|]. split.
  - exists (NewPID "10.0.0.2:4000" "player/1"). vm_compute. by left.
  - apply H1. intros id p Hp Hk.
    apply elem_of_map_to_list in Hp. vm_compute in Hp. apply list_elem_of_singleton in Hp. injection Hp as -> ->.
    vm_compute in Hk. discriminate Hk.
Defined.
