(* ===== verification/AgentNet.v ===== *)
(** * The agents of a cluster together ([cluster/agent.go])

    A net of nodes: the agent of each, and the messages in flight between them.
    An agent that activates an actor on another member waits for the answer inside
    its handler, so it handles nothing else until the answer or the timeout comes.
    Delivery is in any order.  [Cluster.Spawn] runs in the goroutine of its caller:
    it spawns at once, and announces when the agent has told it the members. *)

From S2P Require Import Prelude Cluster Pid MemberSet Agent.

(** A request in progress: what is being activated, and the response process the
    answer goes to. *)
Record waiting := mkWait { w_kind : string; w_config : ActivationConfig; w_rnd : draws; w_resp : PID }.

Record node := mkNode {
  n_id : string;                      (* the cluster's, or the random one its agent got *)
  n_addr : string; n_agent : Agent;
  n_wait : option waiting;
  n_spawned : list string;            (* the ids of the actors the agent spawned, ever *)
  n_answers : list (option PID);      (* what the calls of [Activate] were answered *)
  n_calls : list string;              (* the ids of those that [Cluster.Spawn] spawned, ever *)
  n_open : list PID;                  (* calls of [Cluster.Spawn] that wait for the members *)
}.

Record letter := mkLetter { l_to : PID; l_from : option PID; l_body : cmsg }.

Record net := mkNet { n_nodes : list node; n_soup : list letter }.

(** The PID [Cluster.Start] spawns the agent of a node under. *)
Definition agent_pid (n : node) : PID := NewPID (n_addr n) ("cluster/" +:+ n_id n).

(** The messages among the effects of a handler, [sender] being that of the message
    it handles; the engine drops a nil target, [Respond] a nil sender. *)
Definition letters (sender : option PID) (es : list effect) : list letter :=
  omap (fun e => match e with
    | ESend (Some p) m => Some (mkLetter p None m)
    | ERespond (RMessage m) => (fun s => mkLetter s None m) <$> sender
    | _ => None
    end) es.

Definition spawns (es : list effect) : list string :=
  omap (fun e => match e with ESpawn kind id => Some (kind +:+ pidSeparator +:+ id) | _ => None end) es.

Definition answers (es : list effect) : list (option PID) :=
  omap (fun e => match e with ERespond (RPid p) => Some p | _ => None end) es.

(** The request among the effects. *)
Definition asks (es : list effect) : option (PID * cmsg) :=
  match es with ERequest p m :: _ => Some (p, m) | _ => None end.

(** The node after a handler that left its agent in [a'] with effects [es]. *)
Definition done_with (a' : Agent) (es : list effect) (n : node) : node :=
  mkNode (n_id n) (n_addr n) a' None (n_spawned n ++ spawns es) (n_answers n ++ answers es) (n_calls n) (n_open n).

Definition set_wait (w : waiting) (n : node) : node :=
  mkNode (n_id n) (n_addr n) (n_agent n) (Some w) (n_spawned n) (n_answers n) (n_calls n) (n_open n).

(** The node with other calls of [Cluster.Spawn]. *)
Definition with_calls (calls : list string) (waiting : list PID) (n : node) : node :=
  mkNode (n_id n) (n_addr n) (n_agent n) (n_wait n) (n_spawned n) (n_answers n) calls waiting.

(** A panic: the process starts again with a receiver from the producer of
    [NewAgent], whose map of kinds is the one the old receiver used. *)
Definition restarted (a : Agent) : Agent := mkAgent (NewMemberSet []) (kinds a) (localKinds a) ∅.

(** The steps of a net. *)
Inductive kind := KActivate | KAsk | KAnswer | KTimeout | KDeliver | KDead | KLose | KMembers | KDeactivate | KCrash | KSpawn | KTell | KUntold.
#[export] Instance kind_eq_dec : EqDecision kind.
Proof. solve_decision. Defined.

(** [Cluster.Spawn] has spawned [p] and asks for the members. *)
Definition called (p : PID) (n : node) : node := with_calls (n_calls n ++ [ID p]) (n_open n ++ [p]) n.

(** The PID of a response ([NewResponse]). *)
Definition response_pid (addr rnd : string) : PID := NewPID addr ("response" +:+ pidSeparator +:+ rnd).

Section net.
Context `{Range}.

Definition finish (i : nat) (sender : option PID) (a' : Agent) (es : list effect) (n : node) (w : net) : net :=
  mkNet (<[i := done_with a' es n]> (n_nodes w)) (n_soup w ++ letters sender es).

(** A response process nobody else uses. *)
Definition fresh (r : PID) (w : net) : Prop :=
  (forall l, l ∈ n_soup w -> l_to l <> r /\ l_from l <> Some r) /\
  (forall n v, n ∈ n_nodes w -> n_wait n = Some v -> w_resp v <> r).

Inductive nstep : kind -> net -> net -> Prop :=
  | n_activate w i n k config rnd a' es :       (* refused, or on this node *)
      n_nodes w !! i = Some n -> n_wait n = None ->
      Receive (n_addr n) rnd None (AActivate k config) (n_agent n) = Ok (a', es) -> asks es = None ->
      nstep KActivate w (finish i None a' es n w)
  | n_ask w i n k config rnd a' es r x p m :    (* on another one: the agent waits *)
      n_nodes w !! i = Some n -> n_wait n = None -> r = response_pid (n_addr n) x ->
      Receive (n_addr n) rnd None (AActivate k config) (n_agent n) = Ok (a', es) -> asks es = Some (p, m) ->
      fresh r w ->
      nstep KAsk w (mkNet (<[i := set_wait (mkWait k config rnd r) n]> (n_nodes w)) (n_soup w ++ [mkLetter p (Some r) m]))
  | n_answer ns l1 l l2 i n v a' es :           (* the answer comes *)
      ns !! i = Some n -> n_wait n = Some v -> l_to l = w_resp v ->
      Receive (n_addr n) (w_rnd v) (Some (l_body l)) (AActivate (w_kind v) (w_config v)) (n_agent n) = Ok (a', es) ->
      nstep KAnswer (mkNet ns (l1 ++ l :: l2)) (finish i None a' es n (mkNet ns (l1 ++ l2)))
  | n_timeout w i n v a' es :                   (* it does not *)
      n_nodes w !! i = Some n -> n_wait n = Some v ->
      Receive (n_addr n) (w_rnd v) None (AActivate (w_kind v) (w_config v)) (n_agent n) = Ok (a', es) ->
      nstep KTimeout w (finish i None a' es n w)
  | n_deliver ns l1 l l2 i n rnd a' es :
      ns !! i = Some n -> n_wait n = None -> l_to l = agent_pid n ->
      Receive (n_addr n) rnd None (AWire (l_body l)) (n_agent n) = Ok (a', es) ->
      nstep KDeliver (mkNet ns (l1 ++ l :: l2)) (finish i (l_from l) a' es n (mkNet ns (l1 ++ l2)))
  | n_dead ns l1 l l2 :                         (* for a process that is no more *)
      (forall n, n ∈ ns -> agent_pid n <> l_to l) ->
      (forall n v, n ∈ ns -> n_wait n = Some v -> w_resp v <> l_to l) ->
      nstep KDead (mkNet ns (l1 ++ l :: l2)) (mkNet ns (l1 ++ l2))
  | n_lose ns l1 l l2 : nstep KLose (mkNet ns (l1 ++ l :: l2)) (mkNet ns (l1 ++ l2))
  | n_members w i n ms rnd a' es :              (* from the provider of the node *)
      n_nodes w !! i = Some n -> n_wait n = None ->
      Receive (n_addr n) rnd None (AWire (MMembers ms)) (n_agent n) = Ok (a', es) ->
      nstep KMembers w (finish i None a' es n w)
  | n_deactivate w i n pid rnd a' es :
      n_nodes w !! i = Some n -> n_wait n = None ->
      Receive (n_addr n) rnd None (ADeactivate pid) (n_agent n) = Ok (a', es) ->
      nstep KDeactivate w (finish i None a' es n w)
  | n_crash ns l1 l l2 i n rnd p :
      ns !! i = Some n -> n_wait n = None -> l_to l = agent_pid n ->
      Receive (n_addr n) rnd None (AWire (l_body l)) (n_agent n) = Panic p ->
      nstep KCrash (mkNet ns (l1 ++ l :: l2)) (mkNet (<[i := done_with (restarted (n_agent n)) [] n]> ns) (l1 ++ l2))
  | n_spawn w i n kd id rnd :                   (* [Cluster.Spawn]: spawns, whatever the agent does *)
      n_nodes w !! i = Some n ->
      nstep KSpawn w (mkNet (<[i := called (spawned (n_addr n) rnd kd id) n]> (n_nodes w)) (n_soup w))
  | n_tell w i n o1 pid o2 rnd a' es :          (* the agent answers with the members, who are told *)
      n_nodes w !! i = Some n -> n_wait n = None -> n_open n = o1 ++ pid :: o2 ->
      Receive (n_addr n) rnd None AGetMembers (n_agent n) = Ok (a', es) ->
      nstep KTell w (mkNet (<[i := with_calls (n_calls n) (o1 ++ o2) n]> (n_nodes w))
        (n_soup w ++ letters None (tell_members pid (answer es))))
  | n_untold w i n o1 pid o2 :                  (* it does not, in time *)
      n_nodes w !! i = Some n -> n_open n = o1 ++ pid :: o2 ->
      nstep KUntold w (mkNet (<[i := with_calls (n_calls n) (o1 ++ o2) n]> (n_nodes w))
        (n_soup w ++ letters None (tell_members pid None))).

Definition runs (ks : list kind) : net -> net -> Prop := rtc (fun w w' => exists k, k ∈ ks /\ nstep k w w').
Definition any_kind : list kind := [KActivate; KAsk; KAnswer; KTimeout; KDeliver; KDead; KLose; KMembers; KDeactivate; KCrash;
  KSpawn; KTell; KUntold].

(** Nodes that have just started: id, address and local kinds. *)
Definition started (cs : list (string * string * list string)) : net :=
  mkNet ((fun '(id, addr, ks) => mkNode id addr (NewAgent ks) None [] [] [] []) <$> cs) [].

Lemma runs_ind (P : net -> Prop) ks w w' :
  runs ks w w' -> P w -> (forall k w1 w2, k ∈ ks -> P w1 -> nstep k w1 w2 -> P w2) -> P w'.
Proof.
  intros Hr HP Hstep. refine (rtc_ind_r (fun w' => P w') w HP _ w' Hr).
  intros w1 w2 _ (k & Hk & Hs) H1. by eapply Hstep.
Qed.

(** ** Activating, as a function of the answer *)

Lemma activate_view addr k config rnd a :
  (forall resp, activate addr k config rnd resp a = (None, [])) \/
  (hasKindLocal k a = false /\ forall resp, activate addr k config rnd resp a = (None, bcast (MActivation None) a)) \/
  (hasKindLocal k a = true /\ forall resp, activate addr k config rnd resp a =
     (Some (spawned addr rnd k (cfg_id config)), ESpawn k (options_ID rnd (cfg_id config)) :: bcast (MActivation (Some (spawned addr rnd k (cfg_id config)))) a)) \/
  exists m, Host m <> addr /\ forall resp, activate addr k config rnd resp a =
     match resp with
     | Some (MActivationResponse pid true) =>
         (pid, ERequest (Member_PID m) (MActivationRequest k (cfg_id config)) :: bcast (MActivation pid) a)
     | _ => (None, [ERequest (Member_PID m) (MActivationRequest k (cfg_id config))])
     end.
Proof.
  unfold activate. destruct (activated a !! _); [by left|]. cbv zeta.
  destruct (_ =? 0)%nat; [by left|]. destruct (default (SelectRandomMember (d_member rnd)) (selectMember config) (mkDetails (cfg_region config) (FilterByKind k (a_members a)) k)) as [m|]; [|by left].
  destruct (String.eqb_spec (Host m) addr) as [Hh|Hh].
  - right. unfold handleActivationRequest. destruct (hasKindLocal k a); [right; by left|by left].
  - right. right. right. by exists m.
Qed.

(** ** Only what was spawned is active *)

Section about.
(** What is known of the keys of actors, of the actors and of the kinds of a node. *)
Variable K : string -> PID -> Prop.
Variable G : PID -> Prop.
Variable L : string -> Prop.
Hypothesis HK : forall p, K (ID p) p.

Definition msg_about (m : cmsg) : Prop :=
  match m with
  | MActivation (Some p) | MActivationResponse (Some p) true => G p
  | MActorTopology ps => forall p, Some p ∈ ps -> G p
  | _ => True
  end.

Definition eff_about (e : effect) : Prop :=
  match e with
  | ESend to m => msg_about m /\ exists x, to = Some (Member_PID x)
  | ERespond (RMessage m) => msg_about m
  | ERespond (RPid (Some p)) => G p
  | ESpawn k _ => L k
  | _ => True
  end.

Definition agent_about (a : Agent) : Prop := forall id p, activated a !! id = Some p -> K id p /\ G p.

Lemma bcast_about m a : msg_about m -> Forall eff_about (bcast m a).
Proof. intros Hm. rewrite bcast_eq. apply Forall_fmap, Forall_forall. intros x _. split; [done|by exists x]. Qed.

Lemma drop_host_sub host act : drop_host host act ⊆ act.
Proof.
  unfold drop_host. assert (Hg : forall (l : list (string * PID)) m, m ⊆ act ->
    foldl (fun act '(k, pid) => match act !! k with
      | Some _ => if String.eqb (Address pid) host then delete (ID pid) act else act
      | None => act end) m l ⊆ act); [|by apply Hg].
  induction l as [|[k p] l IH]; intros m Hm; [done|]. apply IH. destruct (m !! k); [|done].
  destruct (String.eqb _ _); [|done]. etrans; [apply delete_subseteq|done].
Qed.

Lemma each_about {A} (f : A -> Agent -> handler Agent) xs a a' es :
  (forall x a a' es, x ∈ xs -> agent_about a -> f x a = Ok (a', es) ->
     agent_about a' /\ localKinds a' = localKinds a /\ Forall eff_about es) ->
  agent_about a -> handle_each f xs a = Ok (a', es) ->
  agent_about a' /\ localKinds a' = localKinds a /\ Forall eff_about es.
Proof.
  intros Hf. revert a a' es. induction xs as [|x xs IH]; intros a a' es Ha He.
  { injection He as <- <-. split_and!; [done|done|constructor]. }
  cbn [handle_each] in He. destruct (f x a) as [[a1 e1]|] eqn:E1; [|done]. cbn [mbind result_bind] in He.
  destruct (handle_each f xs a1) as [[a2 e2]|] eqn:E2; [|done]. injection He as <- <-.
  destruct (Hf x a a1 e1) as (H1 & L1 & F1); [by left|done|done|].
  destruct (IH (fun y a a' es Hy => Hf y a a' es (list_elem_of_further _ _ _ Hy)) a1 a2 e2 H1 E2) as (H2 & L2 & F2).
  split_and!; [done|congruence|by apply Forall_app].
Qed.

Lemma add_about pid a a' :
  (forall p, pid = Some p -> G p) -> agent_about a -> addActivated pid a = Ok a' ->
  agent_about a' /\ localKinds a' = localKinds a.
Proof.
  intros Hp Ha. unfold addActivated. destruct pid as [p|]; [|done]. destruct (activated a !! ID p); intros [= <-]; [done|].
  split; [|done]. intros id q. cbn [set_activated activated]. intros [[<- <-]|[_ Hq]]%lookup_insert_Some; [|by apply Ha].
  split; [apply HK|by apply Hp].
Qed.

Lemma members_about ms a a' es :
  agent_about a -> handleMembers ms a = Ok (a', es) ->
  agent_about a' /\ localKinds a' = localKinds a /\ Forall eff_about es.
Proof.
  intros Ha He. unfold handleMembers in He. cbv zeta in He.
  destruct (handle_each memberJoin _ a) as [[a1 e1]|] eqn:E1; [|done]. cbn [mbind result_bind] in He.
  destruct (handle_each memberLeave _ a1) as [[a2 e2]|] eqn:E2; [|done]. injection He as <- <-.
  apply each_about in E1 as (H1 & L1 & F1); [| |done].
  - apply each_about in E2 as (H2 & L2 & F2); [split_and!; [done|congruence|by apply Forall_app]| |done].
    intros m b b' es _ Hb. unfold memberLeave. destruct (Remove _ _); [|done]. intros [= <- <-].
    split; [|by split; [|repeat constructor]]. intros id p Hp. cbn [set_activated activated] in Hp.
    apply Hb. by apply (lookup_weaken _ _ _ _ Hp), drop_host_sub.
  - intros m b b' es _ Hb [= <- <-]. split_and!; [done|done|]. apply Forall_app. split; [|by repeat constructor].
    destruct (0 <? _); [|by constructor]. constructor; [|constructor]. cbn [eff_about msg_about]. split; [|by exists m].
    intros p ([id q] & [= ->] & Hq%range_lookup)%list_elem_of_fmap. by apply (Hb id).
Qed.

(** A handler of genuine messages keeps the agent and what it sends genuine, if what
    it spawns is. *)
Lemma Receive_about addr rnd resp msg a a' es :
  agent_about a ->
  match msg with AWire m => msg_about m | _ => True end ->
  match resp with Some m => msg_about m | None => True end ->
  Receive addr rnd resp msg a = Ok (a', es) ->
  (forall id, id ∈ spawns es -> G (NewPID addr id)) -> (forall k, hasKindLocal k a = true -> L k) ->
  agent_about a' /\ localKinds a' = localKinds a /\ Forall eff_about es.
Proof.
  intros Ha Hm Hr He Hs HL. destruct msg as [m|k config|pid| | |id k|]; cbn [Receive] in He.
  - destruct m as [m|ms|ps|p|p|k id|p ok|p]; try by (injection He as <- <-; split_and!; [done|done|constructor]).
    + by eapply members_about.
    + eapply each_about; [|exact Ha|exact He]. intros p b b' e Hp Hb. cbv beta.
      destruct (addActivated p b) as [b1|] eqn:E; [|done]. intros [= <- <-].
      destruct (add_about p b b1) as [H1 H2]; [|done|done|by split_and!]. intros q ->. by apply Hm.
    + unfold handleActivation in He. destruct (addActivated p a) as [b1|] eqn:E; [|done]. injection He as <- <-.
      destruct (add_about p a b1) as [H1 H2]; [|done|done|by split_and!; [..|repeat constructor]]. by intros q ->.
    + unfold handleDeactivation in He. destruct p as [p|]; [|done]. injection He as <- <-.
      split_and!; [|done|by repeat constructor]. intros id q. cbn [set_activated activated].
      intros [_ Hq]%lookup_delete_Some. by apply Ha.
    + unfold handleActivationRequest in He. destruct (hasKindLocal k a) eqn:Ek; cbn [negb] in He; cycle 1.
      * injection He as <- <-. by split_and!; [..|repeat constructor].
      * injection He as <- <-. split_and!; [done|done|]. constructor; [by apply HL|]. constructor; [|constructor].
        apply Hs. by left.
  - destruct (activate addr k config rnd resp a) as [pid ef] eqn:Eq. injection He as <- <-. split; [done|]. split; [done|].
    assert (Hg : forall q, eff_about (ERespond (RPid q)) -> msg_about (MActivation q)) by by intros [q|].
    assert (Hok : forall p, G p -> eff_about (ERespond (RPid (Some p))) ) by done.
    destruct (activate_view addr k config rnd a) as [Hv|[[_ Hv]|[[Ek Hv]|(m & _ & Hv)]]]; rewrite Hv in Eq.
    + injection Eq as <- <-. by repeat constructor.
    + injection Eq as <- <-. apply Forall_app. split; [by apply bcast_about|by repeat constructor].
    + injection Eq as <- <-. assert (Hp : G (spawned addr rnd k (cfg_id config))) by (apply Hs; by left).
      constructor; [by apply HL|]. apply Forall_app. split; [by apply bcast_about|by repeat constructor].
    + destruct resp as [[| | | | | |q [|]|]|]; injection Eq as <- <-; try by repeat constructor.
      assert (Hq : eff_about (ERespond (RPid q))) by (by destruct q).
      constructor; [done|]. apply Forall_app. split; [apply bcast_about; by apply Hg|by repeat constructor].
  - injection He as <- <-. split; [done|]. split; [done|]. by apply bcast_about.
  - injection He as <- <-. by split_and!; [..|repeat constructor].
  - injection He as <- <-. by split_and!; [..|repeat constructor].
  - injection He as <- <-. split; [done|]. split; [done|]. unfold handleGetActive. apply Forall_app. split.
    + destruct (0 <? _)%nat; [|constructor]. repeat constructor. cbn. destruct (activated a !! id) eqn:E; [|done]. by apply (Ha id).
    + destruct (0 <? _)%nat; by repeat constructor.
  - injection He as <- <-. by split_and!; [..|constructor].
Qed.

(** A letter is about genuine actors, and goes to a member or to the sender. *)
Lemma letters_about sender es l :
  Forall eff_about es -> l ∈ letters sender es ->
  msg_about (l_body l) /\ l_from l = None /\ ((exists x, l_to l = Member_PID x) \/ sender = Some (l_to l)).
Proof.
  intros Hes (e & He & Hp)%list_elem_of_omap. apply (proj1 (Forall_forall _ _) Hes) in He.
  destruct e as [[p|] m|p m|[]| | |]; try done.
  - injection Hp as <-. destruct He as [Hm [x [= ->]]]. split_and!; [done|done|left; by exists x].
  - destruct sender as [s|]; [|done]. injection Hp as <-. split_and!; [done|done|by right].
Qed.

Lemma answers_about es p : Forall eff_about es -> Some p ∈ answers es -> G p.
Proof.
  intros Hes (e & He & Hp)%list_elem_of_omap. apply (proj1 (Forall_forall _ _) Hes) in He.
  destruct e as [| |[] | | |]; try done. by injection Hp as ->.
Qed.

Lemma spawns_about es id : Forall eff_about es -> id ∈ spawns es -> exists k x, id = k +:+ pidSeparator +:+ x /\ L k.
Proof.
  intros Hes (e & He & Hp)%list_elem_of_omap. apply (proj1 (Forall_forall _ _) Hes) in He.
  destruct e as [| | | |k x|]; try done. injection Hp as <-. by exists k, x.
Qed.
End about.

Lemma msg_about_mono (G G' : PID -> Prop) m : (forall p, G p -> G' p) -> msg_about G m -> msg_about G' m.
Proof. intros HG. destruct m as [| |ps|[p|]| | |[p|] [|]|]; cbn; auto. Qed.

(** An actor of a node: spawned by its agent, or by [Cluster.Spawn]. *)
Definition spawned_at (n : node) (id : string) : Prop := id ∈ n_spawned n \/ id ∈ n_calls n.
Definition spawned_by (w : net) (p : PID) : Prop :=
  exists n, n ∈ n_nodes w /\ n_addr n = Address p /\ spawned_at n (ID p).

Definition node_genuine (G : PID -> Prop) (n : node) : Prop :=
  agent_about (fun id p => ID p = id) G (n_agent n) /\ (forall p, Some p ∈ n_answers n -> G p) /\
  (forall id, id ∈ n_spawned n -> exists k x, id = k +:+ pidSeparator +:+ x /\ hasKindLocal k (n_agent n) = true) /\
  (forall id, id ∈ n_calls n -> exists k x, id = k +:+ pidSeparator +:+ x) /\ (forall p, p ∈ n_open n -> G p).

Definition net_genuine (w : net) : Prop :=
  (forall n, n ∈ n_nodes w -> node_genuine (spawned_by w) n) /\
  (forall l, l ∈ n_soup w -> msg_about (spawned_by w) (l_body l)).

Lemma node_genuine_mono (G G' : PID -> Prop) n : (forall p, G p -> G' p) -> node_genuine G n -> node_genuine G' n.
Proof. intros HG (H1 & H2 & H3 & H4 & H5). split_and!; [|by auto|done|done|by auto]. intros id p Hp. destruct (H1 id p Hp). by auto. Qed.

(** Replacing a node by one that has spawned as much. *)
Lemma spawned_by_insert i n n' ns s s' p :
  ns !! i = Some n -> n_addr n' = n_addr n -> (forall id, spawned_at n id -> spawned_at n' id) ->
  spawned_by (mkNet ns s) p -> spawned_by (mkNet (<[i := n']> ns) s') p.
Proof.
  intros Hi Ha Hs (x & Hx & Hxa & Hxs). cbn [n_nodes] in Hx. apply list_elem_of_lookup in Hx as [j Hj].
  destruct (decide (j = i)) as [->|Hne].
  - assert (x = n) as -> by congruence. exists n'. split; [|split; [congruence|by apply Hs]]. cbn [n_nodes].
    apply list_elem_of_lookup. exists i. apply list_lookup_insert_eq. by eapply lookup_lt_Some.
  - exists x. split; [|done]. cbn [n_nodes]. apply list_elem_of_lookup. exists j. by rewrite list_lookup_insert_ne.
Qed.

(** A node that handles a genuine message. *)
Lemma finish_genuine w i sender n rnd resp msg a' es :
  net_genuine w -> n_nodes w !! i = Some n ->
  match msg with AWire m => msg_about (spawned_by w) m | _ => True end ->
  match resp with Some m => msg_about (spawned_by w) m | None => True end ->
  Receive (n_addr n) rnd resp msg (n_agent n) = Ok (a', es) ->
  net_genuine (finish i sender a' es n w).
Proof.
  intros [Hn Hs] Hi Hm Hr He. set (w' := finish i sender a' es n w).
  assert (Hmono : forall p, spawned_by w p -> spawned_by w' p).
  { intros p. destruct w as [ns s]. apply (spawned_by_insert i n); [done|done|]. intros id [Hid|Hid]; [left|by right].
    cbn [done_with n_spawned]. apply elem_of_app. by left. }
  assert (Hnew : forall id, id ∈ spawns es -> spawned_by w' (NewPID (n_addr n) id)).
  { intros id Hid. exists (done_with a' es n). split; [|split; [done|]].
    - apply list_elem_of_lookup. exists i. apply list_lookup_insert_eq. by eapply lookup_lt_Some.
    - left. cbn [done_with n_spawned]. apply elem_of_app. by right. }
  destruct (Hn n) as (H1 & H2 & H3 & H4 & H5); [by eapply list_elem_of_lookup_2|].
  destruct (Receive_about (fun id p => ID p = id) (spawned_by w') (fun k => hasKindLocal k (n_agent n) = true) (fun p => eq_refl) (n_addr n) rnd resp msg (n_agent n) a' es)
    as (Ha & Hl & Hes); [| | |exact He|exact Hnew|done|].
  { intros id p Hp. destruct (H1 id p Hp). by auto. }
  { destruct msg; try done. by eapply msg_about_mono. }
  { destruct resp; [by eapply msg_about_mono|done]. }
  assert (Hlk : forall k, hasKindLocal k a' = hasKindLocal k (n_agent n)) by (intros k; unfold hasKindLocal; by rewrite Hl).
  split.
  - intros x [->|Hx]%elem_of_insert; [|by eapply node_genuine_mono, Hn]. split_and!; cbn [done_with n_agent n_answers n_spawned n_calls n_open];
      [done| | |exact H4|by auto].
    + intros p [Hp|Hp]%elem_of_app; [by apply Hmono, H2|by eapply answers_about].
    + intros id [Hid|Hid]%elem_of_app.
      * destruct (H3 id Hid) as (k & x & -> & Hk). exists k, x. by rewrite Hlk.
      * destruct (spawns_about _ _ es id Hes Hid) as (k & x & -> & Hk). exists k, x. by rewrite Hlk.
  - intros l [Hx|Hx]%elem_of_app; [by eapply msg_about_mono, Hs|].
    by apply (letters_about _ _ sender es l Hes).
Qed.

Lemma genuine_soup w (s : list letter) :
  net_genuine w -> (forall l, l ∈ s -> l ∈ n_soup w) -> net_genuine (mkNet (n_nodes w) s).
Proof. intros [Hn Hs] Hl. split; [exact Hn|]. intros l Hin. by apply Hs, Hl. Qed.

Lemma in_middle (l1 l2 : list letter) l x : x ∈ l1 ++ l2 -> x ∈ l1 ++ l :: l2.
Proof. rewrite !elem_of_app, elem_of_cons. tauto. Qed.

(** Calls of [Cluster.Spawn] come and go. *)
Lemma calls_genuine w i n calls waiting s :
  net_genuine w -> n_nodes w !! i = Some n -> (forall id, id ∈ n_calls n -> id ∈ calls) ->
  let w' := mkNet (<[i := with_calls calls waiting n]> (n_nodes w)) s in
  (forall id, id ∈ calls -> exists k x, id = k +:+ pidSeparator +:+ x) ->
  (forall p, p ∈ waiting -> spawned_by w' p) ->
  (forall l, l ∈ s -> l ∈ n_soup w \/ msg_about (spawned_by w) (l_body l)) ->
  net_genuine w'.
Proof.
  intros [Hn Hs] Hi Hc w' Hcalls Hw Hl.
  assert (Hmono : forall p, spawned_by w p -> spawned_by w' p).
  { intros p. destruct w as [ns s0]. apply (spawned_by_insert i n); [done|done|]. intros id [?|?]; [by left|right; by apply Hc]. }
  destruct (Hn n) as (H1 & H2 & H3 & _ & _); [by eapply list_elem_of_lookup_2|]. split.
  - intros x [->|Hx]%elem_of_insert; [|by eapply node_genuine_mono, Hn]. split_and!; [|by auto|done|done|done].
    intros id p Hp. destruct (H1 id p Hp). by auto.
  - intros l [Hin|Hin]%Hl; eapply msg_about_mono; by eauto.
Qed.

(** What [Cluster.Spawn] tells the members. *)
Lemma tell_letters pid r l :
  l ∈ letters None (tell_members pid r) -> l_from l = None /\ l_body l = MActivation (Some pid) /\ exists x, l_to l = Member_PID x.
Proof.
  intros (e & He & Hl)%list_elem_of_omap. apply list_elem_of_fmap in He as (m & -> & _). injection Hl as <-.
  split_and!; [done|done|by exists m].
Qed.

Lemma nstep_genuine k w w' : net_genuine w -> nstep k w w' -> net_genuine w'.
Proof.
  intros Hg Hstep. destruct Hstep as [w i n k config rnd a' es Hi Hw Hr Hk|w i n k config rnd a' es r rx p m Hi Hw Hrx Hr Hk Hf|
    ns l1 l l2 i n v a' es Hi Hw Hto Hr|w i n v a' es Hi Hw Hr|ns l1 l l2 i n rnd a' es Hi Hw Hto Hr|
    ns l1 l l2 Ha Hw|ns l1 l l2|w i n ms rnd a' es Hi Hw Hr|w i n pid rnd a' es Hi Hw Hr|ns l1 l l2 i n rnd p Hi Hw Hto Hr|
    w i n kd sid rnd Hi|w i n o1 pid o2 rnd a' es Hi Hw Ho Hr|w i n o1 pid o2 Hi Ho];
    try (by eapply finish_genuine; [exact Hg|exact Hi| | |exact Hr]).
  - (* it asks: a request is about no actor *)
    destruct Hg as [Hn Hs].
    assert (Hm : forall G, msg_about G m).
    { intros G. cbn [Receive] in Hr. destruct (activate _ _ _ _ _ _) as [pid ef] eqn:Eq. injection Hr as <- <-.
      destruct (activate_view (n_addr n) k config rnd (n_agent n)) as [Hv|[[_ Hv]|[[_ Hv]|(x & _ & Hv)]]]; rewrite Hv in Eq;
        injection Eq as <- <-; try done.
      - revert Hk. rewrite bcast_eq. by destruct (values _).
      - by injection Hk as <- <-. }
    assert (Hsp : forall q, spawned_by w q <-> spawned_by (mkNet (<[i:=set_wait (mkWait k config rnd r) n]> (n_nodes w)) (n_soup w ++ [mkLetter p (Some r) m])) q).
    { intros q. split; [destruct w as [ns s]; by apply (spawned_by_insert i n)|].
      intros (x & [->|Hx]%elem_of_insert & H1 & H2); [exists n|by exists x]. split; [by eapply list_elem_of_lookup_2|done]. }
    split.
    + intros x [->|Hx]%elem_of_insert.
      * eapply (node_genuine_mono _ _ n); [intros q; apply Hsp|]. apply Hn. by eapply list_elem_of_lookup_2.
      * eapply node_genuine_mono; [intros q; apply Hsp|by apply Hn].
    + intros l [Hl|Hl%list_elem_of_singleton]%elem_of_app; [|by subst l; apply Hm].
      eapply msg_about_mono; [intros q; apply Hsp|by apply Hs].
  - assert (Hg' : net_genuine (mkNet ns (l1 ++ l2))) by (apply (genuine_soup _ _ Hg), in_middle).
    eapply (finish_genuine _ _ _ _ _ _ _ _ _ Hg' Hi); [|cbv beta iota|exact Hr]; [done|].
    change (spawned_by (mkNet ns (l1 ++ l2))) with (spawned_by (mkNet ns (l1 ++ l :: l2))). apply Hg, elem_of_app. right. by left.
  - assert (Hg' : net_genuine (mkNet ns (l1 ++ l2))) by (apply (genuine_soup _ _ Hg), in_middle).
    eapply (finish_genuine _ _ _ _ _ _ _ _ _ Hg' Hi); [cbv beta iota| |exact Hr]; [|done].
    change (spawned_by (mkNet ns (l1 ++ l2))) with (spawned_by (mkNet ns (l1 ++ l :: l2))). apply Hg, elem_of_app. right. by left.
  - apply (genuine_soup _ _ Hg), in_middle.
  - apply (genuine_soup _ _ Hg), in_middle.
  - assert (Hg' : net_genuine (mkNet ns (l1 ++ l2))) by (apply (genuine_soup _ _ Hg), in_middle).
    destruct Hg' as [Hn Hs]. destruct (Hn n) as (H1 & H2 & H3 & H4 & H5); [by eapply list_elem_of_lookup_2|].
    set (n' := done_with (restarted (n_agent n)) [] n).
    assert (Hmono : forall q, spawned_by (mkNet ns (l1 ++ l2)) q -> spawned_by (mkNet (<[i:=n']> ns) (l1 ++ l2)) q).
    { intros q. apply (spawned_by_insert i n); [done|done|]. intros id. unfold spawned_at. cbn. by rewrite app_nil_r. }
    split.
    + intros x [->|Hx]%elem_of_insert; [|by eapply node_genuine_mono, Hn]. unfold n'. split_and!.
      * intros id q. cbn. by rewrite lookup_empty.
      * intros q. cbn. rewrite app_nil_r. intros Hq. by apply Hmono, H2.
      * intros id. cbn. rewrite app_nil_r. apply H3.
      * exact H4.
      * intros q Hq. by apply Hmono, H5.
    + intros x Hx. by eapply msg_about_mono, Hs.
  - set (p := spawned (n_addr n) rnd kd sid). destruct (proj1 Hg n) as (_ & _ & _ & H4 & H5); [by eapply list_elem_of_lookup_2|].
    apply (calls_genuine w i n); [done|done| | | |by left].
    + intros id Hid. apply elem_of_app. by left.
    + intros id [Hid|Hid]%elem_of_app; [by apply H4|]. apply list_elem_of_singleton in Hid as ->. by exists kd, (options_ID rnd sid).
    + assert (Hold : forall q, spawned_by w q -> spawned_by (mkNet (<[i := called p n]> (n_nodes w)) (n_soup w)) q).
      { intros q. destruct w as [ns s]. apply (spawned_by_insert i n); [done|done|].
        intros id [?|?]; [by left|right]. apply elem_of_app. by left. }
      intros q [Hq|Hq]%elem_of_app; [by apply Hold, H5|]. apply list_elem_of_singleton in Hq as ->.
      exists (called p n). split; [|split; [done|right; apply elem_of_app; right; by left]].
      apply list_elem_of_lookup. exists i. apply list_lookup_insert_eq. by eapply lookup_lt_Some.
  - destruct (proj1 Hg n) as (_ & _ & _ & H4 & H5); [by eapply list_elem_of_lookup_2|]. rewrite Ho in H5.
    apply (calls_genuine w i n); [done|done|done|done| |].
    + intros q Hq. destruct w as [ns s]. apply (spawned_by_insert i n _ ns s); [done|done|done|]. apply H5.
      revert Hq. rewrite !elem_of_app, elem_of_cons. tauto.
    + intros l [Hl|Hl]%elem_of_app; [by left|right]. destruct (tell_letters _ _ _ Hl) as (_ & -> & _). cbn [msg_about].
      apply H5, elem_of_app. right. by left.
  - destruct (proj1 Hg n) as (_ & _ & _ & H4 & H5); [by eapply list_elem_of_lookup_2|]. rewrite Ho in H5.
    apply (calls_genuine w i n); [done|done|done|done| |].
    + intros q Hq. destruct w as [ns s]. apply (spawned_by_insert i n _ ns s); [done|done|done|]. apply H5.
      revert Hq. rewrite !elem_of_app, elem_of_cons. tauto.
    + intros l [Hl|Hl]%elem_of_app; [by left|by apply elem_of_nil in Hl].
Qed.

Lemma started_genuine cs : net_genuine (started cs).
Proof.
  split; [|by intros l Hl%elem_of_nil]. intros n ([[id addr] ks] & -> & _)%list_elem_of_fmap. split_and!.
  - intros x p. cbn. by rewrite lookup_empty.
  - by intros p Hp%elem_of_nil.
  - by intros x Hx%elem_of_nil.
  - by intros x Hx%elem_of_nil.
  - by intros p Hp%elem_of_nil.
Qed.
End net.

(** ** Everyone hears of an activation *)

(** For steps whose handlers draw nothing. *)
Definition no_draws : draws := mkDraws 0 "0".

Section agree.
Context `{Range}.

(** Nobody joins, leaves, deactivates, crashes or loses messages. *)
Definition quiet : list kind := [KActivate; KAsk; KAnswer; KTimeout; KDeliver; KDead].
(** No new calls either. *)
Definition settling : list kind := [KAnswer; KTimeout; KDeliver; KDead].

(** Every agent has every node as a member. *)
Definition meshed (w : net) : Prop :=
  forall n, n ∈ n_nodes w -> set_ok (a_members (n_agent n)) /\
    forall m, m ∈ n_nodes w -> exists x, members (a_members (n_agent n)) !! MID x = Some x /\ Member_PID x = agent_pid m.

Definition answered (w : net) (p : PID) : Prop := exists n, n ∈ n_nodes w /\ Some p ∈ n_answers n.

(** An announcement to all members. *)
Definition announce (pid : option PID) (a : Agent) : list letter :=
  (fun x => mkLetter (Member_PID x) None (MActivation pid)) <$> values (a_members a).

Lemma letters_app s es es' : letters s (es ++ es') = letters s es ++ letters s es'.
Proof. unfold letters. apply omap_app. Qed.
Lemma answers_app es es' : answers (es ++ es') = answers es ++ answers es'.
Proof. unfold answers. apply omap_app. Qed.

Lemma bcast_letters s m a :
  letters s (bcast m a) = (fun x => mkLetter (Member_PID x) None m) <$> values (a_members a) /\ answers (bcast m a) = [].
Proof.
  rewrite bcast_eq. induction (values (a_members a)) as [|x xs [IH1 IH2]]; [done|]. rewrite !fmap_cons.
  split; [|exact IH2]. rewrite <-IH1. done.
Qed.

(** What a call of [Activate] is answered, and what it announces. *)
Lemma activate_posts addr rnd resp k config a a' es s :
  Receive addr rnd resp (AActivate k config) a = Ok (a', es) ->
  a' = a /\ exists pid, answers es = [pid] /\ (letters s es = announce pid a \/ pid = None /\ letters s es = []).
Proof.
  cbn [Receive]. destruct (activate addr k config rnd resp a) as [pid ef] eqn:Eq. intros [= <- <-]. split; [done|]. exists pid.
  rewrite answers_app, letters_app. cbn [answers letters omap list_omap]. rewrite app_nil_r.
  destruct (activate_view addr k config rnd a) as [Hv|[[_ Hv]|[[_ Hv]|(m & _ & Hv)]]]; rewrite Hv in Eq.
  - injection Eq as <- <-. split; [done|by right].
  - injection Eq as <- <-. destruct (bcast_letters s (MActivation None) a) as [-> ->]. split; [done|by left].
  - injection Eq as <- <-. destruct (bcast_letters s (MActivation (Some (spawned addr rnd k (cfg_id config)))) a) as [H1 H2].
    split; [|left; exact H1]. change (answers (bcast (MActivation (Some (spawned addr rnd k (cfg_id config)))) a) ++
      [Some (spawned addr rnd k (cfg_id config))] = [Some (spawned addr rnd k (cfg_id config))]). by rewrite H2.
  - destruct resp as [[| | | | | |q [|]|]|]; injection Eq as <- <-; try (split; [done|by right]).
    destruct (bcast_letters s (MActivation q) a) as [H1 H2]. split; [|left; exact H1].
    change (answers (bcast (MActivation q) a) ++ [q] = [q]). by rewrite H2.
Qed.

(** The messages of activation. *)
Definition activating (m : cmsg) : Prop :=
  match m with MActivation _ | MActivationRequest _ _ => True | MActivationResponse p ok => ok = true -> is_Some p | _ => False end.

Lemma deliver_posts addr rnd m a a' es s :
  activating m -> Receive addr rnd None (AWire m) a = Ok (a', es) ->
  answers es = [] /\ a_members a' = a_members a /\
  (forall id, activated a' !! id = match activated a !! id, m with
     | None, MActivation (Some p) => if decide (id = ID p) then Some p else None
     | o, _ => o end) /\
  (letters s es = [] \/ exists r k id pid ok, s = Some r /\ m = MActivationRequest k id /\ (ok = true -> is_Some pid) /\
     letters s es = [mkLetter r None (MActivationResponse pid ok)]).
Proof.
  intros Hm He. destruct m as [| | |p| |k id|p ok|]; try done; cbn [Receive] in He.
  - unfold handleActivation, addActivated in He. destruct p as [p|]; [|done].
    destruct (activated a !! ID p) as [q|] eqn:E; injection He as <- <-.
    + split_and!; [done|done| |by left]. intros id. destruct (activated a !! id) eqn:E'; [done|].
      rewrite decide_False; [done|]. intros ->. congruence.
    + split_and!; [done|done| |by left]. intros id. cbn [set_activated activated].
      destruct (decide (id = ID p)) as [->|Hne]; [by rewrite lookup_insert_eq, E|]. rewrite lookup_insert_ne by done.
      by destruct (activated a !! id).
  - unfold handleActivationRequest in He. destruct (hasKindLocal k a); injection He as <- <-.
    + split_and!; [done|done|intros x; by destruct (activated a !! x)|]. destruct s as [r|]; [right|by left].
      exists r, k, id, (Some (spawned addr rnd k id)), true. by split_and!.
    + split_and!; [done|done|intros x; by destruct (activated a !! x)|]. destruct s as [r|]; [right|by left].
      exists r, k, id, None, false. by split_and!.
  - injection He as <- <-. split_and!; [done|done|intros x; by destruct (activated a !! x)|by left].
Qed.

Definition distinct (w : net) : Prop := NoDup (agent_pid <$> n_nodes w).

Record agreeing (w : net) : Prop := {
  ag_mesh : meshed w;
  ag_distinct : distinct w;
  ag_wait : forall n v m, n ∈ n_nodes w -> n_wait n = Some v -> m ∈ n_nodes w -> agent_pid m <> w_resp v;
  ag_known : forall n id p, n ∈ n_nodes w -> activated (n_agent n) !! id = Some p -> ID p = id /\ answered w p;
  ag_soup : forall l, l ∈ n_soup w -> activating (l_body l) /\ (forall p, l_body l = MActivation (Some p) -> answered w p);
  ag_told : forall p m, answered w p -> m ∈ n_nodes w ->
    is_Some (activated (n_agent m) !! ID p) \/ mkLetter (agent_pid m) None (MActivation (Some p)) ∈ n_soup w;
}.

(** A node goes from [n] to [n'] and gives the answers [new], which it has announced. *)
Lemma agreeing_step ns s i n n' s' new :
  agreeing (mkNet ns s) -> ns !! i = Some n ->
  agent_pid n' = agent_pid n -> a_members (n_agent n') = a_members (n_agent n) -> n_answers n' = n_answers n ++ new ->
  (forall v m, n_wait n' = Some v -> m ∈ ns -> agent_pid m <> w_resp v) ->
  (forall id p, activated (n_agent n') !! id = Some p ->
     activated (n_agent n) !! id = Some p \/ (ID p = id /\ answered (mkNet ns s) p)) ->
  (forall id, is_Some (activated (n_agent n) !! id) -> is_Some (activated (n_agent n') !! id)) ->
  (forall p x, Some p ∈ new -> x ∈ values (a_members (n_agent n)) -> mkLetter (Member_PID x) None (MActivation (Some p)) ∈ s') ->
  (forall l, l ∈ s' -> l ∈ s \/ (activating (l_body l) /\ (forall p, l_body l = MActivation (Some p) -> Some p ∈ new))) ->
  (forall p j m, ns !! j = Some m -> mkLetter (agent_pid m) None (MActivation (Some p)) ∈ s ->
     mkLetter (agent_pid m) None (MActivation (Some p)) ∈ s' \/ (j = i /\ is_Some (activated (n_agent n') !! ID p))) ->
  agreeing (mkNet (<[i := n']> ns) s').
Proof.
  intros [Hmesh Hdist Hwait Hknown Hsoup Htold] Hi Hpid Hmem Hans Hwait' Hknown' Hmono Hnew Hsoup' Hkept.
  cbn [n_nodes n_soup] in *. pose proof (list_elem_of_lookup_2 _ _ _ Hi) as Hin.
  assert (Hnode : forall j x', <[i:=n']> ns !! j = Some x' -> exists x, ns !! j = Some x /\ agent_pid x' = agent_pid x /\
    a_members (n_agent x') = a_members (n_agent x) /\ (j = i /\ x = n /\ x' = n' \/ x' = x)).
  { intros j x' [(-> & <- & _)|[Hne Hj]]%list_lookup_insert_Some; [exists n; split_and!; by auto|exists x'; split_and!; by auto]. }
  assert (Hin' : n' ∈ <[i:=n']> ns) by (eapply list_elem_of_lookup_2, list_lookup_insert_eq, lookup_lt_Some, Hi).
  assert (Hold : forall p, answered (mkNet ns s) p -> answered (mkNet (<[i:=n']> ns) s') p).
  { intros p (x & Hj & Hx). cbn [n_nodes] in Hj. apply list_elem_of_lookup in Hj as [j Hj]. destruct (decide (j = i)) as [->|Hne].
    - assert (x = n) as -> by congruence. exists n'. split; [done|]. rewrite Hans. apply elem_of_app. by left.
    - exists x. split; [|done]. cbn [n_nodes]. apply list_elem_of_lookup. exists j. by rewrite list_lookup_insert_ne. }
  assert (Hadd : forall p, Some p ∈ new -> answered (mkNet (<[i:=n']> ns) s') p).
  { intros p Hp. exists n'. split; [done|]. rewrite Hans. apply elem_of_app. by right. }
  split; cbn [n_nodes n_soup].
  - intros x' [j Hj]%list_elem_of_lookup. destruct (Hnode j x' Hj) as (x & Hx & _ & -> & _).
    destruct (Hmesh x (list_elem_of_lookup_2 _ _ _ Hx)) as [H1 H2]. split; [done|].
    intros m' [j' Hj']%list_elem_of_lookup. destruct (Hnode j' m' Hj') as (m & Hm & -> & _).
    apply H2. by eapply list_elem_of_lookup_2.
  - unfold distinct. cbn [n_nodes]. rewrite list_fmap_insert, Hpid, list_insert_id; [done|]. by rewrite list_lookup_fmap, Hi.
  - intros x' v m' [j Hj]%list_elem_of_lookup Hv [j' Hj']%list_elem_of_lookup.
    destruct (Hnode j x' Hj) as (x & Hx & _ & _ & Hcase). destruct (Hnode j' m' Hj') as (m & Hm & -> & _).
    pose proof (list_elem_of_lookup_2 _ _ _ Hm). destruct Hcase as [(-> & -> & ->)| ->]; [by apply Hwait'|].
    apply (Hwait x v m); [by eapply list_elem_of_lookup_2|done|done].
  - intros x' id p [j Hj]%list_elem_of_lookup Hp. destruct (Hnode j x' Hj) as (x & Hx & _ & _ & [(-> & -> & ->)| ->]).
    + destruct (Hknown' id p Hp) as [Hp'|[? ?]]; [|by auto]. destruct (Hknown n id p Hin Hp'). by auto.
    + destruct (Hknown x id p (list_elem_of_lookup_2 _ _ _ Hx) Hp). by auto.
  - intros l [Hl|[H1 H2]]%Hsoup'; [|by auto]. destruct (Hsoup l Hl) as [H1 H2]. split; [done|]. by auto.
  - intros p m' Hp [j Hj]%list_elem_of_lookup. destruct (Hnode j m' Hj) as (m & Hm & Hmp & Hmm & Hcase).
    assert (Hkeep : is_Some (activated (n_agent m) !! ID p) -> is_Some (activated (n_agent m') !! ID p)).
    { destruct Hcase as [(-> & -> & ->)| ->]; [apply Hmono|done]. }
    assert (Hdone : answered (mkNet ns s) p -> is_Some (activated (n_agent m') !! ID p) \/
      mkLetter (agent_pid m') None (MActivation (Some p)) ∈ s').
    { intros Hp'. destruct (Htold p m Hp' (list_elem_of_lookup_2 _ _ _ Hm)) as [Hk|Hl]; [left; by apply Hkeep|].
      rewrite Hmp. destruct (Hkept p j m Hm Hl) as [Hl'|[-> Hk]]; [by right|left].
      destruct Hcase as [(_ & _ & ->)| ->]; [done|]. assert (m = n) as -> by congruence.
      rewrite list_lookup_insert_eq in Hj by (by eapply lookup_lt_Some). by injection Hj as <-. }
    destruct Hp as (x' & Hx' & Hans'). cbn [n_nodes] in Hx'. apply list_elem_of_lookup in Hx' as [jx Hjx].
    destruct (Hnode jx x' Hjx) as (x & Hx & _ & _ & [(-> & -> & ->)| ->]).
    + rewrite Hans in Hans'. apply elem_of_app in Hans' as [Hx'|Hx']; [apply Hdone; by exists n|].
      right. destruct (Hmesh n Hin) as [Hok Hall]. destruct (Hall m (list_elem_of_lookup_2 _ _ _ Hm)) as (y & Hy & Hyp).
      rewrite Hmp, <-Hyp. apply Hnew; [done|]. by apply elem_of_values.
    + apply Hdone. exists x. split; [by eapply list_elem_of_lookup_2|done].
Qed.

(** A call of [Activate] is answered; what was in flight for agents still is. *)
Lemma posts_agreeing ns s s0 i n rnd resp k config a' es :
  agreeing (mkNet ns s) -> ns !! i = Some n ->
  Receive (n_addr n) rnd resp (AActivate k config) (n_agent n) = Ok (a', es) ->
  (forall l, l ∈ s0 -> l ∈ s) -> (forall l m, l ∈ s -> m ∈ ns -> l_to l = agent_pid m -> l ∈ s0) ->
  agreeing (finish i None a' es n (mkNet ns s0)).
Proof.
  intros Hg Hi Hr Hs0 Hs. destruct (activate_posts _ _ _ _ _ _ _ _ None Hr) as (-> & pid & Ha & Hl).
  apply (agreeing_step ns s i n _ _ (answers es)); [done|done|done|done|done|done|by left|done| | |].
  - intros p x Hp Hx. rewrite Ha in Hp. apply list_elem_of_singleton in Hp as <-. destruct Hl as [->|[? _]]; [|done].
    apply elem_of_app. right. apply list_elem_of_fmap. by exists x.
  - intros l [Hin|Hin]%elem_of_app; [left; by apply Hs0|right]. destruct Hl as [Hl|[_ Hl]]; rewrite Hl in Hin; [|by apply elem_of_nil in Hin].
    apply list_elem_of_fmap in Hin as (x & -> & _). split; [done|]. cbn [l_body]. intros p [= ->]. rewrite Ha. by left.
  - intros p j m Hm Hin. left. apply elem_of_app. left. by apply (Hs _ m Hin); [eapply list_elem_of_lookup_2|].
Qed.

Lemma elem_of_middle (l1 l2 : list letter) l x : x ∈ l1 ++ l :: l2 -> x = l \/ x ∈ l1 ++ l2.
Proof. rewrite !elem_of_app, elem_of_cons. tauto. Qed.

(** A letter that no agent is meant to get goes away. *)
Lemma drop_agreeing ns s s0 :
  agreeing (mkNet ns s) -> (forall l, l ∈ s0 -> l ∈ s) -> (forall l m, l ∈ s -> m ∈ ns -> l_to l = agent_pid m -> l ∈ s0) ->
  agreeing (mkNet ns s0).
Proof.
  intros [H1 H2 H3 H4 H5 H6] Hs0 Hs. split; try done.
  - intros l Hl. by apply H5, Hs0.
  - intros p m Hp Hm. destruct (H6 p m Hp Hm) as [?|Hl]; [by left|right]. by apply (Hs _ m).
Qed.

Lemma deliver_agreeing ns l1 l l2 i n rnd a' es :
  agreeing (mkNet ns (l1 ++ l :: l2)) -> ns !! i = Some n -> n_wait n = None -> l_to l = agent_pid n ->
  Receive (n_addr n) rnd None (AWire (l_body l)) (n_agent n) = Ok (a', es) ->
  agreeing (finish i (l_from l) a' es n (mkNet ns (l1 ++ l2))).
Proof.
  intros Hg Hi Hw Hto Hr. assert (Hl : l ∈ l1 ++ l :: l2) by (apply elem_of_app; right; by left).
  destruct (ag_soup _ Hg l Hl) as [Hact Hansw].
  destruct (deliver_posts _ _ _ _ _ _ (l_from l) Hact Hr) as (Ha & Hm & Hk & Hpost).
  apply (agreeing_step ns (l1 ++ l :: l2) i n _ _ []); [done|done|done|done|by cbn [done_with n_answers]; rewrite Ha|done| | | | |].
  - intros id p. cbn [done_with n_agent]. rewrite Hk. destruct (activated (n_agent n) !! id) as [q|] eqn:E; [by left|].
    destruct (l_body l) as [| | |[q|]| | | |] eqn:El; try done. case_decide as Hid; [|done]. intros [= ->]. right. split; [done|].
    by apply Hansw.
  - intros id [q Hq]. cbn [done_with n_agent]. rewrite Hk, Hq. by eexists.
  - by intros p x Hp%elem_of_nil.
  - intros x [Hx|Hx]%elem_of_app; [left; by apply in_middle|right].
    destruct Hpost as [Hp|(r & k & id & pid & ok & _ & _ & Hok & Hp)]; rewrite Hp in Hx; [by apply elem_of_nil in Hx|].
    apply list_elem_of_singleton in Hx as ->. split; [exact Hok|done].
  - intros p j m Hj [<-|Hin]%elem_of_middle; [right|left; apply elem_of_app; by left]. cbn [l_to] in Hto. split.
    + eapply (NoDup_lookup _ _ _ (agent_pid m) (ag_distinct _ Hg)); rewrite list_lookup_fmap; [cbn [n_nodes]; by rewrite Hj|].
      cbn [n_nodes]. by rewrite Hi, Hto.
    + cbn [done_with n_agent]. rewrite Hk. cbn [l_body]. destruct (activated (n_agent n) !! ID p); [by eexists|].
      rewrite decide_True by done. by eexists.
Qed.

(** An agent that asks sends a request to a member. *)
Lemma asks_view addr rnd k config a a' es p m :
  Receive addr rnd None (AActivate k config) a = Ok (a', es) -> asks es = Some (p, m) ->
  m = MActivationRequest k (cfg_id config) /\ exists x, p = Member_PID x /\ Host x <> addr /\
    forall resp, activate addr k config rnd resp a =
     match resp with
     | Some (MActivationResponse pid true) => (pid, ERequest (Member_PID x) m :: bcast (MActivation pid) a)
     | _ => (None, [ERequest (Member_PID x) m])
     end.
Proof.
  cbn [Receive]. destruct (activate addr k config rnd None a) as [pid ef] eqn:Eq. intros [= <- <-] Hk.
  destruct (activate_view addr k config rnd a) as [Hv|[[_ Hv]|[[_ Hv]|(x & Hx & Hv)]]]; rewrite Hv in Eq; injection Eq as <- <-; try done.
  - revert Hk. rewrite bcast_eq. by destruct (values _).
  - injection Hk as <- <-. split; [done|]. by exists x.
Qed.

Lemma nstep_agreeing k w w' : k ∈ quiet -> agreeing w -> nstep k w w' -> agreeing w'.
Proof.
  intros Hk Hg Hstep. destruct Hstep as [w i n k config rnd a' es Hi Hw Hr Ha|w i n k config rnd a' es r rx p m Hi Hw Hrx Hr Ha Hf|
    ns l1 l l2 i n v a' es Hi Hw Hto Hr|w i n v a' es Hi Hw Hr|ns l1 l l2 i n rnd a' es Hi Hw Hto Hr|
    ns l1 l l2 Ha Hw|ns l1 l l2|w i n ms rnd a' es Hi Hw Hr|w i n pid rnd a' es Hi Hw Hr|ns l1 l l2 i n rnd p Hi Hw Hto Hr|
    w i n kd sid rnd Hi|w i n o1 pid o2 rnd a' es Hi Hw Ho Hr|w i n o1 pid o2 Hi Ho];
    try (exfalso; apply list_elem_of_In in Hk; cbn in Hk; intuition discriminate).
  - destruct w as [ns s]. by eapply posts_agreeing.
  - destruct w as [ns s]. destruct (asks_view _ _ _ _ _ _ _ _ _ Hr Ha) as [-> _]. subst r.
    apply (agreeing_step ns s i n _ _ []); try done.
    + by rewrite app_nil_r.
    + by intros v x [= <-] Hx [=].
    + by left.
    + by intros q x Hq%elem_of_nil.
    + intros l [Hl|Hl%list_elem_of_singleton]%elem_of_app; [by left|right]. by subst l.
    + intros q j x _ Hx. left. apply elem_of_app. by left.
  - eapply posts_agreeing; [exact Hg|done|exact Hr|apply in_middle|].
    intros x m [->|Hx]%elem_of_middle Hm Hpid; [|done]. exfalso. rewrite Hto in Hpid. symmetry in Hpid.
    by apply (ag_wait _ Hg n v m (list_elem_of_lookup_2 _ _ _ Hi) Hw Hm).
  - destruct w as [ns s]. by eapply posts_agreeing.
  - by eapply deliver_agreeing.
  - apply (drop_agreeing _ _ _ Hg); [apply in_middle|]. intros x m [->|Hx]%elem_of_middle Hm Hpid; [|done].
    exfalso. by apply (Ha m Hm).
Qed.

(** *** It comes to an end *)

Definition letter_load (l : letter) : nat := match l_body l with MActivationRequest _ _ => 2 | _ => 1 end.
Definition node_load (n : node) : nat :=
  match n_wait n with Some _ => S (length (values (a_members (n_agent n)))) | None => 0 end.
(** A bound on the steps that are left. *)
Definition load (w : net) : nat := (sum_list_with node_load (n_nodes w) + sum_list_with letter_load (n_soup w))%nat.

Lemma sum_list_insert {A} (f : A -> nat) (i : nat) (x y : A) (xs : list A) :
  xs !! i = Some x -> (sum_list_with f (<[i := y]> xs) + f x = sum_list_with f xs + f y)%nat.
Proof.
  revert i. induction xs as [|z xs IH]; intros i Hi; [done|]. destruct i as [|i].
  - injection Hi as ->. change (<[0%nat:=y]> (x :: xs)) with (y :: xs). cbn [sum_list_with]. lia.
  - specialize (IH i Hi). change (<[S i:=y]> (z :: xs)) with (z :: <[i:=y]> xs). cbn [sum_list_with]. lia.
Qed.

Lemma announce_load pid a : sum_list_with letter_load (announce pid a) = length (values (a_members a)).
Proof. unfold announce. induction (values (a_members a)) as [|x xs IH]; [done|]. rewrite fmap_cons. cbn in *. by rewrite IH. Qed.

Lemma posts_load addr rnd resp k config a a' es :
  Receive addr rnd resp (AActivate k config) a = Ok (a', es) ->
  (sum_list_with letter_load (letters None es) <= length (values (a_members a)))%nat.
Proof.
  intros Hr. destruct (activate_posts _ _ _ _ _ _ _ _ None Hr) as (_ & pid & _ & [->|[_ ->]]); [by rewrite announce_load|cbn; lia].
Qed.

Lemma settle_load k w w' : k ∈ settling -> agreeing w -> nstep k w w' -> (load w' < load w)%nat.
Proof.
  intros Hk Hg Hstep. destruct Hstep as [w i n k config rnd a' es Hi Hw Hr Ha|w i n k config rnd a' es r rx p m Hi Hw Hrx Hr Ha Hf|
    ns l1 l l2 i n v a' es Hi Hw Hto Hr|w i n v a' es Hi Hw Hr|ns l1 l l2 i n rnd a' es Hi Hw Hto Hr|
    ns l1 l l2 Ha Hw|ns l1 l l2|w i n ms rnd a' es Hi Hw Hr|w i n pid rnd a' es Hi Hw Hr|ns l1 l l2 i n rnd p Hi Hw Hto Hr|
    w i n kd sid rnd Hi|w i n o1 pid o2 rnd a' es Hi Hw Ho Hr|w i n o1 pid o2 Hi Ho];
    try (exfalso; apply list_elem_of_In in Hk; cbn in Hk; intuition discriminate);
    unfold load; cbn [finish n_nodes n_soup]; rewrite ?sum_list_with_app; cbn [sum_list_with];
    try pose proof (sum_list_insert node_load i n (done_with a' es n) _ Hi) as Hsum.
  - unfold node_load at 2 4 in Hsum. cbn [done_with n_wait] in Hsum. rewrite Hw in Hsum.
    pose proof (posts_load _ _ _ _ _ _ _ _ Hr). cbn [sum_list_with]. lia.
  - unfold node_load at 2 4 in Hsum. cbn [done_with n_wait] in Hsum. rewrite Hw in Hsum.
    pose proof (posts_load _ _ _ _ _ _ _ _ Hr). lia.
  - unfold node_load at 2 4 in Hsum. cbn [done_with n_wait] in Hsum. rewrite Hw in Hsum.
    assert (Hl : l ∈ l1 ++ l :: l2) by (apply elem_of_app; right; by left).
    destruct (ag_soup _ Hg l Hl) as [Hact _].
    destruct (deliver_posts _ _ _ _ _ _ (l_from l) Hact Hr) as (_ & _ & _ & [Hp|(r & k & id & pid & ok & _ & Hb & _ & Hp)]);
      rewrite Hp; unfold letter_load at 5; cbn; [destruct (l_body l); lia|rewrite Hb; lia].
  - assert (0 < letter_load l)%nat by (unfold letter_load; destruct (l_body l); lia). cbn. lia.
Qed.

(** *** It does not get stuck *)

(** What an agent waits for is the answer of another member. *)
Definition waits_remote (w : net) : Prop :=
  forall n v, n ∈ n_nodes w -> n_wait n = Some v -> exists x m, forall resp,
    activate (n_addr n) (w_kind v) (w_config v) (w_rnd v) resp (n_agent n) =
     match resp with
     | Some (MActivationResponse pid true) => (pid, ERequest (Member_PID x) m :: bcast (MActivation pid) (n_agent n))
     | _ => (None, [ERequest (Member_PID x) m])
     end.

Definition nil_free (w : net) : Prop := forall l, l ∈ n_soup w -> l_body l <> MActivation None.

Lemma idle_remote w i n' (s' : list letter) :
  waits_remote w -> n_wait n' = None -> waits_remote (mkNet (<[i := n']> (n_nodes w)) s').
Proof. intros Hw Hn n v [->|Hin]%elem_of_insert Hv; [congruence|by apply Hw]. Qed.

Lemma nstep_remote k w w' : waits_remote w -> nstep k w w' -> waits_remote w'.
Proof.
  intros Hg Hstep. destruct Hstep as [w i n k config rnd a' es Hi Hw Hr Ha|w i n k config rnd a' es r rx p m Hi Hw Hrx Hr Ha Hf|
    ns l1 l l2 i n v a' es Hi Hw Hto Hr|w i n v a' es Hi Hw Hr|ns l1 l l2 i n rnd a' es Hi Hw Hto Hr|
    ns l1 l l2 Ha Hw|ns l1 l l2|w i n ms rnd a' es Hi Hw Hr|w i n pid rnd a' es Hi Hw Hr|ns l1 l l2 i n rnd p Hi Hw Hto Hr|
    w i n kd sid rnd Hi|w i n o1 pid o2 rnd a' es Hi Hw Ho Hr|w i n o1 pid o2 Hi Ho];
    try (apply (idle_remote _ i _ _ Hg); reflexivity); try exact Hg;
    try (intros n0 v [->|Hin]%elem_of_insert Hv0; [apply (Hg n v); [by eapply list_elem_of_lookup_2|exact Hv0]|by apply Hg]).
  destruct (asks_view _ _ _ _ _ _ _ _ _ Hr Ha) as (_ & x & _ & _ & Hv).
  intros n0 v [->|Hin]%elem_of_insert Hv0; [|by apply Hg]. injection Hv0 as <-. by exists x, m.
Qed.

(** The answer to a waiting node, and its timeout. *)
Lemma waits_letters n v resp a' es x m :
  (forall resp, activate (n_addr n) (w_kind v) (w_config v) (w_rnd v) resp (n_agent n) =
     match resp with
     | Some (MActivationResponse pid true) => (pid, ERequest (Member_PID x) m :: bcast (MActivation pid) (n_agent n))
     | _ => (None, [ERequest (Member_PID x) m])
     end) ->
  (forall b, resp = Some b -> activating b) ->
  Receive (n_addr n) (w_rnd v) resp (AActivate (w_kind v) (w_config v)) (n_agent n) = Ok (a', es) ->
  forall l, l ∈ letters None es -> l_body l <> MActivation None.
Proof.
  intros Hv Hb Hr l. cbn [Receive] in Hr. rewrite Hv in Hr. destruct resp as [b|]; [specialize (Hb b eq_refl)|].
  - destruct b as [| | | | | |q [|]|]; injection Hr as <- <-; try by intros Hl%elem_of_nil.
    destruct (Hb eq_refl) as [p ->].
    change (l ∈ letters None (bcast (MActivation (Some p)) (n_agent n) ++ [ERespond (RPid (Some p))]) -> l_body l <> MActivation None).
    rewrite letters_app. destruct (bcast_letters None (MActivation (Some p)) (n_agent n)) as [-> _].
    cbn [letters omap list_omap]. rewrite app_nil_r. by intros (y & -> & _)%list_elem_of_fmap.
  - injection Hr as <- <-. by intros Hl%elem_of_nil.
Qed.

Lemma settle_nil_free k w w' : k ∈ settling -> agreeing w -> waits_remote w -> nil_free w -> nstep k w w' -> nil_free w'.
Proof.
  intros Hk Hg Hrem Hnil Hstep.
  destruct Hstep as [w i n k config rnd a' es Hi Hw Hr Ha|w i n k config rnd a' es r rx p m Hi Hw Hrx Hr Ha Hf|
    ns l1 l l2 i n v a' es Hi Hw Hto Hr|w i n v a' es Hi Hw Hr|ns l1 l l2 i n rnd a' es Hi Hw Hto Hr|
    ns l1 l l2 Ha Hw|ns l1 l l2|w i n ms rnd a' es Hi Hw Hr|w i n pid rnd a' es Hi Hw Hr|ns l1 l l2 i n rnd p Hi Hw Hto Hr|
    w i n kd sid rnd Hi|w i n o1 pid o2 rnd a' es Hi Hw Ho Hr|w i n o1 pid o2 Hi Ho];
    try (exfalso; apply list_elem_of_In in Hk; cbn in Hk; intuition discriminate).
  - intros x [Hx|Hx]%elem_of_app; [by apply Hnil, in_middle|].
    destruct (Hrem n v (list_elem_of_lookup_2 _ _ _ Hi) Hw) as (y & m & Hv).
    apply (waits_letters n v _ a' es y m Hv) with (2 := Hr); [|done]. intros b [= <-].
    apply (ag_soup _ Hg). cbn [n_soup]. apply elem_of_app. right. by left.
  - intros x [Hx|Hx]%elem_of_app; [by apply Hnil|].
    destruct (Hrem n v (list_elem_of_lookup_2 _ _ _ Hi) Hw) as (y & m & Hv).
    by apply (waits_letters n v None a' es y m Hv) with (2 := Hr).
  - intros x [Hx|Hx]%elem_of_app; [by apply Hnil, in_middle|].
    assert (Hl : l ∈ l1 ++ l :: l2) by (apply elem_of_app; right; by left).
    destruct (ag_soup _ Hg l Hl) as [Hact _].
    destruct (deliver_posts _ _ _ _ _ _ (l_from l) Hact Hr) as (_ & _ & _ & [Hp|(r & k & id & pid & ok & _ & _ & _ & Hp)]);
      rewrite Hp in Hx; [by apply elem_of_nil in Hx|]. by apply list_elem_of_singleton in Hx as ->.
  - intros x Hx. by apply Hnil, in_middle.
Qed.

(** While somebody waits or something is in flight, there is a next step. *)
Lemma settle_progress w : agreeing w -> nil_free w ->
  (exists k w', k ∈ settling /\ nstep k w w') \/ (n_soup w = [] /\ forall n, n ∈ n_nodes w -> n_wait n = None).
Proof.
  intros Hg Hnil. destruct w as [ns s].
  destruct (decide (Exists (fun n => is_Some (n_wait n)) ns)) as [(n & Hin & [v Hv])%Exists_exists|Hidle].
  { left. apply list_elem_of_lookup in Hin as [i Hi].
    destruct (activate (n_addr n) (w_kind v) (w_config v) (w_rnd v) None (n_agent n)) as [pid es] eqn:E.
    exists KTimeout. eexists. split; [by do 1 right; left|]. eapply n_timeout; [exact Hi|exact Hv|]. cbn [Receive]. by rewrite E. }
  assert (Hall : forall n, n ∈ ns -> n_wait n = None).
  { intros n Hn. destruct (n_wait n) eqn:E; [|done]. destruct Hidle. apply Exists_exists. exists n. by rewrite E. }
  destruct s as [|l s]; [by right|left].
  destruct (ag_soup _ Hg l) as [Hact _]; [by left|]. assert (Hl : l_body l <> MActivation None) by (apply Hnil; by left).
  destruct (decide (Exists (fun n => agent_pid n = l_to l) ns)) as [(n & Hin & Hpid)%Exists_exists|Hnone].
  - apply list_elem_of_lookup in Hin as [i Hi].
    assert (exists a' es, Receive (n_addr n) no_draws None (AWire (l_body l)) (n_agent n) = Ok (a', es)) as (a' & es & Hr).
    { destruct (l_body l) as [| | |[p|]| |k id|p ok|]; try done; cbn [Receive].
      - unfold handleActivation, addActivated. destruct (activated (n_agent n) !! ID p); by eexists _, _.
      - destruct (handleActivationRequest _ _ _ _ _) as [[pid ok] es]. by eexists _, _.
      - by eexists _, _. }
    exists KDeliver. eexists. split; [by do 2 right; left|].
    apply (n_deliver ns [] l s i n no_draws a' es); [done|by apply Hall; eapply list_elem_of_lookup_2|done|done].
  - exists KDead. eexists. split; [by do 3 right; left|]. apply (n_dead ns [] l s).
    + intros n Hn Hpid. apply Hnone, Exists_exists. by exists n.
    + intros n v Hn Hv. by rewrite (Hall n Hn) in Hv.
Qed.
End agree.

(** ** Running a net *)

Section exec.
Context `{Range}.

Inductive action :=
  | ACall (i : nat) (k : string) (config : ActivationConfig) (rnd : draws) (x : string)
  | AAnswer (i j : nat) | ATimeout (i : nat) | ADeliver (i j : nat) | ADrop (j : nat) | ASetMembers (i : nat) (ms : list Member)
  | ASpawn (i : nat) (k id : string) | ATell (i : nat).

Definition freshb (r : PID) (w : net) : bool :=
  forallb (fun l => bool_decide (l_to l <> r) && bool_decide (l_from l <> Some r)) (n_soup w) &&
  forallb (fun n => match n_wait n with Some v => bool_decide (w_resp v <> r) | None => true end) (n_nodes w).

Definition without (j : nat) (w : net) : net := mkNet (n_nodes w) (take j (n_soup w) ++ drop (S j) (n_soup w)).

(** One step, if it can be taken. *)
Definition exec (act : action) (w : net) : option (kind * net) :=
  match act with
  | ACall i k config rnd x =>
      n ← n_nodes w !! i;
      let r := response_pid (n_addr n) x in
      match n_wait n, Receive (n_addr n) rnd None (AActivate k config) (n_agent n) with
      | None, Ok (a', es) =>
          match asks es with
          | None => Some (KActivate, finish i None a' es n w)
          | Some (p, m) =>
              if freshb r w
              then Some (KAsk, mkNet (<[i := set_wait (mkWait k config rnd r) n]> (n_nodes w)) (n_soup w ++ [mkLetter p (Some r) m]))
              else None
          end
      | _, _ => None
      end
  | AAnswer i j =>
      n ← n_nodes w !! i; v ← n_wait n; l ← n_soup w !! j;
      match Receive (n_addr n) (w_rnd v) (Some (l_body l)) (AActivate (w_kind v) (w_config v)) (n_agent n) with
      | Ok (a', es) => if decide (l_to l = w_resp v) then Some (KAnswer, finish i None a' es n (without j w)) else None
      | Panic _ => None
      end
  | ATimeout i =>
      n ← n_nodes w !! i; v ← n_wait n;
      match Receive (n_addr n) (w_rnd v) None (AActivate (w_kind v) (w_config v)) (n_agent n) with
      | Ok (a', es) => Some (KTimeout, finish i None a' es n w)
      | Panic _ => None
      end
  | ADeliver i j =>
      n ← n_nodes w !! i; l ← n_soup w !! j;
      match n_wait n, Receive (n_addr n) no_draws None (AWire (l_body l)) (n_agent n) with
      | None, Ok (a', es) =>
          if decide (l_to l = agent_pid n) then Some (KDeliver, finish i (l_from l) a' es n (without j w)) else None
      | _, _ => None
      end
  | ADrop j =>
      l ← n_soup w !! j;
      if forallb (fun n => bool_decide (agent_pid n <> l_to l) &&
           match n_wait n with Some v => bool_decide (w_resp v <> l_to l) | None => true end) (n_nodes w)
      then Some (KDead, without j w) else None
  | ASetMembers i ms =>
      n ← n_nodes w !! i;
      match n_wait n, Receive (n_addr n) no_draws None (AWire (MMembers ms)) (n_agent n) with
      | None, Ok (a', es) => Some (KMembers, finish i None a' es n w)
      | _, _ => None
      end
  | ASpawn i k id =>
      n ← n_nodes w !! i;
      Some (KSpawn, mkNet (<[i := called (spawned (n_addr n) no_draws k id) n]> (n_nodes w)) (n_soup w))
  | ATell i =>
      n ← n_nodes w !! i;
      match n_wait n, n_open n, Receive (n_addr n) no_draws None AGetMembers (n_agent n) with
      | None, pid :: o, Ok (a', es) =>
          Some (KTell, mkNet (<[i := with_calls (n_calls n) o n]> (n_nodes w)) (n_soup w ++ letters None (tell_members pid (answer es))))
      | _, _, _ => None
      end
  end.

Fixpoint exec_all (acts : list action) (w : net) : option (list kind * net) :=
  match acts with
  | [] => Some ([], w)
  | act :: acts => '(k, w) ← exec act w; '(ks, w) ← exec_all acts w; Some (k :: ks, w)
  end.

Lemma freshb_fresh r w : freshb r w = true -> fresh r w.
Proof.
  unfold freshb. rewrite andb_true_iff, !forallb_forall. intros [Hs Hn]. split_and!.
  - intros l Hl%list_elem_of_In. apply Hs in Hl. apply andb_true_iff in Hl as [H1 H2].
    split; by apply bool_decide_eq_true in H1, H2.
  - intros n v Hl%list_elem_of_In Hv. apply Hn in Hl. rewrite Hv in Hl. by apply bool_decide_eq_true in Hl.
Qed.

Lemma without_middle w j l : n_soup w !! j = Some l -> w = mkNet (n_nodes w) (take j (n_soup w) ++ l :: drop (S j) (n_soup w)).
Proof. intros Hj. rewrite take_drop_middle by done. by destruct w. Qed.

Lemma nexec_sound act w k w' : exec act w = Some (k, w') -> nstep k w w'.
Proof.
  destruct act as [i kd config rnd x|i j|i|i j|j|i ms|i kd id|i]; cbn [exec].
  - destruct (n_nodes w !! i) as [n|] eqn:Hi; [|done]. cbn [mbind option_bind].
    destruct (n_wait n) eqn:Hw; [done|]. destruct (Receive _ _ _ _ _) as [[a' es]|] eqn:Hr; [|done].
    destruct (asks es) as [[p m]|] eqn:Ha.
    + destruct (freshb _ w) eqn:Hf; [|done]. intros [= <- <-]. eapply n_ask; try done. by apply freshb_fresh.
    + intros [= <- <-]. by eapply n_activate.
  - destruct (n_nodes w !! i) as [n|] eqn:Hi; [|done]. cbn [mbind option_bind].
    destruct (n_wait n) as [v|] eqn:Hw; [|done]. cbn [mbind option_bind].
    destruct (n_soup w !! j) as [l|] eqn:Hl; [|done]. cbn [mbind option_bind].
    destruct (Receive _ _ _ _ _) as [[a' es]|] eqn:Hr; [|done]. destruct (decide _) as [Hto|]; [|done]. intros [= <- <-].
    rewrite (without_middle _ _ _ Hl) at 1. by eapply n_answer.
  - destruct (n_nodes w !! i) as [n|] eqn:Hi; [|done]. cbn [mbind option_bind].
    destruct (n_wait n) as [v|] eqn:Hw; [|done]. cbn [mbind option_bind].
    destruct (Receive _ _ _ _ _) as [[a' es]|] eqn:Hr; [|done]. intros [= <- <-]. by eapply n_timeout.
  - destruct (n_nodes w !! i) as [n|] eqn:Hi; [|done]. cbn [mbind option_bind].
    destruct (n_soup w !! j) as [l|] eqn:Hl; [|done]. cbn [mbind option_bind].
    destruct (n_wait n) as [v|] eqn:Hw; [done|].
    destruct (Receive _ _ _ _ _) as [[a' es]|] eqn:Hr; [|done]. destruct (decide _) as [Hto|]; [|done]. intros [= <- <-].
    rewrite (without_middle _ _ _ Hl) at 1. by eapply n_deliver.
  - destruct (n_soup w !! j) as [l|] eqn:Hl; [|done]. cbn [mbind option_bind].
    destruct (forallb _ _) eqn:Hf; [|done]. intros [= <- <-]. rewrite forallb_forall in Hf.
    rewrite (without_middle _ _ _ Hl) at 1. apply n_dead.
    + intros n Hn%list_elem_of_In. apply Hf, andb_true_iff in Hn as [Hn _]. by apply bool_decide_eq_true in Hn.
    + intros n v Hn%list_elem_of_In Hv. apply Hf, andb_true_iff in Hn as [_ Hn]. rewrite Hv in Hn. by apply bool_decide_eq_true in Hn.
  - destruct (n_nodes w !! i) as [n|] eqn:Hi; [|done]. cbn [mbind option_bind].
    destruct (n_wait n) as [v|] eqn:Hw; [done|].
    destruct (Receive _ _ _ _ _) as [[a' es]|] eqn:Hr; [|done]. intros [= <- <-]. by eapply n_members.
  - destruct (n_nodes w !! i) as [n|] eqn:Hi; [|done]. cbn [mbind option_bind]. intros [= <- <-]. by apply n_spawn.
  - destruct (n_nodes w !! i) as [n|] eqn:Hi; [|done]. cbn [mbind option_bind].
    destruct (n_wait n) as [v|] eqn:Hw; [done|]. destruct (n_open n) as [|pid o] eqn:Ho; [done|].
    destruct (Receive _ _ _ _ _) as [[a' es]|] eqn:Hr; [|done]. intros [= <- <-]. by eapply (n_tell w i n [] pid o).
Qed.

Lemma exec_all_runs acts w ks ks' w' :
  exec_all acts w = Some (ks, w') -> forallb (fun k => bool_decide (k ∈ ks')) ks = true -> runs ks' w w'.
Proof.
  revert w ks. induction acts as [|act acts IH]; intros w ks; cbn [exec_all]; [by intros [= <- <-]|].
  destruct (exec act w) as [[k w1]|] eqn:E1; [|done]. cbn [mbind option_bind].
  destruct (exec_all acts w1) as [[ks1 w2]|] eqn:E2; [|done]. intros [= <- <-]. cbn [forallb].
  intros [Hk Hks]%andb_true_iff. apply bool_decide_eq_true in Hk. eapply rtc_l; [|by eapply IH].
  exists k. split; [done|by apply nexec_sound with act].
Qed.

(** A run of some steps, for examples. *)
Lemma exec_run acts w ks :
  match exec_all acts w with Some (ks', _) => forallb (fun k => bool_decide (k ∈ ks)) ks' | None => false end = true ->
  runs ks w (match exec_all acts w with Some (_, w') => w' | None => w end).
Proof. destruct (exec_all acts w) as [[ks' w']|] eqn:E; [|done]. intros Hb. by eapply exec_all_runs. Qed.
End exec.

(** ** Agents that wait for each other *)

Section deadlock.
Context `{Range}.

(** Everything but timeouts of agents: what agents do, and what callers of
    [Cluster.Spawn] do on their own. *)
Definition handling : list kind := [KActivate; KAsk; KAnswer; KDeliver; KDead; KLose; KMembers; KDeactivate; KCrash].
Definition timeless : list kind := handling ++ [KSpawn; KTell; KUntold].

(** The nodes of [D] wait, no answer for them is in flight, and whoever could give
    one is in [D]. *)
Definition deadlocked (D : list nat) (w : net) : Prop :=
  forall i, i ∈ D -> exists n v x, n_nodes w !! i = Some n /\ n_wait n = Some v /\ w_resp v = response_pid (n_addr n) x /\
    forall l, l ∈ n_soup w -> l_to l <> w_resp v /\
      (l_from l = Some (w_resp v) -> exists j m, j ∈ D /\ n_nodes w !! j = Some m /\ l_to l = agent_pid m).

(** What a handler sends goes to members or to the sender. *)
Lemma Receive_letters addr rnd resp msg a a' es s l :
  Receive addr rnd resp msg a = Ok (a', es) -> l ∈ letters s es ->
  l_from l = None /\ ((exists x, l_to l = Member_PID x) \/ s = Some (l_to l)).
Proof.
  intros Hr Hl. assert (Hm : forall m, msg_about (fun _ => True) m) by by intros [| |?|[?|]|?|?|[?|] [|]|?].
  destruct (Receive_about (fun _ _ => True) (fun _ => True) (fun _ => True) (fun _ => I) addr rnd resp msg a a' es) as (_ & _ & Hes);
    [done|by destruct msg|by destruct resp|exact Hr|done|done|]. by apply (letters_about _ _ s es l Hes).
Qed.

(** The node [i], which is not in the knot, changes; letters go and new ones come. *)
Lemma deadlocked_step D w i n n' s' :
  deadlocked D w -> n_nodes w !! i = Some n -> n_wait n = None \/ i ∉ D -> agent_pid n' = agent_pid n ->
  (forall l, l ∈ s' -> l ∈ n_soup w \/ forall j m v x, j ∈ D -> n_nodes w !! j = Some m -> n_wait m = Some v ->
     w_resp v = response_pid (n_addr m) x -> l_to l <> w_resp v /\ l_from l <> Some (w_resp v)) ->
  deadlocked D (mkNet (<[i := n']> (n_nodes w)) s') /\ forall j, j ∈ D -> <[i := n']> (n_nodes w) !! j = n_nodes w !! j.
Proof.
  intros Hd Hi Hfree Hpid Hs.
  assert (Hout : i ∉ D).
  { destruct Hfree as [Hn|?]; [|done]. intros Hin. destruct (Hd i Hin) as (m & v & x & Hm & Hv & _). congruence. }
  assert (Hsame : forall j, j ∈ D -> <[i := n']> (n_nodes w) !! j = n_nodes w !! j).
  { intros j Hj. apply list_lookup_insert_ne. by intros ->. }
  split; [|done]. intros j Hj. destruct (Hd j Hj) as (m & v & x & Hm & Hv & Hx & Hl). exists m, v, x. cbn [n_nodes n_soup].
  rewrite (Hsame j Hj). split_and!; [done|done|done|]. intros l [Hin|Hnew]%Hs.
  - destruct (Hl l Hin) as [H1 H2]. split; [done|]. intros Hf. destruct (H2 Hf) as (k & m' & Hk & Hm' & Hto).
    exists k, m'. by rewrite (Hsame k Hk).
  - destruct (Hnew j m v x Hj Hm Hv Hx) as [H1 H2]. split; [done|]. by intros ?%H2.
Qed.

(** What a handler sends is no answer for the knot, unless it handles a request of it. *)
Lemma sent_outside addr rnd resp msg a a' es s l (v : waiting) addr' x :
  Receive addr rnd resp msg a = Ok (a', es) -> l ∈ letters s es -> w_resp v = response_pid addr' x -> s <> Some (w_resp v) ->
  l_to l <> w_resp v /\ l_from l <> Some (w_resp v).
Proof.
  intros Hr Hl Hv Hs. destruct (Receive_letters _ _ _ _ _ _ _ _ _ Hr Hl) as [-> Hto]. split; [|done]. intros Heq.
  destruct Hto as [[y Hy]|Hto]; [|congruence]. rewrite Hy, Hv in Heq. discriminate.
Qed.

Lemma deadlocked_drop D ns s s' :
  deadlocked D (mkNet ns s) -> (forall l, l ∈ s' -> l ∈ s) -> deadlocked D (mkNet ns s').
Proof.
  intros Hd Hs i Hi. destruct (Hd i Hi) as (n & v & x & H1 & H2 & H3 & H4). exists n, v, x. split_and!; [done|done|done|].
  intros l Hl. by apply H4, Hs.
Qed.

(** A caller of [Cluster.Spawn] on any node goes on. *)
Lemma deadlocked_calls D w i n calls waiting s' :
  deadlocked D w -> n_nodes w !! i = Some n ->
  (forall l, l ∈ s' -> l ∈ n_soup w \/ l_from l = None /\ exists x, l_to l = Member_PID x) ->
  deadlocked D (mkNet (<[i := with_calls calls waiting n]> (n_nodes w)) s') /\
  forall j, j ∈ D -> exists c o, <[i := with_calls calls waiting n]> (n_nodes w) !! j = with_calls c o <$> n_nodes w !! j.
Proof.
  intros Hd Hi Hs.
  assert (Hsame : forall j, exists c o, <[i := with_calls calls waiting n]> (n_nodes w) !! j = with_calls c o <$> n_nodes w !! j).
  { intros j. destruct (decide (j = i)) as [->|Hne].
    - exists calls, waiting. rewrite Hi. apply list_lookup_insert_eq. by eapply lookup_lt_Some.
    - rewrite list_lookup_insert_ne by done. destruct (n_nodes w !! j) as [m|]; [|by exists [], []].
      exists (n_calls m), (n_open m). by destruct m. }
  split; [|by intros j _]. intros j Hj. destruct (Hd j Hj) as (m & v & x & Hm & Hv & Hx & Hl).
  destruct (Hsame j) as (c & o & Hj'). rewrite Hm in Hj'. exists (with_calls c o m), v, x. cbn [n_nodes n_soup].
  split_and!; [done|done|done|]. intros l [Hin|[Hnf [y Hy]]]%Hs.
  - destruct (Hl l Hin) as [H1 H2]. split; [done|]. intros Hf. destruct (H2 Hf) as (k & m' & Hk & Hm' & Hto).
    destruct (Hsame k) as (c' & o' & Hk'). rewrite Hm' in Hk'. by exists k, (with_calls c' o' m').
  - rewrite Hnf, Hy, Hx. split; [|done]. by intros [=].
Qed.

Lemma same_calls (ns ns' : list node) j : ns' !! j = ns !! j -> exists c o, ns' !! j = with_calls c o <$> ns !! j.
Proof. intros ->. destruct (ns !! j) as [m|]; [|by exists [], []]. exists (n_calls m), (n_open m). by destruct m. Qed.

Lemma nstep_distinct k w w' : distinct w -> nstep k w w' -> distinct w'.
Proof.
  intros Hdist Hstep. unfold distinct in *.
  destruct Hstep; try done; cbn [finish n_nodes] in *; rewrite list_fmap_insert, list_insert_id; try done; by rewrite list_lookup_fmap, H0.
Qed.

Lemma nstep_deadlocked k w w' D :
  k ∈ handling -> distinct w -> deadlocked D w -> nstep k w w' ->
  deadlocked D w' /\ forall j, j ∈ D -> n_nodes w' !! j = n_nodes w !! j.
Proof.
  intros Hk Hdist Hd Hstep.
  destruct Hstep as [w i n k config rnd a' es Hi Hw Hr Ha|w i n k config rnd a' es r rx p m Hi Hw Hrx Hr Ha Hf|
    ns l1 l l2 i n v a' es Hi Hw Hto Hr|w i n v a' es Hi Hw Hr|ns l1 l l2 i n rnd a' es Hi Hw Hto Hr|
    ns l1 l l2 Ha Hw|ns l1 l l2|w i n ms rnd a' es Hi Hw Hr|w i n pid rnd a' es Hi Hw Hr|ns l1 l l2 i n rnd p Hi Hw Hto Hr|
    w i n kd sid rnd Hi|w i n o1 pid o2 rnd a' es Hi Hw Ho Hr|w i n o1 pid o2 Hi Ho];
    try (exfalso; apply list_elem_of_In in Hk; cbn in Hk; intuition discriminate).
  - apply (deadlocked_step D w i n); [done|done|by left|done|]. intros x [Hx|Hx]%elem_of_app; [by left|right].
    intros j m v y Hj Hm Hv Hy. by eapply sent_outside.
  - apply (deadlocked_step D w i n); [done|done|by left|done|]. intros x [Hx|Hx%list_elem_of_singleton]%elem_of_app; [by left|right].
    intros j q v y Hj Hq Hv Hy. destruct (asks_view _ _ _ _ _ _ _ _ _ Hr Ha) as (_ & z & -> & _). subst x. cbn [l_to l_from].
    destruct Hf as [_ Hf]. split; [rewrite Hy; by intros [=]|]. intros [= Heq].
    by apply (Hf q v (list_elem_of_lookup_2 _ _ _ Hq) Hv).
  - assert (Hout : i ∉ D).
    { intros Hin. destruct (Hd i Hin) as (m & v' & y & Hm & Hv' & _ & Hl). cbn [n_nodes n_soup] in *.
      assert (m = n) as -> by congruence. assert (v' = v) as -> by congruence.
      apply (Hl l); [apply elem_of_app; right; by left|done]. }
    apply (deadlocked_step D (mkNet ns (l1 ++ l2)) i n); [by eapply deadlocked_drop, in_middle|done|by right|done|].
    intros x [Hx|Hx]%elem_of_app; [by left|right]. intros j m v' y Hj Hm Hv Hy. by eapply sent_outside.
  - apply (deadlocked_step D (mkNet ns (l1 ++ l2)) i n); [by eapply deadlocked_drop, in_middle|done|by left|done|].
    intros x [Hx|Hx]%elem_of_app; [by left|right]. intros j m v y Hj Hm Hv Hy. eapply sent_outside; [done|done|done|].
    intros Hs. destruct (Hd j Hj) as (m' & v' & y' & Hm' & Hv' & _ & Hl). cbn [n_nodes n_soup] in *.
    assert (m' = m) as -> by congruence. assert (v' = v) as -> by congruence.
    destruct (Hl l) as [_ Hfrom]; [apply elem_of_app; right; by left|].
    destruct (Hfrom Hs) as (k & q & HkD & Hq & Hqto). assert (k = i) as ->.
    { eapply (NoDup_lookup _ _ _ (agent_pid n) Hdist); rewrite list_lookup_fmap; cbn [n_nodes]; [rewrite Hq; cbn; by rewrite <-Hqto, Hto|by rewrite Hi]. }
    destruct (Hd i HkD) as (n1 & v1 & _ & Hn1 & Hv1 & _). cbn [n_nodes] in Hn1. congruence.
  - split; [by eapply deadlocked_drop, in_middle|done].
  - split; [by eapply deadlocked_drop, in_middle|done].
  - apply (deadlocked_step D w i n); [done|done|by left|done|]. intros x [Hx|Hx]%elem_of_app; [by left|right].
    intros j m v y Hj Hm Hv Hy. by eapply sent_outside.
  - apply (deadlocked_step D w i n); [done|done|by left|done|]. intros x [Hx|Hx]%elem_of_app; [by left|right].
    intros j m v y Hj Hm Hv Hy. by eapply sent_outside.
  - apply (deadlocked_step D (mkNet ns (l1 ++ l2)) i n); [by eapply deadlocked_drop, in_middle|done|by left|done|].
    intros x Hx. by left.
Qed.

Lemma timeless_deadlocked k w w' D :
  k ∈ timeless -> distinct w -> deadlocked D w -> nstep k w w' ->
  deadlocked D w' /\ forall j, j ∈ D -> exists c o, n_nodes w' !! j = with_calls c o <$> n_nodes w !! j.
Proof.
  intros [Hk|Hk]%elem_of_app Hdist Hd Hstep.
  - destruct (nstep_deadlocked k w w' D Hk Hdist Hd Hstep) as [H1 H2]. split; [done|]. intros j Hj. by apply same_calls, H2.
  - destruct Hstep as [| | | | | | | | | |w i n kd sid rnd Hi|w i n o1 pid o2 rnd a' es Hi Hw Ho Hr|w i n o1 pid o2 Hi Ho];
      try (exfalso; apply list_elem_of_In in Hk; cbn in Hk; intuition discriminate).
    + apply deadlocked_calls; [done|done|by left].
    + apply deadlocked_calls; [done|done|]. intros l [Hl|Hl]%elem_of_app; [by left|right].
      by destruct (tell_letters _ _ _ Hl) as (? & _ & ?).
    + apply deadlocked_calls; [done|done|]. intros l [Hl|Hl]%elem_of_app; [by left|by apply elem_of_nil in Hl].
Qed.

(** Two agents that ask each other. *)
Lemma cross_deadlocked w i j na nb va vb xa xb ma mb :
  n_nodes w !! i = Some na -> n_nodes w !! j = Some nb -> n_wait na = Some va -> n_wait nb = Some vb ->
  w_resp va = response_pid (n_addr na) xa -> w_resp vb = response_pid (n_addr nb) xb -> w_resp va <> w_resp vb ->
  n_soup w = [mkLetter (agent_pid nb) (Some (w_resp va)) ma; mkLetter (agent_pid na) (Some (w_resp vb)) mb] ->
  deadlocked [i; j] w.
Proof.
  intros Hi Hj Hva Hvb Hxa Hxb Hne Hs k [->|[->|Hk%elem_of_nil]%elem_of_cons]%elem_of_cons; [| |done].
  - exists na, va, xa. split_and!; [done|done|done|]. intros l. rewrite Hs, Hxa.
    intros [->|[->|Hl%elem_of_nil]%elem_of_cons]%elem_of_cons; [| |done]; (split; [by intros [=]|]); cbn [l_from l_to].
    + intros _. exists j, nb. split_and!; [by right; left|done|done].
    + intros [=]. congruence.
  - exists nb, vb, xb. split_and!; [done|done|done|]. intros l. rewrite Hs, Hxb.
    intros [->|[->|Hl%elem_of_nil]%elem_of_cons]%elem_of_cons; [| |done]; (split; [by intros [=]|]); cbn [l_from l_to].
    + intros [=]. congruence.
    + intros _. exists i, na. split_and!; [by left|done|done].
Qed.
End deadlock.

(** ** What every run keeps *)

(** C26: Only what was spawned is active.  Start agents on any nodes, and let them
    activate, ask each other, time out, crash, lose messages, deactivate and
    follow any lists of members, with actors spawned and announced by
    [Cluster.Spawn] on any of them, in any order: every actor an agent lists is filed
    under the id of its PID and was spawned by the node at the address of the PID,
    either by its agent, under a kind registered on that node, or by a call of
    [Cluster.Spawn] there, under any name; and so was every actor that a call of
    [Activate] was answered with. *)
Theorem activations_genuine `{Range} (cs : list (string * string * list string)) (w : net) (n : node) (id : string) (p : PID)
    (Hrun : runs any_kind (started cs) w) (Hn : n ∈ n_nodes w)
    (Hknown : activated (n_agent n) !! id = Some p \/ (Some p ∈ n_answers n /\ id = ID p)) :
  ID p = id /\
  exists m k x, m ∈ n_nodes w /\ n_addr m = Address p /\ id = k +:+ pidSeparator +:+ x /\
    ((id ∈ n_spawned m /\ hasKindLocal k (n_agent m) = true) \/ id ∈ n_calls m).
Proof.
  assert (Hg : net_genuine w).
  { apply (runs_ind net_genuine _ _ _ Hrun); [apply started_genuine|]. intros k w1 w2 _. apply nstep_genuine. }
  destruct Hg as [Hns Hs]. destruct (Hns n Hn) as (H1 & H2 & _).
  assert (Hp : ID p = id /\ spawned_by w p) by (destruct Hknown as [Ha|[Ha ->]]; [by apply H1|split; [done|by apply H2]]).
  destruct Hp as [<- (m & Hm & Ha & Hsp)]. split; [done|]. destruct (Hns m Hm) as (_ & _ & H3 & H4 & _).
  destruct Hsp as [Hsp|Hsp].
  - destruct (H3 _ Hsp) as (k & x & Hid & Hk). exists m, k, x. split_and!; [done|done|done|by left].
  - destruct (H4 _ Hsp) as (k & x & Hid). exists m, k, x. split_and!; [done|done|done|by right].
Qed.

(** ** Every run comes to an end, and the agents to an agreement *)

Section settle.
Context `{Range}.

(** Nodes that know each other and have nothing to do. *)
Definition ready (w : net) : Prop :=
  meshed w /\ distinct w /\ n_soup w = [] /\
  forall n, n ∈ n_nodes w -> n_wait n = None /\ activated (n_agent n) = ∅ /\ n_answers n = [].

Lemma ready_agreeing w : ready w -> agreeing w /\ waits_remote w.
Proof.
  intros (Hm & Hd & Hs & Hn). split; [split; try done|].
  - intros n v m Hin Hv. destruct (Hn n Hin) as [He _]. congruence.
  - intros n id p Hin. destruct (Hn n Hin) as (_ & -> & _). by rewrite lookup_empty.
  - intros l. rewrite Hs. by intros Hl%elem_of_nil.
  - intros p m (n & Hin & Hp). destruct (Hn n Hin) as (_ & _ & He). rewrite He in Hp. by apply elem_of_nil in Hp.
  - intros n v Hin Hv. destruct (Hn n Hin) as [He _]. congruence.
Qed.

Lemma settles w : agreeing w -> waits_remote w -> nil_free w ->
  exists w', runs settling w w' /\ n_soup w' = [] /\ forall n, n ∈ n_nodes w' -> n_wait n = None.
Proof.
  remember (load w) as b eqn:Hb. revert w Hb. induction (lt_wf b) as [b _ IH]. intros w -> Hg Hrem Hnil.
  destruct (settle_progress w Hg Hnil) as [(k & w1 & Hk & Hstep)|[Hs Hw]]; [|by exists w].
  destruct (IH (load w1)) with (w := w1) as (w' & Hr & Hdone); try done.
  - by eapply settle_load.
  - eapply nstep_agreeing; [|done|done]. apply list_elem_of_In in Hk. apply list_elem_of_In. cbn in *. tauto.
  - by eapply nstep_remote.
  - by eapply settle_nil_free.
  - exists w'. split; [|done]. eapply rtc_l; [|done]. by exists k.
Qed.

Lemma runs_agreeing ks w w' :
  (forall k, k ∈ ks -> k ∈ quiet) -> agreeing w -> waits_remote w -> runs ks w w' -> agreeing w' /\ waits_remote w'.
Proof.
  intros Hks Hg Hr Hrun. apply (runs_ind (fun w => agreeing w /\ waits_remote w) _ _ _ Hrun); [done|].
  intros k w1 w2 Hk [H1 H2] Hstep. split; [by eapply nstep_agreeing; [apply Hks| |]|by eapply nstep_remote].
Qed.

Lemma settling_quiet k : k ∈ settling -> k ∈ quiet.
Proof. rewrite !list_elem_of_In. cbn. tauto. Qed.

Lemma settle_bound w w' b :
  agreeing w -> waits_remote w -> nsteps (fun w w' => exists k, k ∈ settling /\ nstep k w w') b w w' -> (b + load w' <= load w)%nat.
Proof.
  intros Hg Hr. induction 1 as [w|b w w1 w' (k & Hk & Hstep) _ IH]; [lia|].
  pose proof (settle_load k w w1 Hk Hg Hstep).
  pose proof (IH (nstep_agreeing k w w1 (settling_quiet k Hk) Hg Hstep) (nstep_remote k w w1 Hr Hstep)). lia.
Qed.

(** With nothing in flight, the agents know the same ids. *)
Lemma settled_agree w n :
  agreeing w -> n_soup w = [] -> n ∈ n_nodes w ->
  forall id, is_Some (activated (n_agent n) !! id) <-> exists p, ID p = id /\ answered w p.
Proof.
  intros Hg Hs Hn id. split.
  - intros [p Hp]. destruct (ag_known _ Hg n id p Hn Hp). by exists p.
  - intros (p & <- & Hp). destruct (ag_told _ Hg p n Hp Hn) as [?|Hl]; [done|]. rewrite Hs in Hl. by apply elem_of_nil in Hl.
Qed.
End settle.

(** C13: Agreement.  Take nodes that are all members of each other and stay so, with
    nothing lost, nobody crashing or deactivating and no calls of [Cluster.Spawn], and
    call [Activate] on any of them, in any interleaving with requests, answers,
    timeouts and deliveries, as long as no nil PID is announced.  Stop calling:
    then the net settles within [load] more steps, it can always go on until
    nothing is in flight and nobody waits, and at that point every agent knows
    exactly the ids that some call was answered with a PID for.  Where all those
    answers for an id are the same PID, all agents have that PID. *)
Theorem agents_settle `{Range} (w0 w : net) (Hready : ready w0) (Hrun : runs quiet w0 w) (Hnil : nil_free w) :
  (forall b w', nsteps (fun w w' => exists k, k ∈ settling /\ nstep k w w') b w w' -> (b <= load w)%nat) /\
  (exists w', runs settling w w' /\ n_soup w' = [] /\ forall n, n ∈ n_nodes w' -> n_wait n = None) /\
  (forall w', runs settling w w' -> n_soup w' = [] -> forall n m, n ∈ n_nodes w' -> m ∈ n_nodes w' -> forall id,
     (is_Some (activated (n_agent n) !! id) <-> exists p, ID p = id /\ answered w' p) /\
     ((forall p q, answered w' p -> answered w' q -> ID p = id -> ID q = id -> p = q) ->
      activated (n_agent n) !! id = activated (n_agent m) !! id)).
Proof.
  destruct (ready_agreeing w0 Hready) as [Hg0 Hr0].
  destruct (runs_agreeing quiet w0 w (fun k Hk => Hk) Hg0 Hr0 Hrun) as [Hg Hr]. split_and!.
  - intros b w' Hb. pose proof (settle_bound w w' b Hg Hr Hb). lia.
  - by apply settles.
  - intros w' Hw' Hs n m Hn Hm id. destruct (runs_agreeing settling w w' settling_quiet Hg Hr Hw') as [Hg' _].
    pose proof (settled_agree w' n Hg' Hs Hn id) as H1. pose proof (settled_agree w' m Hg' Hs Hm id) as H2.
    split; [done|]. intros Huniq. destruct (activated (n_agent n) !! id) as [p|] eqn:E1.
    + destruct (activated (n_agent m) !! id) as [q|] eqn:E2; [|exfalso; by destruct (proj2 H2 (proj1 H1 ltac:(by eexists)))].
      destruct (ag_known _ Hg' n id p Hn E1), (ag_known _ Hg' m id q Hm E2). f_equal. by apply Huniq.
    + destruct (activated (n_agent m) !! id) as [q|] eqn:E2; [|done]. exfalso. by destruct (proj2 H1 (proj1 H2 ltac:(by eexists))).
Qed.

(** Two nodes that know each other. *)
Definition demo_started : net := started [("A", "10.0.0.1:4000", ["room"]); ("B", "10.0.0.2:4000", ["player"])]%string.
Definition demo_a : Member := mkMember "A" "10.0.0.1:4000" "default" ["room"].
Definition demo_b : Member := mkMember "B" "10.0.0.2:4000" "default" ["player"].
Definition on (m : Member) (id : string) : ActivationConfig := mkActivationConfig id "default" (Some (fun _ => Some m)).
Definition run (acts : list action) (w : net) : net :=
  match @exec_all map_order acts w with Some (_, w') => w' | None => w end.
Definition demo_net : net := run [ASetMembers 0 [demo_a; demo_b]; ASetMembers 1 [demo_a; demo_b]] demo_started.

Lemma demo_net_ready : ready demo_net.
Proof.
  assert (Hn : n_nodes demo_net = [mkNode "A" "10.0.0.1:4000" (n_agent (nth 0 (n_nodes demo_net) (mkNode "" "" (NewAgent []) None [] [] [] []))) None [] [] [] [];
     mkNode "B" "10.0.0.2:4000" (n_agent (nth 1 (n_nodes demo_net) (mkNode "" "" (NewAgent []) None [] [] [] []))) None [] [] [] []]) by (vm_compute; reflexivity).
  assert (Hok : set_ok (NewMemberSet [demo_a; demo_b])) by apply NewMemberSet_ok.
  assert (Hm : forall n, n ∈ n_nodes demo_net -> a_members (n_agent n) = NewMemberSet [demo_a; demo_b] /\
    activated (n_agent n) = ∅ /\ n_wait n = None /\ n_answers n = [] /\ (agent_pid n = Member_PID demo_a \/ agent_pid n = Member_PID demo_b)).
  { intros n. rewrite Hn. intros [->|[->|[]%elem_of_nil]%elem_of_cons]%elem_of_cons.
    - split_and!; try (vm_compute; reflexivity). by left.
    - split_and!; try (vm_compute; reflexivity). by right. }
  split_and!.
  - intros n Hin. destruct (Hm n Hin) as (-> & _). split; [done|]. intros m Hin'.
    destruct (Hm m Hin') as (_ & _ & _ & _ & [->| ->]); [exists demo_a|exists demo_b]; split; vm_compute; reflexivity.
  - unfold distinct. rewrite Hn. apply (bool_decide_unpack _). vm_compute. exact I.
  - vm_compute. reflexivity.
  - intros n Hin. by destruct (Hm n Hin) as (_ & ? & ? & ? & _).
Qed.

(** A asks B for a player, B spawns it and answers, and A announces it. *)
Definition demo_asked : net :=
  run [ACall 0 "player" (on demo_b "1") no_draws "1"; ADeliver 1 0; AAnswer 0 0] demo_net.

Lemma agents_settle_witness :
  exists w', @runs map_order settling demo_asked w' /\ n_soup w' = [].
Proof.
  destruct (@agents_settle map_order demo_net demo_asked demo_net_ready) as (_ & (w' & H1 & H2 & _) & _).
  - apply exec_run. vm_compute. reflexivity.
  - unfold nil_free. apply Forall_forall. assert (Hs : n_soup demo_asked =
      [mkLetter (NewPID "10.0.0.1:4000" "cluster/A") None (MActivation (Some (NewPID "10.0.0.2:4000" "player/1")));
       mkLetter (NewPID "10.0.0.2:4000" "cluster/B") None (MActivation (Some (NewPID "10.0.0.2:4000" "player/1")))])
      by (vm_compute; reflexivity). rewrite Hs. by repeat constructor.
  - by exists w'.
Defined.

(** C27: Agents that wait for each other wait for the timeout.  While the agents of
    some nodes wait for answers that none of them has in flight, and their requests
    are all addressed to agents among them, none of them handles anything: whatever
    the rest of the cluster does, short of a timeout nothing about them changes.
    Callers of [Cluster.Spawn] on these nodes still spawn, or give up asking their
    agent for the members; nothing else about the nodes changes then either. *)
Theorem cross_activation_stuck `{Range} (D : list nat) (w w' : net)
    (Hdist : distinct w) (Hdead : deadlocked D w) (Hrun : runs timeless w w') :
  deadlocked D w' /\
  (forall i, i ∈ D -> exists calls waiting, n_nodes w' !! i = with_calls calls waiting <$> n_nodes w !! i) /\
  (runs handling w w' -> forall i, i ∈ D -> n_nodes w' !! i = n_nodes w !! i).
Proof.
  assert (Hall : distinct w' /\ deadlocked D w' /\
    forall i, i ∈ D -> exists c o, n_nodes w' !! i = with_calls c o <$> n_nodes w !! i).
  { apply (runs_ind (fun w' => distinct w' /\ deadlocked D w' /\
      forall i, i ∈ D -> exists c o, n_nodes w' !! i = with_calls c o <$> n_nodes w !! i) _ _ _ Hrun).
    - split_and!; [done|done|]. intros i _. by apply same_calls.
    - intros k w1 w2 Hk (H1 & H2 & H3) Hstep. destruct (timeless_deadlocked k w1 w2 D Hk H1 H2 Hstep) as [H4 H5].
      split_and!; [by eapply nstep_distinct|done|]. intros i Hi. destruct (H3 i Hi) as (c & o & E), (H5 i Hi) as (c' & o' & E').
      exists c', o'. rewrite E', E. by destruct (n_nodes w !! i). }
  destruct Hall as (_ & H1 & H2). split_and!; [done|done|]. clear Hrun H1 H2. intros Hrun.
  apply (runs_ind (fun w' => distinct w' /\ deadlocked D w' /\ forall i, i ∈ D -> n_nodes w' !! i = n_nodes w !! i) _ _ _ Hrun);
    [done|].
  intros k w1 w2 Hk (H1 & H2 & H3) Hstep. destruct (nstep_deadlocked k w1 w2 D Hk H1 H2 Hstep) as (H4 & H5).
  split_and!; [by eapply nstep_distinct|done|]. intros i Hi. by rewrite H5, H3.
Qed.

(** A activates a player on B while B activates a room on A. *)
Definition cross_calls : list action :=
  [ACall 0 "player" (on demo_b "1") no_draws "1"; ACall 1 "room" (on demo_a "1") no_draws "2"].
Definition demo_c : Member := mkMember "C" "10.0.0.3:4000" "default" ["cell"].
(** The same with a third node. *)
Definition demo_three : net :=
  run [ASetMembers 0 [demo_a; demo_b; demo_c]; ASetMembers 1 [demo_a; demo_b; demo_c]; ASetMembers 2 [demo_a; demo_b; demo_c]]
    (started [("A", "10.0.0.1:4000", ["room"]); ("B", "10.0.0.2:4000", ["player"]); ("C", "10.0.0.3:4000", ["cell"])]%string).
Definition demo_knot : net := run cross_calls demo_three.

Lemma demo_knot_deadlocked : deadlocked [0; 1]%nat demo_knot.
Proof.
  eapply (cross_deadlocked demo_knot 0 1 _ _ _ _ "1" "2").
  - vm_compute. reflexivity.
  - vm_compute. reflexivity.
  - cbn [n_wait]. reflexivity.
  - cbn [n_wait]. reflexivity.
  - reflexivity.
  - reflexivity.
  - discriminate.
  - vm_compute. reflexivity.
Qed.

(** The third node goes on activating, the two wait. *)
Definition demo_meanwhile : net := run [ACall 2 "cell" (on demo_c "7") no_draws "3"; ADeliver 2 2] demo_knot.

Lemma cross_activation_stuck_witness :
  activated <$> (n_agent <$> n_nodes demo_meanwhile !! 2%nat) = Some {["cell/7"%string := NewPID "10.0.0.3:4000" "cell/7"]} /\
  n_nodes demo_meanwhile !! 0%nat = n_nodes demo_knot !! 0%nat /\ n_nodes demo_meanwhile !! 1%nat = n_nodes demo_knot !! 1%nat.
Proof.
  split; [vm_compute; reflexivity|].
  assert (Hd : distinct demo_knot) by (apply (bool_decide_unpack _); vm_compute; exact I).
  destruct (@cross_activation_stuck map_order [0; 1]%nat demo_knot demo_meanwhile Hd demo_knot_deadlocked) as (_ & _ & Hsame).
  - apply exec_run. vm_compute. reflexivity.
  - split; apply Hsame; [apply exec_run; vm_compute; reflexivity|by left|apply exec_run; vm_compute; reflexivity|by right; left].
Defined.

(** B spawns an actor of a kind that nobody has, and A hears of it, as in the tests. *)
Definition demo_told : net :=
  run [ASpawn 1 "inventory" "1"; ATell 1; ADeliver 0 0; ADeliver 1 0] demo_net.

Lemma activations_genuine_witness :
  (exists m k x, m ∈ n_nodes demo_asked /\ n_addr m = "10.0.0.2:4000"%string /\ "player/1"%string = k +:+ pidSeparator +:+ x /\
    (("player/1"%string ∈ n_spawned m /\ hasKindLocal k (n_agent m) = true) \/ "player/1"%string ∈ n_calls m)) /\
  (activated <$> (n_agent <$> n_nodes demo_told !! 0%nat) = Some {["inventory/1"%string := NewPID "10.0.0.2:4000" "inventory/1"]} /\
   exists m k x, m ∈ n_nodes demo_told /\ n_addr m = "10.0.0.2:4000"%string /\ "inventory/1"%string = k +:+ pidSeparator +:+ x /\
    (("inventory/1"%string ∈ n_spawned m /\ hasKindLocal k (n_agent m) = true) \/ "inventory/1"%string ∈ n_calls m)).
Proof.
  split; [|split; [vm_compute; reflexivity|]].
  - destruct (@activations_genuine map_order [("A", "10.0.0.1:4000", ["room"]); ("B", "10.0.0.2:4000", ["player"])]%string demo_asked
      (nth 0 (n_nodes demo_asked) (mkNode "" "" (NewAgent []) None [] [] [] [])) "player/1" (NewPID "10.0.0.2:4000" "player/1"))
      as (_ & m & k & x & Hm); [| | |by exists m, k, x].
    + etrans; [|apply exec_run; vm_compute; reflexivity]. apply exec_run. vm_compute. reflexivity.
    + apply list_elem_of_In, nth_In. vm_compute. lia.
    + right. split; [|reflexivity]. vm_compute. left.
  - destruct (@activations_genuine map_order [("A", "10.0.0.1:4000", ["room"]); ("B", "10.0.0.2:4000", ["player"])]%string demo_told
      (nth 0 (n_nodes demo_told) (mkNode "" "" (NewAgent []) None [] [] [] [])) "inventory/1" (NewPID "10.0.0.2:4000" "inventory/1"))
      as (_ & m & k & x & Hm); [| | |by exists m, k, x].
    + etrans; [|apply exec_run; vm_compute; reflexivity]. apply exec_run. vm_compute. reflexivity.
    + apply list_elem_of_In, nth_In. vm_compute. lia.
    + left. vm_compute. reflexivity.
Defined.

(** After the timeouts both requests are handled: both actors run, neither is known
    to any agent, and both calls were answered with nil. *)
Theorem late_activation_orphaned :
  exists w, @runs map_order quiet demo_net w /\ n_soup w = [] /\
    (n_answers <$> n_nodes w) = [[None]; [None]] /\
    (n_spawned <$> n_nodes w) = [["room/1"]; ["player/1"]]%string /\
    Forall (fun n => activated (n_agent n) = ∅ /\ n_wait n = None) (n_nodes w).
Proof.
  exists (run (cross_calls ++ [ATimeout 0; ATimeout 1; ADeliver 1 0; ADeliver 0 0; ADrop 0; ADrop 0]) demo_net).
  split; [apply exec_run; vm_compute; reflexivity|]. split; [vm_compute; reflexivity|]. split; [vm_compute; reflexivity|].
  split; [vm_compute; reflexivity|]. vm_compute. by repeat constructor.
Qed.

(** Two nodes activate the same id, each on itself; each hears of its own actor
    first.  With everything delivered, both actors run and the agents disagree for
    good on which of them the id stands for. *)
Theorem agents_disagree :
  exists w a b p q, @runs map_order any_kind (started [("A", "10.0.0.1:4000", ["room"]); ("B", "10.0.0.2:4000", ["room"])]%string) w /\
    n_soup w = [] /\ n_nodes w = [a; b] /\ n_wait a = None /\ n_wait b = None /\
    activated (n_agent a) !! "room/1"%string = Some p /\ activated (n_agent b) !! "room/1"%string = Some q /\ p <> q /\
    n_spawned a = ["room/1"]%string /\ n_spawned b = ["room/1"]%string.
Proof.
  set (b := mkMember "B" "10.0.0.2:4000" "default" ["room"]%string).
  set (w := run [ASetMembers 0 [demo_a; b]; ASetMembers 1 [demo_a; b]; ACall 0 "room" (on demo_a "1") no_draws "1"; ACall 1 "room" (on b "1") no_draws "2";
    ADeliver 0 0; ADeliver 1 2; ADeliver 1 0; ADeliver 0 0] (started [("A", "10.0.0.1:4000", ["room"]); ("B", "10.0.0.2:4000", ["room"])]%string)).
  exists w. eexists _, _, (NewPID "10.0.0.1:4000" "room/1"), (NewPID "10.0.0.2:4000" "room/1").
  split; [apply exec_run; vm_compute; reflexivity|]. split; [vm_compute; reflexivity|].
  split; [vm_compute; reflexivity|]. split_and!; vm_compute; try reflexivity. discriminate.
Qed.
