(* ===== verification/SelfManaged.v ===== *)
(** * The self-managed cluster provider ([cluster/selfmanaged.go])

    The provider actor of a node keeps the members it knows, from handshakes,
    member lists and discovery, and passes them to the agent after every change.
    Service discovery (zeroconf) is third-party code: what it reports is an input. *)

From S2P Require Import Prelude Net Pid MemberSet Agent.

Record MemberAddr := mkMemberAddr { ma_ListenAddr : string; ma_ID : string }.
Definition SelfManagedConfig : Type := list MemberAddr.    (* bootstrapMembers *)
Definition NewSelfManagedConfig : SelfManagedConfig := [].
Definition WithBootstrapMember (m : MemberAddr) (c : SelfManagedConfig) : SelfManagedConfig := c ++ [m].

(** What the provider uses of its cluster: the agent's PID and [Cluster.Member()]. *)
Record cluster_info := mkInfo { agentPID : PID; self_member : Member; cluster_id : string }.

Record SelfManaged := mkSelfManaged {
  sm_config : SelfManagedConfig;
  info : cluster_info;
  sm_members : MemberSet;
  sm_pid : option PID;
}.

Definition NewSelfManaged (config : SelfManagedConfig) (c : cluster_info) : SelfManaged :=
  mkSelfManaged config c (NewMemberSet []) None.

Definition with_members (m : MemberSet) (s : SelfManaged) : SelfManaged := mkSelfManaged (sm_config s) (info s) m (sm_pid s).

(** What it receives. *)
Inductive smsg :=
  | SStarted | SStopped | SInitialized | SPing
  | SHandshake (m : option Member)
  | SMembers (ms : list Member)
  | SMemberPing
  | SMemberLeave (listenAddr : string)
  | SOther.

(** What it does: sends (with their sender), and calls that set things up. *)
Inductive seffect :=
  | SSend (to : option PID) (m : cmsg) (sender : option PID)
  | SSendLeave (to : option PID) (listenAddr : string)   (* [memberLeave], inside the node *)
  | SRepeatPing | SStopPing | SSpawnEvent | SSubscribe | SUnsubscribe | SDiscover | SStopDiscover
  | SAnnounce (instance host : string) (port : Z)   (* [zeroconf.RegisterProxy] *)
  | SFatal                                          (* [log.Fatal]: the program exits *).

Section provider.
Context `{Range}.

Definition sendMembersToAgent (s : SelfManaged) : list seffect :=
  [SSend (Some (agentPID (info s))) (MMembers (Slice (sm_members s))) None].

(** The loop of [addMembers]. *)
Fixpoint add_all (ms : list (option Member)) (set : MemberSet) : result MemberSet :=
  match ms with
  | [] => Ok set
  | m :: ms =>
      has ← Contains m set;
      add_all ms (match m with Some m => if negb has then Add m set else set | None => set end)
  end.

Definition addMembers (ms : list (option Member)) (s : SelfManaged) : result (SelfManaged * list seffect) :=
  set ← add_all ms (sm_members s);
  let s := with_members set s in Ok (s, sendMembersToAgent s).

Definition removeMember (m : option Member) (s : SelfManaged) : result (SelfManaged * list seffect) :=
  has ← Contains m (sm_members s);
  set ← (if (has : bool) then Remove m (sm_members s) else Ok (sm_members s));
  let s := with_members set s in Ok (s, sendMembersToAgent s).

Definition handleMemberPing (pid : PID) (s : SelfManaged) : list seffect :=
  ForEach (fun m es =>
    (true, if negb (String.eqb (Host m) (Address (agentPID (info s))))
           then es ++ [SSend (Some (memberToProviderPID m)) (MPing (Some pid)) (Some pid)] else es))
    (sm_members s) [].

(** [initAutoDiscovery] and [startAutoDiscovery], as long as zeroconf itself does
    not fail: the node is announced at the address of its agent, which must be a
    host and a decimal port. *)
Definition initAutoDiscovery (s : SelfManaged) : list seffect :=
  match SplitHostPort (Address (agentPID (info s))) with
  | None => [SFatal]
  | Some (host, portstr) =>
      let '(port, ok) := Atoi portstr in
      if (ok : bool) then [SAnnounce (cluster_id (info s)) host port] else [SFatal]
  end.

Definition startAutoDiscovery (s : SelfManaged) : list seffect :=
  match initAutoDiscovery s with
  | [SFatal] => [SFatal]
  | es => es ++ [SDiscover]
  end.

(** [start]. *)
Definition start (pid : PID) (s : SelfManaged) : list seffect :=
  [SSpawnEvent; SSubscribe] ++
  ((fun m => SSend (Some (NewPID (ma_ListenAddr m) ("provider/" +:+ ma_ID m)))
               (MHandshake (Some (self_member (info s)))) (Some pid)) <$> sm_config s) ++
  startAutoDiscovery s.

(** [Receive], in the context of [pid] with the sender of the message. *)
Definition Receive (pid : PID) (sender : option PID) (msg : smsg) (s : SelfManaged) : result (SelfManaged * list seffect) :=
  match msg with
  | SStarted =>
      let s := mkSelfManaged (sm_config s) (info s) (Add (self_member (info s)) (sm_members s)) (Some pid) in
      Ok (s, sendMembersToAgent s ++ [SRepeatPing] ++ start pid s)
  | SStopped => Ok (s, [SStopPing; SUnsubscribe; SStopDiscover])
  | SHandshake m =>
      '(s, es) ← addMembers [m] s;
      Ok (s, es ++ [SSend sender (MMembers (Slice (sm_members s))) None])
  | SMembers ms => addMembers (Some <$> ms) s
  | SMemberPing => Ok (s, handleMemberPing pid s)
  | SMemberLeave addr => removeMember (GetByHost addr (sm_members s)) s
  | SInitialized | SPing | SOther => Ok (s, [])
  end.

(** [handleEventStream] of the child that watches for unreachable addresses. *)
Definition handleEventStream (unreachable : string) (s : SelfManaged) : list seffect :=
  [SSendLeave (sm_pid s) unreachable].

(** An entry of the discovery service: its instance name, IPv4 addresses (as
    printed) and port. *)
Definition on_entry (instance : string) (addrs : list string) (port : Z) (s : SelfManaged)
  : result (list seffect) :=
  if String.eqb instance (cluster_id (info s)) then Ok [] else
  match addrs with
  | [] => Panic IndexOutOfRange
  | a :: _ =>
      let host := a +:+ ":" +:+ Itoa port in
      Ok [SSend (Some (NewPID host ("provider/" +:+ instance))) (MHandshake (Some (self_member (info s))))
            (Some (NewPID (Address (agentPID (info s))) ("provider/" +:+ cluster_id (info s))))]
  end.

Fixpoint Receive_all (pid : PID) (msgs : list (option PID * smsg)) (s : SelfManaged) : result (SelfManaged * list seffect) :=
  match msgs with
  | [] => Ok (s, [])
  | (sender, msg) :: msgs =>
      '(s, es) ← Receive pid sender msg s; '(s, es') ← Receive_all pid msgs s; Ok (s, es ++ es')
  end.

(** ** Lemmas *)

(** The first member of the list with an id. *)
Definition first_member (id : string) (ms : list Member) : option Member := List.find (fun m => String.eqb (MID m) id) ms.

Lemma add_all_ok ms set :
  exists set', add_all (Some <$> ms) set = Ok set' /\
    forall id, members set' !! id = match members set !! id with Some m => Some m | None => first_member id ms end.
Proof.
  revert set. induction ms as [|m ms IH]; intros set.
  { exists set. split; [done|]. intros id. by destruct (members set !! id). }
  rewrite fmap_cons. cbn [add_all Contains mbind result_bind].
  set (set1 := if negb _ then _ else _). destruct (IH set1) as (set' & H1 & H2). exists set'. split; [exact H1|].
  intros id. rewrite H2. unfold first_member. cbn [List.find]. unfold set1. destruct (members set !! MID m) as [x|] eqn:E.
  - rewrite bool_decide_true by by eexists. cbn [negb]. destruct (members set !! id) eqn:E'; [done|].
    destruct (String.eqb_spec (MID m) id) as [Heq|]; [congruence|done].
  - rewrite bool_decide_false by by intros [? [=]]. cbn [negb Add members]. unfold add_member.
    destruct (String.eqb_spec (MID m) id) as [<-|Hne]; [by rewrite lookup_insert_eq, E|by rewrite lookup_insert_ne].
Qed.

Lemma set_ok_add_all ms set set' : set_ok set -> add_all (Some <$> ms) set = Ok set' -> set_ok set'.
Proof.
  intros Hok He id m Hm. destruct (add_all_ok ms set) as (set2 & H1 & H2). rewrite H1 in He. injection He as <-.
  rewrite H2 in Hm. destruct (members set !! id) eqn:E; [simplify_eq; by apply Hok|].
  apply List.find_some in Hm as [_ Heq]. by apply String.eqb_eq in Heq.
Qed.

(** A member found by host is one of those at the host. *)
Lemma GetByHost_spec addr set :
  set_ok set ->
  match GetByHost addr set with
  | Some m => members set !! MID m = Some m /\ Host m = addr
  | None => forall id m, members set !! id = Some m -> Host m <> addr
  end.
Proof.
  intros Hok. unfold GetByHost.
  assert (Hg : forall l, match foldl (fun t m => if String.eqb (Host m) addr then Some m else t) None l with
    | Some m => m ∈ l /\ Host m = addr | None => forall m, m ∈ l -> Host m <> addr end).
  { intros l. induction l as [|x l IH] using rev_ind; [by intros m Hm%elem_of_nil|]. rewrite foldl_app. cbn [foldl].
    destruct (String.eqb_spec (Host x) addr) as [Hx|Hne]; [split; [apply elem_of_app; right; by left|done]|].
    destruct (foldl _ None l).
    - destruct IH as [Hm Hh]. split; [apply elem_of_app; by left|done].
    - intros y [Hy|Hy%list_elem_of_singleton]%elem_of_app; [by apply IH|by subst]. }
  specialize (Hg (values set)). destruct (foldl _ None (values set)).
  - destruct Hg as [Hm Hh]. split; [by apply elem_of_values|done].
  - intros id m Hm. apply Hg. apply elem_of_values; [done|]. by rewrite (Hok id m Hm).
Qed.
End provider.

Section sync.
Context `{Range}.

Lemma Contains_eq m set : Contains (Some m) set = Ok (bool_decide (is_Some (members set !! MID m))).
Proof. done. Qed.

Lemma removeMember_ok m s :
  exists set, removeMember (Some m) s = Ok (with_members set s, sendMembersToAgent (with_members set s)) /\
    members set = delete (MID m) (members (sm_members s)).
Proof.
  unfold removeMember. rewrite Contains_eq. cbn [mbind result_bind].
  destruct (members (sm_members s) !! MID m) as [x|] eqn:E.
  - rewrite bool_decide_true by by eexists. by eexists.
  - rewrite bool_decide_false by by intros [? [=]]. cbn [mbind result_bind]. eexists. split; [done|].
    by rewrite delete_id.
Qed.

Lemma addMembers_ok ms s :
  set_ok (sm_members s) ->
  exists set, addMembers (Some <$> ms) s = Ok (with_members set s, sendMembersToAgent (with_members set s)) /\ set_ok set /\
    forall id, members set !! id = match members (sm_members s) !! id with Some m => Some m | None => first_member id ms end.
Proof.
  intros Hok. destruct (add_all_ok ms (sm_members s)) as (set & H1 & H2). exists set. unfold addMembers. rewrite H1.
  split; [done|]. split; [by eapply set_ok_add_all|done].
Qed.

(** The member lists sent to the agent, as the agent receives them. *)
Definition to_agent (agent : PID) (e : seffect) : option (list Member) :=
  match e with
  | SSend (Some p) (MMembers ms) None => if bool_decide (p = agent) then Some ms else None
  | _ => None
  end.
Definition feed (agent : PID) (es : list seffect) : list (draws * option cmsg * amsg) :=
  (fun ms => (mkDraws 0 "", None, AWire (MMembers ms))) <$> omap (to_agent agent) es.

Definition in_sync (s : SelfManaged) (a : Agent) : Prop :=
  set_ok (sm_members s) /\ agent_ok a /\ members (a_members a) = members (sm_members s).

(** The members of [s'] are passed on: those that stay keep their data. *)
Definition keeps_data (s s' : SelfManaged) : Prop :=
  forall id m m', members (sm_members s) !! id = Some m -> members (sm_members s') !! id = Some m' -> m' = m.

Lemma agent_hears self rnd resp s s' a :
  in_sync s a -> set_ok (sm_members s') -> keeps_data s s' ->
  exists a' es, Agent.Receive self rnd resp (AWire (MMembers (Slice (sm_members s')))) a = Ok (a', es) /\ in_sync s' a'.
Proof.
  intros (Hs & Ha & Heq) Hs' Hk. cbn [Agent.Receive].
  destruct (handleMembers_ok (Slice (sm_members s')) a Ha) as (a' & H1 & Hok & _ & Hm & _).
  eexists a', _. split; [exact H1|]. split; [done|]. split; [done|]. apply map_eq. intros id. rewrite Hm.
  unfold Slice. rewrite last_with_values, Heq by done. destruct (members (sm_members s') !! id) as [m'|] eqn:E'; [|done].
  destruct (members (sm_members s) !! id) as [m|] eqn:E; [|done]. cbn [default]. f_equal. symmetry. by eapply Hk.
Qed.

Lemma keeps_refl s s' : sm_members s' = sm_members s -> keeps_data s s'.
Proof. intros He id m m'. rewrite He. congruence. Qed.

Lemma omap_nothing {A B} (f : A -> option B) xs : Forall (fun x => f x = None) xs -> omap f xs = [].
Proof. induction 1 as [|x xs Hx _ IH]; [done|]. simpl. by rewrite Hx. Qed.

(** A change of the provider is passed on, once or (after a handshake from the
    agent itself) twice. *)
Lemma passed_on self s s' es2 a :
  info s' = info s -> in_sync s a -> set_ok (sm_members s') -> keeps_data s s' ->
  (omap (to_agent (agentPID (info s))) es2 = [] \/ omap (to_agent (agentPID (info s))) es2 = [Slice (sm_members s')]) ->
  exists a' aes, Agent.Receive_all self (feed (agentPID (info s)) (sendMembersToAgent s' ++ es2)) a = Ok (a', aes) /\ in_sync s' a'.
Proof.
  intros Hi Hsync Hset Hkeep Hes2.
  destruct (agent_hears self (mkDraws 0 "") None s s' a Hsync Hset Hkeep) as (a1 & aes1 & H1 & Hsync1).
  destruct (agent_hears self (mkDraws 0 "") None s' s' a1 Hsync1 Hset) as (a2 & aes2 & H2 & Hsync2); [by apply keeps_refl|].
  unfold feed, sendMembersToAgent. rewrite omap_app, Hi. cbn [omap list_omap to_agent].
  rewrite bool_decide_true by done. rewrite fmap_app, fmap_cons. cbn [app Agent.Receive_all]. rewrite H1. cbn [mbind result_bind].
  destruct Hes2 as [->| ->]; [exists a1; eexists; by split|].
  rewrite fmap_cons, fmap_nil. cbn [app Agent.Receive_all]. rewrite H2. cbn [mbind result_bind]. exists a2. eexists. by split.
Qed.

(** A reply goes to the agent only if the agent asked. *)
Lemma reply_to_agent agent to ms :
  omap (to_agent agent) [SSend to (MMembers ms) None] = [] \/ omap (to_agent agent) [SSend to (MMembers ms) None] = [ms].
Proof. destruct to as [p|]; cbn; [case_bool_decide; [by right|by left]|by left]. Qed.

Lemma handleMemberPing_eq pid s :
  handleMemberPing pid s =
  (fun m => SSend (Some (memberToProviderPID m)) (MPing (Some pid)) (Some pid)) <$>
    List.filter (fun m => negb (String.eqb (Host m) (Address (agentPID (info s))))) (values (sm_members s)).
Proof.
  unfold handleMemberPing, ForEach. rewrite for_each_true.
  assert (Hg : forall l acc, foldl (fun es m => if negb (String.eqb (Host m) (Address (agentPID (info s))))
       then es ++ [SSend (Some (memberToProviderPID m)) (MPing (Some pid)) (Some pid)] else es) acc l =
     acc ++ ((fun m => SSend (Some (memberToProviderPID m)) (MPing (Some pid)) (Some pid)) <$>
       List.filter (fun m => negb (String.eqb (Host m) (Address (agentPID (info s))))) l)); [|apply Hg].
  induction l as [|x l IH]; intros acc; cbn [foldl List.filter]; [by rewrite app_nil_r|].
  rewrite IH. destruct (negb _); [|done]. by rewrite fmap_cons, <-app_assoc.
Qed.

Lemma pings_not_to_agent agent pid s : omap (to_agent agent) (handleMemberPing pid s) = [].
Proof. apply omap_nothing. rewrite handleMemberPing_eq. apply Forall_fmap, Forall_forall. done. Qed.

(** What one message (other than [Started]) does to the pair. *)
Lemma provider_step self pid sender msg s s' es a :
  msg <> SStarted -> in_sync s a -> Receive pid sender msg s = Ok (s', es) ->
  info s' = info s /\ exists a' aes, Agent.Receive_all self (feed (agentPID (info s)) es) a = Ok (a', aes) /\ in_sync s' a'.
Proof.
  intros Hns Hsync Hr. pose proof Hsync as (Hs & Ha & Heq).
  assert (Hquiet : s' = s -> omap (to_agent (agentPID (info s))) es = [] ->
    info s' = info s /\ exists a' aes, Agent.Receive_all self (feed (agentPID (info s)) es) a = Ok (a', aes) /\ in_sync s' a').
  { intros -> Hq. split; [done|]. exists a, []. unfold feed. by rewrite Hq. }
  destruct msg as [| | | |m|ms| |addr|]; cbn [Receive] in Hr; try done; try (injection Hr as <- <-; by apply Hquiet).
  - destruct m as [m|]; [|by cbn in Hr]. change [Some m] with (Some <$> [m]) in Hr.
    destruct (addMembers_ok [m] s Hs) as (set & H1 & Hset & Hl). rewrite H1 in Hr. cbn [mbind result_bind] in Hr.
    injection Hr as <- <-. split; [done|].
    apply (passed_on self s (with_members set s) [SSend sender (MMembers (Slice set)) None]); [done|done|done| |apply reply_to_agent].
    intros id x x' Hx. cbn [with_members sm_members]. rewrite Hl, Hx. congruence.
  - destruct (addMembers_ok ms s Hs) as (set & H1 & Hset & Hl). rewrite H1 in Hr. injection Hr as <- <-.
    split; [done|]. rewrite <-(app_nil_r (sendMembersToAgent _)). apply passed_on; [done|done|done| |by left].
    intros id x x' Hx. cbn [with_members sm_members]. rewrite Hl, Hx. congruence.
  - injection Hr as <- <-. apply Hquiet; [done|apply pings_not_to_agent].
  - destruct (GetByHost addr (sm_members s)) as [m|]; [|by cbn in Hr].
    destruct (removeMember_ok m s) as (set & H1 & Hset). rewrite H1 in Hr. injection Hr as <- <-.
    split; [done|]. rewrite <-(app_nil_r (sendMembersToAgent _)). apply passed_on; [done|done| | |by left].
    + intros id x Hx. cbn [with_members sm_members] in Hx. rewrite Hset in Hx. apply lookup_delete_Some in Hx as [_ Hx]. by apply Hs.
    + intros id x x' Hx. cbn [with_members sm_members]. rewrite Hset. intros [_ Hx']%lookup_delete_Some. congruence.
Qed.

Lemma provider_steps self pid msgs s s' es a :
  Forall (fun '(_, msg) => msg <> SStarted) msgs -> in_sync s a -> Receive_all pid msgs s = Ok (s', es) ->
  exists a' aes, Agent.Receive_all self (feed (agentPID (info s)) es) a = Ok (a', aes) /\ in_sync s' a'.
Proof.
  revert s es a. induction msgs as [|[sender msg] msgs IH]; intros s es a Hns Hsync Hr.
  { injection Hr as <- <-. by exists a, []. }
  apply Forall_cons in Hns as [Hn Hns]. cbn [Receive_all] in Hr.
  destruct (Receive pid sender msg s) as [[s1 es1]|] eqn:E1; [|done]. cbn [mbind result_bind] in Hr.
  destruct (Receive_all pid msgs s1) as [[s2 es2]|] eqn:E2; [|done]. injection Hr as <- <-.
  destruct (provider_step self pid sender msg s s1 es1 a Hn Hsync E1) as (Hi & a1 & aes1 & A1 & Hsync1).
  destruct (IH s1 es2 a1 Hns Hsync1 E2) as (a2 & aes2 & A2 & Hsync2).
  exists a2, (aes1 ++ aes2). split; [|done]. unfold feed in *. rewrite omap_app, fmap_app. rewrite Hi in A2.
  by rewrite (Agent.Receive_all_app _ _ _ _ _ _ A1), A2.
Qed.

(** The discovery service is started, or the program exits. *)
Lemma startAutoDiscovery_cases s :
  startAutoDiscovery s = [SFatal] \/
  exists host port, startAutoDiscovery s = [SAnnounce (cluster_id (info s)) host port; SDiscover].
Proof.
  unfold startAutoDiscovery, initAutoDiscovery. destruct (SplitHostPort _) as [[host portstr]|]; [|by left].
  destruct (Atoi portstr) as [port []]; [right; by exists host, port|by left].
Qed.

Lemma started_quiet agent pid s : omap (to_agent agent) ([SRepeatPing] ++ start pid s) = [].
Proof.
  apply omap_nothing. unfold start. apply Forall_app. split; [by constructor|]. apply Forall_app. split; [by repeat constructor|].
  apply Forall_app. split; [apply Forall_fmap, Forall_forall; done|].
  destruct (startAutoDiscovery_cases s) as [->|(host & port & ->)]; by repeat constructor.
Qed.

(** *** Whom a provider can come to know

    [G] is any property of members. *)

Definition only (G : Member -> Prop) (s : SelfManaged) : Prop :=
  set_ok (sm_members s) /\ forall id m, members (sm_members s) !! id = Some m -> G m.

(** The members a message names, and those a send names. *)
Definition about (G : Member -> Prop) (msg : smsg) : Prop :=
  match msg with
  | SHandshake (Some m) => G m
  | SMembers ms => Forall G ms
  | _ => True
  end.
Definition tells (G : Member -> Prop) (e : seffect) : Prop :=
  match e with
  | SSend _ (MHandshake (Some m)) _ => G m
  | SSend _ (MHandshake None) _ => False
  | SSend _ (MMembers ms) _ => Forall G ms
  | _ => True
  end.

Lemma only_Slice G s : only G s -> Forall G (Slice (sm_members s)).
Proof. intros [Hok Hm]. apply Forall_forall. intros m Hin%elem_of_values; [|done]. by eapply Hm. Qed.

Lemma only_told G s : only G s -> Forall (tells G) (sendMembersToAgent s).
Proof. intros Ho. repeat constructor. by apply only_Slice. Qed.

Lemma only_Add G m s pid :
  only G s -> G m -> only G (mkSelfManaged (sm_config s) (info s) (Add m (sm_members s)) pid).
Proof.
  intros [Hok Hm] Hg.
  assert (Hadd : forall id x, members (Add m (sm_members s)) !! id = Some x ->
    (x = m /\ MID x = id) \/ members (sm_members s) !! id = Some x).
  { intros id x Hx. unfold Add in Hx. cbn [members] in Hx. unfold add_member in Hx.
    apply lookup_insert_Some in Hx as [[<- <-]|[_ Hx]]; [by left|by right]. }
  split; intros id x [[-> He]|Hx]%Hadd; [done|by apply Hok|done|by eapply Hm].
Qed.

Lemma only_addMembers G ms s s' es :
  only G s -> Forall G ms -> addMembers (Some <$> ms) s = Ok (s', es) ->
  only G s' /\ info s' = info s /\ es = sendMembersToAgent s'.
Proof.
  intros Ho Hms Ha. destruct (addMembers_ok ms s (proj1 Ho)) as (set & H1 & Hok & Hl).
  rewrite H1 in Ha. injection Ha as <- <-. split; [|done]. split; [done|]. intros id m. cbn [sm_members with_members].
  rewrite Hl. destruct (members (sm_members s) !! id) as [x|] eqn:E.
  - intros [= <-]. by eapply Ho.
  - intros [Hin _]%List.find_some. rewrite List.Forall_forall in Hms. by apply Hms.
Qed.

Lemma started_tells G pid s : G (self_member (info s)) -> Forall (tells G) ([SRepeatPing] ++ start pid s).
Proof.
  intros Hg. unfold start. apply Forall_app. split; [by constructor|]. apply Forall_app. split; [by repeat constructor|].
  apply Forall_app. split; [apply Forall_fmap, Forall_forall; done|].
  destruct (startAutoDiscovery_cases s) as [->|(host & port & ->)]; by repeat constructor.
Qed.

(** A provider comes to know, and tells others of, only members it was told of and
    itself. *)
Lemma only_Receive G pid sender msg s s' es :
  only G s -> G (self_member (info s)) -> about G msg -> Receive pid sender msg s = Ok (s', es) ->
  only G s' /\ info s' = info s /\ Forall (tells G) es.
Proof.
  intros Ho Hg Hab Hr. destruct msg as [| | | |[m|]|ms| |addr|]; cbn [Receive] in Hr;
    try (by injection Hr as <- <-; split; [done|]; split; [done|]; repeat constructor); try done.
  - injection Hr as <- <-. pose proof (only_Add G (self_member (info s)) s (Some pid) Ho Hg) as Ho'.
    split; [done|]. split; [done|]. constructor; [apply (only_Slice G _ Ho')|by apply started_tells].
  - change [Some m] with (Some <$> [m]) in Hr. destruct (addMembers (Some <$> [m]) s) as [[s1 es1]|] eqn:Ha; [|done].
    injection Hr as <- <-. destruct (only_addMembers G [m] s s1 es1 Ho) as (Ho1 & Hi & ->); [by apply Forall_singleton|done|].
    split; [done|]. split; [done|]. repeat constructor; by apply only_Slice.
  - destruct (only_addMembers G ms s s' es Ho Hab Hr) as (Ho1 & Hi & ->). split; [done|]. split; [done|]. by apply only_told.
  - injection Hr as <- <-. split; [done|]. split; [done|]. rewrite handleMemberPing_eq. apply Forall_fmap, Forall_forall. done.
  - destruct (GetByHost addr (sm_members s)) as [x|] eqn:Ex; [|done].
    destruct (removeMember_ok x s) as (set & H1 & Hset). rewrite H1 in Hr. injection Hr as <- <-.
    assert (Ho' : only G (with_members set s)).
    { split; cbn [with_members sm_members].
      - intros id y Hy. rewrite Hset in Hy. apply lookup_delete_Some in Hy as [_ Hy]. by apply Ho.
      - intros id y Hy. rewrite Hset in Hy. apply lookup_delete_Some in Hy as [_ Hy]. by eapply Ho. }
    split; [done|]. split; [done|]. by apply only_told.
Qed.

(** From the start of a node. *)
Lemma node_in_sync self names config c pid msgs s es :
  Forall (fun '(_, msg) => msg <> SStarted) msgs ->
  Receive_all pid ((None, SStarted) :: msgs) (NewSelfManaged config c) = Ok (s, es) ->
  exists a aes, Agent.Receive_all self (feed (agentPID c) es) (NewAgent names) = Ok (a, aes) /\ in_sync s a.
Proof.
  intros Hns Hr. cbn [Receive_all Receive mbind result_bind] in Hr.
  set (s0 := NewSelfManaged config c) in *.
  set (s1 := mkSelfManaged (sm_config s0) (info s0) (Add (self_member (info s0)) (sm_members s0)) (Some pid)) in *.
  destruct (Receive_all pid msgs s1) as [[s2 es2]|] eqn:E2; [|done].
  assert (s = s2 /\ es = (sendMembersToAgent s1 ++ [SRepeatPing] ++ start pid s1) ++ es2) as [-> ->].
  { cbn [mbind result_bind] in Hr. injection Hr as <- <-. done. }
  assert (Hsync0 : in_sync s0 (NewAgent names)) by (split; [apply NewMemberSet_ok|split; [apply NewAgent_ok|done]]).
  destruct (passed_on self s0 s1 ([SRepeatPing] ++ start pid s1) (NewAgent names) eq_refl Hsync0) as (a1 & aes1 & A1 & Hsync1).
  - intros id m Hm. unfold s1, Add, add_member in Hm. cbn [sm_members members] in Hm.
    apply lookup_insert_Some in Hm as [[<- <-]|[_ Hm]]; [done|]. by apply (NewMemberSet_ok []).
  - intros id m m' Hm. cbn [s0 NewSelfManaged sm_members NewMemberSet foldl members] in Hm. by rewrite lookup_empty in Hm.
  - left. apply started_quiet.
  - destruct (provider_steps self pid msgs s1 s2 es2 a1 Hns Hsync1 E2) as (a2 & aes2 & A2 & Hsync2).
    exists a2, (aes1 ++ aes2). split; [|done].
    change (agentPID (info s1)) with (agentPID c) in A2. change (agentPID (info s0)) with (agentPID c) in A1.
    unfold feed in *. rewrite omap_app, fmap_app. by rewrite (Agent.Receive_all_app _ _ _ _ _ _ A1), A2.
Qed.
End sync.

(** ** Correctness of the provider *)

(** C18: The agent follows the provider.  From the start of a node, whatever
    handshakes, member lists, pings and departures its provider handles (without
    panicking), the agent that takes the member lists sent to it, in order, ends
    with exactly the provider's members. *)
Theorem agent_tracks_provider `{Range} (self_address : string) (names : list string) (config : SelfManagedConfig)
    (c : cluster_info) (pid : PID) (msgs : list (option PID * smsg)) (s : SelfManaged) (es : list seffect)
    (Hns : Forall (fun '(_, msg) => msg <> SStarted) msgs)
    (Hr : Receive_all pid ((None, SStarted) :: msgs) (NewSelfManaged config c) = Ok (s, es)) :
  exists a aes, Agent.Receive_all self_address (feed (agentPID c) es) (NewAgent names) = Ok (a, aes) /\
    members (a_members a) = members (sm_members s).
Proof.
  destruct (node_in_sync self_address names config c pid msgs s es Hns Hr) as (a & aes & H1 & _ & _ & H2).
  by exists a, aes.
Qed.

Definition demo_agentPID : PID := NewPID "10.0.0.1:4000" "cluster/A".
Definition demo_info : cluster_info := mkInfo demo_agentPID demo_m1 "A".
Definition demo_pid : PID := NewPID "10.0.0.1:4000" "provider/A".
Definition demo_history : list (option PID * smsg) :=
  [(Some (NewPID "10.0.0.2:4000" "provider/B"), SHandshake (Some demo_m2)); (None, SMemberPing); (None, SMembers [demo_old; demo_m1])].

Lemma agent_tracks_provider_witness :
  exists s es a aes, @Receive_all map_order demo_pid ((None, SStarted) :: demo_history) (NewSelfManaged [] demo_info) = Ok (s, es) /\
    @Agent.Receive_all map_order "10.0.0.1:4000" (feed demo_agentPID es) (NewAgent ["player"]) = Ok (a, aes) /\
    members (a_members a) = members (sm_members s) /\ size (members (a_members a)) = 3%nat.
Proof.
  destruct (@Receive_all map_order demo_pid ((None, SStarted) :: demo_history) (NewSelfManaged [] demo_info)) as [[s es]|] eqn:E;
    [|vm_compute in E; discriminate E].
  destruct (@agent_tracks_provider map_order "10.0.0.1:4000" ["player"] [] demo_info demo_pid demo_history s es
    ltac:(repeat constructor; discriminate) E) as (a & aes & H1 & H2).
  exists s, es, a, aes. split; [done|]. split; [exact H1|]. split; [done|]. rewrite H2.
  vm_compute in E. injection E as <- <-. vm_compute. reflexivity.
Defined.

(** One member gone from the list of the members. *)
Lemma one_left `{Range} set set' id m :
  set_ok set -> members set !! id = Some m -> members set' = delete id (members set) ->
  Except (values set') set = [m] /\ Except (values set) (NewMemberSet (values set')) = [].
Proof.
  intros Hok Hm Hset. pose proof (Hok id m Hm) as Hid.
  assert (Hok' : set_ok set') by (intros k y Hy; rewrite Hset in Hy; apply lookup_delete_Some in Hy as [_ Hy]; by apply Hok).
  assert (Hl : forall y, y ∈ Except (values set') set <-> y = m).
  { intros y. rewrite elem_of_Except by done. rewrite last_with_values, Hset, lookup_delete_None by done. split.
    - intros [Hy [He|Hn]]; congruence.
    - intros ->. rewrite Hid. auto. }
  split.
  - pose proof (NoDup_fmap_1 MID _ (Except_NoDup (values set') set Hok)) as Hnd.
    destruct (Except (values set') set) as [|y [|z l]].
    + exfalso. apply (not_elem_of_nil m). by apply Hl.
    + f_equal. apply Hl. by left.
    + exfalso. assert (y = m) as -> by (apply Hl; by left). assert (z = m) as -> by (apply Hl; right; by left).
      apply NoDup_cons in Hnd as [Hn _]. apply Hn. by left.
  - destruct (Except (values set) (NewMemberSet (values set'))) as [|y l] eqn:E; [done|]. exfalso.
    assert (Hy : y ∈ Except (values set) (NewMemberSet (values set'))) by (rewrite E; by left).
    apply elem_of_Except in Hy as [Hy Hn]; [|apply NewMemberSet_ok].
    rewrite NewMemberSet_lookup, last_with_values, Hset in Hy by done. rewrite last_with_values in Hn by done.
    apply lookup_delete_Some in Hy as [_ Hy]. congruence.
Qed.

(** An unreachable address.  The event reaches the provider as a departure: if
    it knows one member at that address, the member leaves its set, the agent is
    told and announces the departure, and forgets exactly the actors activated at
    that address.  If the provider knows no member there, it panics. *)
Theorem unreachable_member_forgotten `{Range} (self_address : string) (pid : PID) (sender : option PID)
    (addr : string) (s : SelfManaged) (a : Agent) (Hsync : in_sync s a) :
  (forall id m, members (sm_members s) !! id = Some m -> Host m = addr ->
     (forall id' m', members (sm_members s) !! id' = Some m' -> Host m' = addr -> id' = id) ->
     exists s' es a', Receive pid sender (SMemberLeave addr) s = Ok (s', es) /\
       members (sm_members s') = delete id (members (sm_members s)) /\
       Agent.Receive_all self_address (feed (agentPID (info s)) es) a = Ok (a', [EBroadcast (MemberLeaveEvent m)]) /\
       members (a_members a') = delete id (members (a_members a)) /\
       forall k, activated a' !! k = match activated a !! k with
         | Some p => if String.eqb (Address p) addr then None else Some p | None => None end) /\
  ((forall id m, members (sm_members s) !! id = Some m -> Host m <> addr) ->
     Receive pid sender (SMemberLeave addr) s = Panic NilDeref).
Proof.
  pose proof Hsync as (Hs & Ha & Heq). cbn [Receive]. pose proof (GetByHost_spec addr (sm_members s) Hs) as Hspec. split.
  - intros id m Hm Hh Huniq. destruct (GetByHost addr (sm_members s)) as [x|] eqn:Eg; [|by destruct (Hspec id m Hm)].
    destruct Hspec as [Hx Hxh]. assert (MID x = id) as Hid by (by apply (Huniq (MID x) x)).
    assert (x = m) as -> by congruence.
    destruct (removeMember_ok m s) as (set & H1 & Hset). rewrite Hid in Hset.
    assert (Hsetok : set_ok set) by (intros k y Hy; rewrite Hset in Hy; apply lookup_delete_Some in Hy as [_ Hy]; by apply Hs).
    destruct (handleMembers_ok (values set) a Ha) as (a' & Hh' & _ & _ & Hmem & Hact & _).
    assert (Hdel : members set = delete id (members (a_members a))) by (by rewrite Heq).
    destruct (one_left (a_members a) set id m (proj1 Ha) ltac:(by rewrite Heq) Hdel) as [Hleft Hjoin].
    rewrite Hleft in Hh', Hact. unfold Slice in Hh'. rewrite Hjoin in Hh'.
    eexists _, _, a'. split; [exact H1|]. split; [exact Hset|]. split_and!.
    + unfold feed, sendMembersToAgent. cbn [omap list_omap to_agent with_members info sm_members].
      rewrite bool_decide_true by done. rewrite fmap_cons, fmap_nil. cbn [Agent.Receive_all Agent.Receive].
      unfold Slice. rewrite Hh'. done.
    + rewrite <-Hdel. apply map_eq. intros k. rewrite Hmem, last_with_values, Hdel by done.
      destruct (decide (k = id)) as [->|Hne]; [by rewrite lookup_delete_eq|]. rewrite lookup_delete_ne by done.
      by destruct (members (a_members a) !! k).
    + intros k. rewrite Hact. destruct (activated a !! k); [|done]. cbn [on_host existsb]. rewrite orb_false_r. by rewrite Hh.
  - intros Hnone. destruct (GetByHost addr (sm_members s)) as [x|]; [|done]. destruct Hspec as [Hx Hxh]. by destruct (Hnone _ _ Hx).
Qed.

(** A node alone, at its start, and its agent. *)
Lemma demo_in_sync : exists s a, in_sync s a /\ members (sm_members s) = {["B" := demo_m2]} /\ info s = demo_info.
Proof.
  set (s := mkSelfManaged [] demo_info (NewMemberSet [demo_m2]) None).
  assert (Hs0 : in_sync (NewSelfManaged [] demo_info) (NewAgent [])) by (split; [apply NewMemberSet_ok|split; [apply NewAgent_ok|done]]).
  destruct (@agent_hears map_order "10.0.0.1:4000" demo_draws None (NewSelfManaged [] demo_info) s (NewAgent []) Hs0) as (a & es & _ & Hsync).
  - apply NewMemberSet_ok.
  - intros id m m' Hm. cbn in Hm. by rewrite lookup_empty in Hm.
  - exists s, a. split; [done|]. split; vm_compute; reflexivity.
Qed.

Lemma unreachable_member_forgotten_witness :
  exists s, @Receive map_order demo_pid None (SMemberLeave "10.0.0.9:4000") s = Panic NilDeref /\
    exists s' es, @Receive map_order demo_pid None (SMemberLeave "10.0.0.2:4000") s = Ok (s', es) /\ members (sm_members s') = ∅.
Proof.
  destruct demo_in_sync as (s & a & Hsync & Hm & Hi). exists s. split.
  - apply (proj2 (@unreachable_member_forgotten map_order "10.0.0.1:4000" demo_pid None "10.0.0.9:4000" s a Hsync)).
    intros id m. rewrite Hm. intros [<- <-]%lookup_singleton_Some. discriminate.
  - destruct (proj1 (@unreachable_member_forgotten map_order "10.0.0.1:4000" demo_pid None "10.0.0.2:4000" s a Hsync)
      "B"%string demo_m2) as (s' & es & a' & H1 & H2 & _).
    + rewrite Hm. reflexivity.
    + reflexivity.
    + intros id' m'. rewrite Hm. intros [<- <-]%lookup_singleton_Some _. reflexivity.
    + exists s', es. split; [exact H1|]. rewrite H2, Hm. reflexivity.
Defined.

(** A handshake connects two nodes.  If a node that starts sends its handshake
    to another one and the reply comes back, then the other node has the new
    member next to its own, and the new node knows exactly the ids that either of
    them knew; what a node already knew of a member does not change. *)
Theorem handshake_exchange `{Range} (pa pb : PID) (sa sb : SelfManaged)
    (Ha : set_ok (sm_members sa)) (Hb : set_ok (sm_members sb)) :
  let me := self_member (info sa) in
  exists sb' es list sa' es', Receive pb (Some pa) (SHandshake (Some me)) sb = Ok (sb', es ++ [SSend (Some pa) (MMembers list) None]) /\
    Receive pa (Some pb) (SMembers list) sa = Ok (sa', es') /\
    (forall id, members (sm_members sb') !! id = match members (sm_members sb) !! id with
       | Some m => Some m | None => if String.eqb (MID me) id then Some me else None end) /\
    (forall id, members (sm_members sa') !! id = match members (sm_members sa) !! id with
       | Some m => Some m | None => members (sm_members sb') !! id end).
Proof.
  intros me. cbn [Receive]. change [Some me] with (Some <$> [me]).
  destruct (addMembers_ok [me] sb Hb) as (setb & H1 & Hokb & Hlb). rewrite H1. cbn [mbind result_bind].
  destruct (addMembers_ok (values setb) sa Ha) as (seta & H2 & Hoka & Hla).
  eexists (with_members setb sb), (sendMembersToAgent _), (values setb), (with_members seta sa), _.
  split; [done|]. split; [exact H2|]. split.
  - intros id. cbn [with_members sm_members]. rewrite Hlb. done.
  - intros id. cbn [with_members sm_members]. rewrite Hla. destruct (members (sm_members sa) !! id); [done|].
    unfold first_member. destruct (List.find _ (values setb)) as [m|] eqn:E.
    + apply List.find_some in E as [Hin Hid%String.eqb_eq]. apply list_elem_of_In, elem_of_values in Hin; [|done]. by rewrite <-Hid.
    + destruct (members setb !! id) as [m|] eqn:Em; [|done]. exfalso. pose proof (Hokb id m Em) as Hid.
      assert (Hin : m ∈ values setb) by (apply elem_of_values; [done|]; by rewrite Hid).
      apply list_elem_of_In in Hin. apply (List.find_none _ _ E) in Hin. by rewrite Hid, String.eqb_refl in Hin.
Qed.

Lemma handshake_exchange_witness :
  exists sb' es list sa' es',
    @Receive map_order (NewPID "10.0.0.2:4000" "provider/B") (Some demo_pid) (SHandshake (Some demo_m1))
      (mkSelfManaged [] (mkInfo (NewPID "10.0.0.2:4000" "cluster/B") demo_m2 "B") (NewMemberSet [demo_m2]) None) =
      Ok (sb', es ++ [SSend (Some demo_pid) (MMembers list) None]) /\
    @Receive map_order demo_pid (Some (NewPID "10.0.0.2:4000" "provider/B")) (SMembers list)
      (mkSelfManaged [] demo_info (NewMemberSet [demo_m1]) (Some demo_pid)) = Ok (sa', es') /\
    members (sm_members sa') !! "B"%string = Some demo_m2.
Proof.
  set (sb := mkSelfManaged _ (mkInfo _ demo_m2 _) _ _). set (sa := mkSelfManaged _ demo_info _ _).
  destruct (@handshake_exchange map_order demo_pid (NewPID "10.0.0.2:4000" "provider/B") sa sb
    (NewMemberSet_ok _) (NewMemberSet_ok _)) as (sb' & es & l & sa' & es' & H1 & H2 & H3 & H4).
  exists sb', es, l, sa', es'. split; [exact H1|]. split; [exact H2|]. rewrite H4, H3. vm_compute. reflexivity.
Defined.

(** Discovery.  A node whose agent is at a plain host and a port announces
    itself under its cluster id at that host and port, and a node that then finds
    the entry sends a handshake, with itself as the member, to exactly the
    provider of the announcing node (which ignores its own entry); a node whose
    address is not host:port, such as one without a remote, makes the program
    exit; an entry without an IPv4 address makes it panic. *)
Theorem discovery_outcomes (a b : SelfManaged) (host : string) (port : Z) :
  let here := Address (agentPID (info a)) in
  let provider_of s := NewPID (Address (agentPID (info s))) ("provider/" +:+ cluster_id (info s)) in
  (here = (host +:+ ":" +:+ Itoa port)%string -> plain_host host -> 0 <= port < two63 ->
   startAutoDiscovery a = [SAnnounce (cluster_id (info a)) host port; SDiscover] /\
   on_entry (cluster_id (info a)) [host] port a = Ok [] /\
   (cluster_id (info b) <> cluster_id (info a) ->
    on_entry (cluster_id (info a)) [host] port b =
      Ok [SSend (Some (provider_of a)) (MHandshake (Some (self_member (info b)))) (Some (provider_of b))])) /\
  (SplitHostPort here = None -> startAutoDiscovery a = [SFatal]) /\
  SplitHostPort "local" = None /\
  (cluster_id (info b) <> cluster_id (info a) ->
   on_entry (cluster_id (info a)) [] port b = Panic IndexOutOfRange).
Proof.
  intros here provider_of.
  assert (Hne : cluster_id (info b) <> cluster_id (info a) ->
    String.eqb (cluster_id (info a)) (cluster_id (info b)) = false).
  { intros Hne. apply String.eqb_neq. congruence. }
  split_and!.
  - intros Hh Hp Hr. split; [|split].
    + unfold startAutoDiscovery, initAutoDiscovery. fold here. rewrite Hh, SplitHostPort_plain by (done || lia).
      by rewrite Atoi_Itoa.
    + unfold on_entry. by rewrite String.eqb_refl.
    + intros Hn. unfold on_entry, provider_of. rewrite Hne by done. fold here. by rewrite Hh.
  - intros Hs. unfold startAutoDiscovery, initAutoDiscovery. fold here. by rewrite Hs.
  - done.
  - intros Hn. unfold on_entry. by rewrite Hne.
Qed.
