(* ===== verification/Provider.v ===== *)
(** * The self-managed provider as an actor ([cluster/selfmanaged.go])

    [SelfManaged] describes what the provider does with each message; here it is
    the receiver of a process: panics of its handlers become restarts, with the
    ticker of the member pings stopped when the old receiver goes. *)

From stdpp Require Import countable.
From S2P Require Import Prelude Net Pid Messages Process Opts MemberSet Agent SelfManaged.

(** ** The messages as values of [any] *)

#[export] Instance Member_countable : Countable Member.
Proof.
  by refine (inj_countable' (fun m => (MID m, Host m, Region m, Kinds m))
    (fun '(i, h, r, k) => mkMember i h r k) _); intros [].
Defined.

(** The messages that are not part of an actor's life cycle. *)
Inductive payload :=
  | PPing | PMemberPing | POther
  | PHandshake (m : option Member)
  | PMembers (ms : list Member)
  | PMemberLeave (listenAddr : string).
#[export] Instance payload_eq_dec : EqDecision payload.
Proof. solve_decision. Defined.

Definition payload_sum (m : payload) : (nat + option Member) + (list Member + string) :=
  match m with
  | PPing => inl (inl 0%nat) | PMemberPing => inl (inl 1%nat) | POther => inl (inl 2%nat)
  | PHandshake m => inl (inr m) | PMembers ms => inr (inl ms) | PMemberLeave a => inr (inr a)
  end.
Definition sum_payload (s : (nat + option Member) + (list Member + string)) : payload :=
  match s with
  | inl (inl 0%nat) => PPing | inl (inl 1%nat) => PMemberPing | inl (inl _) => POther
  | inl (inr m) => PHandshake m | inr (inl ms) => PMembers ms | inr (inr a) => PMemberLeave a
  end.
#[export] Instance payload_countable : Countable payload.
Proof. by refine (inj_countable' payload_sum sum_payload _); intros []. Defined.

(** A message of the cluster is a user message for the engine: its type and its
    contents. *)
Definition type_name (m : payload) : string :=
  match m with
  | PPing => "*actor.Ping" | PMemberPing => "cluster.memberPing" | POther => ""
  | PHandshake _ => "*cluster.Handshake" | PMembers _ => "*cluster.Members" | PMemberLeave _ => "cluster.memberLeave"
  end.
Definition wrap (m : payload) : any := AUser (type_name m) [Z.pos (encode m)].

Definition payload_msg (m : payload) : smsg :=
  match m with
  | PPing => SPing | PMemberPing => SMemberPing | POther => SOther
  | PHandshake m => SHandshake m | PMembers ms => SMembers ms | PMemberLeave a => SMemberLeave a
  end.

(** The type switch of [Receive]. *)
Definition view (m : any) : smsg :=
  match m with
  | AStarted => SStarted
  | AStopped => SStopped
  | AInitialized => SInitialized
  | AUser _ [Z.pos p] => match decode p with Some m => payload_msg m | None => SOther end
  | _ => SOther
  end.

Lemma view_wrap m : view (wrap m) = payload_msg m.
Proof. unfold wrap, view. by rewrite decode_encode. Qed.

(** ** The receiver *)

Section provider.
Context `{Range}.
Variable config : SelfManagedConfig.
Variable cluster : cluster_info.
(** [c.PID()]. *)
Variable self : PID.

(** The provider and its [memberPinger]: none yet (a nil channel), or one whose
    channel is open ([true]) or closed. *)
Record provider := mkProvider { prov : SelfManaged; memberPinger : option bool }.

(** [memberPinger.Stop()] *)
Definition stop_pinger (r : provider) : provider + go_panic :=
  match memberPinger r with
  | None => inr CloseOfNil
  | Some true => inl (mkProvider (prov r) (Some false))
  | Some false => inr CloseOfClosed
  end.

(** The calls on the context of the actor ([c.SpawnChildFunc], [c.Send]); the
    others go to the engine of the cluster. *)
Definition ctx_call (e : seffect) : option ctx_effect :=
  match e with
  | SSpawnEvent => Some (Process.ESpawnChild (Child (Child self "event") "1"))
  | SSend to (MPing _) (Some _) => Some (Process.ESend to (wrap PPing))
  | _ => None
  end.

(** [Receive]; a handler that panics leaves a receiver that is only told to stop. *)
Definition provider_receive : ReceiveFunc provider := fun r m sender =>
  match view m with
  | SStopped =>
      match stop_pinger r with
      | inl r => (r, [], None)
      | inr e => (r, [], Some (PVRuntime e))
      end
  | msg =>
      match SelfManaged.Receive self sender msg (prov r) with
      | Ok (s, es) =>
          (mkProvider s (match msg with SStarted => Some true | _ => memberPinger r end), omap ctx_call es, None)
      | Panic e => (r, [], Some (PVRuntime e))
      end
  end.

(** How [Cluster.Start] spawns it: with the default options. *)
Definition provider_opts : Process.Opts provider :=
  Process.mkOpts (fun _ => inl (mkProvider (NewSelfManaged config cluster) None)) provider_receive
    defaultMaxRestarts [] self None.

(** ** Members at an address *)

(** The provider of this cluster knows no member at [addr]. *)
Definition unknown (addr : string) (s : SelfManaged) : Prop :=
  info s = cluster /\ only (fun m => Host m <> addr) s.

(** A message that names no member at [addr]. *)
Definition names_none (addr : string) (m : payload) : Prop := about (fun m => Host m <> addr) (payload_msg m).

Lemma unknown_Receive addr sender msg s s' es :
  Host (self_member cluster) <> addr -> unknown addr s -> about (fun m => Host m <> addr) msg ->
  SelfManaged.Receive self sender msg s = Ok (s', es) -> unknown addr s'.
Proof.
  intros Hself [Hi Ho] Hab Hr. destruct (only_Receive _ _ _ _ _ _ _ Ho ltac:(by rewrite Hi) Hab Hr) as (Ho' & Hi' & _).
  split; [congruence|done].
Qed.

(** [memberLeave] for such an address panics. *)
Lemma unknown_leave addr sender s :
  unknown addr s -> SelfManaged.Receive self sender (SMemberLeave addr) s = Panic NilDeref.
Proof.
  intros (_ & Hok & Hm). cbn [SelfManaged.Receive]. pose proof (GetByHost_spec addr (sm_members s) Hok) as Hg.
  destruct (GetByHost addr (sm_members s)) as [x|]; [|done]. destruct Hg as [Hx Hh]. by destruct (Hm _ _ Hx).
Qed.

Definition is_leave (addr : string) (e : Envelope) : bool :=
  match view (Msg e) with SMemberLeave a => bool_decide (a = addr) | _ => false end.

Definition foreign (addr : string) (e : Envelope) : Prop :=
  exists m, Msg e = wrap m /\ names_none addr m.

Lemma provider_handlers f : handlers provider_opts f -> f = provider_receive.
Proof. by intros [->| ->]. Qed.

Lemma provider_volatile addr e :
  Host (self_member cluster) <> addr -> foreign addr e ->
  volatile provider_opts (fun r => unknown addr (prov r)) (is_leave addr) e.
Proof.
  intros Hself (m & Hm & Hn). unfold volatile, is_leave. rewrite Hm, view_wrap. split; [done|].
  intros f ->%provider_handlers r Hu. unfold provider_receive. rewrite view_wrap.
  assert (Hgood : forall s' es, SelfManaged.Receive self (Sender e) (payload_msg m) (prov r) = Ok (s', es) -> unknown addr s')
    by (intros; by eapply unknown_Receive).
  destruct m as [| | |hm|ms|a]; cbn [payload_msg] in *.
  6:{ case_bool_decide as Ha.
      - subst a. rewrite (unknown_leave addr (Sender e) (prov r) Hu). by eexists.
      - destruct (SelfManaged.Receive _ _ _ _) as [[s' es]|]; [by eapply Hgood|done]. }
  all: destruct (SelfManaged.Receive _ _ _ _) as [[s' es]|]; [by eapply Hgood|done].
Qed.

Lemma provider_lifecycle addr r m s :
  Host (self_member cluster) <> addr -> unknown addr (prov r) -> is_lifecycle m = true ->
  unknown addr (prov (provider_receive r m s).1.1).
Proof.
  intros Hself Hu Hl. unfold provider_receive.
  assert (Hgood : forall msg, about (fun m => Host m <> addr) msg -> forall s' es,
    SelfManaged.Receive self s msg (prov r) = Ok (s', es) -> unknown addr s') by (intros; by eapply unknown_Receive).
  destruct m; try done; cbn [view].
  - destruct (SelfManaged.Receive _ _ _ _) as [[s' es]|] eqn:Hr; [by eapply (Hgood SStarted)|done].
  - unfold stop_pinger. by destruct (memberPinger r) as [[]|].
Qed.

Lemma provider_no_internal : no_internal (Process.Receive provider_opts).
Proof.
  intros r m s v Hv. cbn [provider_opts Process.Receive] in Hv. unfold provider_receive in Hv.
  destruct (view m); try (destruct (SelfManaged.Receive _ _ _ _) as [[? ?]|]; by simplify_eq/=).
  unfold stop_pinger in Hv. by destruct (memberPinger r) as [[]|]; simplify_eq/=.
Qed.
End provider.

(** ** Correctness of the provider actor *)

(** C35: An address nobody has crashes the node.  If a provider that knows no
    member at [addr] gets more [memberLeave] messages for it than it has restarts
    left (three, from the default options), among any other messages that name no
    member there, the whole program ends with a panic that nobody recovers from,
    provided the actors it poisons on its way down stop (it hangs there only if some
    actor does not stop when poisoned): each of them panics, the restart count
    is never set back, and a new provider forgets the members, so it is as
    vulnerable as before.  A bootstrap member that is not up is such an address:
    every restart dials it again. *)
Theorem dead_address_crashes_node `{Range} (config : SelfManagedConfig) (cluster : cluster_info) (self : PID)
    range_children poison_done (addr : string) (batches : list (list Envelope)) (fuel : nat)
    (p : process provider) :
  let opts := provider_opts config cluster self in
  forall (Hself : Host (self_member cluster) <> addr)
    (Hrestarts : 0 <= restarts p <= defaultMaxRestarts)
    (Hknown : forall r, receiver p = Some r -> unknown cluster addr (prov r))
    (Hmsgs : Forall (Forall (foreign addr)) batches)
    (Hmany : defaultMaxRestarts - restarts p < bombs (is_leave addr) (concat batches))
    (Hfuel : defaultMaxRestarts <= Z.of_nat fuel),
  exists p' o, invoke_batches opts range_children poison_done fuel batches p = (p', o) /\
    ((exists v, o = Panics v /\ internal v = false) \/ (o = Blocks /\ exists c, poison_done c = false)).
Proof.
  intros opts Hself Hrestarts Hknown Hmsgs Hmany Hfuel. unfold defaultMaxRestarts in *.
  assert (Hleft : restarts_left opts p = 3 - restarts p).
  { unfold restarts_left, two32. cbn [opts provider_opts MaxRestarts]. unfold defaultMaxRestarts. apply Z.mod_small. lia. }
  apply (doomed_batches opts range_children poison_done (provider_no_internal config cluster self)
    (provider_no_internal config cluster self)) with (good := fun r => unknown cluster addr (prov r)) (bomb := is_leave addr).
  - done.
  - by split.
  - intros n r [= <-]. split; [done|]. split; [apply NewMemberSet_ok|]. intros id m. cbn. by rewrite lookup_empty.
  - intros f ->%provider_handlers r m s. by apply provider_lifecycle.
  - unfold two31. lia.
  - exact Hknown.
  - eapply Forall_impl; [exact Hmsgs|]. intros msgs Hm. eapply Forall_impl; [exact Hm|]. intros e. by apply provider_volatile.
  - by rewrite Hleft.
  - rewrite Hleft. lia.
Qed.

Definition demo_leave (addr : string) : Envelope := mkEnvelope (wrap (PMemberLeave addr)) None.

Lemma dead_address_crashes_node_witness :
  let config := [mkMemberAddr "10.0.0.9:4000" "C"] in
  let opts := @provider_opts map_order config demo_info demo_pid in
  let started := (Process.Start opts demo_children demo_done 1 Process.newProcess).1 in
  let batches := [[demo_leave "10.0.0.9:4000"]; [mkEnvelope (wrap (PMembers [demo_m2])) None; demo_leave "10.0.0.9:4000"];
    [mkEnvelope (wrap PMemberPing) None; demo_leave "10.0.0.9:4000"]; [demo_leave "10.0.0.9:4000"]] in
  exists p' v, invoke_batches opts demo_children demo_done 3 batches started = (p', Panics v) /\ internal v = false.
Proof.
  cbv zeta.
  apply (crash_unless_waiting demo_done); [done|].
  apply (@dead_address_crashes_node map_order [mkMemberAddr "10.0.0.9:4000" "C"] demo_info demo_pid demo_children demo_done
    "10.0.0.9:4000" _ 3).
  - discriminate.
  - vm_compute. split; discriminate.
  - intros r Hr. vm_compute in Hr. injection Hr as <-. split; [reflexivity|]. split.
    + intros id m Hm%elem_of_map_to_list. vm_compute in Hm. apply list_elem_of_singleton in Hm.
      injection Hm as -> ->. reflexivity.
    + intros id m Hm%elem_of_map_to_list. vm_compute in Hm. apply list_elem_of_singleton in Hm.
      injection Hm as -> ->. discriminate.
  - repeat constructor; eexists; (split; [reflexivity|]); cbn; repeat constructor; discriminate.
  - vm_compute. reflexivity.
  - vm_compute. discriminate.
Defined.
