(* ===== verification/Gossip.v ===== *)
(** * The providers of a cluster together ([cluster/selfmanaged.go])

    A world of nodes: the provider of each, and the messages in flight between
    them.  Delivery is in any order; messages may be lost, nodes may restart, find
    each other through discovery and be told that an address is unreachable.
    Messages to agents are in flight too and count as lost here (what an agent
    makes of them is in [SelfManaged]). *)

From S2P Require Import Prelude Net Pid MemberSet Agent SelfManaged.

Record packet := mkPacket { to : PID; from : option PID; body : cmsg }.

Record world := mkWorld { nodes : list SelfManaged; soup : list packet }.

(** The PID [Cluster.Start] spawns the provider of a node under (the id of a cluster is
    not empty, unless [WithID] makes it so). *)
Definition provider_pid (c : cluster_info) : PID :=
  NewPID (Address (agentPID c)) ("provider/" +:+ cluster_id c).

(** A message of another node, as the provider sees it. *)
Definition inbound (m : cmsg) : smsg :=
  match m with
  | MHandshake m => SHandshake m
  | MMembers ms => SMembers ms
  | MPing _ => SPing
  | _ => SOther
  end.

(** The messages among its effects; a nil target is dropped by the engine. *)
Definition posts (es : list seffect) : list packet :=
  omap (fun e => match e with SSend (Some p) m s => Some (mkPacket p s m) | _ => None end) es.

Section gossip.
Context `{Range}.

(** Node [i] takes a step that leaves its provider in [s'] and has effects [es]. *)
Definition acts (i : nat) (s' : SelfManaged) (es : list seffect) (w : world) : world :=
  mkWorld (<[i := s']> (nodes w)) (soup w ++ posts es).

Inductive kind := KStart | KRestart | KDeliver | KLose | KPing | KLeave | KEntry.

Inductive gstep : kind -> world -> world -> Prop :=
  | g_start w i s s' es :      (* the actor starts, for the first time *)
      nodes w !! i = Some s -> s = NewSelfManaged (sm_config s) (info s) ->
      Receive (provider_pid (info s)) None SStarted s = Ok (s', es) ->
      gstep KStart w (acts i s' es w)
  | g_restart w i s s' es :    (* it starts again, with a receiver from the producer *)
      nodes w !! i = Some s ->
      Receive (provider_pid (info s)) None SStarted (NewSelfManaged (sm_config s) (info s)) = Ok (s', es) ->
      gstep KRestart w (acts i s' es w)
  | g_deliver ns l1 pk l2 i s s' es :
      ns !! i = Some s -> is_Some (sm_pid s) -> to pk = provider_pid (info s) ->
      Receive (to pk) (from pk) (inbound (body pk)) s = Ok (s', es) ->
      gstep KDeliver (mkWorld ns (l1 ++ pk :: l2)) (acts i s' es (mkWorld ns (l1 ++ l2)))
  | g_lose ns l1 pk l2 : gstep KLose (mkWorld ns (l1 ++ pk :: l2)) (mkWorld ns (l1 ++ l2))
  | g_ping w i s s' es :
      nodes w !! i = Some s -> is_Some (sm_pid s) ->
      Receive (provider_pid (info s)) None SMemberPing s = Ok (s', es) ->
      gstep KPing w (acts i s' es w)
  | g_leave w i s s' es addr :
      nodes w !! i = Some s -> is_Some (sm_pid s) ->
      Receive (provider_pid (info s)) None (SMemberLeave addr) s = Ok (s', es) ->
      gstep KLeave w (acts i s' es w)
  | g_entry w i s es instance addrs port :
      nodes w !! i = Some s -> is_Some (sm_pid s) -> on_entry instance addrs port s = Ok es ->
      gstep KEntry w (acts i s es w).

(** Steps of some kinds. *)
Definition gsteps (ks : list kind) : world -> world -> Prop := rtc (fun w w' => exists k, k ∈ ks /\ gstep k w w').
Definition any_kind : list kind := [KStart; KRestart; KDeliver; KLose; KPing; KLeave; KEntry].
(** Nothing is lost, nobody restarts or is given up. *)
Definition calm : list kind := [KStart; KDeliver; KPing; KEntry].
(** Only what the timers and the network do by themselves. *)
Definition idle : list kind := [KDeliver; KLose; KPing].

(** Before anything is started. *)
Definition dormant (cs : list (SelfManagedConfig * cluster_info)) : world :=
  mkWorld ((fun '(config, c) => NewSelfManaged config c) <$> cs) [].

Definition reachable (cs : list (SelfManagedConfig * cluster_info)) (w : world) : Prop := gsteps any_kind (dormant cs) w.

(** A kind that is not in a list. *)
Ltac not_a_kind Hk := exfalso; apply list_elem_of_In in Hk; cbn in Hk; intuition discriminate.

(** ** Only genuine members *)

Definition genuine (cs : list (SelfManagedConfig * cluster_info)) (m : Member) : Prop :=
  exists config c, (config, c) ∈ cs /\ self_member c = m.

Definition pk_ok (G : Member -> Prop) (pk : packet) : Prop :=
  match body pk with
  | MHandshake (Some m) => G m
  | MHandshake None => False
  | MMembers ms => Forall G ms
  | _ => True
  end.

Lemma posts_ok G es : Forall (tells G) es -> Forall (pk_ok G) (posts es).
Proof.
  induction 1 as [|e es He _ IH]; [by constructor|]. unfold posts in *. cbn [omap list_omap].
  destruct e as [[p|] m s| | | | | | | | | |]; try exact IH. constructor; [|exact IH]. by destruct m as [[m|]| | | | | | |].
Qed.

Definition node_ok (G : Member -> Prop) (s : SelfManaged) : Prop := only G s /\ G (self_member (info s)).

Definition world_ok (G : Member -> Prop) (w : world) : Prop := Forall (node_ok G) (nodes w) /\ Forall (pk_ok G) (soup w).

Lemma pk_about G pk : pk_ok G pk -> about G (inbound (body pk)).
Proof. unfold pk_ok. by destruct (body pk) as [[m|]| | | | | | |]. Qed.

(** A node that acts keeps the world as it should be. *)
Lemma acts_ok G w i s s' es pid sender msg :
  world_ok G w -> nodes w !! i = Some s -> about G msg -> Receive pid sender msg s = Ok (s', es) ->
  world_ok G (acts i s' es w) /\ info s' = info s.
Proof.
  intros [Hn Hs] Hi Hab Hr. pose proof (proj1 (Forall_lookup _ _) Hn i s Hi) as [Ho Hg].
  destruct (only_Receive G _ _ _ _ _ _ Ho Hg Hab Hr) as (Ho' & Hinfo & Ht). split; [|done]. split; cbn [acts nodes soup].
  - apply Forall_insert; [done|]. split; [done|by rewrite Hinfo].
  - apply Forall_app. split; [done|by apply posts_ok].
Qed.

(** With unique ids a member is known by its id. *)
Lemma genuine_unique cs m m' :
  NoDup (MID ∘ self_member <$> cs.*2) -> genuine cs m -> genuine cs m' -> MID m = MID m' -> m = m'.
Proof.
  intros Hd (c1 & i1 & H1 & <-) (c2 & i2 & H2 & <-) He.
  apply list_elem_of_lookup in H1 as [k1 H1], H2 as [k2 H2].
  assert (k1 = k2) as <-; [|congruence].
  eapply (NoDup_lookup _ _ _ (MID (self_member i1)) Hd); rewrite !list_lookup_fmap.
  - by rewrite H1.
  - rewrite H2. cbn. by rewrite He.
Qed.

(** A start, from a new receiver. *)
Lemma start_ok G w i s s' es :
  world_ok G w -> nodes w !! i = Some s ->
  Receive (provider_pid (info s)) None SStarted (NewSelfManaged (sm_config s) (info s)) = Ok (s', es) ->
  world_ok G (acts i s' es w) /\ info s' = info s.
Proof.
  intros [Hn Hs] Hi Hr. pose proof (proj1 (Forall_lookup _ _) Hn i s Hi) as [_ Hg].
  assert (Ho : only G (NewSelfManaged (sm_config s) (info s))).
  { split; [apply NewMemberSet_ok|]. intros id m. cbn. by rewrite lookup_empty. }
  destruct (only_Receive G _ _ SStarted _ _ _ Ho Hg I Hr) as (Ho' & Hinfo & Ht). cbn [NewSelfManaged info] in Hinfo.
  split; [split; cbn [acts nodes soup]|done].
  - apply Forall_insert; [done|]. split; [done|by rewrite Hinfo].
  - apply Forall_app. split; [done|by apply posts_ok].
Qed.

Lemma same_infos (ns : list SelfManaged) i s s' :
  ns !! i = Some s -> info s' = info s -> info <$> <[i:=s']> ns = info <$> ns.
Proof. intros Hi He. rewrite list_fmap_insert, He. apply list_insert_id. by rewrite list_lookup_fmap, Hi. Qed.

Lemma gstep_ok G k w w' : world_ok G w -> gstep k w w' -> world_ok G w' /\ info <$> nodes w' = info <$> nodes w.
Proof.
  intros Hw Hstep. destruct Hstep as [w i s s' es Hi Hnew Hr|w i s s' es Hi Hr|ns l1 pk l2 i s s' es Hi Hup Hto Hr|ns l1 pk l2|
    w i s s' es Hi Hup Hr|w i s s' es addr Hi Hup Hr|w i s es instance addrs port Hi Hup Hr].
  - rewrite Hnew in Hr at 2. destruct (start_ok G w i s s' es Hw Hi Hr). split; [done|by apply (same_infos _ _ s)].
  - destruct (start_ok G w i s s' es Hw Hi Hr). split; [done|by apply (same_infos _ _ s)].
  - destruct Hw as [Hn Hs]. cbn [nodes soup] in *. apply Forall_app in Hs as [Hs1 [Hpk Hs2]%Forall_cons].
    assert (Hw' : world_ok G (mkWorld ns (l1 ++ l2))) by (split; [done|by apply Forall_app]).
    destruct (acts_ok G _ i s s' es _ _ _ Hw' Hi (pk_about _ _ Hpk) Hr) as [Hok Hinfo]. split; [done|by apply (same_infos _ _ s)].
  - destruct Hw as [Hn Hs]. cbn [nodes soup] in *. apply Forall_app in Hs as [Hs1 [Hpk Hs2]%Forall_cons].
    split; [|done]. split; [done|]. cbn [soup]. by apply Forall_app.
  - destruct (acts_ok G _ i s s' es _ _ SMemberPing Hw Hi I Hr) as [Hok Hinfo]. split; [done|by apply (same_infos _ _ s)].
  - destruct (acts_ok G _ i s s' es _ _ (SMemberLeave addr) Hw Hi I Hr) as [Hok Hinfo]. split; [done|by apply (same_infos _ _ s)].
  - split; [|by apply (same_infos _ _ s)]. destruct Hw as [Hn Hs]. pose proof (proj1 (Forall_lookup _ _) Hn i s Hi) as Hnode.
    split; cbn [acts nodes soup]; [by apply Forall_insert|]. apply Forall_app. split; [done|]. apply posts_ok.
    unfold on_entry in Hr. destruct (String.eqb _ _); [by injection Hr as <-|]. destruct addrs; [done|].
    injection Hr as <-. repeat constructor. apply Hnode.
Qed.

Lemma gsteps_ind (P : world -> Prop) ks w w' :
  gsteps ks w w' -> P w -> (forall k w1 w2, k ∈ ks -> P w1 -> gstep k w1 w2 -> P w2) -> P w'.
Proof.
  intros Hr HP Hstep. refine (rtc_ind_r (fun w' => P w') w HP _ w' Hr).
  intros w1 w2 _ (k & Hk & Hs) H1. by eapply Hstep.
Qed.

Lemma dormant_infos cs : info <$> nodes (dormant cs) = cs.*2.
Proof. cbn [dormant nodes]. rewrite <-list_fmap_compose. apply list_fmap_ext. by intros i [config c] _. Qed.

Lemma gsteps_ok cs ks w :
  gsteps ks (dormant cs) w -> world_ok (genuine cs) w /\ info <$> nodes w = cs.*2.
Proof.
  intros Hr. apply (gsteps_ind (fun w => world_ok (genuine cs) w /\ info <$> nodes w = cs.*2) ks _ w Hr).
  - split; [split; [|by constructor]|apply dormant_infos].
    cbn [dormant nodes]. apply Forall_fmap, Forall_forall. intros [config c] Hin. split.
    + split; [apply NewMemberSet_ok|]. intros id m. cbn. by rewrite lookup_empty.
    + cbn. by exists config, c.
  - intros k w1 w2 _ [Hok Hi] Hstep. destruct (gstep_ok _ _ _ _ Hok Hstep) as [Hok' Hi']. split; [done|congruence].
Qed.

(** ** What nodes come to know of each other *)

Definition knows (s : SelfManaged) (m : Member) : Prop := is_Some (members (sm_members s) !! MID m).
Definition me (s : SelfManaged) : Member := self_member (info s).

Definition evolves (s s' : SelfManaged) : Prop :=
  sm_config s' = sm_config s /\ info s' = info s /\ (is_Some (sm_pid s) -> is_Some (sm_pid s')) /\
  forall m, knows s m -> knows s' m.

Lemma evolves_refl s : evolves s s.
Proof. by repeat split. Qed.

Lemma evolves_add ms s s' es :
  set_ok (sm_members s) -> addMembers (Some <$> ms) s = Ok (s', es) ->
  evolves s s' /\ es = sendMembersToAgent s' /\ forall m, m ∈ ms -> knows s' m.
Proof.
  intros Hok Ha. destruct (addMembers_ok ms s Hok) as (set & H1 & _ & Hl). rewrite H1 in Ha. injection Ha as <- <-.
  split; [|split; [done|]].
  - split; [done|]. split; [done|]. split; [done|]. intros m [x Hx]. unfold knows. cbn [with_members sm_members].
    rewrite Hl, Hx. by eexists.
  - intros m Hm. unfold knows. cbn [with_members sm_members]. rewrite Hl.
    destruct (members (sm_members s) !! MID m); [by eexists|]. unfold first_member.
    destruct (List.find _ ms) eqn:E; [by eexists|]. apply list_elem_of_In in Hm. apply (List.find_none _ _ E) in Hm.
    by rewrite String.eqb_refl in Hm.
Qed.

(** What a provider does with what another one sends it. *)
Lemma deliver_spec pid sender m s s' es :
  set_ok (sm_members s) -> Receive pid sender (inbound m) s = Ok (s', es) ->
  evolves s s' /\
  match m with
  | MHandshake (Some x) => knows s' x /\
      forall p, sender = Some p -> mkPacket p None (MMembers (Slice (sm_members s'))) ∈ posts es
  | MMembers ms => forall x, x ∈ ms -> knows s' x
  | MPing _ => s' = s /\ es = []
  | _ => True
  end.
Proof.
  intros Hok Hr. destruct m as [[x|]|ms| | | | | |]; cbn [inbound Receive] in Hr;
    try (injection Hr as <- <-; by split; [apply evolves_refl|]); try done.
  - change [Some x] with (Some <$> [x]) in Hr. destruct (addMembers (Some <$> [x]) s) as [[s1 es1]|] eqn:Ha; [|done].
    injection Hr as <- <-. destruct (evolves_add [x] s s1 es1 Hok Ha) as (He & -> & Hk). split; [done|].
    split; [apply Hk; by left|]. intros p ->. unfold posts, sendMembersToAgent. cbn [omap list_omap app].
    right. by left.
  - destruct (evolves_add ms s s' es Hok Hr) as (He & _ & Hk). by split.
Qed.

Definition dial (a : MemberAddr) : PID := NewPID (ma_ListenAddr a) ("provider/" +:+ ma_ID a).

Lemma start_spec s s' es :
  s = NewSelfManaged (sm_config s) (info s) ->
  Receive (provider_pid (info s)) None SStarted s = Ok (s', es) ->
  evolves s s' /\ knows s' (me s) /\
  forall a, a ∈ sm_config s -> mkPacket (dial a) (Some (provider_pid (info s))) (MHandshake (Some (me s))) ∈ posts es.
Proof.
  intros Hnew Hr. cbn [Receive] in Hr. injection Hr as <- <-. split; [|split].
  - split; [done|]. split; [done|]. split; [by eexists|]. intros m [x Hx]. rewrite Hnew in Hx. cbn in Hx. by rewrite lookup_empty in Hx.
  - unfold knows, me. cbn [sm_members Add members]. unfold add_member. rewrite lookup_insert_eq. by eexists.
  - intros a Ha. apply list_elem_of_omap.
    exists (SSend (Some (dial a)) (MHandshake (Some (me s))) (Some (provider_pid (info s)))). split; [|done].
    do 2 right. unfold start. do 2 right. apply elem_of_app. left. apply list_elem_of_fmap. by exists a.
Qed.

(** A handshake of [ci] for [cj] is in flight; a list with [cj] in it for [ci] is. *)
Definition asked (w : world) (ci cj : cluster_info) : Prop :=
  mkPacket (provider_pid cj) (Some (provider_pid ci)) (MHandshake (Some (self_member ci))) ∈ soup w.
Definition told (w : world) (ci cj : cluster_info) : Prop :=
  exists sender ms m, mkPacket (provider_pid ci) sender (MMembers ms) ∈ soup w /\ m ∈ ms /\ MID m = MID (self_member cj).

(** Whoever dialled a node is on the way to knowing it, and to being known. *)
Definition link (w : world) : Prop :=
  forall i j si sj a, nodes w !! i = Some si -> nodes w !! j = Some sj -> is_Some (sm_pid si) ->
    a ∈ sm_config si -> dial a = provider_pid (info sj) ->
    asked w (info si) (info sj) \/ knows sj (me si) /\ (told w (info si) (info sj) \/ knows si (me sj)).

Definition self_aware (w : world) : Prop :=
  forall i s, nodes w !! i = Some s -> is_Some (sm_pid s) -> knows s (me s).

Definition distinct (w : world) : Prop := NoDup (provider_pid <$> (info <$> nodes w)).

Lemma acted i s s' (ns : list SelfManaged) k x :
  ns !! i = Some s -> <[i:=s']> ns !! k = Some x -> (k = i /\ x = s') \/ (k <> i /\ ns !! k = Some x).
Proof.
  intros Hi Hk. destruct (decide (k = i)) as [->|Hne].
  - rewrite list_lookup_insert_eq in Hk by by eapply lookup_lt_Some. injection Hk as <-. by left.
  - rewrite list_lookup_insert_ne in Hk by done. by right.
Qed.

Lemma link_step w w' i s s' :
  nodes w !! i = Some s -> nodes w' = <[i:=s']> (nodes w) -> evolves s s' ->
  (is_Some (sm_pid s) \/ forall a c, a ∈ sm_config s -> dial a = provider_pid c -> asked w' (info s) c) ->
  (forall ck l sl', nodes w' !! l = Some sl' -> asked w ck (info sl') ->
     asked w' ck (info sl') \/ knows sl' (self_member ck) /\ told w' ck (info sl')) ->
  (forall k sk' cl, nodes w' !! k = Some sk' -> told w (info sk') cl -> told w' (info sk') cl \/ knows sk' (self_member cl)) ->
  link w -> link w'.
Proof.
  intros Hi Hn Hev Hup Hasked Htold Hlink k l sk' sl' a Hk Hl Hsk Ha Hd.
  assert (Hold : forall k x, nodes w' !! k = Some x -> exists y, nodes w !! k = Some y /\ evolves y x /\ (k <> i -> y = x)).
  { intros k0 x Hx. rewrite Hn in Hx. destruct (acted i s s' _ _ _ Hi Hx) as [[-> ->]|[Hne Hx']].
    - by exists s.
    - exists x. split; [done|]. split; [apply evolves_refl|done]. }
  destruct (Hold k sk' Hk) as (sk & Hk0 & (Hck & Hik & _ & Hkk) & Hnek).
  destruct (Hold l sl' Hl) as (sl & Hl0 & (_ & Hil & _ & Hkl) & _).
  assert (Hcase : is_Some (sm_pid sk) \/ asked w' (info sk') (info sl')).
  { destruct (decide (k = i)) as [->|Hne]; [|left; by rewrite (Hnek Hne)].
    assert (sk = s) as -> by congruence. destruct Hup as [Hup|Hup]; [by left|right]. rewrite Hik. apply (Hup a); [by rewrite <-Hck|done]. }
  destruct Hcase as [Hsk0|Has]; [|by left]. rewrite Hck in Ha. rewrite Hil in Hd.
  destruct (Hlink k l sk sl a Hk0 Hl0 Hsk0 Ha Hd) as [Has|[Hkn Ht]].
  - rewrite <-Hik, <-Hil in Has. destruct (Hasked _ _ _ Hl Has) as [H1|[H1 H2]]; [by left|right]. split; [done|by left].
  - right. unfold me in *. rewrite Hik, Hil in *. split; [by apply Hkl|]. destruct Ht as [Ht|Ht]; [|right; by apply Hkk].
    rewrite <-Hik in Ht. destruct (Htold _ _ _ Hk Ht) as [H1|H1]; [left; by rewrite Hik in H1|by right].
Qed.

(** Messages that stay in flight. *)
Lemma asked_stays w w' c c' : (forall pk, pk ∈ soup w -> pk ∈ soup w') -> asked w c c' -> asked w' c c'.
Proof. intros Hs. apply Hs. Qed.
Lemma told_stays w w' c c' : (forall pk, pk ∈ soup w -> pk ∈ soup w') -> told w c c' -> told w' c c'.
Proof. intros Hs (x & ms & m & Hin & Hm). exists x, ms, m. split; [by apply Hs|done]. Qed.
Lemma soup_acts i s es w pk : pk ∈ soup w -> pk ∈ soup (acts i s es w).
Proof. intros. cbn [acts soup]. apply elem_of_app. by left. Qed.

(** A node acts, and no message leaves the soup. *)
Lemma link_acts w i s s' es :
  nodes w !! i = Some s -> evolves s s' ->
  (is_Some (sm_pid s) \/ forall a c, a ∈ sm_config s -> dial a = provider_pid c -> asked (acts i s' es w) (info s) c) ->
  link w -> link (acts i s' es w).
Proof.
  intros Hi Hev Hup. apply (link_step w _ i s s'); [done|done|done|done| |].
  - intros. left. by apply (asked_stays w _ _ _ (soup_acts _ _ _ _)).
  - intros. left. by apply (told_stays w _ _ _ (soup_acts _ _ _ _)).
Qed.

Lemma aware_acts w i s s' es :
  nodes w !! i = Some s -> evolves s s' -> (is_Some (sm_pid s) \/ knows s' (me s)) ->
  self_aware w -> self_aware (acts i s' es w).
Proof.
  intros Hi (Hc & Hinfo & Hup & Hk) Hs Ha k x Hx Hpid. cbn [acts nodes] in Hx.
  destruct (acted i s s' _ _ _ Hi Hx) as [[-> ->]|[Hne Hx']]; [|by eapply Ha].
  unfold me in *. rewrite Hinfo. destruct Hs as [Hs|Hs]; [|done]. apply Hk. by apply (Ha i).
Qed.

Lemma distinct_node w i j si sj :
  distinct w -> nodes w !! i = Some si -> nodes w !! j = Some sj ->
  provider_pid (info si) = provider_pid (info sj) -> i = j.
Proof.
  intros Hd Hi Hj He. eapply (NoDup_lookup _ _ _ (provider_pid (info si)) Hd); rewrite !list_lookup_fmap.
  - by rewrite Hi.
  - by rewrite Hj, He.
Qed.

Lemma link_deliver ns l1 pk l2 i s s' es :
  let w := mkWorld ns (l1 ++ pk :: l2) in
  distinct w -> self_aware w -> set_ok (sm_members s) -> ns !! i = Some s -> is_Some (sm_pid s) ->
  to pk = provider_pid (info s) -> Receive (to pk) (from pk) (inbound (body pk)) s = Ok (s', es) ->
  set_ok (sm_members s') -> link w -> link (acts i s' es (mkWorld ns (l1 ++ l2))).
Proof.
  intros w Hd Haw Hok Hi Hup Hto Hr Hok' Hlink.
  destruct (deliver_spec _ _ _ _ _ _ Hok Hr) as [Hev Hspec]. pose proof Hev as (_ & Hinfo & _ & Hk).
  assert (Hsplit : forall q, q ∈ soup w -> q = pk \/ q ∈ soup (acts i s' es (mkWorld ns (l1 ++ l2)))).
  { intros q. cbn [w soup acts]. rewrite !elem_of_app, elem_of_cons. tauto. }
  assert (Hposts : forall q, q ∈ posts es -> q ∈ soup (acts i s' es (mkWorld ns (l1 ++ l2)))).
  { intros q Hq. cbn [soup acts]. apply elem_of_app. by right. }
  assert (Hat : forall l x, <[i:=s']> ns !! l = Some x -> to pk = provider_pid (info x) -> l = i /\ x = s').
  { intros l x Hx Ht. destruct (acted i s s' _ _ _ Hi Hx) as [?|[Hne Hx']]; [done|]. exfalso. apply Hne.
    apply (distinct_node w l i x s); [done|done|done|congruence]. }
  apply (link_step w _ i s s'); [done|done|done|by left| | |done].
  - intros ck l sl' Hl Has. destruct (Hsplit _ Has) as [Hpk|]; [|by left]. right.
    destruct (Hat l sl' Hl) as [-> ->]; [by rewrite <-Hpk|]. rewrite <-Hpk in Hspec. cbn [body from] in Hspec.
    destruct Hspec as [Hknow Hreply]. split; [exact Hknow|]. exists None, (Slice (sm_members s')).
    assert (Hme : knows s' (me s)) by (apply Hk; by apply (Haw i)). destruct Hme as [x Hx]. exists x.
    split; [by apply Hposts, Hreply|]. rewrite Hinfo. pose proof (Hok' _ _ Hx) as Hid. split; [|done].
    apply elem_of_values; [done|]. by rewrite Hid.
  - intros k sk' cl Hl (sender & ms & m & Hin & Hm & Hid). destruct (Hsplit _ Hin) as [Hpk|]; [|left; by exists sender, ms, m].
    right. destruct (Hat k sk' Hl) as [-> ->]; [by rewrite <-Hpk|]. rewrite <-Hpk in Hspec. cbn [body] in Hspec.
    unfold knows. rewrite <-Hid. by apply Hspec.
Qed.

Lemma calm_step k w w' :
  k ∈ calm -> world_ok (fun _ => True) w -> distinct w -> self_aware w -> link w -> gstep k w w' -> self_aware w' /\ link w'.
Proof.
  intros Hk Hok Hd Haw Hlink Hstep. pose proof (gstep_ok _ _ _ _ Hok Hstep) as [Hok' _].
  assert (Hset : forall w i s, world_ok (fun _ => True) w -> nodes w !! i = Some s -> set_ok (sm_members s)).
  { intros w0 i s [Hn _] Hi. by apply (proj1 (Forall_lookup _ _) Hn i s Hi). }
  destruct Hstep as [w i s s' es Hi Hnew Hr|w i s s' es Hi Hr|ns l1 pk l2 i s s' es Hi Hup Hto Hr|ns l1 pk l2|
    w i s s' es Hi Hup Hr|w i s s' es addr Hi Hup Hr|w i s es instance addrs port Hi Hup Hr].
  - destruct (start_spec s s' es Hnew Hr) as (Hev & Hself & Hdial). split.
    + by apply (aware_acts w i s); [..|right|].
    + apply (link_acts w i s); [done|done| |done]. right. intros a c Ha Hac. unfold asked. rewrite <-Hac. cbn [acts soup].
      apply elem_of_app. right. by apply Hdial.
  - by not_a_kind Hk.
  - destruct (deliver_spec _ _ _ _ _ _ (Hset _ i s Hok Hi) Hr) as [Hev _]. split.
    + by apply (aware_acts (mkWorld ns (l1 ++ l2)) i s); [..|left|].
    + apply (link_deliver ns l1 pk l2 i s); try done; [by apply (Hset _ i s Hok)|].
      apply (Hset _ i _ Hok'). cbn [acts nodes]. apply list_lookup_insert_eq. by eapply lookup_lt_Some.
  - by not_a_kind Hk.
  - cbn [Receive] in Hr. injection Hr as <- <-. split.
    + by apply (aware_acts w i s); [..|left|].
    + apply (link_acts w i s); [done|apply evolves_refl|by left|done].
  - by not_a_kind Hk.
  - split; [by apply (aware_acts w i s); [..|left|]|]. apply (link_acts w i s); [done|apply evolves_refl|by left|done].
Qed.

Lemma calm_run cs w :
  NoDup (provider_pid <$> cs.*2) -> gsteps calm (dormant cs) w -> self_aware w /\ link w.
Proof.
  intros Hd Hr. assert (Hdorm : forall i s, nodes (dormant cs) !! i = Some s -> sm_pid s = None).
  { intros i s. cbn [dormant nodes]. rewrite list_lookup_fmap. destruct (cs !! i) as [[config c]|]; [|done]. by intros [= <-]. }
  assert (H0 : world_ok (fun _ => True) (dormant cs)).
  { split; [|by constructor]. cbn [dormant nodes]. apply Forall_fmap, Forall_forall. intros [config c] _. split; [|done].
    split; [apply NewMemberSet_ok|done]. }
  refine (proj2 (gsteps_ind (fun w => (world_ok (fun _ => True) w /\ info <$> nodes w = cs.*2) /\ self_aware w /\ link w)
    calm _ w Hr _ _)).
  - split; [split; [done|apply dormant_infos]|]. split.
    + intros i s Hi [p Hp]. by rewrite (Hdorm i s Hi) in Hp.
    + intros i j si sj a Hi _ [p Hp]. by rewrite (Hdorm i si Hi) in Hp.
  - intros k w1 w2 Hk ((Hok & Hi) & Haw & Hlink) Hstep. destruct (gstep_ok _ _ _ _ Hok Hstep) as [Hok' Hi'].
    split; [split; [done|congruence]|]. apply (calm_step k w1); try done. unfold distinct. by rewrite Hi.
Qed.
(** ** Idle worlds *)

(** Nothing for a provider is in flight except pings. *)
Definition quiet (w : world) : Prop :=
  forall pk i s, pk ∈ soup w -> nodes w !! i = Some s -> to pk = provider_pid (info s) -> exists p, body pk = MPing p.

Definition ping_only (es : list seffect) : Prop := Forall (fun pk => exists p, body pk = MPing p) (posts es).

Lemma pings_only pid s : ping_only (handleMemberPing pid s).
Proof.
  unfold ping_only. rewrite handleMemberPing_eq. induction (List.filter _ _) as [|m l IH]; [by constructor|].
  rewrite fmap_cons. unfold posts in *. cbn [omap list_omap]. constructor; [by eexists|exact IH].
Qed.

Lemma quiet_acts w i s es :
  quiet w -> nodes w !! i = Some s -> ping_only es -> quiet (acts i s es w) /\ nodes (acts i s es w) = nodes w.
Proof.
  intros Hq Hi Hp. assert (He : nodes (acts i s es w) = nodes w) by (cbn; by apply list_insert_id). split; [|done].
  intros pk j sj Hpk Hj Hto. rewrite He in Hj. cbn [acts soup] in Hpk. apply elem_of_app in Hpk as [Hpk|Hpk].
  - by eapply Hq.
  - unfold ping_only in Hp. rewrite Forall_forall in Hp. by apply Hp.
Qed.

Lemma quiet_less ns l1 pk l2 : quiet (mkWorld ns (l1 ++ pk :: l2)) -> quiet (mkWorld ns (l1 ++ l2)).
Proof.
  intros Hq q i s Hin. apply (Hq q i s). cbn [soup] in *. rewrite elem_of_app in *. rewrite elem_of_cons. tauto.
Qed.

Lemma idle_run w w' : quiet w -> gsteps idle w w' -> quiet w' /\ nodes w' = nodes w.
Proof.
  intros Hq Hr. apply (gsteps_ind (fun w' => quiet w' /\ nodes w' = nodes w) idle w w' Hr); [done|].
  clear w' Hr. intros k w1 w2 Hk [Hq1 Hn] Hstep.
  destruct Hstep as [w1 i s s' es Hi Hnew Hr|w1 i s s' es Hi Hr|ns l1 pk l2 i s s' es Hi Hup Hto Hr|ns l1 pk l2|
    w1 i s s' es Hi Hup Hr|w1 i s s' es addr Hi Hup Hr|w1 i s es instance addrs port Hi Hup Hr]; try by not_a_kind Hk.
  - destruct (Hq1 pk i s) as [p Hp]; [cbn; apply elem_of_app; right; by left|done|done|].
    rewrite Hp in Hr. cbn [inbound Receive] in Hr. injection Hr as <- <-.
    destruct (quiet_acts (mkWorld ns (l1 ++ l2)) i s [] (quiet_less _ _ _ _ Hq1) Hi) as [H1 H2]; [by constructor|].
    split; [done|]. by rewrite H2.
  - split; [by eapply quiet_less|done].
  - cbn [Receive] in Hr. injection Hr as <- <-. destruct (quiet_acts w1 i s _ Hq1 Hi (pings_only (provider_pid (info s)) s)) as [H1 H2].
    split; [done|]. by rewrite H2.
Qed.
End gossip.

(** ** Running a world *)

Inductive act := AStart (i : nat) | ADeliver (n : nat) | APing (i : nat).

Section run.
Context `{Range}.

(** The node whose provider has a PID. *)
Definition node_at (p : PID) (ns : list SelfManaged) : option (nat * SelfManaged) :=
  list_find (fun s => provider_pid (info s) = p) ns.

Definition outcome_of (i : nat) (w : world) (r : result (SelfManaged * list seffect)) : option world :=
  match r with Ok (s', es) => Some (acts i s' es w) | Panic _ => None end.

Definition exec_step (a : act) (w : world) : option world :=
  match a with
  | AStart i =>
      s ← nodes w !! i;
      if bool_decide (sm_pid s = None /\ members (sm_members s) = ∅) then
        outcome_of i w (Receive (provider_pid (info s)) None SStarted s)
      else None
  | ADeliver n =>
      pk ← soup w !! n;
      '(i, s) ← node_at (to pk) (nodes w);
      if bool_decide (is_Some (sm_pid s)) then
        outcome_of i (mkWorld (nodes w) (take n (soup w) ++ drop (S n) (soup w)))
          (Receive (to pk) (from pk) (inbound (body pk)) s)
      else None
  | APing i =>
      s ← nodes w !! i;
      if bool_decide (is_Some (sm_pid s)) then
        outcome_of i w (Receive (provider_pid (info s)) None SMemberPing s)
      else None
  end.

Fixpoint exec (acts : list act) (w : world) : option world :=
  match acts with
  | [] => Some w
  | a :: acts => exec_step a w ≫= exec acts
  end.

Lemma act_sound a w w' : exec_step a w = Some w' -> exists k, k ∈ calm /\ gstep k w w'.
Proof.
  destruct a as [i|n|i]; cbn [exec_step]; intros He.
  - apply bind_Some in He as (s & Hs & He). case_bool_decide as Hnew; [|done]. destruct Hnew as [Hp Hm].
    destruct (Receive _ _ _ _) as [[s' es]|] eqn:Hr; [|done]. injection He as <-.
    exists KStart. split; [by left|]. eapply g_start; [done| |done].
    destruct s as [c i0 [ms] p]. cbn in Hp, Hm. by subst.
  - apply bind_Some in He as (pk & Hpk & He). apply bind_Some in He as ([i s] & Hf & He).
    case_bool_decide as Hup; [|done]. destruct (Receive _ _ _ _) as [[s' es]|] eqn:Hr; [|done]. injection He as <-.
    apply list_find_Some in Hf as (Hi & Hto & _). exists KDeliver. split; [right; by left|].
    destruct w as [ns l]. cbn [nodes soup] in *. rewrite <-(take_drop_middle l n pk Hpk) at 1. by eapply g_deliver.
  - apply bind_Some in He as (s & Hs & He). case_bool_decide as Hup; [|done].
    destruct (Receive _ _ _ _) as [[s' es]|] eqn:Hr; [|done]. injection He as <-.
    exists KPing. split; [do 2 right; by left|]. by eapply g_ping.
Qed.

Lemma acts_sound acts w w' : exec acts w = Some w' -> gsteps calm w w'.
Proof.
  revert w. induction acts as [|a acts IH]; intros w; cbn [exec].
  - intros [= <-]. apply rtc_refl.
  - intros (w1 & H1 & H2)%bind_Some. eapply rtc_l; [by eapply act_sound|by apply IH].
Qed.

(** Whether a world is quiet. *)
Definition is_ping (m : cmsg) : bool := match m with MPing _ => true | _ => false end.
Definition quiet_b (w : world) : bool :=
  forallb (fun pk => is_ping (body pk) || forallb (fun s => negb (bool_decide (to pk = provider_pid (info s)))) (nodes w)) (soup w).

Lemma quiet_world w : quiet_b w = true -> quiet w.
Proof.
  intros Hq pk i s Hpk Hi Hto. unfold quiet_b in Hq. rewrite forallb_forall in Hq.
  specialize (Hq pk (proj1 (list_elem_of_In _ _) Hpk)). apply orb_true_iff in Hq as [Hb|Hb].
  - destruct (body pk); try done. by eexists.
  - rewrite forallb_forall in Hb. specialize (Hb s). rewrite bool_decide_true in Hb by done.
    discriminate Hb. apply list_elem_of_In. by eapply list_elem_of_lookup_2.
Qed.
End run.

(** ** Three nodes *)

Definition demo_m3 : Member := mkMember "C" "10.0.0.3:4000" "default" ["room"%string].
Definition demo_cluster (m : Member) : cluster_info :=
  mkInfo (NewPID (Host m) ("cluster/" +:+ MID m)) m (MID m).
Definition demo_first : SelfManagedConfig := [mkMemberAddr "10.0.0.1:4000" "A"].
(** [B] and [C] both have [A] as their bootstrap member. *)
Definition demo_nodes : list (SelfManagedConfig * cluster_info) :=
  [([], demo_cluster demo_m1); (demo_first, demo_cluster demo_m2); (demo_first, demo_cluster demo_m3)].

(** [A] starts, [B] joins and is answered, then [C] joins and is answered (a start
    and an addition also put messages to the agent into the soup). *)
Definition demo_acts : list act := [AStart 0; AStart 1; ADeliver 2; ADeliver 3; AStart 2; ADeliver 5; ADeliver 6].

Definition demo_world : world :=
  default (mkWorld [] []) (@exec map_order demo_acts (dormant demo_nodes)).

Lemma demo_run : gsteps (H:=map_order) calm (dormant demo_nodes) demo_world.
Proof. apply (acts_sound demo_acts). vm_compute. reflexivity. Qed.

Lemma demo_quiet : quiet demo_world.
Proof. apply quiet_world. vm_compute. reflexivity. Qed.

Lemma calm_any `{Range} w w' : gsteps calm w w' -> gsteps any_kind w w'.
Proof.
  intros Hr. eapply rtc_subrel; [|exact Hr]. intros w1 w2 (k & Hk & Hs). exists k. split; [|done].
  destruct k; apply list_elem_of_In; cbn; tauto.
Qed.

(** ** What a provider learns from *)

Section learning.
Context `{Range}.

(** A member list goes to the agent, or answers a handshake. *)
Lemma Receive_members pid sender msg s s' es pk ms :
  Receive pid sender msg s = Ok (s', es) -> pk ∈ posts es -> body pk = MMembers ms ->
  to pk = agentPID (info s) \/ (exists m, msg = SHandshake m) /\ sender = Some (to pk).
Proof.
  assert (Hagent : forall x es0, pk ∈ posts (SSend (Some (agentPID (info s))) (MMembers x) None :: es0) ->
    to pk = agentPID (info s) \/ pk ∈ posts es0).
  { intros x es0 [->|Hpk]%elem_of_cons; [by left|by right]. }
  intros Hr Hpk Hb. destruct msg as [| | | |m|ms0| |addr|]; cbn [Receive] in Hr.
  - injection Hr as <- <-. apply Hagent in Hpk as [?|Hpk]; [by left|]. exfalso.
    apply list_elem_of_omap in Hpk as (e & He & Hpk). apply elem_of_cons in He as [->|He]; [done|].
    unfold start in He. rewrite !elem_of_app in He. destruct He as [He|[He|He]].
    + repeat (apply elem_of_cons in He as [->|He]; [done|]). by apply elem_of_nil in He.
    + apply list_elem_of_fmap in He as (a & -> & _). injection Hpk as <-. done.
    + unfold startAutoDiscovery, initAutoDiscovery in He. destruct (SplitHostPort _) as [[h p]|]; cycle 1.
      { apply list_elem_of_singleton in He as ->. done. }
      destruct (Atoi p) as [port []]; [|apply list_elem_of_singleton in He as ->; done].
      repeat (apply elem_of_cons in He as [->|He]; [done|]). by apply elem_of_nil in He.
  - injection Hr as <- <-. by apply elem_of_nil in Hpk.
  - injection Hr as <- <-. by apply elem_of_nil in Hpk.
  - injection Hr as <- <-. by apply elem_of_nil in Hpk.
  - unfold addMembers in Hr. destruct (add_all [m] (sm_members s)) as [set|]; [|done]. injection Hr as <- <-.
    apply Hagent in Hpk as [?|Hpk]; [by left|]. right. split; [by exists m|]. destruct sender as [p|]; [|by apply elem_of_nil in Hpk].
    apply list_elem_of_singleton in Hpk as ->. done.
  - unfold addMembers in Hr. destruct (add_all (Some <$> ms0) (sm_members s)) as [set|]; [|done]. injection Hr as <- <-.
    apply Hagent in Hpk as [?|Hpk]; [by left|by apply elem_of_nil in Hpk].
  - injection Hr as <- <-. exfalso. pose proof (pings_only pid s) as Hp. unfold ping_only in Hp. rewrite Forall_forall in Hp.
    destruct (Hp pk Hpk) as [q Hq]. congruence.
  - unfold removeMember in Hr. destruct (Contains _ _) as [has|]; [|done]. cbn [mbind result_bind] in Hr.
    destruct (if has then _ else _) as [set|]; [|done]. injection Hr as <- <-.
    apply Hagent in Hpk as [?|Hpk]; [by left|by apply elem_of_nil in Hpk].
  - injection Hr as <- <-. by apply elem_of_nil in Hpk.
Qed.

(** Anything but a handshake or a member list teaches a provider nothing. *)
Lemma Receive_learns pid sender msg s s' es :
  match msg with SHandshake _ | SMembers _ => False | _ => True end ->
  Receive pid sender msg s = Ok (s', es) ->
  info s' = info s /\ forall id m, members (sm_members s') !! id = Some m ->
    m = self_member (info s) \/ members (sm_members s) !! id = Some m.
Proof.
  intros Hmsg Hr. destruct msg as [| | | |m|ms0| |addr|]; try done; cbn [Receive] in Hr;
    try (injection Hr as <- <-; split; [done|by right]).
  - injection Hr as <- <-. split; [done|]. intros id m. cbn [sm_members Add members]. unfold add_member.
    intros [[_ <-]|[_ Hm]]%lookup_insert_Some; [by left|by right].
  - destruct (GetByHost addr (sm_members s)) as [m|].
    + destruct (removeMember_ok m s) as (set & Hrm & Hset). rewrite Hrm in Hr. injection Hr as <- <-. split; [done|].
      intros id x. cbn [with_members sm_members]. rewrite Hset. intros [_ Hx]%lookup_delete_Some. by right.
    + done.
Qed.

Lemma info_Receive pid sender msg s s' es : Receive pid sender msg s = Ok (s', es) -> info s' = info s.
Proof.
  destruct msg as [| | | |m|ms0| |addr|]; cbn [Receive]; try (by intros [= <- <-]).
  - unfold addMembers. by destruct (add_all _ _) as [set|]; [intros [= <- <-]|].
  - unfold addMembers. by destruct (add_all _ _) as [set|]; [intros [= <- <-]|].
  - unfold removeMember. destruct (Contains _ _) as [has|]; [|done]. cbn [mbind result_bind].
    by destruct (if has then _ else _) as [set|]; [intros [= <- <-]|].
Qed.

(** No handshake to or from a provider is in flight. *)
Definition no_handshake (pid : PID) (w : world) : Prop :=
  forall pk m, pk ∈ soup w -> body pk = MHandshake m -> to pk <> pid /\ from pk <> Some pid.
Definition no_list (pid : PID) (w : world) : Prop := forall pk ms, pk ∈ soup w -> body pk = MMembers ms -> to pk <> pid.

(** Node [j] knows nobody but itself and whom [b] knows. *)
Definition no_wiser (j : nat) (b : SelfManaged) (w : world) : Prop :=
  exists b', nodes w !! j = Some b' /\ info b' = info b /\ forall id m, members (sm_members b') !! id = Some m ->
    m = self_member (info b) \/ members (sm_members b) !! id = Some m.

Record aloof (j : nat) (b : SelfManaged) (w : world) : Prop := {
  al_handshake : no_handshake (provider_pid (info b)) w;
  al_list : no_list (provider_pid (info b)) w;
  al_agents : forall s, s ∈ nodes w -> agentPID (info s) <> provider_pid (info b);
  al_wiser : no_wiser j b w;
}.

(** A node acts. *)
Lemma acts_aloof j b w i s s' es pid sender msg :
  aloof j b w -> nodes w !! i = Some s -> Receive pid sender msg s = Ok (s', es) ->
  no_handshake (provider_pid (info b)) (acts i s' es w) ->
  (forall m, msg = SHandshake m -> sender <> Some (provider_pid (info b))) ->
  (i = j -> no_wiser j b (mkWorld (<[i := s']> (nodes w)) [])) ->
  aloof j b (acts i s' es w).
Proof.
  intros [H1 H2 H3 H4] Hi Hr Hh Hsender Hj. split; [done| | |].
  - intros pk ms [Hpk|Hpk]%elem_of_app Hb; [by eapply H2|].
    destruct (Receive_members _ _ _ _ _ _ _ _ Hr Hpk Hb) as [->|[[m ->] ->]]; [by eapply H3, list_elem_of_lookup_2|].
    intros Heq. by apply (Hsender m eq_refl); rewrite Heq.
  - cbn [acts nodes]. intros x (k & Hk)%list_elem_of_lookup.
    apply list_lookup_insert_Some in Hk as [(_ & <- & _)|[_ Hk]]; [|by eapply H3, list_elem_of_lookup_2].
    rewrite (info_Receive _ _ _ _ _ _ Hr). by eapply H3, list_elem_of_lookup_2.
  - destruct (decide (i = j)) as [Heq|Hne]; [by apply Hj|]. destruct H4 as (b' & Hb' & Hrest). exists b'. split; [|done].
    cbn [acts nodes]. by rewrite list_lookup_insert_ne.
Qed.

Lemma wiser_step j b w s s' pid sender msg es :
  no_wiser j b w -> nodes w !! j = Some s -> match msg with SHandshake _ | SMembers _ => False | _ => True end ->
  Receive pid sender msg s = Ok (s', es) -> no_wiser j b (mkWorld (<[j := s']> (nodes w)) []).
Proof.
  intros (b' & Hb' & Hinfo & Hm) Hs Hmsg Hr. assert (b' = s) as -> by congruence.
  destruct (Receive_learns _ _ _ _ _ _ Hmsg Hr) as [Hi Hl]. exists s'. cbn [nodes].
  split; [apply list_lookup_insert_eq; by eapply lookup_lt_Some|]. split; [congruence|].
  intros id m [->|Hx]%Hl; [left; by rewrite Hinfo|by apply Hm].
Qed.

(** A new receiver knows nobody. *)
Lemma wiser_new j b w s : no_wiser j b w -> nodes w !! j = Some s ->
  no_wiser j b (mkWorld (<[j := NewSelfManaged (sm_config s) (info s)]> (nodes w)) []).
Proof.
  intros (b' & Hb' & Hinfo & Hm) Hs. assert (b' = s) as -> by congruence. eexists. cbn [nodes].
  split; [apply list_lookup_insert_eq; by eapply lookup_lt_Some|]. split; [done|].
  intros id m. cbn. by rewrite lookup_empty.
Qed.

Lemma gstep_aloof k j b w w' :
  aloof j b w -> gstep k w w' -> no_handshake (provider_pid (info b)) w' -> aloof j b w'.
Proof.
  intros Ha Hstep Hh. destruct Hstep as [w i s s' es Hi Hnew Hr|w i s s' es Hi Hr|ns l1 pk l2 i s s' es Hi Hup Hto Hr|ns l1 pk l2|
    w i s s' es Hi Hup Hr|w i s s' es addr Hi Hup Hr|w i s es instance addrs port Hi Hup Hr].
  - eapply acts_aloof; [exact Ha|exact Hi|exact Hr|exact Hh|done|]. intros <-. by eapply wiser_step; [apply Ha|exact Hi| |exact Hr].
  - set (w0 := mkWorld (<[i := NewSelfManaged (sm_config s) (info s)]> (nodes w)) (soup w)).
    assert (Hlt : (i < length (nodes w))%nat) by by eapply lookup_lt_Some.
    assert (H0 : nodes w0 !! i = Some (NewSelfManaged (sm_config s) (info s))) by (by apply list_lookup_insert_eq).
    assert (Heq : acts i s' es w = acts i s' es w0) by (unfold acts; cbn [w0 nodes soup]; by rewrite list_insert_insert_eq).
    assert (Ha0 : aloof j b w0).
    { destruct Ha as [H1 H2 H3 H4]. split; [done|done| |].
      - intros x [->|Hx]%elem_of_insert; [|by apply H3]. by eapply (H3 s), list_elem_of_lookup_2.
      - destruct (decide (i = j)) as [<-|Hne]; [by apply wiser_new|]. destruct H4 as (b' & Hb' & Hrest). exists b'.
        split; [|done]. cbn [w0 nodes]. by rewrite list_lookup_insert_ne. }
    rewrite Heq in Hh |- *. eapply acts_aloof; [exact Ha0|exact H0|exact Hr|exact Hh|done|]. intros <-.
    by eapply wiser_step; [apply Ha0|exact H0| |exact Hr].
  - assert (Hin : pk ∈ soup (mkWorld ns (l1 ++ pk :: l2))) by (cbn; apply elem_of_app; right; by left).
    assert (Hless : forall x, x ∈ l1 ++ l2 -> x ∈ l1 ++ pk :: l2) by (intros x; rewrite !elem_of_app, elem_of_cons; tauto).
    assert (Ha' : aloof j b (mkWorld ns (l1 ++ l2))).
    { destruct Ha as [H1 H2 H3 H4]. split; [|..|done|done]; [intros x m Hx|intros x ms Hx]; [eapply H1|eapply H2]; by apply Hless. }
    eapply acts_aloof; [exact Ha'|exact Hi|exact Hr|exact Hh| |].
    + intros m Hm. destruct (body pk) as [m0| | | | | | |] eqn:Eb; try done. by apply (al_handshake _ _ _ Ha pk m0).
    + intros <-. destruct (al_wiser _ _ _ Ha) as (b' & Hb' & Hinfo & _). cbn [nodes] in Hb'. assert (b' = s) as -> by congruence.
      eapply wiser_step; [apply Ha'|exact Hi| |exact Hr]. destruct (body pk) as [m0|ms0| | | | | |] eqn:Eb; try done.
      * destruct (al_handshake _ _ _ Ha pk m0 Hin Eb) as [Hne _]. by rewrite Hto, Hinfo in Hne.
      * pose proof (al_list _ _ _ Ha pk ms0 Hin Eb) as Hne. by rewrite Hto, Hinfo in Hne.
  - destruct Ha as [H1 H2 H3 H4]. split; [done| |done|done]. intros x ms Hx. eapply H2. cbn [soup] in *.
    revert Hx. rewrite !elem_of_app, elem_of_cons. tauto.
  - eapply acts_aloof; [exact Ha|exact Hi|exact Hr|exact Hh|done|]. intros <-. by eapply wiser_step; [apply Ha|exact Hi| |exact Hr].
  - eapply acts_aloof; [exact Ha|exact Hi|exact Hr|exact Hh|done|]. intros <-. by eapply wiser_step; [apply Ha|exact Hi| |exact Hr].
  - destruct Ha as [H1 H2 H3 H4]. assert (Hn : nodes (acts i s es w) = nodes w) by (cbn [acts nodes]; by rewrite list_insert_id).
    split; [done| |by rewrite Hn|].
    + intros x ms [Hx|Hx]%elem_of_app Hb; [by eapply H2|]. exfalso. unfold on_entry in Hr. destruct (String.eqb _ _); [injection Hr as <-; by apply elem_of_nil in Hx|].
      destruct addrs as [|a addrs]; [done|]. injection Hr as <-. apply list_elem_of_singleton in Hx as ->. done.
    + destruct H4 as (b' & Hb' & Hrest). exists b'. by rewrite Hn.
Qed.
End learning.

(** ** Correctness of the providers together *)

(** C36: Providers spread the truth and nothing else.  Whatever is delivered, lost,
    restarted, discovered or given up, in whatever order: a provider knows only
    members that are nodes of the cluster, with their own data; so if no two nodes
    share an id, any two providers that know an id agree on its member, which is
    the node of that id; and no message in flight can make a provider panic. *)
Theorem gossip_genuine `{Range} (cs : list (SelfManagedConfig * cluster_info)) (w : world)
    (Hr : reachable cs w) :
  (forall i s id m, nodes w !! i = Some s -> members (sm_members s) !! id = Some m ->
     MID m = id /\ exists config c, (config, c) ∈ cs /\ self_member c = m) /\
  (NoDup (MID ∘ self_member <$> cs.*2) ->
     forall i j si sj id m m', nodes w !! i = Some si -> nodes w !! j = Some sj ->
       members (sm_members si) !! id = Some m -> members (sm_members sj) !! id = Some m' -> m = m') /\
  (forall i s pk, nodes w !! i = Some s -> pk ∈ soup w ->
     exists s' es, Receive (to pk) (from pk) (inbound (body pk)) s = Ok (s', es)).
Proof.
  destruct (gsteps_ok _ _ _ Hr) as [[Hn Hs] _].
  assert (Hknown : forall i s id m, nodes w !! i = Some s -> members (sm_members s) !! id = Some m -> MID m = id /\ genuine cs m).
  { intros i s id m Hi Hm. pose proof (proj1 (Forall_lookup _ _) Hn i s Hi) as [[Hok Hg] _].
    split; [by apply Hok|by eapply Hg]. }
  split; [exact Hknown|]. split.
  - intros Hd i j si sj id m m' Hi Hj Hm Hm'.
    destruct (Hknown i si id m Hi Hm) as [Hid Hg], (Hknown j sj id m' Hj Hm') as [Hid' Hg'].
    apply (genuine_unique cs); [done|done|done|congruence].
  - intros i s pk Hi Hpk. pose proof (proj1 (Forall_lookup _ _) Hn i s Hi) as [[Hok _] _].
    rewrite Forall_forall in Hs. specialize (Hs pk Hpk). unfold pk_ok in Hs.
    destruct (body pk) as [[m|]|ms| | | | | |]; try done; cbn [inbound Receive]; try by do 2 eexists.
    destruct (addMembers_ok ms s Hok) as (set & -> & _). by do 2 eexists.
Qed.

Lemma gossip_genuine_witness :
  NoDup (MID ∘ self_member <$> demo_nodes.*2) /\
  forall i s id m, nodes demo_world !! i = Some s -> members (sm_members s) !! id = Some m ->
    MID m = id /\ exists config c, (config, c) ∈ demo_nodes /\ self_member c = m.
Proof.
  split; [apply (bool_decide_unpack _); vm_compute; exact I|].
  exact (proj1 (@gossip_genuine map_order demo_nodes demo_world (calm_any _ _ demo_run))).
Defined.

(** C37: Dialled nodes get to know each other.  Where nothing is lost, nobody restarts
    or is given up, and no two nodes have the same provider or id: once nothing but
    pings is in flight, a started node and each of its bootstrap members know each
    other, each with the other's own data. *)
Theorem gossip_connects `{Range} (cs : list (SelfManagedConfig * cluster_info)) (w : world)
    (Hpids : NoDup (provider_pid <$> cs.*2)) (Hids : NoDup (MID ∘ self_member <$> cs.*2))
    (Hr : gsteps calm (dormant cs) w) (Hquiet : quiet w)
    (i j : nat) (si sj : SelfManaged) (a : MemberAddr)
    (Hi : nodes w !! i = Some si) (Hj : nodes w !! j = Some sj)
    (Hstarted : is_Some (sm_pid si)) (Ha : a ∈ sm_config si) (Hdial : dial a = provider_pid (info sj)) :
  members (sm_members si) !! MID (me sj) = Some (me sj) /\
  members (sm_members sj) !! MID (me si) = Some (me si).
Proof.
  destruct (calm_run cs w Hpids Hr) as [_ Hlink]. destruct (gsteps_ok _ _ _ Hr) as [[Hn _] Hinfos].
  assert (Hsame : forall k l sk sl, nodes w !! k = Some sk -> nodes w !! l = Some sl -> knows sk (me sl) ->
    members (sm_members sk) !! MID (me sl) = Some (me sl)).
  { intros k l sk sl Hk Hl [m Hm]. pose proof (proj1 (Forall_lookup _ _) Hn k sk Hk) as [[Hok Hg] _].
    rewrite Hm. f_equal. apply (genuine_unique cs); [done|by eapply Hg| |by apply Hok].
    by apply (proj1 (Forall_lookup _ _) Hn l sl Hl). }
  destruct (Hlink i j si sj a Hi Hj Hstarted Ha Hdial) as [Has|[Hk [(sender & ms & m & Hin & _)|Hk']]].
  - destruct (Hquiet _ j sj Has Hj eq_refl) as [p [=]].
  - destruct (Hquiet _ i si Hin Hi eq_refl) as [p [=]].
  - split; [by apply (Hsame i j)|by apply (Hsame j i)].
Qed.

Lemma gossip_connects_witness :
  exists si sj, nodes demo_world !! 2%nat = Some si /\ nodes demo_world !! 0%nat = Some sj /\
    members (sm_members si) !! "A"%string = Some demo_m1 /\ members (sm_members sj) !! "C"%string = Some demo_m3.
Proof.
  destruct (nodes demo_world !! 2%nat) as [si|] eqn:Hi; [|vm_compute in Hi; discriminate Hi].
  destruct (nodes demo_world !! 0%nat) as [sj|] eqn:Hj; [|vm_compute in Hj; discriminate Hj].
  exists si, sj. split; [reflexivity|]. split; [reflexivity|].
  pose proof (@gossip_connects map_order demo_nodes demo_world ltac:(apply (bool_decide_unpack _); vm_compute; exact I)
    ltac:(apply (bool_decide_unpack _); vm_compute; exact I) demo_run demo_quiet 2 0 si sj
    (mkMemberAddr "10.0.0.1:4000" "A") Hi Hj) as Hc.
  vm_compute in Hi. injection Hi as <-. vm_compute in Hj. injection Hj as <-.
  apply Hc; [by eexists|by left|reflexivity].
Defined.

(** C38: A provider learns from its own handshakes and from nothing else.  Take any
    provider that no member list is on its way to, in any world whose agents have
    other PIDs than the provider.  Whatever is then delivered, lost, pinged, started,
    restarted (the provider itself, too), given up or discovered, on any node and for
    however long: as long as no handshake to or from the provider is in flight, it
    knows only members it knew, and itself.  In particular the nodes that join
    through its own bootstrap member are not passed on to it. *)
Theorem gossip_learns_by_handshake `{Range} (w w' : world) (j : nat) (b b' : SelfManaged)
    (Hj : nodes w !! j = Some b) (Hlist : no_list (provider_pid (info b)) w)
    (Hagents : forall s, s ∈ nodes w -> agentPID (info s) <> provider_pid (info b))
    (Hquiet : no_handshake (provider_pid (info b)) w)
    (Hrun : rtc (fun w w' => (exists k, gstep k w w') /\ no_handshake (provider_pid (info b)) w') w w')
    (Hj' : nodes w' !! j = Some b') :
  forall id m, members (sm_members b') !! id = Some m -> m = self_member (info b) \/ members (sm_members b) !! id = Some m.
Proof.
  assert (Ha : aloof j b w').
  { refine (rtc_ind_r (fun w' => aloof j b w') w _ _ w' Hrun).
    - split; [done|done|done|]. exists b. split; [done|]. split; [done|]. by right.
    - intros w1 w2 _ [[k Hk] Hh] Ha. by eapply gstep_aloof. }
  destruct (al_wiser _ _ _ Ha) as (b1 & Hb1 & _ & Hm). by assert (b1 = b') as -> by congruence.
Qed.

(** [B] has joined, and [C] joins through the bootstrap member of both. *)
Definition demo_joined : world :=
  default (mkWorld [] []) (@exec map_order [AStart 0; AStart 1; ADeliver 2; ADeliver 3] (dormant demo_nodes)).

(** Whether a world is as the theorem wants it. *)
Definition no_handshake_b (pid : PID) (w : world) : bool :=
  forallb (fun pk => match body pk with
    | MHandshake _ => bool_decide (to pk <> pid) && bool_decide (from pk <> Some pid) | _ => true end) (soup w).
Definition no_list_b (pid : PID) (w : world) : bool :=
  forallb (fun pk => match body pk with MMembers _ => bool_decide (to pk <> pid) | _ => true end) (soup w).

Lemma no_handshake_sound pid w : no_handshake_b pid w = true -> no_handshake pid w.
Proof.
  unfold no_handshake_b. rewrite forallb_forall. intros Hf pk m Hpk%list_elem_of_In Hb. apply Hf in Hpk. rewrite Hb in Hpk.
  apply andb_true_iff in Hpk as [H1 H2]. split; by apply bool_decide_eq_true in H1, H2.
Qed.

Lemma no_list_sound pid w : no_list_b pid w = true -> no_list pid w.
Proof.
  unfold no_list_b. rewrite forallb_forall. intros Hf pk ms Hpk%list_elem_of_In Hb. apply Hf in Hpk. rewrite Hb in Hpk.
  by apply bool_decide_eq_true in Hpk.
Qed.

(** Acts of which none leaves such a handshake in flight. *)
Fixpoint watched `{Range} (pid : PID) (acts : list act) (w : world) : option world :=
  match acts with
  | [] => Some w
  | a :: acts => w1 ← exec_step a w; if no_handshake_b pid w1 then watched pid acts w1 else None
  end.

Lemma watched_run `{Range} pid acts w w' : watched pid acts w = Some w' ->
  rtc (fun w w' => (exists k, gstep k w w') /\ no_handshake pid w') w w'.
Proof.
  revert w. induction acts as [|a acts IH]; intros w; cbn [watched]; [intros [= ->]; constructor|].
  intros (w1 & H1 & Hw)%bind_Some. destruct (no_handshake_b pid w1) eqn:Eh; [|done].
  eapply rtc_l; [|by apply IH]. split; [|by apply no_handshake_sound].
  destruct (act_sound a w w1 H1) as (k & _ & Hk). by exists k.
Qed.

(** [C] starts, is answered, pings and is pinged: [A] and [C] know all three, but [B]
    has not heard of [C]. *)
Lemma gossip_learns_by_handshake_witness :
  let more := [AStart 2; ADeliver 5; ADeliver 6; APing 0; APing 2; ADeliver 8] in
  exists w' b', @watched map_order (NewPID "10.0.0.2:4000" "provider/B") more demo_joined = Some w' /\
    nodes w' !! 1%nat = Some b' /\ members (sm_members b') !! "C"%string = None /\
    (fun s => size (members (sm_members s))) <$> nodes w' = [3; 2; 3]%nat.
Proof.
  intros more. destruct (@watched map_order (NewPID "10.0.0.2:4000" "provider/B") more demo_joined) as [w'|] eqn:Ew;
    [|vm_compute in Ew; discriminate Ew].
  destruct (nodes w' !! 1%nat) as [b'|] eqn:Hb'; cycle 1.
  { exfalso. vm_compute in Ew. injection Ew as <-. vm_compute in Hb'. discriminate Hb'. }
  destruct (nodes demo_joined !! 1%nat) as [b|] eqn:Hb; [|vm_compute in Hb; discriminate Hb].
  assert (Hpid : provider_pid (info b) = NewPID "10.0.0.2:4000" "provider/B").
  { vm_compute in Hb. injection Hb as <-. vm_compute. reflexivity. }
  assert (Hc : members (sm_members b) !! "C"%string = None).
  { vm_compute in Hb. injection Hb as <-. vm_compute. reflexivity. }
  assert (Hs : self_member (info b) = demo_m2) by (vm_compute in Hb; injection Hb as <-; reflexivity).
  exists w', b'. split; [done|]. split; [done|]. split; [|vm_compute in Ew; injection Ew as <-; vm_compute; reflexivity].
  destruct (members (sm_members b') !! "C"%string) as [m|] eqn:Em; [|done]. exfalso.
  pose proof (@gossip_learns_by_handshake map_order demo_joined w' 1 b b' Hb) as Ht. rewrite Hpid in Ht.
  destruct (Ht ltac:(apply no_list_sound; vm_compute; reflexivity)) with (id := "C"%string) (m := m) as [->|Hm]; [| | | |done| |].
  - intros s Hin. assert (Hf : forallb (fun s => negb (bool_decide (agentPID (info s) = NewPID "10.0.0.2:4000" "provider/B"))) (nodes demo_joined) = true)
      by (vm_compute; reflexivity). rewrite forallb_forall in Hf. apply list_elem_of_In, Hf in Hin. by case_bool_decide.
  - apply no_handshake_sound. vm_compute. reflexivity.
  - by apply watched_run with more.
  - exact Hb'.
  - vm_compute in Ew. injection Ew as <-. vm_compute in Hb'. injection Hb' as <-. vm_compute in Em. discriminate Em.
  - congruence.
Defined.

(** So in this run, with every handshake and reply delivered, the second joiner knows
    all three nodes, but the first joiner does not know the second, and however long
    they ping each other it never will, unless discovery, a restart or another
    handshake tells it. *)
Theorem gossip_late_joiner :
  exists sa sb sc,
    gsteps (H:=map_order) calm (dormant demo_nodes) demo_world /\ quiet demo_world /\
    nodes demo_world = [sa; sb; sc] /\
    Forall (fun m => knows sa m /\ knows sc m) [demo_m1; demo_m2; demo_m3] /\
    knows sb demo_m1 /\
    forall w, gsteps (H:=map_order) idle demo_world w ->
      exists sb', nodes w !! 1%nat = Some sb' /\ ~ knows sb' demo_m3.
Proof.
  destruct (nodes demo_world) as [|sa [|sb [|sc [|]]]] eqn:Hn; try (vm_compute in Hn; discriminate Hn).
  exists sa, sb, sc. split; [exact demo_run|]. split; [exact demo_quiet|]. split; [done|].
  assert (Hb : members (sm_members sb) !! MID demo_m3 = None).
  { vm_compute in Hn. injection Hn as _ <- _. vm_compute. reflexivity. }
  split_and!.
  - vm_compute in Hn. injection Hn as <- _ <-. repeat constructor; by eexists.
  - vm_compute in Hn. injection Hn as _ <- _. by eexists.
  - intros w Hw. destruct (idle_run demo_world w demo_quiet Hw) as [_ ->]. rewrite Hn. exists sb. split; [done|].
    unfold knows. rewrite Hb. by intros [? [=]].
Qed.
