(* ===== verification/ClusterWire.v ===== *)
(** * The codec of the cluster messages ([cluster/cluster_vtproto.pb.go])

    The generator expands one template per kind of field.  Here a kind of field is
    a definition, with what the five methods of a message do for it, a message is
    the list of its fields in the order of the code, and each method is the
    template on that list.  [VT] is what one message type offers to those that
    contain it; [VTLaws] is what it promises. *)

From S2P Require Import Prelude Pid Wire ActorWire RemoteWire MemberSet Agent.
#[local] Open Scope go_scope.

(** ** The interface of a message type *)

(** The generated methods; [None] is a nil message. *)
Class VT (S : Type) := {
  vt_empty : S;
  CloneVT : option S -> option S;
  EqualVT : option S -> option S -> bool;
  MarshalToSizedBufferVT : option S -> list byte -> result (list byte * Z);
  SizeVT : option S -> Z;
  UnmarshalVT : list byte -> S -> parsed S;
}.

Definition MarshalVT {S} `{VT S} (m : option S) : result (list byte) :=
  match m with None => Ok [] | Some _ => marshal_vt (SizeVT m) (MarshalToSizedBufferVT m) end.

Definition MarshalToVT {S} `{VT S} (m : option S) : list byte -> result (list byte * Z) :=
  marshal_to_vt (SizeVT m) (MarshalToSizedBufferVT m).

(** [vt_encode] is the reference encoding, [vt_ok] the messages without unknown
    fields, and [vt_fill] replaces nil elements of lists by empty messages. *)
Class VTLaws (S : Type) `{VT S} := {
  vt_encode : S -> list byte;
  vt_ok : S -> Prop;
  vt_fill : S -> S;
  vt_marshals m : zlen (vt_encode m) < two63 ->
    marshals (MarshalToSizedBufferVT (Some m)) (vt_encode m) /\ SizeVT (Some m) = zlen (vt_encode m);
  vt_nil dAtA : MarshalToSizedBufferVT None dAtA = Ok (dAtA, 0);
  vt_nil_size : SizeVT None = 0;
  vt_encode_empty : vt_encode vt_empty = [];
  vt_back m : vt_ok m -> zlen (vt_encode m) < two63 -> UnmarshalVT (vt_encode m) vt_empty = done_ (vt_fill m);
  vt_total dAtA m : zlen dAtA < two63 -> good (fun _ => True) (UnmarshalVT dAtA m);
}.

#[export] Instance PID_vt : VT PID := {|
  vt_empty := empty_PID;
  CloneVT := PID_CloneVT;
  EqualVT := PID_EqualVT;
  MarshalToSizedBufferVT := PID_MarshalToSizedBufferVT;
  SizeVT := PID_SizeVT;
  UnmarshalVT := PID_UnmarshalVT;
|}.

#[export] Instance PID_laws : VTLaws PID.
Proof.
  refine {| vt_encode := PID_encode; vt_ok p := unknownFields p = []; vt_fill p := p |}.
  - intros m Hz. split; [by apply PID_marshals|by apply PID_size].
  - done.
  - done.
  - done.
  - apply PID_back.
  - intros dAtA m Hd. by apply unmarshal_good; [apply PID_field_good|].
Defined.

(** ** Fields *)

Section fields.
Context {M : Type}.

(** What the methods of a message do for one field; [fparse] follows the check of
    the wire type. *)
Record field := mkField {
  fnum : Z;
  fwire : Z;
  fput : M -> wstate -> result wstate;
  fsize : M -> Z -> Z;
  fparse : list byte -> Z -> Z -> M -> parsed (M * Z);
  fclone : M -> M -> M;
  fequal : M -> M -> bool;
}.

Definition f_string (num : Z) (get : M -> string) (set : string -> M -> M) : field := {|
  fnum := num; fwire := 2;
  fput m := when (0 <? zlen (str_bytes (get m))) (put_delimited (num * 8 + 2) (str_bytes (get m)));
  fsize m n := let l := zlen (str_bytes (get m)) in if 0 <? l then n + size_delimited l else n;
  fparse dAtA l iNdEx m := '(s, iNdEx) ⇐ read_string dAtA l iNdEx; done_ (set s m, iNdEx);
  fclone m r := set (get m) r;
  fequal this that := String.eqb (get this) (get that);
|}.

Definition f_strings (num : Z) (get : M -> list string) (set : list string -> M -> M) : field := {|
  fnum := num; fwire := 2;
  fput m := put_each (fun s => put_delimited (num * 8 + 2) (str_bytes s)) (get m);
  fsize m n := size_each (fun s => zlen (str_bytes s)) (get m) n;
  fparse dAtA l iNdEx m := '(s, iNdEx) ⇐ read_string dAtA l iNdEx; done_ (set (get m ++ [s]) m, iNdEx);
  fclone m r := set (get m) r;
  fequal this that := bool_decide (get this = get that);
|}.

Definition f_uint64 (num : Z) (get : M -> Z) (set : Z -> M -> M) : field := {|
  fnum := num; fwire := 0;
  fput m := when (negb (get m =? 0)) (put_varint (num * 8 + 0) (u64 (get m)));
  fsize m n := if negb (get m =? 0) then n + (1 + sov (u64 (get m))) else n;
  fparse dAtA l iNdEx m := '(v, iNdEx) ⇐ read_varint u64 dAtA l iNdEx; done_ (set v m, iNdEx);
  fclone m r := set (get m) r;
  fequal this that := get this =? get that;
|}.

Definition f_bool (num : Z) (get : M -> bool) (set : bool -> M -> M) : field := {|
  fnum := num; fwire := 0;
  fput m := when (get m) (put_byte (if get m then 1 else 0) ;;> put_byte (num * 8 + 0));
  fsize m n := if get m then n + 2 else n;
  fparse dAtA l iNdEx m := '(v, iNdEx) ⇐ read_varint i64 dAtA l iNdEx; done_ (set (negb (v =? 0)) m, iNdEx);
  fclone m r := set (get m) r;
  fequal this that := Bool.eqb (get this) (get that);
|}.

Context {S : Type} `{VT S}.

Definition f_message (num : Z) (get : M -> option S) (set : option S -> M -> M) : field := {|
  fnum := num; fwire := 2;
  fput m := when (bool_decide (is_Some (get m))) (put_message (num * 8 + 2) (MarshalToSizedBufferVT (get m)));
  fsize m n := if bool_decide (is_Some (get m)) then n + size_delimited (SizeVT (get m)) else n;
  fparse dAtA l iNdEx m :=
    '(s, iNdEx) ⇐ read_bytes dAtA l iNdEx;
    p ⇐ UnmarshalVT s (default vt_empty (get m)); done_ (set (Some p) m, iNdEx);
  fclone m r := set (CloneVT (get m)) r;
  fequal this that := EqualVT (get this) (get that);
|}.

Definition f_messages (num : Z) (get : M -> list (option S)) (set : list (option S) -> M -> M) : field := {|
  fnum := num; fwire := 2;
  fput m := put_each (fun x => put_message (num * 8 + 2) (MarshalToSizedBufferVT x)) (get m);
  fsize m n := size_each SizeVT (get m) n;
  fparse dAtA l iNdEx m :=
    '(s, iNdEx) ⇐ read_bytes dAtA l iNdEx;
    x ⇐ UnmarshalVT s vt_empty; done_ (set (get m ++ [Some x]) m, iNdEx);
  fclone m r := set (CloneVT <$> get m) r;
  fequal this that := equal_elems vt_empty EqualVT (get this) (get that);
|}.
End fields.
Arguments field : clear implicits.

(** ** Messages *)

Section messages.
Context {M : Type}.

(** A message type: its fields, in the order of their numbers, and its unknown
    fields. *)
Record codec := mkCodec {
  fields : list (field M);
  unknown : M -> list byte;
  set_unknown : list byte -> M -> M;
  empty : M;
}.
Variable c : codec.

(** Fields are written from the last to the first. *)
Fixpoint put_fields (fs : list (field M)) (m : M) : wstate -> result wstate :=
  match fs with
  | [] => Ok
  | f :: fs => put_fields fs m ;;> fput f m
  end.

Definition marshal_message (m : option M) (dAtA : list byte) : result (list byte * Z) :=
  match m with
  | None => Ok (dAtA, 0)
  | Some m => marshal_from (copy_back (unknown c m) ;;> put_fields (fields c) m) dAtA
  end.

Definition size_message (m : option M) : Z :=
  match m with
  | None => 0
  | Some m => foldl (fun n f => fsize f m n) 0 (fields c) + zlen (unknown c m)
  end.

Definition clone_message (m : option M) : option M :=
  match m with
  | None => None
  | Some m => Some (set_unknown c (copy_unknown (unknown c m)) (foldl (fun r f => fclone f m r) (empty c) (fields c)))
  end.

Definition equal_message (this that : option M) : bool :=
  match this, that with
  | None, None => true
  | Some this, Some that =>
      forallb (fun f => fequal f this that) (fields c) && bool_decide (unknown c this = unknown c that)
  | _, _ => false
  end.

(** The [switch] on the field number. *)
Definition field_case (fieldNum : Z) : option (Z -> list byte -> Z -> Z -> M -> parsed (M * Z)) :=
  match List.find (fun f => fnum f =? fieldNum) (fields c) with
  | Some f => Some (typed (fwire f) (fparse f))
  | None => None
  end.

Definition append_unknown (u : list byte) (m : M) : M := set_unknown c (unknown c m ++ u) m.

Definition unmarshal_message (dAtA : list byte) (m : M) : parsed M := unmarshal field_case append_unknown dAtA m.
End messages.
Arguments codec : clear implicits.

(** The methods the generator makes. *)
Definition codec_vt {M} (c : codec M) : VT M := {|
  vt_empty := empty c;
  CloneVT := clone_message c;
  EqualVT := equal_message c;
  MarshalToSizedBufferVT := marshal_message c;
  SizeVT := size_message c;
  UnmarshalVT := unmarshal_message c;
|}.

(** ** What a field promises *)

Section laws.
Context {M : Type}.

(** The reference encoding of a field; which messages have it as it should be; the
    value it has in a message that has not been parsed yet; and what parsing the
    encoding of [m] does to such a message. *)
Record fspec := mkSpec {
  s_enc : M -> list byte;
  s_ok : M -> Prop;
  s_fresh : M -> Prop;
  s_fill : M -> M -> M;
}.

Record field_laws (f : field M) (s : fspec) : Prop := {
  law_num : 1 <= fnum f < 16;
  law_put m : zlen (s_enc s m) < two63 -> writes (fput f m) (s_enc s m);
  law_size m n : zlen (s_enc s m) < two63 -> fsize f m n = n + zlen (s_enc s m);
  law_eats look add m m0 :
    look (fnum f) = Some (typed (fwire f) (fparse f)) -> s_ok s m -> s_fresh s m0 -> zlen (s_enc s m) < two63 ->
    eats look add (s_enc s m) m0 (s_fill s m m0);
  law_good dAtA i m : zlen dAtA < two63 -> 0 <= i ->
    good (fun '(_, i') => i <= i' <= zlen dAtA) (fparse f dAtA (zlen dAtA) i m);
}.

Definition string_spec (num : Z) (get : M -> string) (set : string -> M -> M) : fspec :=
  mkSpec (fun m => str_field (num * 8 + 2) (get m)) (fun _ => True) (fun m => get m = ""%string) (fun m => set (get m)).

Lemma string_laws num get set :
  1 <= num < 16 -> (forall m, get m = ""%string -> set "" m = m) ->
  field_laws (f_string num get set) (string_spec num get set).
Proof.
  intros Hn Hset.
  assert (Hlt : forall m, zlen (str_field (num * 8 + 2) (get m)) < two63 -> zlen (str_bytes (get m)) < two64).
  { intros m Hz. pose proof (str_field_bound (num * 8 + 2) (get m)). pose proof two63_64. lia. }
  split; cbn [f_string string_spec fnum fput fsize fparse s_enc s_ok s_fresh s_fill].
  - done.
  - intros m Hz. apply writes_when. intros _. apply writes_delimited. by apply Hlt.
  - intros m n Hz. rewrite str_field_size by by apply Hlt. destruct (0 <? _); lia.
  - intros look add m m0 Hl _ Hf _. apply (eats_str_field look add set num); [done|exact Hl|].
    intros ->. by apply Hset.
  - intros dAtA i m Hd Hi. eapply good_bind; [apply read_string_good; lia|]. intros [s i'] Hi'. exact Hi'.
Qed.

(** A list of fields that are written one by one, appended one by one. *)
Lemma eats_appended {A B} look add (enc : A -> list byte) (get : M -> list B) (set : list B -> M -> M) (fill : A -> B) xs m0 :
  (forall l m, get (set l m) = l) -> (forall l l' m, set l (set l' m) = set l m) -> (forall m, set (get m) m = m) ->
  (forall x m, x ∈ xs -> eats look add (enc x) m (set (get m ++ [fill x]) m)) ->
  eats look add (concat (enc <$> xs)) m0 (set (get m0 ++ (fill <$> xs)) m0).
Proof.
  intros Hgs Hss Hsg Hx. revert m0. induction xs as [|x xs IH]; intros m0; cbn [fmap list_fmap concat].
  - rewrite app_nil_r, Hsg. apply eats_nil.
  - eapply eats_app; [apply Hx; by left|].
    specialize (IH (fun y m Hy => Hx y m (list_elem_of_further _ _ _ Hy)) (set (get m0 ++ [fill x]) m0)).
    rewrite Hgs, Hss, <-app_assoc in IH. exact IH.
Qed.

Definition strings_spec (num : Z) (get : M -> list string) (set : list string -> M -> M) : fspec :=
  mkSpec (fun m => concat ((fun s => z2b (num * 8 + 2) :: delimited (str_bytes s)) <$> get m)) (fun _ => True)
    (fun m => get m = []) (fun m => set (get m)).

Lemma strings_laws num get set :
  1 <= num < 16 ->
  (forall l m, get (set l m) = l) -> (forall l l' m, set l (set l' m) = set l m) -> (forall m, set (get m) m = m) ->
  field_laws (f_strings num get set) (strings_spec num get set).
Proof.
  intros Hn Hgs Hss Hsg.
  assert (Hlt : forall s, zlen (z2b (num * 8 + 2) :: delimited (str_bytes s)) < two63 -> zlen (str_bytes s) < two64).
  { intros s Hz. rewrite zlen_cons in Hz. pose proof two63_64. pose proof (delimited_lt (str_bytes s)). lia. }
  split; cbn [f_strings strings_spec fnum fput fsize fparse s_enc s_ok s_fresh s_fill].
  - done.
  - intros m Hz. apply writes_each. eapply Forall_impl; [by apply concat_bound|]. intros s Hs.
    apply writes_delimited. by apply Hlt.
  - intros m n Hz. apply size_each_ok. eapply Forall_impl; [by apply concat_bound|]. intros s Hs.
    apply zlen_delimited. by apply Hlt.
  - intros look add m m0 Hl _ Hf _.
    pose proof (eats_appended look add (fun s => z2b (num * 8 + 2) :: delimited (str_bytes s)) get set id (get m) m0
      Hgs Hss Hsg) as H. rewrite Hf, list_fmap_id in H. apply H. intros s m1 _.
    eapply (eats_field _ _ num 2); [done|done|lia|lia|exact Hl|apply delimited_nonempty|].
    intros dAtA i rest Hd Hat. cbv beta. by rewrite (read_string_back s dAtA i rest Hd Hat).
  - intros dAtA i m Hd Hi. eapply good_bind; [apply read_string_good; lia|]. intros [s i'] Hi'. exact Hi'.
Qed.

Definition uint64_spec (num : Z) (get : M -> Z) (set : Z -> M -> M) : fspec :=
  mkSpec (fun m => if negb (get m =? 0) then z2b (num * 8 + 0) :: varint (u64 (get m)) else [])
    (fun m => 0 <= get m < two64) (fun m => get m = 0) (fun m => set (get m)).

Lemma uint64_laws num get set :
  1 <= num < 16 -> (forall m, get m = 0 -> set 0 m = m) ->
  field_laws (f_uint64 num get set) (uint64_spec num get set).
Proof.
  intros Hn Hset. split; cbn [f_uint64 uint64_spec fnum fput fsize fparse s_enc s_ok s_fresh s_fill].
  - done.
  - intros m _. apply writes_when. intros _. apply writes_varint, u64_range.
  - intros m n _. rewrite (zlen_when _ _ (1 + sov (u64 (get m)))).
    + destruct (negb _); lia.
    + intros _. apply zlen_varint, u64_range.
  - intros look add m m0 Hl Hr Hf _. apply eats_when.
    + intros _. eapply (eats_field _ _ num 0); [done|done|lia|lia|exact Hl|apply varint_nonempty|].
      intros dAtA i rest Hd Hat. cbv beta.
      rewrite (read_varint_back u64 (u64 (get m)) dAtA i rest (u64_range _) Hat). unfold done_ at 1. cbn [pbind].
      by rewrite !u64_id by (try rewrite u64_id; done).
    + intros Hz. apply negb_false_iff, Z.eqb_eq in Hz. rewrite Hz. symmetry. by apply Hset.
  - intros dAtA i m Hd Hi. eapply good_bind; [apply (read_varint_good u64); lia|]. intros [v i'] [Hi' _]. simpl. lia.
Qed.

Definition bool_spec (num : Z) (get : M -> bool) (set : bool -> M -> M) : fspec :=
  mkSpec (fun m => if get m then [z2b (num * 8 + 0); z2b 1] else []) (fun _ => True) (fun m => get m = false)
    (fun m => set (get m)).

Lemma bool_laws num get set :
  1 <= num < 16 -> (forall m, get m = false -> set false m = m) ->
  field_laws (f_bool num get set) (bool_spec num get set).
Proof.
  intros Hn Hset. split; cbn [f_bool bool_spec fnum fput fsize fparse s_enc s_ok s_fresh s_fill].
  - done.
  - intros m _. apply writes_when. intros ->. apply (writes_then _ _ [z2b 1] [z2b (num * 8 + 0)]); apply writes_put_byte.
  - intros m n _. rewrite (zlen_when _ _ 2) by done. destruct (get m); lia.
  - intros look add m m0 Hl _ Hf _. destruct (get m).
    + eapply (eats_field _ _ num 0 _ [z2b 1]); [done|done|lia|lia|exact Hl|done|].
      intros dAtA i rest Hd Hat. cbv beta. rewrite (read_varint_back i64 1 dAtA i rest); [done|done|exact Hat].
    + rewrite Hset by done. apply eats_nil.
  - intros dAtA i m Hd Hi. eapply good_bind; [apply (read_varint_good i64); lia|]. intros [v i'] [Hi' _]. simpl. lia.
Qed.

Context {S : Type} `{VTLaws S}.

(** An element, nil or not. *)
Definition elem (tag : Z) (x : option S) : list byte := z2b tag :: delimited (vt_encode (default vt_empty x)).

Lemma elem_ok tag x : zlen (elem tag x) < two63 ->
  zlen (elem tag x) = size_delimited (SizeVT x) /\ writes (put_message tag (MarshalToSizedBufferVT x)) (elem tag x).
Proof.
  intros Hz. unfold elem in *. rewrite zlen_cons in Hz. pose proof two63_64.
  assert (Hs : zlen (vt_encode (default vt_empty x)) < two63) by (apply delimited_lt; lia).
  destruct x as [m|]; simpl default in *.
  - destruct (vt_marshals m Hs) as [Hm ->]. split; [apply zlen_delimited; lia|]. apply writes_message; [lia|done].
  - rewrite vt_encode_empty, vt_nil_size in *. split; [done|]. apply writes_message; [lia|]. intros dAtA _. exists dAtA.
    rewrite vt_nil. split; [done|]. split; [done|]. by rewrite Nat.sub_0_r, drop_all.
Qed.

(** Reading an element back. *)
Lemma eats_elem look add num (set : S -> M -> M) (old : M -> S) x m :
  1 <= num < 16 ->
  look num = Some (typed 2 (fun dAtA l iNdEx m =>
    '(s, iNdEx) ⇐ read_bytes dAtA l iNdEx; p ⇐ UnmarshalVT s (old m); done_ (set p m, iNdEx))) ->
  old m = vt_empty -> vt_ok (default vt_empty x) ->
  eats look add (elem (num * 8 + 2) x) m (set (vt_fill (default vt_empty x)) m).
Proof.
  intros Hn Hl Hold Hx. eapply (eats_field _ _ num 2); [done|done|lia|lia|exact Hl|apply delimited_nonempty|].
  intros dAtA i rest Hd Hat. cbv beta. rewrite (read_bytes_back _ dAtA i rest Hd Hat). unfold done_ at 1. cbn [pbind].
  rewrite Hold, vt_back; [done|done|]. apply delimited_lt. pose proof (at_zlen _ _ _ Hat) as Hz.
  rewrite zlen_app in Hz. pose proof (zlen_nonneg rest). destruct Hat. lia.
Qed.

Lemma good_elem dAtA i (k : S -> M) old :
  zlen dAtA < two63 -> 0 <= i ->
  good (fun '(_, i') => i <= i' <= zlen dAtA)
    ('(s, i') ⇐ read_bytes dAtA (zlen dAtA) i; p ⇐ UnmarshalVT s old; done_ (k p, i')).
Proof.
  intros Hd Hi. eapply good_bind; [apply read_bytes_good; lia|]. intros [s i'] [Hi' Hs].
  eapply good_bind; [by apply vt_total|]. intros p _. exact Hi'.
Qed.

Definition message_spec (num : Z) (get : M -> option S) (set : option S -> M -> M) : fspec :=
  mkSpec (fun m => if bool_decide (is_Some (get m)) then elem (num * 8 + 2) (get m) else [])
    (fun m => forall x, get m = Some x -> vt_ok x) (fun m => get m = None) (fun m => set (vt_fill <$> get m)).

Lemma message_laws num get set :
  1 <= num < 16 -> (forall m, get m = None -> set None m = m) ->
  field_laws (f_message num get set) (message_spec num get set).
Proof.
  intros Hn Hset. split; cbn [f_message message_spec fnum fput fsize fparse s_enc s_ok s_fresh s_fill].
  - done.
  - intros m Hz. apply writes_when. intros Hb. rewrite Hb in Hz. by apply elem_ok.
  - intros m n Hz. rewrite (zlen_when _ _ (size_delimited (SizeVT (get m)))).
    + case_bool_decide; lia.
    + intros Hb. rewrite Hb in Hz. by apply elem_ok.
  - intros look add m m0 Hl Hok Hf _. destruct (get m) as [x|] eqn:Hx.
    + rewrite bool_decide_true by by eexists.
      apply (eats_elem look add num (fun p => set (Some p)) (fun m => default vt_empty (get m)) (Some x));
        [done|exact Hl|by rewrite Hf|by apply Hok].
    + rewrite bool_decide_false by by intros [? [=]]. rewrite Hset by done. apply eats_nil.
  - intros dAtA i m Hd Hi. by apply good_elem.
Qed.

Definition messages_spec (num : Z) (get : M -> list (option S)) (set : list (option S) -> M -> M) : fspec :=
  mkSpec (fun m => concat (elem (num * 8 + 2) <$> get m)) (fun m => Forall (fun x => vt_ok (default vt_empty x)) (get m))
    (fun m => get m = []) (fun m => set ((fun x => Some (vt_fill (default vt_empty x))) <$> get m)).

Lemma messages_laws num get set :
  1 <= num < 16 ->
  (forall l m, get (set l m) = l) -> (forall l l' m, set l (set l' m) = set l m) -> (forall m, set (get m) m = m) ->
  field_laws (f_messages num get set) (messages_spec num get set).
Proof.
  intros Hn Hgs Hss Hsg.
  split; cbn [f_messages messages_spec fnum fput fsize fparse s_enc s_ok s_fresh s_fill].
  - done.
  - intros m Hz. apply writes_each. eapply Forall_impl; [by apply concat_bound|]. intros x Hx. by apply elem_ok.
  - intros m n Hz. apply size_each_ok. eapply Forall_impl; [by apply concat_bound|]. intros x Hx. by apply elem_ok.
  - intros look add m m0 Hl Hok Hf _.
    pose proof (eats_appended look add (elem (num * 8 + 2)) get set (fun x => Some (vt_fill (default vt_empty x))) (get m) m0
      Hgs Hss Hsg) as He. rewrite Hf in He. apply He. intros x m1 Hx. rewrite Forall_forall in Hok.
    apply (eats_elem look add num (fun p m => set (get m ++ [Some p]) m) (fun _ => vt_empty) x); [done|exact Hl|done|by apply Hok].
  - intros dAtA i m Hd Hi. by apply (good_elem dAtA i (fun x => set (get m ++ [Some x]) m)).
Qed.
End laws.
Arguments fspec : clear implicits.

(** ** What a message type promises *)

Section codec_laws.
Context {M : Type} (c : codec M) (specs : list (fspec M)).
Hypothesis Hlaws : Forall2 field_laws (fields c) specs.
Hypothesis Hnums : NoDup (fnum <$> fields c).

Definition encode_fields (ss : list (fspec M)) (m : M) : list byte := concat ((fun s => s_enc s m) <$> ss).
Definition c_encode (m : M) : list byte := encode_fields specs m ++ unknown c m.
Definition c_ok (m : M) : Prop := Forall (fun s => s_ok s m) specs /\ unknown c m = [].
Definition fill_fields (ss : list (fspec M)) (m acc : M) : M := foldl (fun acc s => s_fill s m acc) acc ss.
Definition c_fill (m : M) : M := fill_fields specs m (empty c).

(** A field has not been parsed when its turn comes. *)
Fixpoint fresh_fields (ss : list (fspec M)) (m acc : M) : Prop :=
  match ss with
  | [] => True
  | s :: ss => s_fresh s acc /\ fresh_fields ss m (s_fill s m acc)
  end.

Lemma encode_cons s ss m : encode_fields (s :: ss) m = s_enc s m ++ encode_fields ss m.
Proof. done. Qed.

Lemma put_fields_writes fs ss m :
  Forall2 field_laws fs ss -> zlen (encode_fields ss m) < two63 -> writes (put_fields fs m) (encode_fields ss m).
Proof.
  induction 1 as [|f s fs ss Hf _ IH]; intros Hz; [apply writes_nil|]. rewrite encode_cons in *. rewrite zlen_app in Hz.
  pose proof (zlen_nonneg (s_enc s m)). pose proof (zlen_nonneg (encode_fields ss m)). cbn [put_fields].
  apply writes_then; [apply IH; lia|]. apply (law_put _ _ Hf). lia.
Qed.

Lemma size_fields fs ss m n :
  Forall2 field_laws fs ss -> zlen (encode_fields ss m) < two63 ->
  foldl (fun n f => fsize f m n) n fs = n + zlen (encode_fields ss m).
Proof.
  intros H. revert n. induction H as [|f s fs ss Hf _ IH]; intros n Hz; [by rewrite Z.add_0_r|].
  rewrite encode_cons in *. rewrite zlen_app in *.
  pose proof (zlen_nonneg (s_enc s m)). pose proof (zlen_nonneg (encode_fields ss m)). cbn [foldl].
  rewrite (law_size _ _ Hf) by lia. rewrite IH by lia. lia.
Qed.

Lemma c_marshals m : zlen (c_encode m) < two63 ->
  marshals (marshal_message c (Some m)) (c_encode m) /\ size_message c (Some m) = zlen (c_encode m).
Proof.
  unfold c_encode. intros Hz. rewrite zlen_app in *. pose proof (zlen_nonneg (unknown c m)). split.
  - apply (writes_marshals (_ ;;> _)). apply writes_then; [apply writes_copy_back|].
    apply put_fields_writes; [done|lia].
  - cbn [size_message]. rewrite (size_fields _ specs) by (done || lia). lia.
Qed.

Lemma find_field (fs : list (field M)) f : NoDup (fnum <$> fs) -> f ∈ fs -> List.find (fun g => fnum g =? fnum f) fs = Some f.
Proof.
  induction fs as [|g fs IH]; intros Hnd Hin; [by apply elem_of_nil in Hin|]. rewrite fmap_cons in Hnd.
  apply NoDup_cons in Hnd as [Hg Hnd]. cbn [List.find]. apply elem_of_cons in Hin as [->|Hin]; [by rewrite Z.eqb_refl|].
  destruct (Z.eqb_spec (fnum g) (fnum f)) as [He|_]; [|by apply IH]. exfalso. apply Hg. rewrite He.
  apply list_elem_of_fmap. by exists f.
Qed.

Lemma eats_fields fs ss m acc :
  Forall2 field_laws fs ss -> (forall f, f ∈ fs -> field_case c (fnum f) = Some (typed (fwire f) (fparse f))) ->
  Forall (fun s => s_ok s m) ss -> fresh_fields ss m acc -> zlen (encode_fields ss m) < two63 ->
  eats (field_case c) (append_unknown c) (encode_fields ss m) acc (fill_fields ss m acc).
Proof.
  intros H. revert acc. induction H as [|f s fs ss Hf _ IH]; intros acc Hl Hok Hfr Hz; [apply eats_nil|].
  apply Forall_cons in Hok as [Hs Hok]. destruct Hfr as [Hs' Hfr]. rewrite encode_cons in *. rewrite zlen_app in Hz.
  pose proof (zlen_nonneg (s_enc s m)). pose proof (zlen_nonneg (encode_fields ss m)). eapply eats_app.
  - apply (law_eats _ _ Hf); [apply Hl; by left|done|done|lia].
  - apply IH; [|done|done|lia]. intros g Hg. apply Hl. by right.
Qed.

Lemma c_back m : fresh_fields specs m (empty c) -> c_ok m -> zlen (c_encode m) < two63 ->
  unmarshal_message c (c_encode m) (empty c) = done_ (c_fill m).
Proof using Hlaws Hnums.
  intros Hfr [Hok Hu] Hz. unfold c_encode in *. rewrite Hu, app_nil_r in *. apply eats_unmarshal; [done|].
  apply (eats_fields (fields c)); [done| |done|done|done].
  intros f Hf. unfold field_case. by rewrite find_field.
Qed.

Lemma c_field_good : field_good (field_case c).
Proof using Hlaws.
  intros n f wt dAtA i m Hf Hd Hi. unfold field_case in Hf.
  destruct (List.find _ (fields c)) as [g|] eqn:E; [|done]. injection Hf as <-.
  apply List.find_some in E as [Hin%list_elem_of_In _]. apply list_elem_of_lookup in Hin as [k Hk].
  destruct (Forall2_lookup_l _ _ _ _ _ Hlaws Hk) as (s & _ & Hg). apply typed_good. apply (law_good _ _ Hg); lia.
Qed.

Definition codec_laws (Hempty : c_encode (empty c) = []) (Hfresh : forall m, fresh_fields specs m (empty c)) :
  @VTLaws M (codec_vt c).
Proof using Hlaws Hnums.
  refine (@Build_VTLaws M (codec_vt c) c_encode c_ok c_fill c_marshals _ _ Hempty _ _).
  - done.
  - done.
  - intros m. apply c_back, Hfresh.
  - intros dAtA m Hd. apply unmarshal_good; [apply c_field_good|done].
Defined.
End codec_laws.

(** ** The messages of the cluster *)

Ltac field_law :=
  lazymatch goal with
  | |- field_laws (f_string _ _ _) _ => eapply string_laws; [lia|intros []; cbn; by intros ->]
  | |- field_laws (f_uint64 _ _ _) _ => eapply uint64_laws; [lia|intros []; cbn; by intros ->]
  | |- field_laws (f_bool _ _ _) _ => eapply bool_laws; [lia|intros []; cbn; by intros ->]
  | |- field_laws (f_message _ _ _) _ => eapply message_laws; [lia|intros []; cbn; by intros ->]
  | |- field_laws (f_strings _ _ _) _ => eapply strings_laws; [lia|by intros ? []|by intros ? ? []|by intros []]
  | |- field_laws (f_messages _ _ _) _ => eapply messages_laws; [lia|by intros ? []|by intros ? ? []|by intros []]
  end.

(** A message type keeps its promises if its fields do. *)
Ltac solve_codec c :=
  refine (codec_laws c _ _ _ _ _);
  [ match goal with |- Forall2 ?R _ ?ss => let fs := eval hnf in (fields c) in change (Forall2 R fs ss) end;
    repeat (eapply Forall2_cons; split; [field_law|]); by apply Forall2_nil
  | apply (bool_decide_unpack _); vm_compute; exact I
  | reflexivity
  | intros m; repeat split ].

Record Member := mkMember {
  mb_ID : string; mb_Host : string; mb_Region : string; mb_Kinds : list string;
  mb_unknownFields : list byte
}.
Definition Member_codec : codec Member := {|
  fields := [f_string 1 mb_ID (fun x m => mkMember x (mb_Host m) (mb_Region m) (mb_Kinds m) (mb_unknownFields m));
    f_string 2 mb_Host (fun x m => mkMember (mb_ID m) x (mb_Region m) (mb_Kinds m) (mb_unknownFields m));
    f_string 3 mb_Region (fun x m => mkMember (mb_ID m) (mb_Host m) x (mb_Kinds m) (mb_unknownFields m));
    f_strings 4 mb_Kinds (fun x m => mkMember (mb_ID m) (mb_Host m) (mb_Region m) x (mb_unknownFields m))];
  unknown := mb_unknownFields;
  set_unknown u m := mkMember (mb_ID m) (mb_Host m) (mb_Region m) (mb_Kinds m) u;
  empty := mkMember "" "" "" [] [];
|}.
#[export] Instance Member_vt : VT Member := codec_vt Member_codec.
#[export] Instance Member_laws : VTLaws Member.
Proof. solve_codec Member_codec. Defined.

Record CID := mkCID {
  cid_PID : option PID; cid_ID : string; cid_Kind : string; cid_Region : string;
  cid_unknownFields : list byte
}.
Definition CID_codec : codec CID := {|
  fields := [f_message 1 cid_PID (fun x m => mkCID x (cid_ID m) (cid_Kind m) (cid_Region m) (cid_unknownFields m));
    f_string 2 cid_ID (fun x m => mkCID (cid_PID m) x (cid_Kind m) (cid_Region m) (cid_unknownFields m));
    f_string 3 cid_Kind (fun x m => mkCID (cid_PID m) (cid_ID m) x (cid_Region m) (cid_unknownFields m));
    f_string 4 cid_Region (fun x m => mkCID (cid_PID m) (cid_ID m) (cid_Kind m) x (cid_unknownFields m))];
  unknown := cid_unknownFields;
  set_unknown u m := mkCID (cid_PID m) (cid_ID m) (cid_Kind m) (cid_Region m) u;
  empty := mkCID None "" "" "" [];
|}.
#[export] Instance CID_vt : VT CID := codec_vt CID_codec.
#[export] Instance CID_laws : VTLaws CID.
Proof. solve_codec CID_codec. Defined.

(** [NewCID] and [CID.Equals] of [cluster/util.go]; [None] is a nil pointer. *)
Definition NewCID (pid : option PID) (kind id region : string) : CID := mkCID pid id kind region [].
Definition CID_Equals (cid other : option CID) : result bool :=
  match cid, other with
  | Some cid, Some other => Ok (String.eqb (cid_ID cid) (cid_ID other) && String.eqb (cid_Kind cid) (cid_Kind other))
  | _, _ => Panic NilDeref
  end.

Record Members := mkMembers { ms_Members : list (option Member); ms_unknownFields : list byte }.
Definition Members_codec : codec Members := {|
  fields := [f_messages 1 ms_Members (fun x m => mkMembers x (ms_unknownFields m))];
  unknown := ms_unknownFields;
  set_unknown u m := mkMembers (ms_Members m) u;
  empty := mkMembers [] [];
|}.
#[export] Instance Members_vt : VT Members := codec_vt Members_codec.
#[export] Instance Members_laws : VTLaws Members.
Proof. solve_codec Members_codec. Defined.

Record MembersJoin := mkMembersJoin { mj_Members : list (option Member); mj_unknownFields : list byte }.
Definition MembersJoin_codec : codec MembersJoin := {|
  fields := [f_messages 1 mj_Members (fun x m => mkMembersJoin x (mj_unknownFields m))];
  unknown := mj_unknownFields;
  set_unknown u m := mkMembersJoin (mj_Members m) u;
  empty := mkMembersJoin [] [];
|}.
#[export] Instance MembersJoin_vt : VT MembersJoin := codec_vt MembersJoin_codec.
#[export] Instance MembersJoin_laws : VTLaws MembersJoin.
Proof. solve_codec MembersJoin_codec. Defined.

Record MembersLeave := mkMembersLeave { ml_Members : list (option Member); ml_unknownFields : list byte }.
Definition MembersLeave_codec : codec MembersLeave := {|
  fields := [f_messages 1 ml_Members (fun x m => mkMembersLeave x (ml_unknownFields m))];
  unknown := ml_unknownFields;
  set_unknown u m := mkMembersLeave (ml_Members m) u;
  empty := mkMembersLeave [] [];
|}.
#[export] Instance MembersLeave_vt : VT MembersLeave := codec_vt MembersLeave_codec.
#[export] Instance MembersLeave_laws : VTLaws MembersLeave.
Proof. solve_codec MembersLeave_codec. Defined.

Record Handshake := mkHandshake { hs_Member : option Member; hs_unknownFields : list byte }.
Definition Handshake_codec : codec Handshake := {|
  fields := [f_message 1 hs_Member (fun x m => mkHandshake x (hs_unknownFields m))];
  unknown := hs_unknownFields;
  set_unknown u m := mkHandshake (hs_Member m) u;
  empty := mkHandshake None [];
|}.
#[export] Instance Handshake_vt : VT Handshake := codec_vt Handshake_codec.
#[export] Instance Handshake_laws : VTLaws Handshake.
Proof. solve_codec Handshake_codec. Defined.

Record Topology := mkTopology {
  tp_Hash : Z; tp_Members : list (option Member); tp_Left : list (option Member); tp_Joined : list (option Member); tp_Blocked : list (option Member);
  tp_unknownFields : list byte
}.
Definition Topology_codec : codec Topology := {|
  fields := [f_uint64 1 tp_Hash (fun x m => mkTopology x (tp_Members m) (tp_Left m) (tp_Joined m) (tp_Blocked m) (tp_unknownFields m));
    f_messages 2 tp_Members (fun x m => mkTopology (tp_Hash m) x (tp_Left m) (tp_Joined m) (tp_Blocked m) (tp_unknownFields m));
    f_messages 3 tp_Left (fun x m => mkTopology (tp_Hash m) (tp_Members m) x (tp_Joined m) (tp_Blocked m) (tp_unknownFields m));
    f_messages 4 tp_Joined (fun x m => mkTopology (tp_Hash m) (tp_Members m) (tp_Left m) x (tp_Blocked m) (tp_unknownFields m));
    f_messages 5 tp_Blocked (fun x m => mkTopology (tp_Hash m) (tp_Members m) (tp_Left m) (tp_Joined m) x (tp_unknownFields m))];
  unknown := tp_unknownFields;
  set_unknown u m := mkTopology (tp_Hash m) (tp_Members m) (tp_Left m) (tp_Joined m) (tp_Blocked m) u;
  empty := mkTopology 0 [] [] [] [] [];
|}.
#[export] Instance Topology_vt : VT Topology := codec_vt Topology_codec.
#[export] Instance Topology_laws : VTLaws Topology.
Proof. solve_codec Topology_codec. Defined.

Record ActorInfo := mkActorInfo { ai_PID : option PID; ai_unknownFields : list byte }.
Definition ActorInfo_codec : codec ActorInfo := {|
  fields := [f_message 2 ai_PID (fun x m => mkActorInfo x (ai_unknownFields m))];
  unknown := ai_unknownFields;
  set_unknown u m := mkActorInfo (ai_PID m) u;
  empty := mkActorInfo None [];
|}.
#[export] Instance ActorInfo_vt : VT ActorInfo := codec_vt ActorInfo_codec.
#[export] Instance ActorInfo_laws : VTLaws ActorInfo.
Proof. solve_codec ActorInfo_codec. Defined.

Record ActorTopology := mkActorTopology { at_Actors : list (option ActorInfo); at_unknownFields : list byte }.
Definition ActorTopology_codec : codec ActorTopology := {|
  fields := [f_messages 1 at_Actors (fun x m => mkActorTopology x (at_unknownFields m))];
  unknown := at_unknownFields;
  set_unknown u m := mkActorTopology (at_Actors m) u;
  empty := mkActorTopology [] [];
|}.
#[export] Instance ActorTopology_vt : VT ActorTopology := codec_vt ActorTopology_codec.
#[export] Instance ActorTopology_laws : VTLaws ActorTopology.
Proof. solve_codec ActorTopology_codec. Defined.

Record Activation := mkActivation { av_PID : option PID; av_unknownFields : list byte }.
Definition Activation_codec : codec Activation := {|
  fields := [f_message 1 av_PID (fun x m => mkActivation x (av_unknownFields m))];
  unknown := av_unknownFields;
  set_unknown u m := mkActivation (av_PID m) u;
  empty := mkActivation None [];
|}.
#[export] Instance Activation_vt : VT Activation := codec_vt Activation_codec.
#[export] Instance Activation_laws : VTLaws Activation.
Proof. solve_codec Activation_codec. Defined.

Record Deactivation := mkDeactivation { dv_PID : option PID; dv_unknownFields : list byte }.
Definition Deactivation_codec : codec Deactivation := {|
  fields := [f_message 1 dv_PID (fun x m => mkDeactivation x (dv_unknownFields m))];
  unknown := dv_unknownFields;
  set_unknown u m := mkDeactivation (dv_PID m) u;
  empty := mkDeactivation None [];
|}.
#[export] Instance Deactivation_vt : VT Deactivation := codec_vt Deactivation_codec.
#[export] Instance Deactivation_laws : VTLaws Deactivation.
Proof. solve_codec Deactivation_codec. Defined.

Record ActivationRequest := mkActivationRequest {
  rq_Kind : string; rq_ID : string; rq_Region : string; rq_TopologyHash : Z;
  rq_unknownFields : list byte
}.
Definition ActivationRequest_codec : codec ActivationRequest := {|
  fields := [f_string 1 rq_Kind (fun x m => mkActivationRequest x (rq_ID m) (rq_Region m) (rq_TopologyHash m) (rq_unknownFields m));
    f_string 2 rq_ID (fun x m => mkActivationRequest (rq_Kind m) x (rq_Region m) (rq_TopologyHash m) (rq_unknownFields m));
    f_string 3 rq_Region (fun x m => mkActivationRequest (rq_Kind m) (rq_ID m) x (rq_TopologyHash m) (rq_unknownFields m));
    f_uint64 4 rq_TopologyHash (fun x m => mkActivationRequest (rq_Kind m) (rq_ID m) (rq_Region m) x (rq_unknownFields m))];
  unknown := rq_unknownFields;
  set_unknown u m := mkActivationRequest (rq_Kind m) (rq_ID m) (rq_Region m) (rq_TopologyHash m) u;
  empty := mkActivationRequest "" "" "" 0 [];
|}.
#[export] Instance ActivationRequest_vt : VT ActivationRequest := codec_vt ActivationRequest_codec.
#[export] Instance ActivationRequest_laws : VTLaws ActivationRequest.
Proof. solve_codec ActivationRequest_codec. Defined.

Record ActivationResponse := mkActivationResponse {
  rs_PID : option PID; rs_Success : bool; rs_TopologyHash : Z;
  rs_unknownFields : list byte
}.
Definition ActivationResponse_codec : codec ActivationResponse := {|
  fields := [f_message 1 rs_PID (fun x m => mkActivationResponse x (rs_Success m) (rs_TopologyHash m) (rs_unknownFields m));
    f_bool 2 rs_Success (fun x m => mkActivationResponse (rs_PID m) x (rs_TopologyHash m) (rs_unknownFields m));
    f_uint64 3 rs_TopologyHash (fun x m => mkActivationResponse (rs_PID m) (rs_Success m) x (rs_unknownFields m))];
  unknown := rs_unknownFields;
  set_unknown u m := mkActivationResponse (rs_PID m) (rs_Success m) (rs_TopologyHash m) u;
  empty := mkActivationResponse None false 0 [];
|}.
#[export] Instance ActivationResponse_vt : VT ActivationResponse := codec_vt ActivationResponse_codec.
#[export] Instance ActivationResponse_laws : VTLaws ActivationResponse.
Proof. solve_codec ActivationResponse_codec. Defined.


(** ** Messages of agents and providers on the wire *)

Definition to_member (m : MemberSet.Member) : Member :=
  mkMember (MID m) (MemberSet.Host m) (MemberSet.Region m) (MemberSet.Kinds m) [].
Definition of_member (m : Member) : MemberSet.Member :=
  MemberSet.mkMember (mb_ID m) (mb_Host m) (mb_Region m) (mb_Kinds m).

(** The type name and the bytes of a message ([MarshalVT]). *)
Definition to_wire (m : cmsg) : string * result (list byte) :=
  match m with
  | MHandshake m => ("cluster.Handshake", MarshalVT (Some (mkHandshake (to_member <$> m) [])))
  | MMembers ms => ("cluster.Members", MarshalVT (Some (mkMembers (Some ∘ to_member <$> ms) [])))
  | MActorTopology ps => ("cluster.ActorTopology", MarshalVT (Some (mkActorTopology ((fun p => Some (mkActorInfo p [])) <$> ps) [])))
  | MActivation p => ("cluster.Activation", MarshalVT (Some (mkActivation p [])))
  | MDeactivation p => ("cluster.Deactivation", MarshalVT (Some (mkDeactivation p [])))
  | MActivationRequest kind id => ("cluster.ActivationRequest", MarshalVT (Some (mkActivationRequest kind id "" 0 [])))
  | MActivationResponse p ok => ("cluster.ActivationResponse", MarshalVT (Some (mkActivationResponse p ok 0 [])))
  | MPing p => ("actor.Ping", Ping_MarshalVT (Some (mkPing p [])))
  end%string.

(** A new message of the named type, parsed into ([UnmarshalVT]). *)
Definition of_wire (name : string) (b : list byte) : parsed cmsg :=
  (if String.eqb name "cluster.Handshake" then m ⇐ UnmarshalVT b vt_empty; done_ (MHandshake (of_member <$> hs_Member m)) else
  if String.eqb name "cluster.Members" then m ⇐ UnmarshalVT b vt_empty; done_ (MMembers (of_member <$> omap id (ms_Members m))) else
  if String.eqb name "cluster.ActorTopology" then
    m ⇐ UnmarshalVT b vt_empty; done_ (MActorTopology (ai_PID <$> omap id (at_Actors m))) else
  if String.eqb name "cluster.Activation" then m ⇐ UnmarshalVT b vt_empty; done_ (MActivation (av_PID m)) else
  if String.eqb name "cluster.Deactivation" then m ⇐ UnmarshalVT b vt_empty; done_ (MDeactivation (dv_PID m)) else
  if String.eqb name "cluster.ActivationRequest" then
    m ⇐ UnmarshalVT b vt_empty; done_ (MActivationRequest (rq_Kind m) (rq_ID m)) else
  if String.eqb name "cluster.ActivationResponse" then
    m ⇐ UnmarshalVT b vt_empty; done_ (MActivationResponse (rs_PID m) (rs_Success m)) else
  m ⇐ Ping_UnmarshalVT b empty_Ping; done_ (MPing (Ping_From m)))%string.

(** The reference encoding, and the PIDs in a message. *)
Definition wire_encode (m : cmsg) : list byte :=
  match m with
  | MHandshake m => vt_encode (mkHandshake (to_member <$> m) [])
  | MMembers ms => vt_encode (mkMembers (Some ∘ to_member <$> ms) [])
  | MActorTopology ps => vt_encode (mkActorTopology ((fun p => Some (mkActorInfo p [])) <$> ps) [])
  | MActivation p => vt_encode (mkActivation p [])
  | MDeactivation p => vt_encode (mkDeactivation p [])
  | MActivationRequest kind id => vt_encode (mkActivationRequest kind id "" 0 [])
  | MActivationResponse p ok => vt_encode (mkActivationResponse p ok 0 [])
  | MPing p => Ping_encode (mkPing p [])
  end.

Definition wire_pids (m : cmsg) : list PID :=
  match m with
  | MActorTopology ps => omap id ps
  | MActivation (Some p) | MDeactivation (Some p) | MActivationResponse (Some p) _ | MPing (Some p) => [p]
  | _ => []
  end.

Lemma vt_roundtrip {S} `{VTLaws S} (x : S) :
  vt_ok x -> zlen (vt_encode x) < two63 ->
  MarshalVT (Some x) = Ok (vt_encode x) /\ UnmarshalVT (vt_encode x) vt_empty = done_ (vt_fill x).
Proof.
  intros Hok Hz. destruct (vt_marshals x Hz) as [Hm Hs]. split; [|by apply vt_back].
  unfold MarshalVT. by apply marshal_vt_ok.
Qed.

Lemma to_member_ok m : vt_ok (to_member m).
Proof. split; [repeat constructor|done]. Qed.
Lemma to_member_fill m : vt_fill (to_member m) = to_member m.
Proof. by destruct m. Qed.
Lemma of_to_member m : of_member (to_member m) = m.
Proof. by destruct m. Qed.

Lemma of_to_members (ms : list MemberSet.Member) : of_member <$> (to_member <$> ms) = ms.
Proof. induction ms as [|m ms IH]; [done|]. rewrite !fmap_cons, IH. by rewrite of_to_member. Qed.

Lemma ActorInfo_ok p : Forall (fun q => unknownFields q = []) (omap id [p]) -> vt_ok (mkActorInfo p []).
Proof.
  intros Hp. split; [|done]. constructor; [|constructor]. cbn. intros q ->. by apply Forall_inv in Hp.
Qed.

Lemma omap_Some {A B} (f : A -> B) (xs : list A) : omap id ((fun x => Some (f x)) <$> xs) = f <$> xs.
Proof. induction xs as [|x xs IH]; [done|]. cbn. by rewrite <-IH. Qed.

Lemma Members_fill (ms : list MemberSet.Member) :
  vt_fill (mkMembers (Some ∘ to_member <$> ms) []) = mkMembers ((fun m => Some (to_member m)) <$> ms) [].
Proof.
  unfold vt_fill at 1; cbn. f_equal. rewrite <-list_fmap_compose. apply list_fmap_ext. intros k m _. cbn.
  by destruct m.
Qed.

Lemma ActorTopology_fill (ps : list (option PID)) :
  vt_fill (mkActorTopology ((fun p => Some (mkActorInfo p [])) <$> ps) []) =
  mkActorTopology ((fun p => Some (mkActorInfo p [])) <$> ps) [].
Proof.
  unfold vt_fill at 1; cbn. f_equal. rewrite <-list_fmap_compose. apply list_fmap_ext. intros k p _. cbn.
  by destruct p.
Qed.

Lemma Ping_back (m : Ping) :
  Ping_unknownFields m = [] -> (forall q, Ping_From m = Some q -> unknownFields q = []) -> zlen (Ping_encode m) < two63 ->
  Ping_UnmarshalVT (Ping_encode m) empty_Ping = done_ m.
Proof.
  intros Hu Hq Hz. apply eats_unmarshal; [done|]. destruct m as [[q|] u]; cbn in Hu; subst u; unfold Ping_encode;
    cbn [Ping_From Ping_unknownFields pid_field]; rewrite app_nil_r.
  - apply (eats_pid_field Ping_field Ping_unknown (fun m => default empty_PID (Ping_From m))
      (fun p m => mkPing (Some p) (Ping_unknownFields m)) 1 q empty_Ping); [lia|done|done|by apply Hq].
  - apply eats_nil.
Qed.

(** One message of the cluster through the codec: that it is well formed, and what
    is read back, are left. *)
Ltac wire_case x :=
  match goal with Hlen : _ < two63 |- _ =>
    let H1 := fresh in let H2 := fresh in
    edestruct (vt_roundtrip x) as [H1 H2]; [split; [|done]|exact Hlen|
      split; [exact H1|]; unfold of_wire; cbn [String.eqb Ascii.eqb Bool.eqb]; rewrite H2; unfold done_ at 1; cbn [pbind]]
  end.

(** ** Correctness of the codec *)

(** C33: Round trip.  What an agent or a provider sends comes back from its bytes as it
    was: for every message of the cluster — nil PIDs and members, empty lists and
    any number of elements included — whose PIDs have no unknown fields, the bytes
    [MarshalVT] makes under the type's name are parsed by [UnmarshalVT] into a
    message with the same contents. *)
Theorem cluster_message_roundtrip (m : cmsg)
    (Hpids : Forall (fun p => unknownFields p = []) (wire_pids m)) (Hlen : zlen (wire_encode m) < two63) :
  exists b, (to_wire m).2 = Ok b /\ of_wire (to_wire m).1 b = done_ m.
Proof.
  exists (wire_encode m). destruct m as [m|ms|ps|p|p|kind id|p ok|p]; cbn [wire_encode wire_pids to_wire fst snd] in *.
  - wire_case (mkHandshake (to_member <$> m) []); [|by destruct m as [[]|]].
    constructor; [|constructor]. intros x Hx. apply fmap_Some in Hx as (y & _ & ->). apply to_member_ok.
  - wire_case (mkMembers (Some ∘ to_member <$> ms) []).
    + constructor; [|constructor]. apply Forall_fmap, Forall_forall. intros x _. apply to_member_ok.
    + rewrite Members_fill. cbn [ms_Members]. by rewrite omap_Some, of_to_members.
  - wire_case (mkActorTopology ((fun p => Some (mkActorInfo p [])) <$> ps) []).
    + constructor; [|constructor]. apply Forall_fmap, Forall_forall. intros p Hp. apply ActorInfo_ok.
      apply Forall_forall. intros q Hq. rewrite Forall_forall in Hpids. apply Hpids.
      apply list_elem_of_omap in Hq as (x & Hx%list_elem_of_singleton & Hq). apply list_elem_of_omap. exists p. by subst x.
    + rewrite ActorTopology_fill. cbn [at_Actors]. by rewrite omap_Some, <-list_fmap_compose, list_fmap_id.
  - wire_case (mkActivation p []); [|by destruct p].
    constructor; [|constructor]. cbn. intros q ->. by apply Forall_inv in Hpids.
  - wire_case (mkDeactivation p []); [|by destruct p].
    constructor; [|constructor]. cbn. intros q ->. by apply Forall_inv in Hpids.
  - wire_case (mkActivationRequest kind id "" 0 []); [by repeat constructor|done].
  - wire_case (mkActivationResponse p ok 0 []); [|by destruct p].
    constructor; [|by repeat constructor]. cbn. intros q ->. by apply Forall_inv in Hpids.
  - destruct (Ping_marshal _ Hlen) as [H1 H2]. split; [by apply marshal_vt_ok|].
    unfold of_wire. cbn [String.eqb Ascii.eqb Bool.eqb]. rewrite (Ping_back (mkPing p [])); [done|done| |exact Hlen].
    cbn. intros q ->. by apply Forall_inv in Hpids.
Qed.

Lemma cluster_message_roundtrip_witness :
  let m := MMembers [demo_m1; demo_m2] in
  exists b, (to_wire m).2 = Ok b /\ zlen b = 80 /\ of_wire "cluster.Members" b = done_ m.
Proof.
  destruct (cluster_message_roundtrip (MMembers [demo_m1; demo_m2])) as (b & H1 & H2).
  - constructor.
  - vm_compute. reflexivity.
  - exists b. split; [exact H1|]. split; [|exact H2]. vm_compute in H1. injection H1 as <-. vm_compute. reflexivity.
Defined.

(** No bytes are fatal: whatever arrives (fewer than 2^63 bytes) and whatever it is
    parsed into, every message type of the cluster ends with a message or an
    error. *)
Theorem cluster_unmarshal_total {S} `{VTLaws S} (dAtA : list byte) (m : S) (Hlen : zlen dAtA < two63) :
  exists r, UnmarshalVT dAtA m = Some (Ok r).
Proof. pose proof (vt_total dAtA m Hlen) as Hg. destruct (UnmarshalVT dAtA m) as [[r|]|]; try done. by exists r. Qed.

Lemma cluster_unmarshal_total_witness :
  let bad := [x0a; xff; xff; xff; xff; xff; xff; xff; xff; x7f; x41] in
  (exists r, UnmarshalVT bad (vt_empty (S := Topology)) = Some (Ok r)) /\
  (exists r, UnmarshalVT bad (vt_empty (S := CID)) = Some (Ok r)).
Proof.
  split.
  - apply (cluster_unmarshal_total (S := Topology)). vm_compute. reflexivity.
  - apply (cluster_unmarshal_total (S := CID)). vm_compute. reflexivity.
Defined.

(** Any message of the cluster goes to the front of a buffer that is long enough,
    and makes the call panic on a shorter one. *)
Theorem cluster_marshal_to {S} `{VTLaws S} (m : S) (dAtA : list byte) (Hm : zlen (vt_encode m) < two63) :
  MarshalToVT (Some m) dAtA =
    if zlen dAtA <? zlen (vt_encode m) then Panic IndexOutOfRange
    else Ok (vt_encode m ++ drop (length (vt_encode m)) dAtA, zlen (vt_encode m)).
Proof. destruct (vt_marshals m Hm) as [H1 H2]. unfold MarshalToVT. rewrite H2. by apply marshal_to_vt_ok. Qed.
