(* ===== verification/Consul.v ===== *)
(** * The Consul provider ([cluster/consul_provider.go])

    What the provider registers for its own node, what it makes of the service
    entries Consul reports, its watch and its health updates.  The Consul client
    and the plan of the watch are not modelled: what they do is an input. *)

From S2P Require Import Prelude Net Pid Messages Process MemberSet Agent Cluster.
Import Cluster.

(** ** Registration *)

(** What is passed to [ServiceRegisterOpts], without the constant health check
    settings. *)
Record AgentServiceRegistration := mkRegistration {
  reg_ID : string; reg_Name : string; reg_Tags : list string;
  reg_Address : string; reg_Port : Z; reg_Meta_name : string; reg_CheckID : string;
}.

Definition split_or_empty (hostport : string) : string * string := default ("", "")%string (SplitHostPort hostport).

(** [memberID]: from the configured listen address. *)
Definition memberID (c : Cluster) : string :=
  let '(host, port) := split_or_empty (listenAddr (config c)) in
  (id (config c) +:+ "." +:+ host +:+ ":" +:+ port)%string.

(** [registerService]: from the address of the agent. *)
Definition registerService (c : Cluster) : result AgentServiceRegistration :=
  addr ← Cluster.Address c;
  let '(host, port) := split_or_empty addr in
  Ok (mkRegistration (memberID c) "hollywood_actor" (kindsToString c) host (Atoi port).1 (id (config c)) (memberID c)).

(** ** The provider actor *)

Definition registerTTL : Z := 4 * 1000000000.
Definition removeTTL : Z := 8 * 1000000000.

Record ConsulProviderConfig := mkConsulConfig { consul_address : string }.
Definition NewConsulProviderConfig : ConsulProviderConfig := mkConsulConfig "127.0.0.1:8500".
Definition WithAddress (address : string) (_ : ConsulProviderConfig) : ConsulProviderConfig := mkConsulConfig address.

(** The provider; [prevIndex] is what [onUpdate] keeps, [quitch] whether the
    channel is closed. *)
Record ConsulProvider := mkConsul {
  consul_config : ConsulProviderConfig;
  consul_id : string;
  prevIndex : Z;
  quitch : bool;
}.

(** [NewConsulProvider]: every (re)start makes one. *)
Definition NewConsulProvider (config : ConsulProviderConfig) : ConsulProvider := mkConsul config "" 0 false.

(** The calls it makes, in order. *)
Inductive consul_call :=
  | CRegister (reg : AgentServiceRegistration) (ttl remove : Z)
  | CGoWatch (address : string)
  | CGoTTL
  | CUpdateTTL (check_id : string).

(** [Receive]; [failed] is the error of the registration, if any. *)
Definition Receive (c : Cluster) (failed : option string) (msg : any) (p : ConsulProvider)
  : list consul_call * outcome ConsulProvider :=
  match msg with
  | AStarted =>
      let p := mkConsul (consul_config p) (memberID c) (prevIndex p) (quitch p) in
      match registerService c with
      | Panic e => ([], Panics (PVRuntime e))
      | Ok reg =>
          let call := CRegister reg registerTTL removeTTL in
          match failed with
          | Some err => ([call], Panics (PVUser err []))
          | None => ([call; CGoWatch (consul_address (consul_config p)); CGoTTL], Returns p)
          end
      end
  | AStopped =>
      if quitch p then ([], Panics (PVRuntime CloseOfClosed))
      else ([], Returns (mkConsul (consul_config p) (consul_id p) (prevIndex p) true))
  | _ => ([], Returns p)
  end.

(** The [select] of [updateTTL] takes a tick of the ticker or the closed channel. *)
Inductive ttl_choice := TtlTick | TtlQuit.

(** [updateTTL]: one update per tick until it takes the closed channel. *)
Fixpoint updateTTL (choices : list ttl_choice) (p : ConsulProvider) : list consul_call :=
  match choices with
  | [] => []
  | TtlTick :: choices => CUpdateTTL (consul_id p) :: updateTTL choices p
  | TtlQuit :: _ => []
  end.

(** ** Updates *)

(** The parts of an [api.ServiceEntry] it reads: the number of checks and whether
    their aggregated status is passing, and the service. *)
Record ServiceEntry := mkEntry {
  n_checks : nat; passing : bool;
  meta_name : string; service_address : string; service_port : Z; service_tags : list string;
}.

Definition entry_member (e : ServiceEntry) : Member :=
  mkMember (meta_name e) (service_address e +:+ ":" +:+ Itoa (service_port e)) "" (service_tags e).

Definition healthy (e : ServiceEntry) : bool := (0 <? n_checks e)%nat && passing e.

Definition with_index (index : Z) (p : ConsulProvider) : ConsulProvider :=
  mkConsul (consul_config p) (consul_id p) index (quitch p).

(** [onUpdate]; [None] is a message that is not a list of entries; [agent] is
    [p.cluster.PID()]. *)
Definition onUpdate (agent : option PID) (index : Z) (msg : option (list ServiceEntry)) (p : ConsulProvider)
  : ConsulProvider * list effect :=
  match msg with
  | None => (p, [])
  | Some entries =>
      let ms := entry_member <$> List.filter healthy entries in
      let es := if negb (prevIndex p =? index) && (0 <? zlen ms)
                then [ESend agent (MMembers ms)] else [] in
      (with_index index p, es)
  end.

Fixpoint updates (agent : option PID) (us : list (Z * option (list ServiceEntry))) (p : ConsulProvider)
  : ConsulProvider * list effect :=
  match us with
  | [] => (p, [])
  | (index, msg) :: us =>
      let '(p, es) := onUpdate agent index msg p in
      let '(p, es') := updates agent us p in (p, es ++ es')
  end.

(** The query of the watch. *)
Record watch_query := mkQuery { query_type : string; query_service : string; query_passingonly : bool }.

(** [watch], on its own goroutine: the error of [watch.Parse] is logged, that of
    [RunWithConfig] panics.  [run] is what the plan does with the query at an
    address: the updates it hands to [onUpdate] and the error it ends with. *)
Definition watch (Parse : watch_query -> option string)
    (run : string -> watch_query -> list (Z * option (list ServiceEntry)) * option string)
    (agent : option PID) (p : ConsulProvider) : list effect * outcome ConsulProvider :=
  let query := mkQuery "service" "hollywood_actor" true in
  match Parse query with
  | Some _ => ([], Returns p)
  | None =>
      let '(us, err) := run (consul_address (consul_config p)) query in
      let '(p, es) := updates agent us p in
      match err with
      | Some err => (es, Panics (PVUser err []))
      | None => (es, Returns p)
      end
  end.

(** An update is news if its index differs from that of the entries before it. *)
Fixpoint news (prev : Z) (us : list (Z * option (list ServiceEntry))) : list (list Member) :=
  match us with
  | [] => []
  | (_, None) :: us => news prev us
  | (index, Some entries) :: us =>
      let ms := entry_member <$> List.filter healthy entries in
      (if bool_decide (prev = index \/ ms = []) then [] else [ms]) ++ news index us
  end.

(** The agent is sent the healthy services of every update whose index is new,
    unless there are none: when the last healthy service goes, the agent keeps the
    members it had. *)
Theorem consul_updates (agent : option PID) (us : list (Z * option (list ServiceEntry))) (p : ConsulProvider) :
  (updates agent us p).2 = (fun ms => ESend agent (MMembers ms)) <$> news (prevIndex p) us.
Proof.
  revert p. induction us as [|[index msg] us IH]; intros p; [done|]. cbn [updates news].
  destruct msg as [entries|]; cbn [onUpdate].
  - set (ms := entry_member <$> List.filter healthy entries).
    specialize (IH (with_index index p)). destruct (updates agent us _) as [p' es']. cbn [snd] in *.
    cbn [prevIndex with_index] in IH. rewrite fmap_app, IH. f_equal.
    destruct (Z.eqb_spec (prevIndex p) index) as [->|Hne]; [by rewrite bool_decide_true by by left|].
    destruct ms as [|m l]; [by rewrite bool_decide_true by by right|].
    rewrite bool_decide_false by by intros [?|?]. done.
  - specialize (IH p). destruct (updates agent us p). exact IH.
Qed.

(** ** Correctness of the provider *)

(** The watch runs on when its provider stops: what a stopped provider's watch
    sends and how it ends is what it would have been without the stop, so the
    agent goes on receiving members and a failing plan still panics. *)
Theorem watch_outlives_stop (Parse : watch_query -> option string) run (agent : option PID) (c : Cluster)
    (failed : option string) (p p' : ConsulProvider)
    (Hstop : Receive c failed AStopped p = ([], Returns p')) :
  (watch Parse run agent p').1 = (watch Parse run agent p).1 /\
  (forall e, (watch Parse run agent p').2 = Panics e <-> (watch Parse run agent p).2 = Panics e) /\
  (Parse (mkQuery "service" "hollywood_actor" true) = None ->
   let us := (run (consul_address (consul_config p)) (mkQuery "service" "hollywood_actor" true)).1 in
   (watch Parse run agent p').1 = (fun ms => ESend agent (MMembers ms)) <$> news (prevIndex p) us).
Proof.
  cbn [Receive] in Hstop. destruct (quitch p); [done|]. injection Hstop as <-.
  unfold watch; cbn [consul_config]. destruct (Parse _); [done|].
  destruct (run _ _) as [us err]. cbn [fst].
  set (q := mkConsul _ _ _ true).
  pose proof (consul_updates agent us p) as Hp. pose proof (consul_updates agent us q) as Hq.
  destruct (updates agent us p) as [p1 es], (updates agent us q) as [p2 es']. cbn [snd] in Hp, Hq.
  subst. by destruct err.
Qed.

Lemma watch_outlives_stop_witness :
  let p := mkConsul NewConsulProviderConfig "c" 0 false in
  let run (_ : string) (_ : watch_query) :=
    ([(1, Some [mkEntry 1 true "b" "10.0.0.2" 4000 []])], Some "unreachable"%string) in
  (watch (fun _ => None) run None (mkConsul NewConsulProviderConfig "c" 0 true)).1 =
    [ESend None (MMembers [mkMember "b" "10.0.0.2:4000" "" []])].
Proof.
  intros p run.
  destruct (watch_outlives_stop (fun _ => None) run None (New (mkConfig "10.0.0.1:4000" "node-a" "eu" None 0 5) "10.0.0.1:4000" 1)
    None p (mkConsul NewConsulProviderConfig "c" 0 true) eq_refl) as (_ & _ & H).
  exact (H eq_refl).
Defined.

(** What a node registers comes back as the node, without its region.  For an
    agent address of a plain host and a port, if Consul reports the service as it
    was registered, passing its check, then the member the other nodes make of it
    has the id, the host, the agent's PID and the kinds of the node itself; its
    region is lost, so a user's [SelectMemberFunc] cannot find it by region. *)
Theorem consul_registration_roundtrip (c : Cluster) (host : string) (port : Z) (entry : ServiceEntry)
    (Hagent : Cluster.Address c = Ok (address c))
    (Haddr : address c = (host +:+ ":" +:+ Itoa port)%string)
    (Hhost : plain_host host) (Hport : 0 <= port < two63)
    (Hreports : forall reg, registerService c = Ok reg ->
       (0 < n_checks entry)%nat /\ passing entry = true /\ meta_name entry = reg_Meta_name reg /\
       service_address entry = reg_Address reg /\ service_port entry = reg_Port reg /\
       service_tags entry = reg_Tags reg) :
  healthy entry = true /\
  entry_member entry = mkMember (MID (Member_ c)) (Host (Member_ c)) "" (Kinds (Member_ c)) /\
  Member_PID (entry_member entry) = Member_PID (Member_ c) /\
  Member_Equals (entry_member entry) (Member_ c) = true.
Proof.
  unfold registerService in Hreports. rewrite Hagent, Haddr in Hreports. cbn [mbind result_bind] in Hreports.
  unfold split_or_empty at 1 in Hreports. rewrite SplitHostPort_plain in Hreports by (done || lia).
  destruct (Hreports _ eq_refl) as (Hn & Hp & Hm & Ha & Hpo & Ht). cbn in Hm, Ha, Hpo, Ht.
  rewrite Atoi_Itoa in Hpo by done. cbn [fst] in Hpo.
  assert (He : entry_member entry = mkMember (MID (Member_ c)) (Host (Member_ c)) "" (Kinds (Member_ c))).
  { unfold entry_member, Member_; cbn. rewrite Hm, Ha, Hpo, Ht, Haddr. done. }
  split_and!; [|done|by rewrite He|].
  - unfold healthy. rewrite Hp. destruct (Nat.ltb_spec 0 (n_checks entry)); [done|lia].
  - rewrite He. unfold Member_Equals; cbn. by rewrite !bool_decide_true.
Qed.

Lemma consul_registration_roundtrip_witness :
  let c := (Start demo_draws demo_draws (RegisterKind "player" (New (mkConfig "10.0.0.1:4000" "node-a" "eu" None 0 5) "10.0.0.1:4000" 1))).1 in
  let entry := mkEntry 1 true "node-a" "10.0.0.1" 4000 ["player"%string] in
  entry_member entry = mkMember "node-a" "10.0.0.1:4000" "" ["player"%string] /\
  Member_Equals (entry_member entry) (Member_ c) = true.
Proof.
  cbv zeta.
  destruct (consul_registration_roundtrip
    (Start demo_draws demo_draws (RegisterKind "player" (New (mkConfig "10.0.0.1:4000" "node-a" "eu" None 0 5) "10.0.0.1:4000" 1))).1
    "10.0.0.1" 4000 (mkEntry 1 true "node-a" "10.0.0.1" 4000 ["player"%string])) as (_ & H & _ & H2).
  - reflexivity.
  - reflexivity.
  - repeat constructor; intros [=].
  - unfold two63. lia.
  - intros reg Hreg. vm_compute in Hreg. injection Hreg as <-. vm_compute. repeat split; lia.
  - split; [exact H|exact H2].
Defined.

(** What a provider does in its life.  Started on a cluster that has started, it
    registers the service under the id it then keeps alive, once per tick until it
    is stopped, or panics with the error of the registration; stopping it once
    returns, a second time panics. *)
Theorem consul_provider_life (c : Cluster) (pid : PID) (config : ConsulProviderConfig) (n : nat)
    (Hstarted : Cluster.agentPID c = Some pid) :
  let p := NewConsulProvider config in
  exists reg p1 p2, registerService c = Ok reg /\
    Receive c None AStarted p =
      ([CRegister reg registerTTL removeTTL; CGoWatch (consul_address config); CGoTTL], Returns p1) /\
    (forall rest, updateTTL (replicate n TtlTick ++ TtlQuit :: rest) p1 = replicate n (CUpdateTTL (reg_CheckID reg))) /\
    (forall err, Receive c (Some err) AStarted p = ([CRegister reg registerTTL removeTTL], Panics (PVUser err []))) /\
    Receive c None AStopped p1 = ([], Returns p2) /\
    Receive c None AStopped p2 = ([], Panics (PVRuntime CloseOfClosed)).
Proof.
  intros p. assert (Hr : exists reg, registerService c = Ok reg /\ reg_CheckID reg = memberID c).
  { unfold registerService, Cluster.Address. rewrite Hstarted. cbn [mbind result_bind].
    destruct (split_or_empty _). by eexists. }
  destruct Hr as (reg & Hr & Hid). eexists reg, _, _. split; [done|]. split.
  { cbn [Receive]. rewrite Hr. reflexivity. }
  split; [|split; [|split; reflexivity]].
  - intros rest. rewrite Hid. induction n as [|n IH]; [done|]. cbn [replicate app updateTTL consul_id]. by rewrite IH.
  - intros err. cbn [Receive]. by rewrite Hr.
Qed.

(** An IPv6 node does not come back: the brackets of its address are lost, so the
    other nodes address its agent and provider at a host no engine has. *)
Theorem consul_ipv6_lost :
  let c := (Start demo_draws demo_draws (New (mkConfig "[::1]:4000" "node-a" "eu" None 0 5) "[::1]:4000" 1)).1 in
  exists reg, registerService c = Ok reg /\ reg_Address reg = "::1"%string /\ reg_Port reg = 4000 /\
    forall entry, meta_name entry = reg_Meta_name reg -> service_address entry = reg_Address reg ->
      service_port entry = reg_Port reg ->
      Host (entry_member entry) = "::1:4000"%string /\ Host (Member_ c) = "[::1]:4000"%string /\
      Member_Equals (entry_member entry) (Member_ c) = false.
Proof.
  eexists. split; [vm_compute; reflexivity|]. split; [reflexivity|]. split; [reflexivity|].
  intros entry Hm Ha Hp. unfold Member_Equals, entry_member. rewrite Ha, Hp. vm_compute. done.
Qed.

(** With an engine of its own ([WithEngine]) the check and the service are
    registered under an id made from the configured listen address, which is
    then not the address of the engine. *)
Theorem consul_id_not_address :
  let c := (Start demo_draws demo_draws (New (WithEngine (Some 1) (NewConfig 13456 7 0)) "10.0.0.1:4000" 2)).1 in
  exists reg, registerService c = Ok reg /\ reg_ID reg = "7.127.0.0.1:23456"%string /\
    reg_Address reg = "10.0.0.1"%string /\ reg_Port reg = 4000.
Proof. eexists. split; [vm_compute; reflexivity|]. done. Qed.
