(* ===== verification/OnEngine.v ===== *)
(** * Actors on an engine

    What the examples share: PIDs as parts of messages, the start of a child as
    the engine sees it ([process.Start]), and actors that are registered. *)

From stdpp Require Import countable gmap.
From S2P Require Import Prelude Pid Messages Process Engine.

#[export] Instance byte_countable : Countable byte.
Proof.
  refine (inj_countable Byte.to_N Byte.of_N _). apply Byte.of_to_N.
Defined.
#[export] Instance PID_countable : Countable PID.
Proof.
  by refine (inj_countable' (fun p => (Address p, ID p, unknownFields p)) (fun '(a, i, u) => mkPID a i u) _); intros [].
Defined.
#[export] Instance pid_ptr_countable : Countable pid_ptr.
Proof. by refine (inj_countable' (fun p => (loc p, deref p)) (fun '(l, p) => mkPtr l p) _); intros []. Defined.

(** The start of a child ([process.Start]), whose handler of [Started] is [started]. *)
Definition start_child (fuel : nat) (child : PID) (started : Engine -> outcome Engine) (e : Engine) : outcome Engine :=
  obind (BroadcastEvent fuel (AActorInitializedEvent child) e) (fun e =>
  obind (started e) (BroadcastEvent fuel (AActorStartedEvent child))).

Lemma live_send fuel t m sender e :
  wf e -> live e t -> exists e', send (S fuel) (Some t) m sender e = Returns e' /\ delivers false (ID t) (mkEnvelope m sender) e e'.
Proof.
  intros Hwf [Ha [q Hq]]. pose proof (send_with_arrives false fuel (Some t) m sender e Hwf) as H. unfold send, destination_of in *.
  rewrite decide_True in H by done. destruct (mailbox_spec e (ID t) q (proj1 Hwf) Hq) as (pid & Hl & _). by rewrite Hl in H.
Qed.
