(* ===== verification/Chat.v ===== *)
(** * The chat example ([examples/chat/server/main.go], [examples/chat/client/main.go])

    A server actor that forwards what its clients say, and the client actors.
    Both are receivers of a process; the client's main loop calls the engine. *)

From stdpp Require Import countable gmap.
From S2P Require Import Prelude Pid Messages Process Opts Engine MemberSet.

(** ** Messages *)

(** The generated messages of [examples/chat/types]. *)
Inductive chat_msg :=
  | CMessage (Msg Username : string)
  | CConnect (Username : string)
  | CDisconnect.
#[export] Instance chat_msg_eq_dec : EqDecision chat_msg.
Proof. solve_decision. Defined.

Definition chat_sum (m : chat_msg) : (string * string) + (string + unit) :=
  match m with CMessage t u => inl (t, u) | CConnect u => inr (inl u) | CDisconnect => inr (inr ()) end.
Definition sum_chat (s : (string * string) + (string + unit)) : chat_msg :=
  match s with inl (t, u) => CMessage t u | inr (inl u) => CConnect u | inr (inr _) => CDisconnect end.
#[export] Instance chat_msg_countable : Countable chat_msg.
Proof. by refine (inj_countable' chat_sum sum_chat _); intros []. Defined.

Definition chat_type (m : chat_msg) : string :=
  match m with CMessage _ _ => "*types.Message" | CConnect _ => "*types.Connect" | CDisconnect => "*types.Disconnect" end.
Definition say (m : chat_msg) : any := as_user (chat_type m) m.

(** ** The server *)

(** [clients] and [users], by address. *)
Record server := mkServer { clients : gmap string (option PID); users : gmap string string }.
Definition newServer : server := mkServer ∅ ∅.

(** The generated getter, of a nil pointer too. *)
Definition GetAddress (p : option PID) : string := match p with Some p => Address p | None => "" end.

Section server.
Context `{Range}.

(** The loop of [handleMessage]: what it forwarded before it ended or panicked. *)
Fixpoint forward_loop (m : any) (sender : option PID) (order : list (string * option PID))
  : list ctx_effect * option pvalue :=
  match order with
  | [] => ([], None)
  | (_, pid) :: order =>
      match pid, sender with
      | Some p, Some s =>
          let '(es, v) := forward_loop m sender order in
          (if negb (Equals p s) then ESend (Some p) m :: es else es, v)
      | _, _ => ([], Some (PVRuntime NilDeref))
      end
  end.

Definition handleMessage (m : any) (sender : option PID) (s : server) : list ctx_effect * option pvalue :=
  forward_loop m sender (range (clients s)).

Definition server_receive : ReceiveFunc server := fun s m sender =>
  match of_user m with
  | Some (CMessage _ _) => let '(es, v) := handleMessage m sender s in (s, es, v)
  | Some CDisconnect =>
      let cAddr := GetAddress sender in
      match clients s !! cAddr with
      | None => (s, [], Some (PVRuntime NilDeref))                  (* the warning reads [pid.Address] *)
      | Some pid =>
          match users s !! cAddr with
          | None => (s, [], match pid with Some _ => None | None => Some (PVRuntime NilDeref) end)
          | Some username => (mkServer (delete cAddr (clients s)) (delete username (users s)), [], None)
          end
      end
  | Some (CConnect username) =>
      let cAddr := GetAddress sender in
      match clients s !! cAddr, users s !! cAddr with
      | None, None => (mkServer (<[cAddr := sender]> (clients s)) (<[cAddr := username]> (users s)), [], None)
      | _, _ => (s, [], None)
      end
  | None => (s, [], None)
  end.

(** [e.Spawn(newServer, "server", actor.WithID("primary"))] *)
Definition server_opts (address : string) : Process.Opts server :=
  Process.mkOpts (fun _ => inl newServer) server_receive defaultMaxRestarts [] (NewPID address "server/primary") None.
End server.

(** ** The client *)

(** The receiver has no state of its own besides its configuration. *)
Definition client_receive (username : string) (serverPID : PID) : ReceiveFunc unit := fun r m sender =>
  match m with
  | AStarted => (r, [ESend (Some serverPID) (say (CConnect username))], None)
  | _ => (r, [], None)
  end.

(** The loop over the lines of the standard input. *)
Fixpoint scan (fuel : nat) (username : string) (serverPID clientPID : PID) (lines : list string) (e : Engine)
  : outcome Engine :=
  match lines with
  | [] => Returns e
  | line :: lines =>
      if String.eqb line "quit" then Returns e else
      obind (SendWithSender fuel (Some serverPID) (say (CMessage line username)) (Some clientPID) e) (fun e =>
      scan fuel username serverPID clientPID lines e)
  end.

(** What follows the spawn of the client; the context of the pill is awaited by
    the caller. *)
Definition client_main (fuel : nat) (username : string) (serverPID clientPID : PID) (lines : list string) (e : Engine)
  : outcome (Engine * Z) :=
  obind (scan fuel username serverPID clientPID lines e) (fun e =>
  obind (SendWithSender fuel (Some serverPID) (say CDisconnect) (Some clientPID) e) (fun e =>
  Poison fuel (Some clientPID) e)).

(** ** What the server does, abstractly *)

(** Who is in the room, and which addresses have left it. *)
Record room := mkRoom { joined : gmap string PID; gone : gset string }.

(** The new room, who is sent the message, and whether the server crashes. *)
Definition room_step (p : PID) (m : chat_msg) (t : room) : room * list PID * bool :=
  let a := Address p in
  match m with
  | CMessage _ _ => (t, filter (fun q => Equals q p = false) (map_to_list (joined t)).*2, false)
  | CConnect _ =>
      (if decide (a ∈ dom (joined t) ∪ gone t) then t else mkRoom (<[a := p]> (joined t)) (gone t), [], false)
  | CDisconnect =>
      match joined t !! a with
      | Some _ => (mkRoom (delete a (joined t)) ({[a]} ∪ gone t), [], false)
      | None => (t, [], true)
      end
  end.

(** A history: the deliveries of each message, until the server crashes. *)
Fixpoint room_run (ms : list (PID * chat_msg)) (t : room) : room * list (list PID) * bool :=
  match ms with
  | [] => (t, [], false)
  | (p, m) :: ms =>
      let '(t, to, crash) := room_step p m t in
      if crash then (t, [], true) else let '(t, tos, crash) := room_run ms t in (t, to :: tos, crash)
  end.

Section run.
Context `{Range}.
Fixpoint server_run (ms : list (PID * chat_msg)) (s : server) : server * list (list ctx_effect) * option pvalue :=
  match ms with
  | [] => (s, [], None)
  | (p, m) :: ms =>
      let '(s, es, v) := server_receive s (say m) (Some p) in
      match v with
      | Some v => (s, [], Some v)
      | None => let '(s, ess, v) := server_run ms s in (s, es :: ess, v)
      end
  end.
End run.

(** ** The server keeps the room *)

Definition names_ok (addrs : list string) (m : chat_msg) : Prop :=
  match m with CConnect u => u ∉ addrs | _ => True end.

#[export] Instance names_ok_dec addrs m : Decision (names_ok addrs m).
Proof. destruct m; cbn; apply _. Defined.

Section refinement.
Context `{Range}.
Implicit Types (t : room) (s : server).

(** [addrs]: the addresses the history comes from. *)
Record keeps_room (addrs : list string) (s : server) (t : room) : Prop := {
  kr_clients : clients s = Some <$> joined t;
  kr_users a : is_Some (users s !! a) <-> a ∈ dom (joined t) ∪ gone t;
  kr_names a u : users s !! a = Some u -> u ∉ addrs;
  kr_addrs a : a ∈ dom (joined t) ∪ gone t -> a ∈ addrs;
}.

Lemma forward_loop_all m p (order : list (string * PID)) :
  forward_loop m (Some p) ((fun '(a, q) => (a, Some q)) <$> order) =
  ((fun q => ESend (Some q) m) <$> filter (fun q => Equals q p = false) order.*2, None).
Proof.
  induction order as [|[a q] order IH]; [done|]. rewrite !fmap_cons. cbn [forward_loop snd]. rewrite IH, filter_cons.
  destruct (Equals q p); by repeat case_decide.
Qed.

Lemma forward_loop_perm m p (clients : gmap string PID) :
  exists qs, forward_loop m (Some p) (range (Some <$> clients)) = ((fun q => ESend (Some q) m) <$> qs, None) /\
    qs ≡ₚ filter (fun q => Equals q p = false) (map_to_list clients).*2.
Proof.
  assert (Hp : range (Some <$> clients) ≡ₚ (fun '(a, q) => (a, Some q)) <$> map_to_list clients).
  { rewrite range_perm, map_to_list_fmap. apply reflexive_eq, list_fmap_ext. by intros _ [] _. }
  apply Permutation_map_inv in Hp as (order & Ho & Hp).
  change (range (Some <$> clients) = (fun '(a, q) => (a, Some q)) <$> order) in Ho.
  rewrite Ho, forward_loop_all. eexists. split; [done|]. by rewrite Hp.
Qed.

Lemma server_keeps_room addrs p m s t :
  keeps_room addrs s t -> Address p ∈ addrs -> names_ok addrs m ->
  let '(s', es, v) := server_receive s (say m) (Some p) in
  let '(t', to, crash) := room_step p m t in
  (if crash then v = Some (PVRuntime NilDeref) else v = None /\ keeps_room addrs s' t') /\
  (exists qs, es = (fun q => ESend (Some q) (say m)) <$> qs /\ qs ≡ₚ to).
Proof.
  intros [Hc Hu Hn Ha] Hp Hm. unfold server_receive, say. rewrite of_as_user. cbn [GetAddress].
  destruct m as [text u|u|]; cbn [room_step]; rewrite ?Hc.
  - unfold handleMessage. rewrite Hc. destruct (forward_loop_perm (as_user (chat_type (CMessage text u)) (CMessage text u)) p (joined t)) as (qs & -> & Hq).
    split; [by split|]. by exists qs.
  - rewrite lookup_fmap. case_decide as Hin.
    + assert (Hs : is_Some (users s !! Address p)) by by apply Hu. destruct Hs as [? ->].
      destruct (joined t !! Address p); (split; [by split|by exists []]).
    + destruct (joined t !! Address p) eqn:Hj; [by apply elem_of_dom_2 in Hj; set_solver|].
      destruct (users s !! Address p) eqn:Hus; [exfalso; apply Hin, Hu; by eexists|].
      split; [|by exists []]. split; [done|]. cbn [fmap option_fmap option_map]. split; cbn [clients users joined gone].
      * by rewrite fmap_insert.
      * intros a. rewrite dom_insert_L. destruct (decide (a = Address p)) as [->|Hne].
        { rewrite lookup_insert_eq. split; [set_solver|by eexists]. }
        rewrite lookup_insert_ne by done. rewrite Hu. set_solver.
      * intros a u'. rewrite lookup_insert_Some. intros [[_ <-]|[_ Hl]]; [done|by eapply Hn].
      * intros a. rewrite dom_insert_L. rewrite !elem_of_union, elem_of_singleton. intros [[->|Hd]|Hg]; [done|..]; apply Ha; set_solver.
  - rewrite lookup_fmap. destruct (joined t !! Address p) as [q|] eqn:Hj; cbn [fmap option_fmap option_map]; [|by split; [|exists []]].
    assert (Hs : is_Some (users s !! Address p)) by (apply Hu; apply elem_of_dom_2 in Hj; set_solver).
    destruct Hs as [u Hus]. rewrite Hus. split; [|by exists []]. split; [done|].
    assert (Hnu : forall a, a ∈ dom (joined t) ∪ gone t -> a <> u).
    { intros a Hd ->. by apply (Hn (Address p) u Hus), Ha. }
    assert (Hdom : dom (delete (Address p) (joined t)) ∪ ({[Address p]} ∪ gone t) = dom (joined t) ∪ gone t).
    { apply elem_of_dom_2 in Hj. rewrite dom_delete_L. apply set_eq. intros a. destruct (decide (a = Address p)); set_solver. }
    split; cbn [clients users joined gone]; rewrite ?Hdom.
    * by rewrite fmap_delete.
    * intros a. destruct (decide (a = u)) as [->|Hne].
      { rewrite lookup_delete_eq. split; [by intros []|]. intros Hd. by destruct (Hnu u Hd). }
      rewrite lookup_delete_ne by done. apply Hu.
    * intros a u' [_ Hl]%lookup_delete_Some. by eapply Hn.
    * exact Ha.
Qed.
End refinement.

(** What the server sent is what the room says, up to the order of ranging. *)
Fixpoint delivered (ms : list (PID * chat_msg)) (tos : list (list PID)) (ess : list (list ctx_effect)) : Prop :=
  match ms, tos, ess with
  | (_, m) :: ms, to :: tos, es :: ess =>
      (exists qs, es = (fun q => ESend (Some q) (say m)) <$> qs /\ qs ≡ₚ to) /\ delivered ms tos ess
  | _, [], [] => True
  | _, _, _ => False
  end.

Section histories.
Context `{Range}.

Lemma server_run_room addrs ms : forall s t,
  keeps_room addrs s t -> Forall (fun '(p, m) => Address p ∈ addrs /\ names_ok addrs m) ms ->
  let '(s', ess, v) := server_run ms s in
  let '(t', tos, crash) := room_run ms t in
  delivered ms tos ess /\ if crash then v = Some (PVRuntime NilDeref) else v = None /\ keeps_room addrs s' t'.
Proof.
  induction ms as [|[p m] ms IH]; intros s t Hk Hms; [done|]. apply Forall_cons in Hms as [[Hp Hm] Hms].
  pose proof (server_keeps_room addrs p m s t Hk Hp Hm) as Hst. cbn [server_run room_run].
  destruct (server_receive s (say m) (Some p)) as [[s1 es] v], (room_step p m t) as [[t1 to] []].
  - by destruct Hst as [-> _].
  - destruct Hst as [[-> Hk1] Hes]. specialize (IH s1 t1 Hk1 Hms).
    destruct (server_run ms s1) as [[s2 ess] v2], (room_run ms t1) as [[t2 tos] crash]. destruct IH as [Hd Ho].
    by split.
Qed.

Lemma keeps_new addrs : keeps_room addrs newServer (mkRoom ∅ ∅).
Proof. split; cbn; [by rewrite fmap_empty|..]; intros a; [rewrite lookup_empty; split; [by intros []|set_solver]|by rewrite lookup_empty|set_solver]. Qed.

(** Nobody is in the room and gone, and nobody who has gone comes back. *)
Lemma room_step_gone p m t t' to crash :
  room_step p m t = (t', to, crash) -> dom (joined t) ## gone t -> dom (joined t') ## gone t' /\ gone t ⊆ gone t'.
Proof.
  destruct m as [x u|u|]; cbn [room_step].
  - by intros [= <- <- <-].
  - case_decide; intros [= <- <- <-]; cbn [joined gone]; [done|]. rewrite dom_insert_L. set_solver.
  - destruct (joined t !! Address p); intros [= <- <- <-]; cbn [joined gone]; [|done]. rewrite dom_delete_L. set_solver.
Qed.

Lemma room_run_gone ms : forall t t' tos crash,
  room_run ms t = (t', tos, crash) -> dom (joined t) ## gone t -> dom (joined t') ## gone t' /\ gone t ⊆ gone t'.
Proof.
  induction ms as [|[p m] ms IH]; intros t t' tos crash; cbn [room_run]; [by intros [= <- <- <-]|].
  destruct (room_step p m t) as [[t1 to] c] eqn:Hs. intros Hr Hd. destruct (room_step_gone _ _ _ _ _ _ Hs Hd) as [Hd1 Hg1].
  destruct c; [by injection Hr as <- <- <-|]. destruct (room_run ms t1) as [[t2 tos2] c2] eqn:Hr2. injection Hr as <- <- <-.
  destruct (IH _ _ _ _ Hr2 Hd1). split; [done|]. by etrans.
Qed.

Lemma room_run_app ms1 ms2 t :
  room_run (ms1 ++ ms2) t =
  let '(t1, tos1, crash) := room_run ms1 t in
  if crash then (t1, tos1, true) else let '(t2, tos2, crash) := room_run ms2 t1 in (t2, tos1 ++ tos2, crash).
Proof.
  revert t. induction ms1 as [|[p m] ms1 IH]; intros t; cbn [app room_run]; [by destruct (room_run ms2 t) as [[??]?]|].
  destruct (room_step p m t) as [[t1 to] []]; [done|]. rewrite IH. destruct (room_run ms1 t1) as [[t2 tos] []]; [done|].
  by destruct (room_run ms2 t2) as [[t3 tos2] c].
Qed.
End histories.

(** ** Correctness of the example *)

(** The chat server keeps a room.  Whatever messages come, with senders and
    user names that are no address, the server does what the room does until it
    crashes, and crashes exactly when the room says: a message goes once to
    everybody in the room but its sender, [Connect] lets in an address that was
    never there, [Disconnect] of an address that is not in the room is a nil
    dereference.  And who has left does not come back: the entry of [users] that
    should go with the client stays, so a later [Connect] is refused. *)
Theorem chat_server_refines_room `{Range} (ms : list (PID * chat_msg))
    (Hnames : Forall (names_ok (Address <$> ms.*1)) ms.*2) :
  let '(s, ess, v) := server_run ms newServer in
  let '(t, tos, crash) := room_run ms (mkRoom ∅ ∅) in
  delivered ms tos ess /\
  (if crash then v = Some (PVRuntime NilDeref) else v = None /\ clients s = Some <$> joined t) /\
  (forall before p after, ms = before ++ (p, CDisconnect) :: after -> v = None -> clients s !! Address p = None).
Proof.
  set (addrs := Address <$> ms.*1) in *.
  assert (Hall : Forall (fun '(p, m) => Address p ∈ addrs /\ names_ok addrs m) ms).
  { rewrite Forall_forall in Hnames. apply Forall_forall. intros [p m] Hin. split; [|by apply Hnames, (list_elem_of_fmap_2 snd _ _ Hin)].
    by apply (list_elem_of_fmap_2 Address), (list_elem_of_fmap_2 fst _ _ Hin). }
  pose proof (server_run_room addrs ms newServer (mkRoom ∅ ∅) (keeps_new addrs) Hall) as Hrun.
  destruct (server_run ms newServer) as [[s ess] v], (room_run ms (mkRoom ∅ ∅)) as [[t tos] crash] eqn:Hr.
  destruct Hrun as [Hd Ho]. split; [exact Hd|]. split; [destruct crash; [exact Ho|]; destruct Ho as [Hv Hk]; split; [exact Hv|apply (kr_clients _ _ _ Hk)]|].
  intros before p after -> ->. destruct crash; [done|]. destruct Ho as [_ Hk].
  rewrite room_run_app in Hr. destruct (room_run before (mkRoom ∅ ∅)) as [[t1 tos1] []] eqn:Hr1; [done|].
  destruct (room_run_gone _ _ _ _ _ Hr1) as [Hd1 _]; [set_solver|]. cbn [room_run] in Hr.
  destruct (room_step p CDisconnect t1) as [[t2 to] c] eqn:Hs. destruct c; [done|].
  destruct (room_step_gone _ _ _ _ _ _ Hs Hd1) as [Hd2 _].
  destruct (room_run after t2) as [[t3 tos3] c] eqn:Hr3. injection Hr as -> _ _.
  destruct (room_run_gone _ _ _ _ _ Hr3 Hd2) as [Hd3 Hg3].
  assert (Hg : Address p ∈ gone t2).
  { cbn [room_step] in Hs. destruct (joined t1 !! Address p); [|done]. injection Hs as <- _. set_solver. }
  rewrite (kr_clients _ _ _ Hk), lookup_fmap. destruct (joined t !! Address p) eqn:Hj; [|done].
  apply elem_of_dom_2 in Hj. set_solver.
Qed.

Definition demo_a : PID := NewPID "10.0.0.1:5000" "client/ann".
Definition demo_b : PID := NewPID "10.0.0.2:5000" "client/bob".

Lemma chat_server_refines_room_witness :
  let ms := [(demo_a, CConnect "ann"); (demo_b, CConnect "bob"); (demo_a, CMessage "hi" "ann"); (demo_a, CDisconnect);
    (demo_a, CConnect "ann"); (demo_b, CMessage "?" "bob")] in
  let '(s, ess, v) := @server_run map_order ms newServer in
  let '(t, tos, crash) := room_run ms (mkRoom ∅ ∅) in
  tos = [[]; []; [demo_b]; []; []; []] /\ delivered ms tos ess /\ crash = false /\
  clients s !! Address demo_a = None.
Proof.
  set (ms := [(demo_a, CConnect "ann"); (demo_b, CConnect "bob"); (demo_a, CMessage "hi" "ann"); (demo_a, CDisconnect);
    (demo_a, CConnect "ann"); (demo_b, CMessage "?" "bob")]). intros ms'. subst ms'.
  pose proof (@chat_server_refines_room map_order ms) as Hthm.
  assert (Hn : Forall (names_ok (Address <$> ms.*1)) ms.*2) by (apply (bool_decide_unpack _); vm_compute; exact I).
  specialize (Hthm Hn). destruct (server_run ms newServer) as [[s ess] v] eqn:Hs.
  destruct (room_run ms (mkRoom ∅ ∅)) as [[t tos] crash] eqn:Hr.
  destruct Hthm as (Hd & Hc & Hgone). vm_compute in Hr. injection Hr as <- <- <-. destruct Hc as [Hv _].
  split; [reflexivity|]. split; [exact Hd|]. split; [reflexivity|].
  exact (Hgone (take 3 ms) demo_a (drop 4 ms) eq_refl Hv).
Defined.

(** ** A stranger *)

Section stranger.
Context `{Range}.
Variable address : string.     (* of the engine *)
Variable a : string.           (* of the stranger *)

(** A chat message, and no [Connect] from the address. *)
Definition unconnected (e : Envelope) : Prop :=
  exists m, Msg e = say m /\ forall u, m = CConnect u -> GetAddress (Sender e) <> a.
Definition stray (e : Envelope) : bool :=
  match of_user (Msg e) with Some CDisconnect => bool_decide (GetAddress (Sender e) = a) | _ => false end.
Definition absent (s : server) : Prop := clients s !! a = None.

Lemma server_handlers f : handlers (server_opts address) f -> f = server_receive.
Proof. by intros [->| ->]. Qed.

Lemma forward_loop_internal m s order v : (forward_loop m s order).2 = Some v -> v = PVRuntime NilDeref.
Proof.
  induction order as [|[b pid] order IH]; [done|]. cbn [forward_loop].
  destruct pid as [p|], s as [s|]; try (by intros [= <-]). destruct (forward_loop m (Some s) order). exact IH.
Qed.

Lemma server_panics s m sender v : (server_receive s m sender).2 = Some v -> v = PVRuntime NilDeref.
Proof.
  unfold server_receive, handleMessage. destruct (of_user m) as [[]|]; [|destruct (clients s !! GetAddress sender), (users s !! GetAddress sender); done| |done].
  - pose proof (forward_loop_internal m sender (range (clients s)) v) as Hl. by destruct (forward_loop m sender _).
  - destruct (clients s !! GetAddress sender) as [[p|]|]; [| |by intros [= <-]];
      destruct (users s !! GetAddress sender); cbn; try done; by intros [= <-].
Qed.

Lemma server_no_internal : no_internal server_receive.
Proof. intros s m sender v ->%server_panics. done. Qed.

Lemma server_volatile e : unconnected e -> volatile (server_opts address) absent stray e.
Proof.
  intros (m & Hm & Hc). unfold volatile, stray. rewrite Hm. split; [done|]. intros f ->%server_handlers s Hs.
  unfold say. rewrite of_as_user. unfold server_receive. rewrite of_as_user. destruct m as [x u|u|].
  - by destruct (handleMessage _ _ _).
  - specialize (Hc u eq_refl). destruct (clients s !! _); [done|]. destruct (users s !! _); [done|].
    cbn. unfold absent; cbn. by rewrite lookup_insert_ne.
  - case_bool_decide as Ha.
    + unfold absent in Hs. rewrite Ha, Hs. by eexists.
    + destruct (clients s !! _); [|done]. destruct (users s !! _); [|done]. unfold absent; cbn.
      by rewrite lookup_delete_ne.
Qed.

Lemma server_lifecycle s m sender : is_lifecycle m = true -> (server_receive s m sender).1.1 = s.
Proof. by destruct m. Qed.
End stranger.

(** Anybody can end the server's program.  If the server has restarts left for
    fewer [Disconnect] messages than come from an address that is not connected
    (three, from the start), among any other chat messages and whatever the
    batches, the program crashes (or hangs, but only if an actor does not stop when
    poisoned): each of them panics in the branch that was meant
    to log a warning, and a restarted server knows nobody. *)
Theorem chat_stranger_crashes `{Range} (address a : string) range_children poison_done
    (batches : list (list Envelope)) (fuel : nat) (p : process server)
    (Hrestarts : 0 <= restarts p <= defaultMaxRestarts)
    (Habsent : forall s, receiver p = Some s -> absent a s)
    (Hmsgs : Forall (Forall (unconnected a)) batches)
    (Hmany : defaultMaxRestarts - restarts p < bombs (stray a) (concat batches))
    (Hfuel : defaultMaxRestarts <= Z.of_nat fuel) :
  exists p' o, invoke_batches (server_opts address) range_children poison_done fuel batches p = (p', o) /\
    ((exists v, o = Panics v /\ internal v = false) \/ (o = Blocks /\ exists c, poison_done c = false)).
Proof.
  unfold defaultMaxRestarts in *.
  assert (Hleft : restarts_left (server_opts address) p = 3 - restarts p).
  { unfold restarts_left, two32. cbn [server_opts MaxRestarts]. unfold defaultMaxRestarts. apply Z.mod_small. lia. }
  apply (doomed_batches (server_opts address) range_children poison_done server_no_internal server_no_internal)
    with (good := absent a) (bomb := stray a); rewrite ?Hleft; try done.
  - intros n s [= <-]. apply lookup_empty.
  - intros f ->%server_handlers s m sender Hs Hl. by rewrite server_lifecycle.
  - unfold two31. lia.
  - eapply Forall_impl; [exact Hmsgs|]. intros msgs Hm. eapply Forall_impl; [exact Hm|]. intros e. apply server_volatile.
  - lia.
Qed.

Lemma chat_stranger_crashes_witness :
  let opts := @server_opts map_order "10.0.0.9:4000" in
  let started := (Process.Start opts demo_children demo_done 1 Process.newProcess).1 in
  let from p m := mkEnvelope (say m) (Some p) in
  let batches := [[from demo_a (CConnect "ann"); from demo_b CDisconnect]; [from demo_b CDisconnect; from demo_a (CMessage "hi" "ann")];
    [from demo_b CDisconnect]; [from demo_b CDisconnect]] in
  exists p' o, invoke_batches opts demo_children demo_done 3 batches started = (p', o) /\
    ((exists v, o = Panics v /\ internal v = false) \/ (o = Blocks /\ exists c, demo_done c = false)).
Proof.
  cbv zeta. apply (@chat_stranger_crashes map_order "10.0.0.9:4000" "10.0.0.2:5000" demo_children demo_done _ 3).
  - vm_compute. split; discriminate.
  - intros s Hs. vm_compute in Hs. injection Hs as <-. reflexivity.
  - repeat constructor; eexists; (split; [reflexivity|]); intros u Hu; discriminate.
  - vm_compute. reflexivity.
  - vm_compute. discriminate.
Defined.

(** ** The client's program *)

(** What the client says before it quits. *)
Fixpoint typed (lines : list string) : list string :=
  match lines with
  | [] => []
  | line :: lines => if String.eqb line "quit" then [] else line :: typed lines
  end.

(** Nothing but the outbox of the engine has changed. *)
Definition sent_off (sends : list remote_send) (e : Engine) : Engine :=
  foldl (fun e m => to_remote m e) e sends.

Lemma remote_SendWithSender fuel t msg sender e :
  remote e = true -> Address t <> address e ->
  SendWithSender fuel (Some t) msg sender e = Returns (to_remote (mkRemoteSend false t msg sender) e).
Proof.
  intros Hr Ha. unfold SendWithSender, send, send_with, isLocalMessage. rewrite bool_decide_false by done. by rewrite Hr.
Qed.

Lemma scan_sends fuel username srv cl lines : forall e,
  remote e = true -> Address srv <> address e ->
  scan fuel username srv cl lines e =
    Returns (sent_off ((fun l => mkRemoteSend false srv (say (CMessage l username)) (Some cl)) <$> typed lines) e).
Proof.
  induction lines as [|l lines IH]; intros e Hr Ha; [done|]. cbn [scan typed]. destruct (String.eqb l "quit"); [done|].
  rewrite remote_SendWithSender by done. cbn [obind]. rewrite IH by done. by rewrite fmap_cons.
Qed.

Lemma sent_off_outbox sends : forall e, outbox (sent_off sends e) = outbox e ++ sends /\ same_shape e (sent_off sends e) /\
  registry (sent_off sends e) = registry e.
Proof.
  induction sends as [|m sends IH]; intros e; [cbn; by rewrite app_nil_r|].
  change (sent_off (m :: sends) e) with (sent_off sends (to_remote m e)).
  destruct (IH (to_remote m e)) as (-> & (H1 & H2 & H3) & ->). cbn. by rewrite <-app_assoc.
Qed.

(** The client tells the server every line up to the first ["quit"], in order and
    under its own PID, then that it leaves, and then it is poisoned. *)
Theorem chat_client_says (fuel : nat) (username : string) (srv cl : PID) (lines : list string) (e : Engine)
    (Hwf : wf e) (Hremote : remote e = true) (Hsrv : Address srv <> address e) (Hcl : is_Some (mailbox e (ID cl))) :
  exists e' c, client_main (S fuel) username srv cl lines e = Returns (e', c) /\
    outbox e' = outbox e ++ ((fun m => mkRemoteSend false srv (say m) (Some cl)) <$>
      (((fun l => CMessage l username) <$> typed lines) ++ [CDisconnect])) /\
    exists q, mailbox e (ID cl) = Some q /\ mailbox e' (ID cl) = Some (q ++ [mkEnvelope (APoisonPill true (Some c)) None]).
Proof.
  unfold client_main. rewrite scan_sends by done. cbn [obind]. rewrite fmap_app, <-list_fmap_compose.
  set (sends := _ <$> typed lines). destruct (sent_off_outbox sends e) as (Ho & (Ha & Hr & Hes) & Hreg).
  rewrite remote_SendWithSender by congruence. cbn [obind]. set (e1 := to_remote _ _).
  destruct Hcl as [q Hq]. destruct (mailbox_spec e (ID cl) q (proj1 Hwf) Hq) as (pid & Hl & Hid & _).
  unfold Poison. rewrite sendPoisonPill_eq. cbn [get]. unfold SendLocal, send_local. cbn [get].
  assert (Hl1 : registry e1 !! ID cl = Some (PMailbox pid q)) by (cbn; by rewrite Hreg).
  rewrite Hl1. change (registry (fresh_ref e1).2) with (registry e1). rewrite Hl1. cbn [proc_send obind].
  eexists _, _. split; [done|]. cbn [set_registry outbox fresh_ref snd e1 to_remote]. split.
  - unfold e1, fresh_ref; cbn. rewrite Ho, <-app_assoc. by f_equal.
  - exists q. split; [done|]. unfold mailbox; cbn. by rewrite Hid, lookup_insert_eq.
Qed.
