(* ===== verification/Trade.v ===== *)
(** * The trade-engine example ([examples/trade-engine])

    Three actors: the trade engine takes orders and spawns, per order, an executor
    and, per pair of tokens, a price watcher that sends it prices.  Their handlers
    run on the state of [Engine]; an actor's own state is a record. *)

From Stdlib Require Import Ascii.
From stdpp Require Import countable gmap.
From S2P Require Import Prelude Net Pid Messages Process Engine Repeater OnEngine.

(** ** Messages ([types/types.go]) *)

(** [Expires] is [None] for the zero time. *)
Record TradeOrderRequest := mkOrder {
  TradeID : string; Token0 : string; Token1 : string; Chain : string; Wallet : string; PrivateKey : string;
  Expires : option Z;
}.

(** A price is a [float64]; the ones live integers are. *)
Inductive trade_msg :=
  | MTradeOrderRequest (o : TradeOrderRequest)
  | MCancelOrderRequest (TradeID : string)
  | MTradeInfoRequest (TradeID : string)
  | MTradeInfoResponse (Foo Bar Price : Z)
  | MPriceUpdate (Ticker : string) (UpdatedAt Price : Z)
  | MSubscribe (Sendto : pid_ptr)
  | MUnsubscribe (Sendto : pid_ptr)
  | MTriggerPriceUpdate.

#[export] Instance TradeOrderRequest_eq_dec : EqDecision TradeOrderRequest.
Proof. solve_decision. Defined.
#[export] Instance TradeOrderRequest_countable : Countable TradeOrderRequest.
Proof.
  by refine (inj_countable' (fun o => (TradeID o, Token0 o, Token1 o, Chain o, Wallet o, PrivateKey o, Expires o))
    (fun '(i, t0, t1, c, w, k, x) => mkOrder i t0 t1 c w k x) _); intros [].
Defined.
#[export] Instance trade_msg_eq_dec : EqDecision trade_msg.
Proof. solve_decision. Defined.
#[export] Instance trade_msg_countable : Countable trade_msg.
Proof.
  by refine (inj_countable' (fun m => match m with
    | MTradeOrderRequest o => inl (inl (inl o)) | MCancelOrderRequest i => inl (inl (inr i))
    | MTradeInfoRequest i => inl (inr (inl i)) | MTradeInfoResponse f b p => inl (inr (inr (f, b, p)))
    | MPriceUpdate t u p => inr (inl (inl (t, u, p))) | MSubscribe s => inr (inl (inr s))
    | MUnsubscribe s => inr (inr (inl s)) | MTriggerPriceUpdate => inr (inr (inr ())) end)
    (fun s => match s with
    | inl (inl (inl o)) => MTradeOrderRequest o | inl (inl (inr i)) => MCancelOrderRequest i
    | inl (inr (inl i)) => MTradeInfoRequest i | inl (inr (inr (f, b, p))) => MTradeInfoResponse f b p
    | inr (inl (inl (t, u, p))) => MPriceUpdate t u p | inr (inl (inr s)) => MSubscribe s
    | inr (inr (inl s)) => MUnsubscribe s | inr (inr (inr _)) => MTriggerPriceUpdate end) _); intros [].
Defined.

Definition type_of (m : trade_msg) : string :=
  match m with
  | MTradeOrderRequest _ => "types.TradeOrderRequest" | MCancelOrderRequest _ => "types.CancelOrderRequest"
  | MTradeInfoRequest _ => "types.TradeInfoRequest" | MTradeInfoResponse _ _ _ => "types.TradeInfoResponse"
  | MPriceUpdate _ _ _ => "types.PriceUpdate" | MSubscribe _ => "types.Subscribe"
  | MUnsubscribe _ => "types.Unsubscribe" | MTriggerPriceUpdate => "types.TriggerPriceUpdate"
  end.
Definition msg (m : trade_msg) : any := as_user (type_of m) m.

(** ** The price watcher ([actors/price/price.go]) *)

Record priceWatcher := mkWatcher {
  pw_PID : option PID;                               (* and the engine, set together *)
  pw_repeater : option (SendRepeater * repeater_state);
  pw_ticker : string;
  pw_lastPrice : Z;
  pw_updatedAt : Z;
  pw_subscribers : gmap Z PID;                       (* by pointer *)
}.

Definition NewPriceActor (ticker : string) : priceWatcher := mkWatcher None None ticker 0 0 ∅.

Definition pw_started (self : PID) (sr : SendRepeater * repeater_state) (w : priceWatcher) : priceWatcher :=
  mkWatcher (Some self) (Some sr) (pw_ticker w) (pw_lastPrice w) (pw_updatedAt w) (pw_subscribers w).
Definition pw_set_repeater (sr : SendRepeater * repeater_state) (w : priceWatcher) : priceWatcher :=
  mkWatcher (pw_PID w) (Some sr) (pw_ticker w) (pw_lastPrice w) (pw_updatedAt w) (pw_subscribers w).
Definition pw_set_price (p now : Z) (w : priceWatcher) : priceWatcher :=
  mkWatcher (pw_PID w) (pw_repeater w) (pw_ticker w) p now (pw_subscribers w).
Definition pw_set_subscribers (s : gmap Z PID) (w : priceWatcher) : priceWatcher :=
  mkWatcher (pw_PID w) (pw_repeater w) (pw_ticker w) (pw_lastPrice w) (pw_updatedAt w) s.

(** An operation of the engine from a handler; a nil engine panics. *)
Definition poison_self (fuel : nat) (pid : option PID) (e : Engine) : outcome Engine :=
  match pid with
  | None => Panics (PVRuntime NilDeref)
  | Some _ => obind (Poison fuel pid e) (fun '(e, _) => Returns e)
  end.

Definition Kill (fuel : nat) (w : priceWatcher) (e : Engine) : outcome (priceWatcher * Engine) :=
  match pw_repeater w with
  | None => Panics (PVRuntime CloseOfNil)
  | Some (sr, s) =>
      obind (act_step fuel sr Stop s e) (fun '(s, e) =>
      obind (poison_self fuel (pw_PID w) e) (fun e => Returns (pw_set_repeater (sr, s) w, e)))
  end.

Fixpoint send_all (fuel : nat) (targets : list PID) (m : any) (e : Engine) : outcome Engine :=
  match targets with
  | [] => Returns e
  | t :: ts => obind (Send fuel (Some t) m e) (send_all fuel ts m)
  end.

Section watcher.
(** The subscribers in the order they are ranged over. *)
Variable range_subscribers : gmap Z PID -> list PID.

Definition refresh (fuel : nat) (now : Z) (w : priceWatcher) (e : Engine) : outcome (priceWatcher * Engine) :=
  obind (if (size (pw_subscribers w) =? 0)%nat then Kill fuel w e else Returns (w, e)) (fun '(w, e) =>
  let w := pw_set_price (float64_of (pw_lastPrice w + 2)) now w in
  obind (send_all fuel (range_subscribers (pw_subscribers w)) (msg (MPriceUpdate (pw_ticker w) (pw_updatedAt w) (pw_lastPrice w))) e)
    (fun e => Returns (w, e))).

Definition pw_receive (fuel : nat) (self : PID) (now : Z) (m : any) (w : priceWatcher) (e : Engine)
  : outcome (priceWatcher * Engine) :=
  match m with
  | AStarted =>
      obind (SendRepeat (Some self) (msg MTriggerPriceUpdate) 200000000) (fun sr => Returns (pw_started self sr w, e))
  | _ =>
      match of_user m with
      | Some (MSubscribe p) => Returns (pw_set_subscribers (<[loc p := deref p]> (pw_subscribers w)) w, e)
      | Some (MUnsubscribe p) => Returns (pw_set_subscribers (delete (loc p) (pw_subscribers w)) w, e)
      | Some MTriggerPriceUpdate => refresh fuel now w e
      | _ => Returns (w, e)
      end
  end.
End watcher.

(** ** The executor ([actors/executor/executor.go]) *)

Record ExecutorOptions := mkExecutorOptions {
  eo_PriceWatcherPID : PID; eo_TradeID : string; eo_Ticker : string; eo_Token0 : string; eo_Token1 : string;
  eo_Chain : string; eo_Wallet : string; eo_Pk : string; eo_Expires : option Z;
}.

Record tradeExecutor := mkExecutor {
  te_opts : ExecutorOptions;
  te_PID : option pid_ptr;       (* and the engine, set together *)
  te_status : string;
  te_lastPrice : Z;
}.

Definition NewExecutorActor (opts : ExecutorOptions) : tradeExecutor := mkExecutor opts None "active" 0.

Definition Finished (fuel : nat) (t : tradeExecutor) (e : Engine) : outcome Engine :=
  match te_PID t with
  | None => Panics (PVRuntime NilDeref)
  | Some p =>
      obind (Send fuel (Some (eo_PriceWatcherPID (te_opts t))) (msg (MUnsubscribe p)) e)
        (poison_self fuel (Some (deref p)))
  end.

Definition expired (now : Z) (t : tradeExecutor) : bool :=
  match eo_Expires (te_opts t) with Some x => x <? now | None => false end.

Definition processUpdate (fuel : nat) (now price : Z) (t : tradeExecutor) (e : Engine) : outcome (tradeExecutor * Engine) :=
  if expired now t then obind (Finished fuel t e) (fun e => Returns (t, e))
  else Returns (mkExecutor (te_opts t) (te_PID t) (te_status t) price, e).

Definition te_receive (fuel : nat) (self : pid_ptr) (sender : option PID) (now : Z) (m : any) (t : tradeExecutor)
    (e : Engine) : outcome (tradeExecutor * Engine) :=
  match m with
  | AStarted =>
      obind (Send fuel (Some (eo_PriceWatcherPID (te_opts t))) (msg (MSubscribe self)) e) (fun e =>
      Returns (mkExecutor (te_opts t) (Some self) (te_status t) (te_lastPrice t), e))
  | _ =>
      match of_user m with
      | Some (MPriceUpdate _ _ price) => processUpdate fuel now price t e
      | Some (MTradeInfoRequest _) =>
          obind (Respond fuel sender (msg (MTradeInfoResponse 100 100 (te_lastPrice t))) e) (fun e => Returns (t, e))
      | Some (MCancelOrderRequest _) =>
          let t := mkExecutor (te_opts t) (te_PID t) "cancelled" (te_lastPrice t) in
          obind (Finished fuel t e) (fun e => Returns (t, e))
      | _ => Returns (t, e)
      end
  end.

(** ** The trade engine ([actors/tradeEngine/tradeEngine.go]) *)

Definition toTicker (token0 token1 chain : string) : string := token0 +:+ "-" +:+ token1 +:+ "-" +:+ chain.

(** What a handler of the trade engine has: its PID, its children, the sender, and
    what the runtime chooses: random ids, the address of a new PID, and how
    waiting for a response goes ([meanwhile] is what others do). *)
Record call_env := mkEnv {
  ce_self : PID;
  ce_sender : option PID;
  ce_rnd_watcher : string; ce_rnd_executor : string; ce_rnd_response : string;
  ce_loc : Z;
  ce_meanwhile : Engine -> Engine;
  ce_expired : bool; ce_prefer_ctx : bool;
}.

Section trade_engine.
Variable fuel : nat.
Variable env : call_env.

Definition child_pid (name rnd : string) (e : Engine) : PID :=
  NewPID (address e) (ID (ce_self env) +:+ pidSeparator +:+ name +:+ pidSeparator +:+ rnd).

Definition ensurePriceWatcher (o : TradeOrderRequest) (children : gmap string PID) (e : Engine)
  : outcome (Engine * PID * gmap string PID) :=
  let ticker := toTicker (Token0 o) (Token1 o) (Chain o) in
  match children !! ("trade-engine/" +:+ ticker) with
  | Some pid => Returns (e, pid, children)
  | None =>
      let self := child_pid ticker (ce_rnd_watcher env) e in
      SpawnChild fuel (ce_self env) children ticker "" (ce_rnd_watcher env)
        (start_child fuel self (fun e => obind (pw_receive (fun s => (map_to_list s).*2) fuel self 0 AStarted (NewPriceActor ticker) e)
           (fun '(_, e) => Returns e))) e
  end.

Definition executor_options (o : TradeOrderRequest) (pricePID : PID) : ExecutorOptions :=
  mkExecutorOptions pricePID (TradeID o) (toTicker (Token0 o) (Token1 o) (Chain o)) (Token0 o) (Token1 o) (Chain o)
    (Wallet o) (PrivateKey o) (Expires o).

Definition spawnExecutor (o : TradeOrderRequest) (children : gmap string PID) (e : Engine)
  : outcome (gmap string PID * Engine) :=
  obind (ensurePriceWatcher o children e) (fun '(e, pricePID, children) =>
  let self := mkPtr (ce_loc env) (child_pid (TradeID o) (ce_rnd_executor env) e) in
  obind (SpawnChild fuel (ce_self env) children (TradeID o) "" (ce_rnd_executor env)
    (start_child fuel (deref self) (fun e =>
       obind (te_receive fuel self None 0 AStarted (NewExecutorActor (executor_options o pricePID)) e) (fun '(_, e) => Returns e))) e)
    (fun '(e, _, children) => Returns (children, e))).

Definition cancelOrder (id : string) (children : gmap string PID) (e : Engine) : outcome Engine :=
  match children !! ("trade-engine/" +:+ id) with
  | None => Returns e
  | Some pid => Context_Send fuel (ce_self env) (Some pid) (msg (MCancelOrderRequest "")) e
  end.

Definition handleTradeInfoRequest (id : string) (children : gmap string PID) (e : Engine) : outcome Engine :=
  match children !! ("trade-engine/" +:+ id) with
  | None => Returns e
  | Some pid =>
      obind (Context_Request fuel (Some pid) (msg (MTradeInfoRequest "")) (ce_rnd_response env) e) (fun '(e, resp) =>
      match resp with
      | PResponse rp c =>
          obind (Result rp c (ce_expired env) (ce_prefer_ctx env) (ce_meanwhile env e)) (fun '(e, res) =>
          match res with
          | Some m =>
              match of_user m with
              | Some (MTradeInfoResponse _ _ _) => Respond fuel (ce_sender env) m e
              | _ => Returns e
              end
          | None => Returns e
          end)
      | PMailbox _ _ => Returns e
      end)
  end.

Definition trade_receive (m : any) (children : gmap string PID) (e : Engine) : outcome (gmap string PID * Engine) :=
  match of_user m with
  | Some (MTradeOrderRequest o) => spawnExecutor o children e
  | Some (MCancelOrderRequest id) => obind (cancelOrder id children e) (fun e => Returns (children, e))
  | Some (MTradeInfoRequest id) => obind (handleTradeInfoRequest id children e) (fun e => Returns (children, e))
  | _ => Returns (children, e)
  end.
End trade_engine.

(** ** The names of the children *)

Definition slashless (s : string) : Prop := "/"%char ∉ String.list_ascii_of_string s.
#[export] Instance slashless_dec s : Decision (slashless s).
Proof. unfold slashless. apply _. Defined.

(** An id below that of [self], as [SpawnChild] makes it. *)
Definition own (self : PID) (id : string) : Prop :=
  exists name rnd, id = ID self +:+ pidSeparator +:+ name +:+ pidSeparator +:+ rnd.

Lemma own_hidden self rnd id :
  ID self = "trade-engine/" +:+ rnd -> slashless id -> ~ own self ("trade-engine/" +:+ id).
Proof.
  intros Hid Hs (name & r & Heq). rewrite Hid, string_app_assoc in Heq. apply (inj (String.append "trade-engine/")) in Heq.
  apply Hs. rewrite Heq, !list_ascii_app. apply elem_of_app. right. apply elem_of_app. left. by left.
Qed.

(** A well-formed engine where no response has an id below that of [self]. *)
Definition calm (self : PID) (e : Engine) : Prop :=
  wf e /\ forall id p c, registry e !! id = Some (PResponse p c) -> ~ own self id.
Definition goes (self : PID) (e e' : Engine) : Prop := same_shape e e' /\ calm self e'.

Section calm.
Variable self : PID.
Implicit Types (e : Engine).

Lemma goes_trans e1 e2 e3 : goes self e1 e2 -> goes self e2 e3 -> goes self e1 e3.
Proof. intros [(?&?&?) _] [(?&?&?) ?]. split; [|done]. unfold same_shape. split_and!; congruence. Qed.

Lemma goes_delivers priority id env e e' : calm self e -> delivers priority id env e e' -> goes self e e'.
Proof.
  intros [Hwf Hc] Hd. destruct (delivers_wf _ _ _ _ _ Hwf Hd) as [Hs Hwf']. split; [exact Hs|]. split; [exact Hwf'|].
  destruct Hd as ((pid & q & _ & Hq') & Hother & _). intros id' p c Hl.
  destruct (decide (id' = id)) as [->|Hne]; [by rewrite Hq' in Hl|]. rewrite Hother in Hl by done. by eapply Hc.
Qed.

Lemma goes_published m e e' : calm self e -> published m e e' -> goes self e e'.
Proof. unfold published. intros Hc. destruct (eventStream e); [by apply goes_delivers|]. by intros ->. Qed.

Lemma goes_broadcast fuel m e : calm self e -> exists e', BroadcastEvent (S fuel) m e = Returns e' /\ goes self e e'.
Proof.
  intros Hc. destruct (BroadcastEvent_ok fuel m e (proj1 Hc)) as (e' & He & Hp). exists e'. split; [exact He|].
  by eapply goes_published.
Qed.

Lemma goes_send fuel t m sender e :
  calm self e -> own self (ID t) -> exists e', send (S fuel) (Some t) m sender e = Returns e' /\ goes self e e'.
Proof.
  intros Hc Ho. pose proof (send_with_arrives false fuel (Some t) m sender e (proj1 Hc)) as Ha. unfold send, destination_of in *.
  destruct (decide (Address t = address e)).
  - destruct (registry e !! ID t) as [[pid q|p c]|] eqn:Hl; cbn [arrives] in Ha.
    + destruct Ha as (e' & -> & Hd). exists e'. split; [done|]. by eapply goes_delivers.
    + by destruct (proj2 Hc _ _ _ Hl).
    + destruct Ha as (e' & -> & Hp). exists e'. split; [done|]. by eapply goes_published.
  - destruct (remote e); cbn [arrives] in Ha.
    + rewrite Ha. eexists. split; [done|]. split; [done|]. by destruct Hc as [[? ?] ?].
    + destruct Ha as (e' & -> & Hp). exists e'. split; [done|]. by eapply goes_published.
Qed.

Lemma goes_register pid e :
  calm self e -> Address pid = address e -> registry e !! ID pid = None ->
  goes self e (set_registry (<[ID pid := PMailbox pid []]> (registry e)) e).
Proof.
  intros [Hwf Hc] Ha Hl. pose proof (add_fine 0 (PMailbox pid []) e Hwf Ha) as Hf. unfold add in Hf. cbn [proc_PID] in Hf.
  rewrite Hl in Hf. destruct Hf as [Hs Hwf']. split; [exact Hs|]. split; [exact Hwf'|].
  intros id p c. cbn [registry set_registry]. intros [[_ ?]|[_ Hid]]%lookup_insert_Some; [done|]. by eapply Hc.
Qed.

Lemma goes_SpawnChild fuel env children name rnd start e :
  ce_self env = self -> calm self e ->
  (forall e1, goes self e e1 -> exists e2, start e1 = Returns e2 /\ goes self e1 e2) ->
  let pid := child_pid env name rnd e in
  exists e', SpawnChild (S fuel) self children name "" rnd start e = Returns (e', pid, <[ID pid := pid]> children) /\
    goes self e e' /\ (registry e !! ID pid = None -> exists e1, registry e1 !! ID pid = Some (PMailbox pid []) /\ start e1 = Returns e').
Proof.
  intros Hself Hc Hstart pid. unfold SpawnChild, Spawn, SpawnProc, add. cbn [String.length Nat.eqb proc_PID].
  assert (Hpid : NewPID (address e) ((ID self +:+ pidSeparator +:+ name) +:+ pidSeparator +:+ rnd) = pid).
  { unfold pid, child_pid. by rewrite Hself, !string_app_assoc. }
  rewrite Hpid. destruct (registry e !! ID pid) eqn:Hl.
  - destruct (goes_broadcast fuel (AActorDuplicateIdEvent pid) e Hc) as (e' & -> & Hg). cbn [obind]. by exists e'.
  - pose proof (goes_register pid e Hc eq_refl Hl) as Hg1. destruct (Hstart _ Hg1) as (e' & He & Hg2). rewrite He. cbn [obind].
    exists e'. split; [done|]. split; [exact (goes_trans _ _ _ Hg1 Hg2)|]. intros _. eexists. split; [|exact He]. apply lookup_insert_eq.
Qed.

Lemma goes_start_child fuel pid started e :
  calm self e -> (forall e1, goes self e e1 -> exists e2, started e1 = Returns e2 /\ goes self e1 e2) ->
  exists e', start_child (S fuel) pid started e = Returns e' /\ goes self e e'.
Proof.
  intros Hc Hs. unfold start_child. destruct (goes_broadcast fuel (AActorInitializedEvent pid) e Hc) as (e1 & -> & Hg1). cbn [obind].
  destruct (Hs e1 Hg1) as (e2 & -> & Hg2). cbn [obind].
  destruct (goes_broadcast fuel (AActorStartedEvent pid) e2 (proj2 Hg2)) as (e3 & -> & Hg3).
  exists e3. split; [done|]. exact (goes_trans _ _ _ Hg1 (goes_trans _ _ _ Hg2 Hg3)).
Qed.
End calm.

(** ** What the trade engine does with its messages *)

Fixpoint trade_run (fuel : nat) (hs : list (call_env * trade_msg)) (children : gmap string PID) (e : Engine)
  : outcome (gmap string PID * Engine) :=
  match hs with
  | [] => Returns (children, e)
  | (env, m) :: hs => obind (trade_receive fuel env (msg m) children e) (fun '(children, e) => trade_run fuel hs children e)
  end.

(** Ids and tickers without a slash. *)
Definition plain (m : trade_msg) : Prop :=
  match m with
  | MTradeOrderRequest o => slashless (toTicker (Token0 o) (Token1 o) (Chain o))
  | MCancelOrderRequest id | MTradeInfoRequest id => slashless id
  | _ => True
  end.
#[export] Instance plain_dec m : Decision (plain m).
Proof. destruct m; cbn; apply _. Defined.

Definition owns (self : PID) (children : gmap string PID) : Prop := forall id p, children !! id = Some p -> own self id.

Section handlers.
Variable self : PID.
Variable rnd : string.
Hypothesis Hself : ID self = ("trade-engine/" +:+ rnd)%string.
Implicit Types (e : Engine).

Lemma hidden children id : owns self children -> slashless id -> children !! ("trade-engine/" +:+ id)%string = None.
Proof using Hself.
  intros Ho Hs. destruct (children !! ("trade-engine/" +:+ id)%string) eqn:Hl; [|done]. exfalso.
  by apply (own_hidden self rnd id Hself Hs), (Ho _ _ Hl).
Qed.

Lemma owns_insert env name r e children :
  ce_self env = self -> owns self children ->
  owns self (<[ID (child_pid env name r e) := child_pid env name r e]> children).
Proof.
  intros He Ho id p [[<- _]|[_ Hl]]%lookup_insert_Some; [|by eapply Ho]. exists name, r. cbn. by rewrite He.
Qed.

Lemma own_child env name r e : ce_self env = self -> own self (ID (child_pid env name r e)).
Proof. intros He. exists name, r. cbn. by rewrite He. Qed.

Lemma watcher_started fuel w ticker e :
  obind (pw_receive (fun s => (map_to_list s).*2) fuel w 0 AStarted (NewPriceActor ticker) e) (fun '(_, e) => Returns e) = Returns e.
Proof. done. Qed.

Lemma ensure_spawns fuel env o children e :
  ce_self env = self -> calm self e -> owns self children -> slashless (toTicker (Token0 o) (Token1 o) (Chain o)) ->
  let w := child_pid env (toTicker (Token0 o) (Token1 o) (Chain o)) (ce_rnd_watcher env) e in
  exists e', ensurePriceWatcher (S fuel) env o children e = Returns (e', w, <[ID w := w]> children) /\ goes self e e' /\
    (registry e !! ID w = None -> exists e1, registry e1 !! ID w = Some (PMailbox w []) /\ start_child (S fuel) w Returns e1 = Returns e').
Proof using Hself.
  intros He Hc Ho Hs w. unfold ensurePriceWatcher. cbv zeta. rewrite (hidden children _ Ho Hs). rewrite He.
  apply (goes_SpawnChild self fuel env children _ _ _ e He Hc). intros e1 Hg1.
  apply (goes_start_child self fuel w _ e1 (proj2 Hg1)). intros e2 Hg2. exists e2. split; [done|]. split; [done|]. apply Hg2.
Qed.

Lemma order_spawns fuel env o children e :
  ce_self env = self -> calm self e -> owns self children -> slashless (toTicker (Token0 o) (Token1 o) (Chain o)) ->
  exists children' e', spawnExecutor (S fuel) env o children e = Returns (children', e') /\ goes self e e' /\ owns self children'.
Proof using Hself.
  intros He Hc Ho Hs. unfold spawnExecutor. destruct (ensure_spawns fuel env o children e He Hc Ho Hs) as (e1 & -> & Hg1 & _).
  cbn [obind]. cbv zeta. rewrite He. set (w := child_pid env (toTicker _ _ _) _ e) in *.
  destruct (goes_SpawnChild self fuel env (<[ID w:=w]> children) (TradeID o) (ce_rnd_executor env)
    (start_child (S fuel) (child_pid env (TradeID o) (ce_rnd_executor env) e1) (fun e =>
       obind (te_receive (S fuel) (mkPtr (ce_loc env) (child_pid env (TradeID o) (ce_rnd_executor env) e1)) None 0 AStarted
         (NewExecutorActor (executor_options o w)) e) (fun '(_, e) => Returns e))) e1 He (proj2 Hg1)) as (e2 & Hsp & Hg2 & _).
  { intros e2 Hg2. apply (goes_start_child self fuel _ _ e2 (proj2 Hg2)). intros e3 Hg3. cbn [te_receive NewExecutorActor te_opts executor_options eo_PriceWatcherPID].
    unfold Send. destruct (goes_send self fuel w (msg (MSubscribe (mkPtr (ce_loc env) (child_pid env (TradeID o) (ce_rnd_executor env) e1)))) None e3 (proj2 Hg3)) as (e4 & -> & Hg4).
    - by apply own_child.
    - cbn [obind]. by exists e4. }
  cbn [deref]. rewrite Hsp. cbn [obind]. do 2 eexists. split; [done|]. split; [exact (goes_trans self _ _ _ Hg1 Hg2)|].
  apply owns_insert; [done|]. by apply owns_insert.
Qed.

Lemma trade_receive_ok fuel env m children e :
  ce_self env = self -> calm self e -> owns self children -> plain m ->
  exists children' e', trade_receive (S fuel) env (msg m) children e = Returns (children', e') /\ goes self e e' /\
    owns self children' /\ match m with MTradeOrderRequest _ => True | _ => children' = children /\ e' = e end.
Proof using Hself.
  intros He Hc Ho Hm. unfold trade_receive, msg. rewrite of_as_user.
  destruct m as [o|id|id| | | | |]; cbn [plain] in Hm; try by (exists children, e).
  - destruct (order_spawns fuel env o children e He Hc Ho Hm) as (c' & e' & -> & Hg & Ho'). by exists c', e'.
  - unfold cancelOrder. rewrite (hidden children id Ho Hm). by exists children, e.
  - unfold handleTradeInfoRequest. rewrite (hidden children id Ho Hm). by exists children, e.
Qed.

Lemma trade_run_ok fuel hs : forall children e,
  calm self e -> owns self children -> Forall (fun '(env, m) => ce_self env = self /\ plain m) hs ->
  exists children' e', trade_run (S fuel) hs children e = Returns (children', e') /\ goes self e e' /\ owns self children'.
Proof using Hself.
  induction hs as [|[env m] hs IH]; intros children e Hc Ho Hhs; [by exists children, e|].
  apply Forall_cons in Hhs as [[He Hm] Hhs]. cbn [trade_run].
  destruct (trade_receive_ok fuel env m children e He Hc Ho Hm) as (c1 & e1 & -> & Hg1 & Ho1 & _). cbn [obind].
  destruct (IH c1 e1 (proj2 Hg1) Ho1 Hhs) as (c2 & e2 & Hr & Hg2 & Ho2). exists c2, e2. split; [exact Hr|].
  split; [exact (goes_trans self _ _ _ Hg1 Hg2)|exact Ho2].
Qed.
End handlers.

(** ** Correctness of the example *)

(** The trade engine cannot find its children.  It looks a child up under
    ["trade-engine/"] and its name, but [SpawnChild] files it under the engine's
    own id, which has a random part, and under another random id.  So after any
    history of orders, cancellations and requests for information without slashes
    in their ids: a cancellation reaches nobody, a request for information reaches
    nobody and its response times out, and an order spawns a price watcher although
    there is one for the ticker. *)
Theorem trade_requests_lost (fuel : nat) (self : PID) (rnd : string) (hs : list (call_env * trade_msg)) (e : Engine)
    (Hself : ID self = ("trade-engine/" +:+ rnd)%string) (Hcalm : calm self e)
    (Hhs : Forall (fun '(env, m) => ce_self env = self /\ plain m) hs) :
  exists children e', trade_run (S fuel) hs ∅ e = Returns (children, e') /\ wf e' /\
    (forall env id, ce_self env = self -> slashless id ->
       trade_receive (S fuel) env (msg (MCancelOrderRequest id)) children e' = Returns (children, e')) /\
    (forall id r q pc, slashless id -> mailbox e' (ID self) = Some q -> Address self = address e' ->
       registry e' !! ("response" +:+ pidSeparator +:+ r)%string = None ->
       exists e1 rp c, Request (S fuel) (Some self) (msg (MTradeInfoRequest id)) r e' = Returns (e1, PResponse rp c) /\
         mailbox e1 (ID self) = Some (q ++ [mkEnvelope (msg (MTradeInfoRequest id)) (Some rp)]) /\
         (forall env, ce_self env = self ->
            trade_receive (S fuel) env (msg (MTradeInfoRequest id)) children e1 = Returns (children, e1)) /\
         Result rp c true pc e1 = Returns (Remove rp e1, None)) /\
    (forall env o, ce_self env = self -> slashless (toTicker (Token0 o) (Token1 o) (Chain o)) ->
       let w := child_pid env (toTicker (Token0 o) (Token1 o) (Chain o)) (ce_rnd_watcher env) e' in
       exists e1, ensurePriceWatcher (S fuel) env o children e' = Returns (e1, w, <[ID w := w]> children)).
Proof.
  destruct (trade_run_ok self rnd Hself fuel hs ∅ e Hcalm) as (children & e' & Hr & [_ Hc] & Ho); [|exact Hhs|].
  { intros id p Hl. by rewrite lookup_empty in Hl. }
  exists children, e'. split; [exact Hr|]. split; [apply Hc|]. split; [|split].
  - intros env id He Hs. destruct (trade_receive_ok self rnd Hself fuel env _ children e' He Hc Ho (Hs : plain (MCancelOrderRequest id)))
      as (c1 & e1 & -> & _ & _ & -> & ->). done.
  - intros id r q pc Hs Hq Ha Hfree. destruct (Request_ok fuel self q (msg (MTradeInfoRequest id)) r e' (proj1 Hc) Ha Hq Hfree)
      as (e1 & Hreq & _ & Hm & _ & Hres & _). do 3 eexists. split; [exact Hreq|]. split; [exact Hm|]. split.
    + intros env _. unfold trade_receive, msg. rewrite of_as_user. unfold handleTradeInfoRequest.
      by rewrite (hidden self rnd Hself children id Ho Hs).
    + unfold Result. by rewrite Hres.
  - intros env o He Hs w. destruct (ensure_spawns self rnd Hself fuel env o children e' He Hc Ho Hs) as (e1 & -> & _). by exists e1.
Qed.

(** [main]: the trade engine of the example, an order, and then a request. *)
Definition demo_trader : PID := NewPID "local" "trade-engine/4242".
Definition demo_trading : Engine :=
  set_registry (<["trade-engine/4242" := PMailbox demo_trader []]> (registry demo_engine)) demo_engine.
Definition demo_env (n : Z) : call_env :=
  mkEnv demo_trader None (Itoa (100 + n)) (Itoa (200 + n)) (Itoa (300 + n)) n (fun e => e) true false.
Definition demo_order (id : string) : TradeOrderRequest := mkOrder id "token0" "token1" "ETH" "wallet6" "privateKey" None.

Lemma demo_trading_calm : calm demo_trader demo_trading.
Proof.
  split; [split|].
  - intros id p. cbn [demo_trading registry set_registry]. intros [[<- <-]|[_ Hl]]%lookup_insert_Some; [done|]. by apply demo_engine_wf.
  - intros es He. injection He as <-. split; [done|]. vm_compute. by eexists.
  - intros id p c. cbn [demo_trading registry set_registry]. intros [[_ ?]|[_ Hl]]%lookup_insert_Some; [done|].
    apply elem_of_map_to_list in Hl. vm_compute in Hl. repeat (apply elem_of_cons in Hl as [Hl|Hl]; [done|]). by apply elem_of_nil in Hl.
Qed.

Lemma trade_requests_lost_witness :
  let hs := [(demo_env 1, MTradeOrderRequest (demo_order "a1")); (demo_env 2, MTradeInfoRequest "a1");
    (demo_env 3, MTradeOrderRequest (demo_order "b2"))] in
  exists children e', trade_run 1 hs ∅ demo_trading = Returns (children, e') /\
    children !! "trade-engine/4242/token0-token1-ETH/101" = Some (NewPID "local" "trade-engine/4242/token0-token1-ETH/101") /\
    children !! "trade-engine/4242/token0-token1-ETH/103" = Some (NewPID "local" "trade-engine/4242/token0-token1-ETH/103") /\
    trade_receive 1 (demo_env 4) (msg (MCancelOrderRequest "a1")) children e' = Returns (children, e') /\
    exists e1 rp c, Request 1 (Some demo_trader) (msg (MTradeInfoRequest "a1")) "7" e' = Returns (e1, PResponse rp c) /\
      trade_receive 1 (demo_env 4) (msg (MTradeInfoRequest "a1")) children e1 = Returns (children, e1) /\
      Result rp c true true e1 = Returns (Remove rp e1, None).
Proof.
  intros hs. destruct (trade_requests_lost 0 demo_trader "4242" hs demo_trading eq_refl demo_trading_calm)
    as (children & e' & Hr & _ & Hcancel & Hinfo & _).
  { repeat constructor; apply (bool_decide_unpack _); vm_compute; exact I. }
  assert (Hat : forall {A} (f : gmap string PID * Engine -> A) x,
    match trade_run 1 hs ∅ demo_trading with Returns s => Some (f s) | _ => None end = Some x -> f (children, e') = x).
  { intros A f x. rewrite Hr. by intros [= ->]. }
  exists children, e'. split; [exact Hr|].
  split; [apply (Hat _ (fun s => s.1 !! _)); vm_compute; reflexivity|].
  split; [apply (Hat _ (fun s => s.1 !! _)); vm_compute; reflexivity|].
  split; [apply Hcancel; [reflexivity|apply (bool_decide_unpack _); vm_compute; exact I]|].
  destruct (Hinfo "a1"%string "7"%string [] true) as (e1 & rp & c & H1 & _ & H2 & H3).
  - apply (bool_decide_unpack _). vm_compute. exact I.
  - apply (Hat _ (fun s => mailbox s.2 _)). vm_compute. reflexivity.
  - symmetry. apply (Hat _ (fun s => address s.2)). vm_compute. reflexivity.
  - apply (Hat _ (fun s => registry s.2 !! _)). vm_compute. reflexivity.
  - exists e1, rp, c. split; [exact H1|]. split; [apply H2; reflexivity|exact H3].
Defined.

(** ** The executor and the price watcher *)

Lemma live_poison fuel t e :
  wf e -> live e t -> exists e', poison_self (S fuel) (Some t) e = Returns e' /\
    delivers false (ID t) (mkEnvelope (APoisonPill true (Some (next_ref e))) None) (fresh_ref e).2 e'.
Proof.
  intros Hwf [Ha [q Hq]]. unfold poison_self, Poison. rewrite sendPoisonPill_eq. cbv zeta. cbn [get].
  destruct (mailbox_spec e (ID t) q (proj1 Hwf) Hq) as (pid & Hl & Hid & _). rewrite Hl.
  destruct (proc_send_delivers false (fresh_ref e).2 (ID t) q pid (APoisonPill true (Some (next_ref e))) None Hl Hid) as (e' & Hs & Hd).
  unfold SendLocal, send_local. cbn [get]. change (registry (fresh_ref e).2) with (registry e). rewrite Hl, Hs. by exists e'.
Qed.

(** The executor [p] has unsubscribed from its watcher and then poisoned itself. *)
Definition finished (w : PID) (p : pid_ptr) (e e' : Engine) : Prop :=
  exists e1, delivers false (ID w) (mkEnvelope (msg (MUnsubscribe p)) None) e e1 /\
    delivers false (ID (deref p)) (mkEnvelope (APoisonPill true (Some (next_ref e1))) None) (fresh_ref e1).2 e'.

Lemma Finished_ok fuel t p e :
  wf e -> te_PID t = Some p -> live e (eo_PriceWatcherPID (te_opts t)) -> live e (deref p) ->
  exists e', Finished (S fuel) t e = Returns e' /\ finished (eo_PriceWatcherPID (te_opts t)) p e e'.
Proof.
  intros Hwf Hp Hw Hx. unfold Finished. rewrite Hp. unfold Send.
  destruct (live_send fuel (eo_PriceWatcherPID (te_opts t)) (msg (MUnsubscribe p)) None e Hwf Hw) as (e1 & -> & Hd1). cbn [obind].
  destruct (delivers_wf _ _ _ _ _ Hwf Hd1) as [_ Hwf1].
  destruct (live_poison fuel (deref p) e1 Hwf1 (live_delivers _ _ _ _ _ _ Hd1 Hx)) as (e2 & -> & Hd2). exists e2.
  split; [done|]. by exists e1.
Qed.

(** An executor keeps the last price until it is cancelled or expires.  Once
    started, with its watcher alive: an update before its expiry sets the price; an
    update after its expiry — every one of them, not only the first — and a
    cancellation unsubscribe it and then poison it, the price staying as it was;
    a request for information is answered with the last price.  An executor that
    has not started panics when it is cancelled. *)
Theorem executor_outcomes (fuel : nat) (self p : pid_ptr) (sender : option PID) (now : Z) (t : tradeExecutor) (e : Engine)
    (Hwf : wf e) (Hp : te_PID t = Some p) (Hw : live e (eo_PriceWatcherPID (te_opts t))) (Hx : live e (deref p)) :
  let run m := te_receive (S fuel) self sender now (msg m) t e in
  (forall tk u price, (forall x, eo_Expires (te_opts t) = Some x -> now <= x) ->
     run (MPriceUpdate tk u price) = Returns (mkExecutor (te_opts t) (Some p) (te_status t) price, e)) /\
  (forall tk u price x, eo_Expires (te_opts t) = Some x -> x < now ->
     exists e', run (MPriceUpdate tk u price) = Returns (t, e') /\ finished (eo_PriceWatcherPID (te_opts t)) p e e') /\
  (forall id, exists e', run (MCancelOrderRequest id) = Returns (mkExecutor (te_opts t) (Some p) "cancelled" (te_lastPrice t), e') /\
     finished (eo_PriceWatcherPID (te_opts t)) p e e') /\
  (forall id s, sender = Some s -> live e s -> exists e', run (MTradeInfoRequest id) = Returns (t, e') /\
     delivers false (ID s) (mkEnvelope (msg (MTradeInfoResponse 100 100 (te_lastPrice t))) None) e e') /\
  (forall id, te_receive (S fuel) self sender now (msg (MCancelOrderRequest id)) (NewExecutorActor (te_opts t)) e = Panics (PVRuntime NilDeref)).
Proof.
  cbv zeta. unfold te_receive, msg. split_and!.
  - intros tk u price Hexp. rewrite of_as_user. unfold processUpdate, expired. rewrite Hp.
    destruct (eo_Expires (te_opts t)) as [x|]; [|done]. specialize (Hexp x eq_refl).
    by destruct (Z.ltb_spec x now); [lia|].
  - intros tk u price x Hexp Hlt. rewrite of_as_user. unfold processUpdate, expired. rewrite Hexp.
    destruct (Z.ltb_spec x now); [|lia]. destruct (Finished_ok fuel t p e Hwf Hp Hw Hx) as (e' & -> & Hf). cbn [obind]. by exists e'.
  - intros id. rewrite of_as_user. set (t' := mkExecutor _ _ "cancelled" _).
    destruct (Finished_ok fuel t' p e Hwf Hp Hw Hx) as (e' & -> & Hf). cbn [obind]. exists e'. unfold t'. by rewrite Hp.
  - intros id s -> Hs. rewrite of_as_user. unfold Respond, Send.
    destruct (live_send fuel s (as_user (type_of (MTradeInfoResponse 100 100 (te_lastPrice t))) (MTradeInfoResponse 100 100 (te_lastPrice t))) None e Hwf Hs)
      as (e' & -> & Hd). cbn [obind]. by exists e'.
  - intros id. by rewrite of_as_user.
Qed.

(** A price update for each of some actors. *)
Lemma send_all_updates fuel m ts : forall e,
  wf e -> NoDup (ID <$> ts) -> (forall t, t ∈ ts -> live e t) ->
  exists e', send_all (S fuel) ts m e = Returns e' /\ wf_like e e' /\
    (forall t q, t ∈ ts -> mailbox e (ID t) = Some q -> mailbox e' (ID t) = Some (q ++ [mkEnvelope m None])) /\
    (forall id, id ∉ ID <$> ts -> registry e' !! id = registry e !! id).
Proof.
  induction ts as [|t ts IH]; intros e Hwf Hnd Hh; [exists e; split; [done|]; split; [by apply wf_like_refl|]; split; [by intros ? ? ?%elem_of_nil|done]|].
  rewrite fmap_cons in Hnd. apply NoDup_cons in Hnd as [Hni Hnd]. cbn [send_all]. unfold Send.
  destruct (live_send fuel t m None e Hwf) as (e1 & -> & Hd); [apply Hh; by left|]. cbn [obind].
  pose proof (delivers_wf _ _ _ _ _ Hwf Hd) as Hl1.
  destruct (IH e1 (proj2 Hl1) Hnd) as (e2 & -> & Hl2 & Hm2 & Ho2).
  { intros t' Ht'. eapply live_delivers; [exact Hd|]. apply Hh. by right. }
  pose proof Hd as (_ & Ho & _).
  exists e2. split; [done|]. split; [exact (wf_like_trans _ _ _ Hl1 Hl2)|]. split.
  - intros t' q [->|Ht']%elem_of_cons Hq.
    + destruct (mailbox_delivers _ _ _ _ _ Hd) as (q' & Hq1 & Hq2). rewrite Hq in Hq1. injection Hq1 as <-.
      unfold mailbox. rewrite Ho2 by done. exact Hq2.
    + apply Hm2; [done|]. unfold mailbox. rewrite Ho; [exact Hq|]. intros Heq. apply Hni. rewrite <-Heq.
      apply list_elem_of_fmap. by exists t'.
  - intros id Hid. rewrite fmap_cons in Hid. apply not_elem_of_cons in Hid as [Hne Hid]. rewrite Ho2 by done. by rewrite Ho.
Qed.

(** A price watcher serves its subscribers until nobody is left.  On each
    trigger, with subscribers: every one of them gets one update with the price
    raised by two, and no other actor gets anything.  Without: it closes its
    repeater and poisons itself, so that a trigger that is already queued before
    the pill panics (the repeater is closed twice).  Subscriptions go by pointer.
    A watcher that is stopped by its parent leaves its repeater running, and each
    later tick is a dead letter. *)
Theorem price_watcher_outcomes (range_subscribers : gmap Z PID -> list PID) (fuel : nat) (self : PID) (now : Z)
    (w : priceWatcher) (e : Engine) (sr : SendRepeater) (s0 s : repeater_state)
    (Hrange : forall m, range_subscribers m ≡ₚ (map_to_list m).*2)
    (Hwf : wf e) (Hself : live e self) (Hpid : pw_PID w = Some self)
    (Hstart : SendRepeat (Some self) (msg MTriggerPriceUpdate) 200000000 = Returns (sr, s0))
    (Hrep : pw_repeater w = Some (sr, s)) (Hopen : closed s = false) :
  let price := float64_of (pw_lastPrice w + 2) in
  let trigger w e := pw_receive range_subscribers (S fuel) self now (msg MTriggerPriceUpdate) w e in
  (pw_subscribers w <> ∅ -> NoDup (ID <$> (map_to_list (pw_subscribers w)).*2) ->
     (forall l p, pw_subscribers w !! l = Some p -> live e p) ->
     exists e', trigger w e = Returns (pw_set_price price now w, e') /\
       (forall l p q, pw_subscribers w !! l = Some p -> mailbox e (ID p) = Some q ->
          mailbox e' (ID p) = Some (q ++ [mkEnvelope (msg (MPriceUpdate (pw_ticker w) now price)) None])) /\
       (forall id, (forall l p, pw_subscribers w !! l = Some p -> ID p <> id) -> registry e' !! id = registry e !! id)) /\
  (pw_subscribers w = ∅ -> exists w' e', trigger w e = Returns (w', e') /\ pw_lastPrice w' = price /\
     delivers false (ID self) (mkEnvelope (APoisonPill true (Some (next_ref e))) None) (fresh_ref e).2 e' /\
     forall e1, trigger w' e1 = Panics (PVRuntime CloseOfClosed)) /\
  (forall p p', loc p <> loc p' -> pw_subscribers w !! loc p' = None -> exists w1 w2,
     pw_receive range_subscribers (S fuel) self now (msg (MSubscribe p)) w e = Returns (w1, e) /\
     pw_receive range_subscribers (S fuel) self now (msg (MUnsubscribe p')) w1 e = Returns (w2, e) /\
     pw_subscribers w2 !! loc p = Some (deref p)) /\
  pw_receive range_subscribers (S fuel) self now AStopped w e = Returns (w, e) /\
  (forall e1, wf e1 -> Address self = address e1 -> registry e1 !! ID self = None ->
     exists e2, act_step (S fuel) sr TakeTick (mkState true (closed s) false) e1 = Returns (mkState false (closed s) false, e2) /\
       published (ADeadLetterEvent (Some self) (msg MTriggerPriceUpdate) None) e1 e2).
Proof.
  cbv zeta. unfold SendRepeat, start in Hstart. cbn in Hstart. injection Hstart as <- <-.
  unfold pw_receive, msg. split_and!; rewrite ?of_as_user.
  - intros Hne Hnd Hhere. unfold refresh. assert (Hsz : (size (pw_subscribers w) =? 0)%nat = false).
    { apply Nat.eqb_neq. by intros ?%map_size_empty_inv. }
    rewrite Hsz. cbn [obind pw_set_price pw_subscribers pw_lastPrice pw_ticker pw_updatedAt].
    set (ts := range_subscribers (pw_subscribers w)). pose proof (Hrange (pw_subscribers w)) as Hp. fold ts in Hp.
    assert (Hin : forall p, p ∈ ts <-> exists l, pw_subscribers w !! l = Some p).
    { intros p. rewrite Hp. rewrite list_elem_of_fmap. split.
      - intros ([l q] & -> & Hl%elem_of_map_to_list). by exists l.
      - intros [l Hl]. exists (l, p). split; [done|]. by apply elem_of_map_to_list. }
    destruct (send_all_updates fuel (msg (MPriceUpdate (pw_ticker w) now (float64_of (pw_lastPrice w + 2)))) ts e Hwf)
      as (e' & He & _ & Hm & Ho); [by rewrite Hp|intros t [l Hl]%Hin; by eapply Hhere|].
    rewrite He. cbn [obind]. exists e'. split; [done|]. split.
    + intros l p q Hl Hq. apply Hm; [|done]. apply Hin. by exists l.
    + intros id Hid. apply Ho. intros (p & -> & [l Hl]%Hin)%list_elem_of_fmap. by apply (Hid l p Hl).
  - intros Hemp. unfold refresh. rewrite Hemp. cbn [size map_size]. rewrite map_size_empty. cbn [Nat.eqb].
    unfold Kill. rewrite Hrep, Hpid. cbn [act_step]. rewrite Hopen. cbn [obind].
    destruct (live_poison fuel self e Hwf Hself) as (e1 & -> & Hd). cbn [obind pw_set_price pw_set_repeater pw_subscribers].
    rewrite Hemp. assert (Hr : range_subscribers ∅ = []).
    { apply Permutation_nil_r. rewrite Hrange. by rewrite map_to_list_empty. }
    rewrite Hr. cbn [send_all obind]. eexists _, e1. split; [done|]. split; [done|]. split; [exact Hd|].
    intros e2. unfold as_user, refresh, Kill. cbn [pw_set_price pw_set_repeater pw_subscribers pw_repeater]. by rewrite ?Hemp, map_size_empty.
  - intros p p' Hne Hnone. rewrite !of_as_user. eexists _, _. split; [done|]. split; [done|]. cbn [pw_set_subscribers pw_subscribers].
    rewrite lookup_delete_ne by done. apply lookup_insert_eq.
  - done.
  - intros e1 Hwf1 Ha Hl. cbn [act_step tick left andb negb sr_target sr_msg sr_self closed].
    pose proof (send_with_arrives false fuel (Some self) (msg MTriggerPriceUpdate) None e1 Hwf1) as Hs.
    unfold destination_of in Hs. rewrite decide_True, Hl in Hs by done. destruct Hs as (e2 & Hs & Hp).
    unfold SendWithSender, send. unfold msg in Hs. rewrite Hs. cbn [obind]. by exists e2.
Qed.

Lemma price_watcher_outcomes_witness :
  let self := demo_actor in
  let sr := mkRepeater None (Some self) (msg MTriggerPriceUpdate) 200000000 in
  let st := mkState false false false in
  let w := mkWatcher (Some self) (Some (sr, st)) "a-b-ETH" 6 0 in
  let rng s := (map_to_list s).*2 in
  (exists e', pw_receive rng 1 self 9 (msg MTriggerPriceUpdate) (w {[1 := demo_stream]}) demo_engine =
     Returns (pw_set_price 8 9 (w {[1 := demo_stream]}), e') /\
     mailbox e' (ID demo_stream) = Some [mkEnvelope (msg (MPriceUpdate "a-b-ETH" 9 8)) None] /\
     registry e' !! ID self = registry demo_engine !! ID self) /\
  (exists w' e', pw_receive rng 1 self 9 (msg MTriggerPriceUpdate) (w ∅) demo_engine = Returns (w', e') /\ pw_lastPrice w' = 8 /\
     delivers false (ID self) (mkEnvelope (APoisonPill true (Some (next_ref demo_engine))) None) (fresh_ref demo_engine).2 e' /\
     forall e1, pw_receive rng 1 self 9 (msg MTriggerPriceUpdate) w' e1 = Panics (PVRuntime CloseOfClosed)).
Proof.
  intros self sr st w rng.
  assert (Hin : forall t, mailbox demo_engine (ID t) = Some [] -> Address t = "local"%string -> live demo_engine t)
    by (intros t Hm Ha; split; [exact Ha|by eexists]).
  split.
  - destruct (price_watcher_outcomes rng 0 self 9 (w {[1 := demo_stream]}) demo_engine sr st st) as (H1 & _).
    1-7: first [reflexivity|exact demo_engine_wf|apply Hin; vm_compute; reflexivity].
    destruct H1 as (e' & He & Hm & Ho).
    + intros Heq. apply (f_equal (lookup 1)) in Heq. vm_compute in Heq. discriminate.
    + apply (bool_decide_unpack _). vm_compute. exact I.
    + intros l p Hl. unfold w in Hl. cbn [pw_subscribers] in Hl. apply (lookup_singleton_Some (M := gmap Z)) in Hl as [_ <-]. apply Hin; vm_compute; reflexivity.
    + exists e'. split; [exact He|]. split; [apply (Hm 1 demo_stream []); vm_compute; reflexivity|].
      apply Ho. intros l p Hl. unfold w in Hl. cbn [pw_subscribers] in Hl. apply (lookup_singleton_Some (M := gmap Z)) in Hl as [_ <-]. discriminate.
  - destruct (price_watcher_outcomes rng 0 self 9 (w ∅) demo_engine sr st st) as (_ & H2 & _).
    1-7: first [reflexivity|exact demo_engine_wf|apply Hin; vm_compute; reflexivity].
    apply H2. reflexivity.
Defined.

Lemma executor_outcomes_witness :
  let p := mkPtr 1 demo_actor in
  let opts x := mkExecutorOptions demo_stream "a1" "a-b-ETH" "a" "b" "ETH" "w" "k" x in
  let t x := mkExecutor (opts x) (Some p) "active" 6 in
  te_receive 1 p None 9 (msg (MPriceUpdate "a-b-ETH" 9 8)) (t None) demo_engine =
    Returns (mkExecutor (opts None) (Some p) "active" 8, demo_engine) /\
  exists e', te_receive 1 p None 9 (msg (MPriceUpdate "a-b-ETH" 9 8)) (t (Some 5)) demo_engine = Returns (t (Some 5), e') /\
    finished demo_stream p demo_engine e'.
Proof.
  intros p opts t.
  assert (Hin : forall t, mailbox demo_engine (ID t) = Some [] -> Address t = "local"%string -> live demo_engine t)
    by (intros x Hm Ha; split; [exact Ha|by eexists]).
  assert (Hw : live demo_engine demo_stream) by (apply Hin; vm_compute; reflexivity).
  assert (Hx : live demo_engine demo_actor) by (apply Hin; vm_compute; reflexivity).
  split.
  - destruct (executor_outcomes 0 p p None 9 (t None) demo_engine demo_engine_wf eq_refl Hw Hx) as (H & _).
    apply H. discriminate.
  - destruct (executor_outcomes 0 p p None 9 (t (Some 5)) demo_engine demo_engine_wf eq_refl Hw Hx) as (_ & H & _).
    apply (H "a-b-ETH"%string 9 8 5); [reflexivity|lia].
Defined.
