(* ===== verification/TcpServer.v ===== *)
(** * The TCP-server example ([examples/tcpserver/main.go])

    A server actor accepts connections, a session actor per connection reads from
    it, and a handler actor gets what they read.  What the sockets do is given:
    the connections that are accepted and what is read from each. *)

From stdpp Require Import countable gmap.
From S2P Require Import Prelude Pid Messages Process Engine OnEngine.

(** A connection and [RemoteAddr().String()]. *)
Record conn := mkConn { conn_id : Z; RemoteAddr : string }.
#[export] Instance conn_eq_dec : EqDecision conn.
Proof. solve_decision. Defined.
#[export] Instance conn_countable : Countable conn.
Proof. by refine (inj_countable' (fun c => (conn_id c, RemoteAddr c)) (fun '(i, a) => mkConn i a) _); intros []. Defined.

Inductive tcp_msg :=
  | MBytes (b : list byte)
  | MConnAdd (pid : pid_ptr) (c : conn)
  | MConnRem (pid : pid_ptr).
#[export] Instance tcp_msg_eq_dec : EqDecision tcp_msg.
Proof. solve_decision. Defined.
#[export] Instance tcp_msg_countable : Countable tcp_msg.
Proof.
  by refine (inj_countable' (fun m => match m with MBytes b => inl b | MConnAdd p c => inr (inl (p, c)) | MConnRem p => inr (inr p) end)
    (fun s => match s with inl b => MBytes b | inr (inl (p, c)) => MConnAdd p c | inr (inr p) => MConnRem p end) _); intros [].
Defined.
Definition msg (m : tcp_msg) : any :=
  as_user (match m with MBytes _ => "[]byte" | MConnAdd _ _ => "*connAdd" | MConnRem _ => "*connRem" end) m.

(** ** The handler *)

(** What it prints. *)
Definition handler_receive (m : any) (printed : list (list byte)) : list (list byte) :=
  match of_user m with Some (MBytes b) => printed ++ [b] | _ => printed end.

(** ** Sessions *)

Record session := mkSession { s_conn : conn; s_closed : bool }.
Definition newSession (c : conn) : session := mkSession c false.

(** The handlers besides [Started], which starts [readLoop]. *)
Definition session_receive (m : any) (s : session) : session :=
  match m with AStopped => mkSession (s_conn s) true | _ => s end.

(** [readLoop]: [reads] is what the connection answers, the bytes of a chunk or
    an error; the loop waits when it ends. *)
Fixpoint readLoop (fuel : nat) (parent : PID) (self : pid_ptr) (reads : list (option (list byte))) (e : Engine) : outcome Engine :=
  match reads with
  | [] => Returns e
  | Some b :: reads =>
      obind (Context_Send fuel (deref self) (Some (Child parent "handler/default")) (msg (MBytes b)) e)
        (readLoop fuel parent self reads)
  | None :: _ => Context_Send fuel (deref self) (Some parent) (msg (MConnRem self)) e
  end.

(** ** The server *)

Record server := mkServer {
  listenAddr : string;
  ln : bool;                        (* it listens *)
  sessions : gmap Z conn;           (* by pointer *)
}.
Definition newServer (addr : string) : server := mkServer addr false ∅.

(** [listen] is the error of [net.Listen], if it fails. *)
Definition server_receive (fuel : nat) (self : PID) (listen : option pvalue) (m : any) (s : server)
    (children : gmap string PID) (e : Engine) : outcome (server * gmap string PID * Engine) :=
  match m with
  | AInitialized =>
      match listen with
      | Some err => Panics err
      | None =>
          let child := Child self "handler/default" in
          obind (SpawnChild fuel self children "handler" "default" "" (start_child fuel child Returns) e) (fun '(e, _, children) =>
          Returns (mkServer (listenAddr s) true (sessions s), children, e))
      end
  | _ =>
      match of_user m with
      | Some (MConnAdd p c) => Returns (mkServer (listenAddr s) (ln s) (<[loc p := c]> (sessions s)), children, e)
      | Some (MConnRem p) => Returns (mkServer (listenAddr s) (ln s) (delete (loc p) (sessions s)), children, e)
      | _ => Returns (s, children, e)
      end
  end.

(** One turn of [acceptLoop]: the PID of the session, at a new address, whether
    its reading started, and the children. *)
Definition session_pid (self : PID) (rnd : string) (c : conn) (e : Engine) : PID :=
  NewPID (address e) ((ID self +:+ pidSeparator +:+ "session") +:+ pidSeparator +:+
    (if (String.length (RemoteAddr c) =? 0)%nat then rnd else RemoteAddr c)).

Definition accept (fuel : nat) (self : PID) (l : Z) (rnd : string) (c : conn) (children : gmap string PID) (e : Engine)
  : outcome (pid_ptr * bool * gmap string PID * Engine) :=
  let reads := bool_decide (registry e !! ID (session_pid self rnd c e) = None) in
  obind (SpawnChild fuel self children "session" (RemoteAddr c) rnd (start_child fuel (session_pid self rnd c e) Returns) e)
    (fun '(e, pid, children) =>
  let p := mkPtr l pid in
  obind (Context_Send fuel self (Some self) (msg (MConnAdd p c)) e) (fun e => Returns (p, reads, children, e))).

(** ** Correctness of the example *)

(** The chunks before the first error, and whether there is one. *)
Fixpoint chunks (reads : list (option (list byte))) : list (list byte) :=
  match reads with Some b :: reads => b :: chunks reads | _ => [] end.
Definition broken (reads : list (option (list byte))) : bool := existsb (fun r => bool_decide (r = None)) reads.

Lemma child_path self : Child self "handler/default" = NewPID (Address self) ((ID self +:+ pidSeparator +:+ "handler") +:+ pidSeparator +:+ "default").
Proof. unfold Child. by rewrite !string_app_assoc. Qed.

Lemma append_self (s t : string) : s +:+ t = s -> t = ""%string.
Proof. induction s as [|c s IH]; simpl; [done|]. intros [= H]. by apply IH. Qed.

Lemma child_ne self id : ID (Child self id) <> ID self.
Proof. intros H%append_self. done. Qed.

(** Starting a child under a free id. *)
Lemma started_child fuel self children name id rnd e :
  wf e -> id <> ""%string -> Address self = address e ->
  let pid := NewPID (address e) ((ID self +:+ pidSeparator +:+ name) +:+ pidSeparator +:+ id) in
  registry e !! ID pid = None ->
  exists e', SpawnChild (S fuel) self children name id rnd (start_child (S fuel) pid Returns) e =
    Returns (e', pid, <[ID pid := pid]> children) /\ wf_like e e' /\ mailbox e' (ID pid) = Some [] /\
    (forall t, live e t -> live e' t).
Proof.
  intros Hwf Hid Ha pid Hfree. unfold SpawnChild, Spawn, SpawnProc, add. destruct id as [|ch id]; [done|]. cbn [String.length Nat.eqb].
  fold pid. cbn [proc_PID]. rewrite Hfree. set (e1 := set_registry _ e).
  assert (Hwf1 : wf_like e e1).
  { pose proof (add_fine 0 (PMailbox pid []) e Hwf eq_refl) as Hf. unfold add in Hf. cbn [proc_PID] in Hf. by rewrite Hfree in Hf. }
  assert (Hes : forall es, eventStream e1 = Some es -> ID es <> ID pid).
  { intros es Hs Heq. destruct (proj2 Hwf es Hs) as [_ [q Hq]]. unfold mailbox in Hq. by rewrite Heq, Hfree in Hq. }
  assert (Hpub : forall m a b, published m a b -> eventStream a = eventStream e1 -> mailbox b (ID pid) = mailbox a (ID pid)).
  { intros m a b Hp Hse. unfold published in Hp. rewrite Hse in Hp. destruct (eventStream e1) as [es|] eqn:He1; [|by subst b].
    destruct Hp as (_ & Ho & _). unfold mailbox. rewrite Ho; [done|]. intros Heq. by apply (Hes es). }
  unfold start_child. destruct (BroadcastEvent_ok fuel (AActorInitializedEvent pid) e1 (proj2 Hwf1)) as (e2 & -> & Hp2). cbn [obind].
  pose proof (published_wf _ _ _ (proj2 Hwf1) Hp2) as Hl2.
  destruct (BroadcastEvent_ok fuel (AActorStartedEvent pid) e2 (proj2 Hl2)) as (e3 & -> & Hp3). cbn [obind].
  pose proof (published_wf _ _ _ (proj2 Hl2) Hp3) as Hl3. pose proof Hl2 as [(Ha2 & _ & Hs2) _]. pose proof Hl3 as [(Ha3 & _) _].
  exists e3. split; [done|]. split; [exact (wf_like_trans _ _ _ Hwf1 (wf_like_trans _ _ _ Hl2 Hl3))|]. split.
  - rewrite (Hpub _ _ _ Hp3 Hs2), (Hpub _ _ _ Hp2 eq_refl). unfold mailbox, e1; cbn. by rewrite lookup_insert_eq.
  - intros t [Hta Htm]. split; [rewrite Ha3, Ha2; exact Hta|]. apply (published_mailbox _ _ _ _ Hp3), (published_mailbox _ _ _ _ Hp2).
    unfold mailbox, e1 in *; cbn. destruct (decide (ID pid = ID t)) as [<-|Hne]; [by rewrite lookup_insert_eq; eexists|by rewrite lookup_insert_ne].
Qed.

(** What a read loop delivers. *)
Lemma readLoop_ok fuel parent self reads : forall e q qp,
  wf e -> let h := Child parent "handler/default" in Address parent = address e ->
  mailbox e (ID h) = Some q -> mailbox e (ID parent) = Some qp ->
  exists e', readLoop (S fuel) parent self reads e = Returns e' /\ wf e' /\
    mailbox e' (ID h) = Some (q ++ ((fun b => mkEnvelope (msg (MBytes b)) (Some (deref self))) <$> chunks reads)) /\
    mailbox e' (ID parent) = Some (qp ++ (if broken reads then [mkEnvelope (msg (MConnRem self)) (Some (deref self))] else [])).
Proof.
  cbv zeta. induction reads as [|[b|] reads IH]; intros e q qp Hwf Ha Hq Hqp; pose proof (child_ne parent "handler/default") as Hne.
  { exists e. cbn. by rewrite !app_nil_r. }
  - cbn [readLoop chunks]. unfold Context_Send, SendWithSender.
    destruct (live_send fuel (Child parent "handler/default") (msg (MBytes b)) (Some (deref self)) e Hwf) as (e1 & -> & Hd);
      [split; [exact Ha|by eexists]|]. cbn [obind]. destruct (delivers_wf _ _ _ _ _ Hwf Hd) as [(Ha1 & _) Hwf1].
    destruct (mailbox_delivers _ _ _ _ _ Hd) as (q1 & Hq1 & Hq1'). rewrite Hq in Hq1. injection Hq1 as <-.
    destruct (IH e1 (q ++ [mkEnvelope (msg (MBytes b)) (Some (deref self))]) qp Hwf1) as (e2 & Hr & Hwf2 & Hm & Hp); [congruence|exact Hq1'| |].
    { destruct Hd as (_ & Ho & _). unfold mailbox. by rewrite Ho by done. }
    exists e2. split; [exact Hr|]. split; [exact Hwf2|]. rewrite Hm, Hp. split; [|done]. by rewrite fmap_cons, <-app_assoc.
  - cbn [readLoop chunks broken existsb]. unfold Context_Send, SendWithSender.
    destruct (live_send fuel parent (msg (MConnRem self)) (Some (deref self)) e Hwf) as (e1 & -> & Hd); [split; [exact Ha|by eexists]|].
    destruct (delivers_wf _ _ _ _ _ Hwf Hd) as [_ Hwf1]. exists e1. split; [done|]. split; [exact Hwf1|].
    destruct (mailbox_delivers _ _ _ _ _ Hd) as (q1 & Hq1 & Hq1'). rewrite Hqp in Hq1. injection Hq1 as <-. split; [|exact Hq1'].
    destruct Hd as (_ & Ho & _). unfold mailbox. rewrite Ho by done. by rewrite app_nil_r.
Qed.

(** What clients write reaches the handler.  A server that can listen spawns
    its handler under the id by which the sessions look for it; then each chunk
    that a session reads, up to the first error, goes to the handler's mailbox, in
    order and with the session as its sender, and an error tells the server to
    forget the session. *)
Theorem tcp_bytes_reach_handler (fuel : nat) (self : PID) (s : server) (children : gmap string PID) (e : Engine)
    (session : pid_ptr) (reads : list (option (list byte))) (qs : list Envelope)
    (Hwf : wf e) (Hself : Address self = address e) (Hq : mailbox e (ID self) = Some qs)
    (Hfree : registry e !! ID (Child self "handler/default") = None) :
  let h := Child self "handler/default" in
  exists s' e1 e2, server_receive (S fuel) self None AInitialized s children e = Returns (s', <[ID h := h]> children, e1) /\
    ln s' = true /\ mailbox e1 (ID h) = Some [] /\
    readLoop (S fuel) self session reads e1 = Returns e2 /\
    mailbox e2 (ID h) = Some ((fun b => mkEnvelope (msg (MBytes b)) (Some (deref session))) <$> chunks reads) /\
    foldl (fun printed env => handler_receive (Msg env) printed) [] (default [] (mailbox e2 (ID h))) = chunks reads /\
    exists qs', mailbox e1 (ID self) = Some qs' /\
      mailbox e2 (ID self) = Some (qs' ++ (if broken reads then [mkEnvelope (msg (MConnRem session)) (Some (deref session))] else [])).
Proof.
  intros h. destruct (started_child fuel self children "handler" "default" "" e Hwf) as (e1 & Hsp & Hl & Hm & Hh); [done|done| |].
  { rewrite <-Hself, <-child_path. exact Hfree. }
  rewrite <-Hself, <-child_path in Hsp, Hm. fold h in Hsp, Hm.
  destruct (Hh self) as [Ha1 [qs' Hq']]; [split; [done|by eexists]|].
  destruct (readLoop_ok fuel self session reads e1 [] qs' (proj2 Hl) Ha1 Hm Hq') as (e2 & Hr & _ & Hm2 & Hp2).
  exists (mkServer (listenAddr s) true (sessions s)), e1, e2. cbn [server_receive]. fold h. rewrite Hsp. cbn [obind].
  split; [done|]. split; [done|]. split; [exact Hm|]. split; [exact Hr|]. split; [exact Hm2|]. split; [|by exists qs'].
  fold h in Hm2. rewrite Hm2. cbn [default app]. assert (Hf : forall bs acc, foldl (fun printed env => handler_receive (Msg env) printed) acc
    ((fun b => mkEnvelope (msg (MBytes b)) (Some (deref session))) <$> bs) = acc ++ bs).
  { induction bs as [|b bs IH]; intros acc; [by rewrite app_nil_r|]. rewrite fmap_cons. cbn [foldl Msg].
    unfold handler_receive at 2, msg. rewrite of_as_user, IH. by rewrite <-app_assoc. }
  apply (Hf _ []).
Qed.

Lemma tcp_bytes_reach_handler_witness :
  let p := mkPtr 7 (NewPID "local" "demo/1/session/10.0.0.1:9") in
  exists s' e1 e2, server_receive 1 demo_actor None AInitialized (newServer ":6000") ∅ demo_engine =
      Returns (s', {["demo/1/handler/default" := NewPID "local" "demo/1/handler/default"]}, e1) /\
    readLoop 1 demo_actor p [Some [x68; x69]; Some []; Some [x21]; None; Some [x3f]] e1 = Returns e2 /\
    foldl (fun printed env => handler_receive (Msg env) printed) [] (default [] (mailbox e2 "demo/1/handler/default")) =
      [[x68; x69]; []; [x21]].
Proof.
  intros p. destruct (tcp_bytes_reach_handler 0 demo_actor (newServer ":6000") ∅ demo_engine p
    [Some [x68; x69]; Some []; Some [x21]; None; Some [x3f]] [] demo_engine_wf) as (s' & e1 & e2 & H1 & _ & _ & H2 & _ & H3 & _).
  1-3: vm_compute; reflexivity.
  exists s', e1, e2. split; [exact H1|]. split; [exact H2|exact H3].
Defined.

(** A session outlives its connection, and its address is taken.  The server
    forgets a broken connection and does nothing else: no process stops, the
    connection is not closed (a session closes it when it is stopped), and the
    session stays a child.  So a client that comes back from the same address is
    accepted and added to the map under the new pointer, but its session is a
    duplicate that never starts to read. *)
Theorem tcp_sessions_leak (fuel : nat) (self : PID) (s : server) (children : gmap string PID) (e : Engine)
    (old : pid_ptr) (l : Z) (rnd : string) (c : conn) (q : list Envelope)
    (Hwf : wf e) (Hself : Address self = address e)
    (Hold : deref old = session_pid self rnd c e) (Hq : mailbox e (ID (deref old)) = Some q)
    (Hs : live e self) :
  (exists s', server_receive (S fuel) self None (msg (MConnRem old)) s children e = Returns (s', children, e) /\
     sessions s' = delete (loc old) (sessions s)) /\
  exists e' s', accept (S fuel) self l rnd c children e =
      Returns (mkPtr l (session_pid self rnd c e), false, <[ID (deref old) := session_pid self rnd c e]> children, e') /\
    is_Some (mailbox e' (ID (deref old))) /\
    server_receive (S fuel) self None (msg (MConnAdd (mkPtr l (session_pid self rnd c e)) c)) s children e' = Returns (s', children, e') /\
    sessions s' !! l = Some c.
Proof.
  split.
  - eexists. unfold server_receive, msg. rewrite of_as_user. by split.
  - unfold accept. rewrite <-Hold. unfold mailbox in Hq. destruct (registry e !! ID (deref old)) as [[pid q'|]|] eqn:Hl; try done.
    rewrite bool_decide_false by done. unfold SpawnChild, Spawn, SpawnProc, add.
    fold (session_pid self rnd c e). rewrite <-Hold.
    cbn [proc_PID]. rewrite Hl. destruct (BroadcastEvent_ok fuel (AActorDuplicateIdEvent (deref old)) e Hwf) as (e1 & -> & Hp).
    cbn [obind]. pose proof (published_wf _ _ _ Hwf Hp) as [(Ha1 & _) Hwf1]. destruct Hs as [Hsa Hsm].
    unfold Context_Send, SendWithSender.
    destruct (live_send fuel self (msg (MConnAdd (mkPtr l (deref old)) c)) (Some self) e1 Hwf1) as (e2 & -> & Hd).
    { split; [congruence|]. by apply (published_mailbox _ _ _ _ Hp). }
    cbn [obind]. exists e2. eexists. split; [done|]. split.
    + eapply delivers_mailbox; [exact Hd|]. apply (published_mailbox _ _ _ _ Hp). unfold mailbox. rewrite Hl. by eexists.
    + unfold server_receive, msg. rewrite of_as_user. split; [done|]. apply lookup_insert_eq.
Qed.

Lemma tcp_sessions_leak_witness :
  let c := mkConn 2 "10.0.0.1:9" in
  let p := session_pid demo_actor "55" c demo_engine in
  let e := set_registry (<[ID p := PMailbox p []]> (registry demo_engine)) demo_engine in
  exists e' s', accept 1 demo_actor 8 "55" c ∅ e = Returns (mkPtr 8 p, false, {[ID p := p]}, e') /\
    server_receive 1 demo_actor None (msg (MConnAdd (mkPtr 8 p) c)) (newServer ":6000") ∅ e' = Returns (s', ∅, e') /\
    sessions s' !! 8 = Some c.
Proof.
  intros c p e.
  assert (Hwf : wf e).
  { split.
    - intros id x. subst e. cbn [registry set_registry]. intros [[<- <-]|[_ Hl]]%lookup_insert_Some; [done|]. by apply demo_engine_wf.
    - intros es He. injection He as <-. split; [reflexivity|]. eexists. vm_compute. reflexivity. }
  destruct (tcp_sessions_leak 0 demo_actor (newServer ":6000") ∅ e (mkPtr 3 p) 8 "55" c [] Hwf) as (_ & e' & s' & H1 & _ & H2 & H3).
  - reflexivity.
  - reflexivity.
  - vm_compute. reflexivity.
  - split; [reflexivity|]. eexists. vm_compute. reflexivity.
  - exists e', s'. split; [exact H1|]. split; [exact H2|exact H3].
Defined.
