(* ===== verification/Persistence.v ===== *)
(** * The persistence and hooks examples ([examples/persistance/main.go],
    [examples/middleware/hooks/main.go])

    Middleware that runs around a receiver: one loads and stores the state of an
    actor, the other calls hooks.  What a process does with a receiver and its
    middleware is in [Process]; here its calls — on the way up, on a message, on
    the way down, and after a panic, where the receiver is called without the
    middleware — are written out over a disk that outlives the receiver, and the program. *)

From Stdlib Require Import Ascii.
From S2P Require Import Prelude Pid Messages Process.

(** How a call ends early: a panic, or [log.Fatal]. *)
Inductive halt := HPanic (v : pvalue) | HExit.

(** ** Files *)

(** The contents of a file, as [json.Unmarshal] into a [map[string]any] sees
    them: not an object, or the object; a number is a [float64], here an integer. *)
Inductive jvalue := JNumber (n : Z) | JString (s : string) | JOther.
Inductive doc := DInvalid | DObject (data : gmap string jvalue).

(** Every character but ASCII letters and digits becomes an underscore (for a
    string of ASCII characters). *)
Definition is_alnum (c : ascii) : bool :=
  let n := Z.of_nat (nat_of_ascii c) in
  ((48 <=? n) && (n <=? 57)) || ((65 <=? n) && (n <=? 90)) || ((97 <=? n) && (n <=? 122)).
Definition safeFileName (s : string) : string :=
  String.string_of_list_ascii ((fun c => if is_alnum c then c else "_"%char) <$> String.list_ascii_of_string s).

(** [fileStore]: whether the file system fails is given with each call. *)
Definition fileStore : Type := gmap string doc.
Definition Store (fails : bool) (key : string) (data : doc) (disk : fileStore) : option fileStore :=
  if fails then None else Some (<[safeFileName key := data]> disk).
Definition Load (fails : bool) (key : string) (disk : fileStore) : option doc :=
  if fails then None else disk !! safeFileName key.

(** ** The middleware *)

Section middleware.
Context {R : Type}.

(** [State] and [LoadState] ([true]: it returns an error). *)
Record Persister := mkPersister {
  State : R -> option doc;
  LoadState : gmap string jvalue -> R -> result (R * bool);
}.

(** The receiver, the disk, and what the receiver was given so far. *)
Record world := mkWorld { receiver : R; disk : fileStore; given : list any }.
Definition set_receiver r w := mkWorld r (disk w) (given w).
Definition set_disk d w := mkWorld (receiver w) d (given w).

Definition handler : Type := any -> world -> world * option halt.
Definition andThen (h k : world -> world * option halt) (w : world) : world * option halt :=
  match h w with (w, None) => k w | r => r end.

(** The receiver itself. *)
Definition base (receive : any -> R -> R * option pvalue) : handler := fun m w =>
  let '(r, v) := receive m (receiver w) in (mkWorld r (disk w) (given w ++ [m]), HPanic <$> v).

(** [persister] is [None] for a receiver that is no [Persister]. *)
Definition WithPersistence (fails : bool) (persister : option Persister) (pid : PID) (next : handler) : handler := fun m w =>
  match m, persister with
  | AInitialized, Some p =>
      match Load fails (PID_String pid) (disk w) with
      | None => next m w
      | Some DInvalid => (w, Some HExit)
      | Some (DObject data) =>
          match LoadState p data (receiver w) with
          | Panic e => (w, Some (HPanic (PVRuntime e)))
          | Ok (r, err) => (if err then andThen (next m) (next m) else next m) (set_receiver r w)
          end
      end
  | AStopped, Some p =>
      match State p (receiver w) with
      | None => next m w
      | Some s =>
          match Store fails (PID_String pid) s (disk w) with
          | None => next m w
          | Some d => next m (set_disk d w)
          end
      end
  | _, _ => next m w
  end.

(** [Hooker] and [WithHooks]; a receiver without the hooks panics. *)
Record Hooker := mkHooker { OnInit : handler; OnStart : handler; OnStop : handler }.
Definition WithHooks (hooker : option Hooker) (next : handler) : handler := fun m w =>
  let hook (f : Hooker -> handler) : world -> world * option halt := fun w =>
    match hooker with Some h => f h m w | None => (w, Some (HPanic (PVRuntime TypeAssertion))) end in
  match m with
  | AInitialized => andThen (hook OnInit) (next m) w
  | AStarted => andThen (hook OnStart) (next m) w
  | AStopped => andThen (hook OnStop) (next m) w
  | _ => next m w
  end.

(** ** The life of a receiver *)

Variable new : R.                  (* what the producer makes *)
Variable inner full : handler.     (* the receiver, and it with its middleware *)

(** A process starts; gets a message; stops; and restarts after a panic. *)
Definition boot (w : world) : world * option halt := andThen (full AInitialized) (full AStarted) (set_receiver new w).
Fixpoint deliver (ms : list any) (w : world) : world * option halt :=
  match ms with [] => (w, None) | m :: ms => andThen (full m) (deliver ms) w end.
Definition stop (w : world) : world * option halt := full AStopped w.
Definition crash (w : world) : world * option halt := andThen (inner AStopped) boot w.

(** A process from its spawn to its poison pill. *)
Definition session (ms : list any) (w : world) : world * option halt := andThen boot (andThen (deliver ms) stop) w.
Fixpoint sessions (mss : list (list any)) (w : world) : world * option halt :=
  match mss with [] => (w, None) | ms :: mss => andThen (session ms) (sessions mss) w end.
End middleware.
Arguments Persister : clear implicits.
Arguments world : clear implicits.
Arguments handler : clear implicits.
Arguments Hooker : clear implicits.

(** ** The player *)

Record PlayerState := mkPlayer { Health : Z; Username : string }.
Definition newPlayerState (health : Z) (username : string) : PlayerState := mkPlayer health username.
Definition TakeDamage (Amount : Z) : any := AUser "TakeDamage" [Amount].

Definition player_receive (m : any) (p : PlayerState) : PlayerState * option pvalue :=
  match m with
  | AUser "TakeDamage" [amount] => (mkPlayer (i64 (Health p - amount)) (Username p), None)
  | _ => (p, None)
  end.

(** [json.Marshal] and [json.Unmarshal] make a [float64] of an [int]. *)
Definition player_State (p : PlayerState) : option doc :=
  Some (DObject (<["health" := JNumber (float64_of (Health p))]> {["username" := JString (Username p)]})).

(** The type assertions of [LoadState] panic. *)
Definition player_LoadState (data : gmap string jvalue) (p : PlayerState) : result (PlayerState * bool) :=
  match data !! "health"%string with
  | Some (JNumber n) =>
      match data !! "username"%string with
      | Some (JString u) => Ok (mkPlayer (i64 n) u, false)
      | _ => Panic TypeAssertion
      end
  | _ => Panic TypeAssertion
  end.
Definition player : Persister PlayerState := mkPersister player_State player_LoadState.

(** [newFileStore]: the directory is made, or is there already; otherwise the
    program ends. *)
Inductive mkdir_result := MkdirOk | MkdirExists | MkdirFails.
Definition newFileStore (r : mkdir_result) (disk : fileStore) : fileStore * option halt :=
  match r with MkdirOk => (∅, None) | MkdirExists => (disk, None) | MkdirFails => (disk, Some HExit) end.

(** [main]: the player under a PID, with its store. *)
Section player.
Variable pid : PID.
Variable health : Z.
Variable name : string.
Definition player_full : handler PlayerState := WithPersistence false (Some player) pid (base player_receive).
Definition player_session := session (newPlayerState health name) player_full.
Definition player_sessions := sessions (newPlayerState health name) player_full.
Definition player_crash := crash (newPlayerState health name) (base player_receive) player_full.
End player.

Definition james : PID := NewPID "local" "playerState/james".

(** [main], once the engine is made: the store, the player's session with one hit,
    and the poison pill.  The world is the disk that outlives the program. *)
Definition main (mkdir : mkdir_result) (disk : fileStore) : fileStore * option halt :=
  match newFileStore mkdir disk with
  | (disk, Some h) => (disk, Some h)
  | (disk, None) =>
      let '(w, h) := player_session james 100 "James" [TakeDamage 9]
                       (mkWorld (newPlayerState 100 "James") disk []) in
      (Persistence.disk w, h)
  end.

(** The program run again and again, the first time on an empty file system. *)
Fixpoint runs (n : nat) : fileStore * option halt :=
  match n with
  | O => (∅, None)
  | S n => match runs n with
           | (disk, None) => main (match n with O => MkdirOk | _ => MkdirExists end) disk
           | r => r
           end
  end.

(** A hook that only leaves its mark. *)
Definition mark {R} (s : string) : handler R := fun m w => (mkWorld (receiver w) (disk w) (given w ++ [AUser s []]), None).

(** The hooks example: its receiver does nothing, its hooks print. *)
Definition hooks_main : world unit * option halt :=
  let full := WithHooks (Some (mkHooker (mark "foo initialized") (mark "foo started") (mark "foo stopped")))
                (base (fun _ r => (r, None))) in
  session tt full [AUser "string" []] (mkWorld tt ∅ []).

(** ** Correctness of the examples *)

Definition sum (l : list Z) : Z := foldr Z.add 0 l.

Lemma sum_app l l' : sum (l ++ l') = sum l + sum l'.
Proof. induction l as [|x l IH]; simpl; [done|]. unfold sum in *. simpl. lia. Qed.

Section survives.
Variable pid : PID.
Variable health : Z.
Variable name : string.
Implicit Types (w : world PlayerState).

(** The player's file. *)
Definition file w : option doc := disk w !! safeFileName (PID_String pid).
Definition saved (h : Z) (w : world PlayerState) : Prop := file w = player_State (mkPlayer h name).

Lemma load_saved h : - 2 ^ 53 < h < 2 ^ 53 -> forall p data, player_State (mkPlayer h name) = Some (DObject data) ->
  player_LoadState data p = Ok (mkPlayer h name, false).
Proof.
  intros Hh p data [= <-]. unfold player_LoadState. rewrite lookup_insert_eq, lookup_insert_ne, lookup_singleton_eq by done.
  cbn [Health Username]. rewrite float64_of_id by done. by rewrite i64_id by (unfold two63; lia).
Qed.

(** Coming up: with no file the new player, and otherwise the saved one. *)
Lemma player_boot w h :
  (file w = None /\ h = health) \/ (saved h w /\ - 2 ^ 53 < h < 2 ^ 53) ->
  exists w', boot (newPlayerState health name) (player_full pid) w = (w', None) /\ receiver w' = mkPlayer h name /\ disk w' = disk w.
Proof.
  unfold boot, andThen, player_full, WithPersistence, Load. cbn [set_receiver disk]. unfold saved, file.
  intros [[-> ->]|[-> Hh]]; [by eexists|]. cbn [player LoadState player_State].
  rewrite (load_saved h Hh _ _ eq_refl). by eexists.
Qed.

Lemma player_deliver ds : forall w h, receiver w = mkPlayer (i64 h) name ->
  exists w', deliver (player_full pid) (TakeDamage <$> ds) w = (w', None) /\ receiver w' = mkPlayer (i64 (h - sum ds)) name /\
    disk w' = disk w.
Proof.
  induction ds as [|d ds IH]; intros w h Hw; [exists w; unfold sum; simpl; by rewrite Z.sub_0_r|]. rewrite fmap_cons. cbn [deliver].
  unfold andThen. cbn [player_full WithPersistence base TakeDamage player_receive]. rewrite Hw. cbn [Health Username fmap option_fmap option_map].
  rewrite i64_sub. edestruct (IH (mkWorld (mkPlayer (i64 (h - d)) name) (disk w) (given w ++ [TakeDamage d])) (h - d)) as (w' & Hr & Hp & Hd); [done|].
  exists w'. split; [exact Hr|]. rewrite Hp. split; [|exact Hd]. do 2 f_equal. unfold sum. simpl. lia.
Qed.

Lemma player_stop w h : receiver w = mkPlayer h name ->
  exists w', stop (player_full pid) w = (w', None) /\ receiver w' = mkPlayer h name /\ saved h w'.
Proof.
  intros Hw. unfold stop. cbn [player_full WithPersistence player State player_State Store]. rewrite Hw.
  eexists. split; [done|]. split; [done|]. unfold saved, file. cbn [disk set_disk]. apply lookup_insert_eq.
Qed.

(** One life after another. *)
Lemma player_sessions_ok mss : forall w h,
  (file w = None /\ h = health) \/ saved h w -> - 2 ^ 53 < h < 2 ^ 53 ->
  (forall k, - 2 ^ 53 < h - sum (concat (take k mss)) < 2 ^ 53) ->
  exists w', player_sessions pid health name (fmap (M:=list) TakeDamage <$> mss) w = (w', None) /\
    ((mss = [] /\ w' = w) \/ (receiver w' = mkPlayer (h - sum (concat mss)) name /\ saved (h - sum (concat mss)) w')).
Proof.
  induction mss as [|ds mss IH]; intros w h Hw Hh Hb; [exists w; split; [done|by left]|]. rewrite fmap_cons.
  unfold player_sessions. cbn [sessions]. unfold session, andThen.
  destruct (player_boot w h) as (w1 & -> & Hr1 & Hd1); [destruct Hw as [?|?]; [by left|by right]|].
  destruct (player_deliver ds w1 h) as (w2 & -> & Hr2 & Hd2); [by rewrite i64_id by (unfold two63; lia)|].
  pose proof (Hb 1%nat) as Hb1. cbn [take concat] in Hb1. rewrite app_nil_r in Hb1. rewrite i64_id in Hr2 by (unfold two63; lia).
  destruct (player_stop w2 _ Hr2) as (w3 & -> & Hr3 & Hs3).
  destruct (IH w3 (h - sum ds)) as (w4 & Hr4 & Ho); [by right|done| |].
  { intros k. specialize (Hb (S k)). cbn [take concat] in Hb. rewrite sum_app in Hb. lia. }
  exists w4. split; [exact Hr4|]. right. cbn [concat]. rewrite sum_app. destruct Ho as [[-> ->]|[Hr Hs]].
  - replace (h - (sum ds + sum (concat []))) with (h - sum ds) by (unfold sum; simpl; lia). by split.
  - replace (h - (sum ds + sum (concat mss))) with (h - sum ds - sum (concat mss)) by lia. by split.
Qed.
End survives.

(** A player's health outlives its process, but not a panic.  Spawned under a
    PID whose file is not there, and stopped and spawned again any number of times,
    the player ends with its first health less all the damage taken, as long as
    the stored values are below 2^53 (a [float64] holds them exactly).  A player
    that panics is set back to what the last clean stop stored: it is called
    without its middleware, so the damage since then is lost. *)
Theorem player_survives (pid : PID) (health : Z) (name : string) (mss : list (list Z)) (ds : list Z) (w : world PlayerState)
    (Hnew : file pid w = None) (Hsome : mss <> []) (Hrange : forall k, - 2 ^ 53 < health - sum (concat (take k mss)) < 2 ^ 53) :
  let left := health - sum (concat mss) in
  exists w1 w2 w3 w4, player_sessions pid health name (fmap (M:=list) TakeDamage <$> mss) w = (w1, None) /\
    receiver w1 = mkPlayer left name /\
    boot (newPlayerState health name) (player_full pid) w1 = (w2, None) /\ receiver w2 = mkPlayer left name /\
    deliver (player_full pid) (TakeDamage <$> ds) w2 = (w3, None) /\ receiver w3 = mkPlayer (i64 (left - sum ds)) name /\
    player_crash pid health name w3 = (w4, None) /\ receiver w4 = mkPlayer left name.
Proof.
  cbv zeta. pose proof (Hrange 0%nat) as H0. cbn [take concat sum foldr] in H0. change (sum []) with 0 in H0. rewrite Z.sub_0_r in H0.
  assert (Hl : - 2 ^ 53 < health - sum (concat mss) < 2 ^ 53) by (pose proof (Hrange (length mss)) as H; by rewrite firstn_all in H).
  destruct (player_sessions_ok pid health name mss w health) as (w1 & Hr1 & [[-> _]|[Hp1 Hs1]]); [by left|done|done|done|].
  destruct (player_boot pid health name w1 (health - sum (concat mss))) as (w2 & Hr2 & Hp2 & Hd2); [right; by split|].
  destruct (player_deliver pid name ds w2 (health - sum (concat mss))) as (w3 & Hr3 & Hp3 & Hd3);
    [by rewrite i64_id by (unfold two63; lia)|].
  destruct (player_boot pid health name (base player_receive AStopped w3).1 (health - sum (concat mss))) as (w4 & Hr4 & Hp4 & _).
  { right. split; [|exact Hl]. unfold saved, file in *. unfold base. destruct (player_receive AStopped (receiver w3)). cbn [fst disk]. congruence. }
  exists w1, w2, w3, w4. split_and!; done.
Qed.

Lemma player_survives_witness :
  exists w1 w2 w3 w4, player_sessions james 100 "James" (fmap (M:=list) TakeDamage <$> [[9]; [1; 5]]) (mkWorld (mkPlayer 0 "") ∅ []) = (w1, None) /\
    receiver w1 = mkPlayer 85 "James" /\
    boot (newPlayerState 100 "James") (player_full james) w1 = (w2, None) /\ receiver w2 = mkPlayer 85 "James" /\
    deliver (player_full james) (TakeDamage <$> [80]) w2 = (w3, None) /\ receiver w3 = mkPlayer 5 "James" /\
    player_crash james 100 "James" w3 = (w4, None) /\ receiver w4 = mkPlayer 85 "James".
Proof.
  apply (player_survives james 100 "James" [[9]; [1; 5]] [80]).
  - reflexivity.
  - discriminate.
  - intros [|[|[|k]]]; cbn; lia.
Defined.

(** What is wrong in a file, and what the middleware makes of errors: contents that
    are no object end the program; an object without the health panics whenever
    the actor starts; and for any receiver, an error of its [LoadState] gives it
    [Initialized] twice. *)
Theorem persistence_errors (pid : PID) (health : Z) (name : string) (w : world PlayerState) :
  (file pid w = Some DInvalid -> (boot (newPlayerState health name) (player_full pid) w).2 = Some HExit) /\
  (forall data, file pid w = Some (DObject data) -> data !! "health"%string = None ->
     (boot (newPlayerState health name) (player_full pid) w).2 = Some (HPanic (PVRuntime TypeAssertion)) /\
     (player_crash pid health name w).2 = Some (HPanic (PVRuntime TypeAssertion))) /\
  (forall {R} (p : Persister R) (next : handler R) (w : world R) data r,
     Load false (PID_String pid) (disk w) = Some (DObject data) -> LoadState p data (receiver w) = Ok (r, true) ->
     WithPersistence false (Some p) pid next AInitialized w = andThen (next AInitialized) (next AInitialized) (set_receiver r w)).
Proof.
  assert (Hboot : forall w data, file pid w = Some (DObject data) -> data !! "health"%string = None ->
     (boot (newPlayerState health name) (player_full pid) w).2 = Some (HPanic (PVRuntime TypeAssertion))).
  { intros w' data Hf Hd. unfold boot, andThen, player_full, WithPersistence, Load. cbn [set_receiver disk]. unfold file in Hf. rewrite Hf.
    cbn [player LoadState]. unfold player_LoadState. by rewrite Hd. }
  split_and!.
  - intros Hf. unfold boot, andThen, player_full, WithPersistence, Load. cbn [set_receiver disk]. unfold file in Hf. by rewrite Hf.
  - intros data Hf Hd. split; [by apply (Hboot w data)|]. unfold player_crash, crash, andThen at 1. cbn [base player_receive].
    by apply (Hboot _ data).
  - intros R p next w' data r Hl Hr. unfold WithPersistence. by rewrite Hl, Hr.
Qed.

(** Hooks run before the receiver is told, and not when an actor panics: then the
    receiver is told to stop without its hook. *)
Theorem hooks_run {R} (new : R) (receive : any -> R -> R * option pvalue) (ms : list any) (w : world R)
    (Hquiet : forall m r, (receive m r).2 = None) (Hms : Forall (fun m => is_lifecycle m = false) ms) :
  let full := WithHooks (Some (mkHooker (mark "OnInit") (mark "OnStart") (mark "OnStop"))) (base receive) in
  let up := [AUser "OnInit" []; AInitialized; AUser "OnStart" []; AStarted] in
  (exists w', session new full ms w = (w', None) /\ given w' = given w ++ up ++ ms ++ [AUser "OnStop" []; AStopped]) /\
  (exists w', crash new (base receive) full w = (w', None) /\ given w' = given w ++ AStopped :: up).
Proof.
  intros full up.
  assert (Hbase : forall m w, exists w', base receive m w = (w', None) /\ given w' = given w ++ [m]).
  { intros m w'. unfold base. pose proof (Hquiet m (receiver w')) as Hq. destruct (receive m (receiver w')) as [r v].
    cbn in Hq. subst v. by eexists. }
  assert (Hup : forall w, exists w', boot new full w = (w', None) /\ given w' = given w ++ up).
  { intros w0. unfold boot, full, WithHooks, andThen. cbn [OnInit OnStart mark].
    match goal with |- context [base receive AInitialized ?x] => destruct (Hbase AInitialized x) as (w1 & -> & H1) end.
    match goal with |- context [base receive AStarted ?x] => destruct (Hbase AStarted x) as (w2 & -> & H2) end.
    exists w2. split; [done|]. rewrite H2. cbn [given]. rewrite H1. cbn [given set_receiver]. unfold up. by rewrite <-!app_assoc. }
  assert (Hms' : forall w, exists w', deliver full ms w = (w', None) /\ given w' = given w ++ ms).
  { induction Hms as [|m ms Hm _ IH]; intros w0; [exists w0; by rewrite app_nil_r|]. cbn [deliver]. unfold andThen.
    assert (Hf : full m w0 = base receive m w0) by by destruct m. rewrite Hf.
    destruct (Hbase m w0) as (w1 & -> & H1). destruct (IH w1) as (w2 & -> & H2). exists w2. by rewrite H2, H1, <-app_assoc. }
  split.
  - unfold session, andThen at 1 2. destruct (Hup w) as (w1 & -> & H1). destruct (Hms' w1) as (w2 & -> & H2).
    unfold stop, full, WithHooks, andThen. cbn [OnStop mark].
    match goal with |- context [base receive AStopped ?x] => destruct (Hbase AStopped x) as (w3 & -> & H3) end.
    exists w3. split; [done|]. rewrite H3. cbn [given]. rewrite H2, H1. by rewrite <-!app_assoc.
  - unfold crash, andThen. destruct (Hbase AStopped w) as (w1 & -> & H1). destruct (Hup w1) as (w2 & -> & H2).
    exists w2. split; [done|]. by rewrite H2, H1, <-app_assoc.
Qed.

(** Run after run the player loses nine more, whatever was printed: its health after
    [n] runs is what is left of a hundred, below zero too. *)
Theorem persistence_main (n : nat) (Hn : Z.of_nat n < 2 ^ 49) :
  exists disk, runs (S n) = (disk, None) /\
    disk !! safeFileName (PID_String james) = player_State (mkPlayer (100 - 9 * Z.of_nat (S n)) "James").
Proof.
  assert (Hrun : forall k h disk m, (disk !! safeFileName (PID_String james) = None /\ h = 100) \/
      disk !! safeFileName (PID_String james) = player_State (mkPlayer h "James") ->
      - 2 ^ 53 < h - 9 -> h <= 100 -> newFileStore m disk = (disk, None) -> k = h - 9 ->
      exists disk', main m disk = (disk', None) /\ disk' !! safeFileName (PID_String james) = player_State (mkPlayer k "James")).
  { intros k h d m Hd Hlo Hhi Hm ->.
    destruct (player_sessions_ok james 100 "James" [[9]] (mkWorld (newPlayerState 100 "James") d []) h) as (w & Hw & [[? _]|[_ Hs]]).
    - unfold file, saved, file. exact Hd.
    - lia.
    - intros [|[|i]]; cbn; lia.
    - done.
    - exists (Persistence.disk w). unfold main. rewrite Hm. unfold player_sessions in Hw. cbn [sessions fmap list_fmap] in Hw.
      unfold andThen at 1 in Hw. unfold player_session. change (fmap TakeDamage [9]) with [TakeDamage 9] in Hw.
      destruct (session _ _ _ _) as [w1 [h1|]]; [done|]. injection Hw as ->. split; [done|].
      exact Hs. }
  induction n as [|n IH].
  - destruct (Hrun (100 - 9 * Z.of_nat 1) 100 ∅ MkdirOk) as (d & H1 & H2); [by left|lia|lia|done|lia|]. by exists d.
  - destruct IH as (d & H1 & H2); [lia|].
    destruct (Hrun (100 - 9 * Z.of_nat (S (S n))) (100 - 9 * Z.of_nat (S n)) d MkdirExists) as (d' & H3 & H4); [by right|lia|lia|done|lia|].
    exists d'. split; [|done]. change (runs (S (S n))) with
      (match runs (S n) with (disk, None) => main MkdirExists disk | r => r end). by rewrite H1.
Qed.

Lemma persistence_main_witness :
  exists disk, runs 12 = (disk, None) /\
    disk !! safeFileName (PID_String james) = player_State (mkPlayer (-8) "James").
Proof. apply (persistence_main 11). lia. Defined.

(** A directory that can be neither made nor found ends the program. *)
Theorem persistence_main_no_directory (disk : fileStore) : main MkdirFails disk = (disk, Some HExit).
Proof. done. Qed.

(** What the hooks example prints, among what its receiver is given. *)
Theorem hooks_main_prints :
  given hooks_main.1 = [AUser "foo initialized" []; AInitialized; AUser "foo started" []; AStarted;
    AUser "string" []; AUser "foo stopped" []; AStopped].
Proof. done. Qed.
