(* ===== verification/Examples.v ===== *)
(** * Smaller examples

    The member selection by region ([examples/cluster/shared]), the monitor of the
    event stream ([examples/eventstream-monitor]), the restarting child
    ([examples/childprocs]), multicast discovery ([examples/mdns]) and the
    benchmark ([_bench/main.go]). *)

From S2P Require Import Prelude Net Pid Messages Process Opts Engine OnEngine MemberSet Agent.

(** ** Members of a region *)

Definition filterMembersByRegion (members : list Member) (region : string) : list Member :=
  List.filter (fun m => String.eqb (Region m) region) members.

(** [rnd] is what [rand.Intn(n)] returns for a length [n]. *)
Definition ActivateOnMember (fallback : string) (rnd : Z -> Z) : SelectMemberFunc := fun details =>
  let pick (ms : list Member) := ms !! Z.to_nat (rnd (zlen ms)) in
  let members := filterMembersByRegion (det_Members details) (det_Region details) in
  if 0 <? zlen members then pick members else
  let members := filterMembersByRegion (det_Members details) fallback in
  if 0 <? zlen members then pick members else None.

Lemma filterMembersByRegion_spec members region m :
  m ∈ filterMembersByRegion members region <-> m ∈ members /\ Region m = region.
Proof. unfold filterMembersByRegion. by rewrite !list_elem_of_In, List.filter_In, String.eqb_eq. Qed.

Lemma pick_in (ms : list Member) r : 0 <? zlen ms = true -> 0 <= r < zlen ms -> exists m, ms !! Z.to_nat r = Some m /\ m ∈ ms.
Proof.
  intros _ Hr. destruct (lookup_lt_is_Some_2 ms (Z.to_nat r)) as [m Hm]; [unfold zlen in Hr; lia|].
  exists m. split; [exact Hm|]. by eapply list_elem_of_lookup_2.
Qed.

(** An actor goes to a member of the region that was asked for, if there is one;
    else to one of the fallback region; else nowhere, and then an activation is
    refused without a message. *)
Theorem region_strategy `{Range} (fallback : string) (rnd : Z -> Z) (details : ActivationDetails)
    (Hrnd : forall n, 0 < n -> 0 <= rnd n < n) :
  match ActivateOnMember fallback rnd details with
  | Some m => m ∈ det_Members details /\
      (Region m = det_Region details \/ Region m = fallback /\ forall m', m' ∈ det_Members details -> Region m' <> det_Region details)
  | None => forall m, m ∈ det_Members details -> Region m <> det_Region details /\ Region m <> fallback
  end.
Proof.
  unfold ActivateOnMember. cbv zeta.
  assert (Hnone : forall region, 0 <? zlen (filterMembersByRegion (det_Members details) region) = false ->
    forall m, m ∈ det_Members details -> Region m <> region).
  { intros region Hz m Hm Hr. apply Z.ltb_ge in Hz. assert (Hin : m ∈ filterMembersByRegion (det_Members details) region)
      by by apply filterMembersByRegion_spec.
    unfold zlen in Hz. destruct (filterMembersByRegion _ _); [by apply elem_of_nil in Hin|simpl in Hz; lia]. }
  destruct (0 <? zlen (filterMembersByRegion (det_Members details) (det_Region details))) eqn:H1.
  - destruct (pick_in _ (rnd (zlen (filterMembersByRegion (det_Members details) (det_Region details)))) H1) as (m & -> & Hm).
    { apply Hrnd. by apply Z.ltb_lt. }
    apply filterMembersByRegion_spec in Hm as [? ?]. split; [done|by left].
  - destruct (0 <? zlen (filterMembersByRegion (det_Members details) fallback)) eqn:H2.
    + destruct (pick_in _ (rnd (zlen (filterMembersByRegion (det_Members details) fallback))) H2) as (m & -> & Hm).
      { apply Hrnd. by apply Z.ltb_lt. }
      apply filterMembersByRegion_spec in Hm as [? ?]. split; [done|]. right. split; [done|]. by apply Hnone.
    + intros m Hm. split; by apply Hnone.
Qed.

(** ** The monitor *)

Record monitor := mkMonitor { crashes : Z; starts : Z; stops : Z; deadletters : Z }.
Definition newMonitor : monitor := mkMonitor 0 0 0 0.
Definition query (q : monitor) : any := AUser "query" [crashes q; starts q; stops q; deadletters q].

(** [es] and [self]: the event stream and the monitor's own PID. *)
Definition monitor_receive (es : option PID) (self : pid_ptr) : ReceiveFunc monitor := fun m msg sender =>
  match msg with
  | AInitialized => (m, [Process.ESend es (AEventSub self)], None)
  | AActorRestartedEvent _ _ _ => (mkMonitor (i64 (crashes m + 1)) (starts m) (stops m) (deadletters m), [], None)
  | AActorStartedEvent _ => (mkMonitor (crashes m) (i64 (starts m + 1)) (stops m) (deadletters m), [], None)
  | AActorStoppedEvent _ => (mkMonitor (crashes m) (starts m) (i64 (stops m + 1)) (deadletters m), [], None)
  | ADeadLetterEvent _ _ _ => (mkMonitor (crashes m) (starts m) (stops m) (i64 (deadletters m + 1)), [], None)
  | AUser ty _ =>
      (m, if String.eqb ty "query" then match sender with Some _ => [Process.ESend sender (query m)] | None => [] end else [], None)
  | _ => (m, [], None)
  end.

Definition is_crash (m : any) : bool := match m with AActorRestartedEvent _ _ _ => true | _ => false end.
Definition is_start (m : any) : bool := match m with AActorStartedEvent _ => true | _ => false end.
Definition is_end (m : any) : bool := match m with AActorStoppedEvent _ => true | _ => false end.
Definition is_dead_letter (m : any) : bool := match m with ADeadLetterEvent _ _ _ => true | _ => false end.
Definition count (f : any -> bool) (ms : list any) : Z := zlen (List.filter f ms).

Definition monitor_all (es : option PID) (self : pid_ptr) (ms : list any) (m : monitor) : monitor :=
  foldl (fun m msg => (monitor_receive es self m msg None).1.1) m ms.

Lemma count_cons f m ms : count f (m :: ms) = (if f m then 1 else 0) + count f ms.
Proof. unfold count, zlen. simpl. destruct (f m); simpl; lia. Qed.

Lemma count_bound f ms : 0 <= count f ms <= zlen ms.
Proof. induction ms as [|m ms IH]; [done|]. rewrite count_cons. unfold zlen in *. simpl. destruct (f m); lia. Qed.

(** The monitor counts the events of each kind, and answers a query with the counts. *)
Theorem monitor_counts (es : option PID) (self : pid_ptr) (ms : list any) (s : PID) (data : list Z) (Hlen : zlen ms < two63) :
  let m := mkMonitor (count is_crash ms) (count is_start ms) (count is_end ms) (count is_dead_letter ms) in
  monitor_all es self ms newMonitor = m /\
  monitor_receive es self m (AUser "query" data) (Some s) = (m, [Process.ESend (Some s) (query m)], None).
Proof.
  split; [|done]. assert (Hg : forall ms a b c d, 0 <= a -> 0 <= b -> 0 <= c -> 0 <= d ->
    a + zlen ms < two63 -> b + zlen ms < two63 -> c + zlen ms < two63 -> d + zlen ms < two63 ->
    monitor_all es self ms (mkMonitor a b c d) =
      mkMonitor (a + count is_crash ms) (b + count is_start ms) (c + count is_end ms) (d + count is_dead_letter ms)).
  { clear ms Hlen. induction ms as [|m ms IH]; intros a b c d Ha Hb Hc Hd Ba Bb Bc Bd; [unfold count, zlen; cbn; f_equal; lia|].
    unfold zlen in *. simpl length in *. unfold monitor_all in *. cbn [foldl]. rewrite !count_cons.
    assert (Hi : forall x, 0 <= x -> x + Z.of_nat (S (length ms)) < two63 -> i64 (x + 1) = x + 1)
      by (intros; apply i64_id; unfold two63 in *; lia).
    destruct m; cbn [monitor_receive fst crashes starts stops deadletters is_crash is_start is_end is_dead_letter];
      rewrite ?Hi by lia; rewrite IH by lia; f_equal; lia. }
  unfold newMonitor. rewrite Hg by lia. done.
Qed.

(** ** A child that restarts *)

(** The global counter [restarts] is what the producer is told; the rest of the
    receiver is its data. *)
Record barReceiver := mkBar { bar_restarts : Z; bar_data : string }.
Definition newBarReceiver (data : string) (n : Z) : barReceiver + pvalue := inl (mkBar n data).
Definition bar_receive : ReceiveFunc barReceiver := fun r m sender =>
  match m with
  | AStarted => if bar_restarts r <? 2 then (r, [], Some (PVUser "string" [])) else (r, [], None)
  | _ => (r, [], None)
  end.
Definition bar_opts (data : string) (pid : PID) (parent : option PID) : Process.Opts barReceiver :=
  Process.mkOpts (newBarReceiver data) bar_receive defaultMaxRestarts [] pid parent.

(** It panics twice while it starts, and comes up the third time with its data; each
    time the receiver that panicked is told to stop first. *)
Theorem bar_comes_up (data : string) (pid : PID) (parent : option PID) range_children poison_done (fuel : nat) :
  let r := Process.Start (bar_opts data pid parent) range_children poison_done (S (S (S fuel))) Process.newProcess in
  r.2 = Returns tt /\ receiver r.1 = Some (mkBar 2 data) /\ restarts r.1 = 2 /\ inbox_status r.1 = Inbox.running /\
  omap (fun e => match e with TReceive m _ => Some m | _ => None end) (trace r.1) =
    [AInitialized; AStarted; AStopped; AInitialized; AStarted; AStopped; AInitialized; AStarted].
Proof. by vm_compute. Qed.

(** ** Multicast discovery *)

(** The addresses of an entry, as their [String()]. *)
Record ServiceEntry := mkEntry { Instance_ : string; AddrIPv4 : list string; Port : Z }.
Record DiscoveryEvent := mkDiscovery { dis_ID : string; dis_Addr : list string }.

(** [options] of [discovery.NewMdnsDiscovery]; [rnd_id] is made from the time. *)
Record mdns_options := mkMdnsOptions { mo_id : string; mo_ip : list string; mo_port : Z }.
Definition WithAnnounceAddr (ip : string) (p : Z) (o : mdns_options) : mdns_options :=
  mkMdnsOptions (mo_id o) (mo_ip o ++ [ip]) p.
Definition applyDiscoveryOptions (rnd_id : string) (opts : list (mdns_options -> mdns_options)) : mdns_options :=
  foldl (fun o opt => opt o) (mkMdnsOptions rnd_id [] 0) opts.

(** The event that is broadcast, unless the entry is the node's own. *)
Definition sendDiscoveryEvent (id : string) (entry : ServiceEntry) : option DiscoveryEvent :=
  if String.eqb (Instance_ entry) id then None
  else Some (mkDiscovery (Instance_ entry) ((fun a => a +:+ ":" +:+ Itoa (Port entry)) <$> AddrIPv4 entry)).

(** What the chat actor does with a [DiscoveryEvent]: the PID it says hello to. *)
Definition chat_discovered (ev : DiscoveryEvent) : result PID :=
  a ← slice_get (dis_Addr ev) 0; Ok (NewPID a "chat/chat").

(** A node greets what it discovers at its first IPv4 address, never itself; an
    entry with none (an IPv6-only node) makes the actor of every other node panic. *)
Theorem discovery_greets (id : string) (entry : ServiceEntry) :
  match sendDiscoveryEvent id entry with
  | None => Instance_ entry = id
  | Some ev => Instance_ entry <> id /\
      match AddrIPv4 entry with
      | a :: _ => chat_discovered ev = Ok (NewPID (a +:+ ":" +:+ Itoa (Port entry)) "chat/chat")
      | [] => chat_discovered ev = Panic IndexOutOfRange
      end
  end.
Proof.
  unfold sendDiscoveryEvent. destruct (String.eqb_spec (Instance_ entry) id); [done|]. split; [done|].
  unfold chat_discovered. cbn [dis_Addr]. by destruct (AddrIPv4 entry).
Qed.

(** ** The benchmark *)

(** One engine of the benchmark: its index, its actors, and the indices of the
    engines it sends to. *)
Record BenchEngine := mkBenchEngine { engineID : Z; actors : list PID; targetEngines : list Z }.

(** [localhost:4000+i], and the actor [engine-i-actor-j] with its random id. *)
Definition bench_address (i : Z) : string := "localhost:" +:+ Itoa (4000 + i).
Definition bench_actor (rnd : Z -> Z -> string) (i j : Z) : PID :=
  NewPID (bench_address i) (("engine-" +:+ Itoa i +:+ "-actor-" +:+ Itoa j) +:+ pidSeparator +:+ rnd i j).

(** [spawnEngines] and [spawnActors]: all engines, then the targets of each, then
    the actors of each. *)
Definition indices (n : nat) : list Z := Z.of_nat <$> List.seq 0 n.
Definition targets (n : nat) (i : Z) : list Z := List.filter (fun j => negb (i =? j)) (indices n).
Definition spawn_benchmark (rnd : Z -> Z -> string) (engines actorsPerEngine : nat) : list BenchEngine :=
  (fun i => mkBenchEngine i (bench_actor rnd i <$> indices actorsPerEngine) (targets engines i)) <$> indices engines.

(** [x[rand.Intn(len(x))]]: an empty [x] makes [Intn] panic. *)
Definition random_of {A} (pick : Z -> Z) (xs : list A) : outcome A :=
  if zlen xs <=? 0 then Panics (PVUser "string" []) else
  match xs !! Z.to_nat (pick (zlen xs)) with Some x => Returns x | None => Panics (PVRuntime IndexOutOfRange) end.

(** One message of a sender: from which engine, and to whom. *)
Definition bench_message (p1 p2 p3 : Z -> Z) (engines : list BenchEngine) : outcome (Z * PID) :=
  obind (random_of p1 engines) (fun e =>
  obind (random_of p2 (targetEngines e)) (fun t =>
  match engines !! Z.to_nat t with
  | None => Panics (PVRuntime NilDeref)
  | Some te => obind (random_of p3 (actors te)) (fun a => Returns (engineID e, a))
  end)).

Lemma indices_lookup n k : indices n !! k = if decide (k < n)%nat then Some (Z.of_nat k) else None.
Proof.
  unfold indices. rewrite list_lookup_fmap. case_decide as Hk.
  - by rewrite lookup_seq_lt.
  - by rewrite lookup_seq_ge by lia.
Qed.

Lemma random_ok {A} (pick : Z -> Z) (xs : list A) :
  (forall n, 0 < n -> 0 <= pick n < n) -> xs <> [] -> exists x, random_of pick xs = Returns x /\ x ∈ xs.
Proof.
  intros Hp Hne. unfold random_of. assert (0 < zlen xs) by (destruct xs; [done|unfold zlen; simpl; lia]).
  destruct (Z.leb_spec (zlen xs) 0); [lia|]. pose proof (Hp (zlen xs) ltac:(lia)).
  destruct (lookup_lt_is_Some_2 xs (Z.to_nat (pick (zlen xs)))) as [x Hx]; [unfold zlen in *; lia|]. rewrite Hx.
  exists x. split; [done|]. by eapply list_elem_of_lookup_2.
Qed.

Lemma targets_spec n i j : j ∈ targets n i <-> 0 <= j < Z.of_nat n /\ j <> i.
Proof.
  unfold targets, indices. rewrite !list_elem_of_In, List.filter_In, <-list_elem_of_In, list_elem_of_fmap.
  rewrite negb_true_iff, Z.eqb_neq. split.
  - intros [(k & -> & Hk%elem_of_seq) Hne]. lia.
  - intros [Hj Hne]. split; [|done]. exists (Z.to_nat j). rewrite elem_of_seq. lia.
Qed.

(** With at least two engines and one actor each, every message of the benchmark
    goes from an engine to an actor of another one; with a single engine there are
    no targets and the first sender panics. *)
Theorem bench_messages_cross (rnd : Z -> Z -> string) (engines actorsPerEngine : nat) (p1 p2 p3 : Z -> Z)
    (H1 : forall n, 0 < n -> 0 <= p1 n < n) (H2 : forall n, 0 < n -> 0 <= p2 n < n) (H3 : forall n, 0 < n -> 0 <= p3 n < n)
    (Hactors : (0 < actorsPerEngine)%nat) :
  let bench := spawn_benchmark rnd engines actorsPerEngine in
  ((2 <= engines)%nat -> exists i t j, bench_message p1 p2 p3 bench = Returns (i, bench_actor rnd t j) /\ i <> t /\
     0 <= i < Z.of_nat engines /\ 0 <= t < Z.of_nat engines /\ 0 <= j < Z.of_nat actorsPerEngine) /\
  (engines = 1%nat -> bench_message p1 p2 p3 bench = Panics (PVUser "string" [])).
Proof.
  intros bench.
  assert (Hin : forall e, e ∈ bench -> exists i, 0 <= i < Z.of_nat engines /\
    e = mkBenchEngine i (bench_actor rnd i <$> indices actorsPerEngine) (targets engines i)).
  { intros e (i & -> & Hi)%list_elem_of_fmap. exists i. split; [|done]. unfold indices in Hi.
    apply list_elem_of_fmap in Hi as (k & -> & Hk%elem_of_seq). lia. }
  assert (Hne : (0 < engines)%nat -> bench <> []).
  { intros He Hb. unfold bench, spawn_benchmark, indices in Hb. apply fmap_nil_inv, fmap_nil_inv in Hb.
    apply (f_equal length) in Hb. rewrite length_seq in Hb. simpl in Hb. lia. }
  split; intros He.
  - destruct (random_ok p1 bench H1 (Hne ltac:(lia))) as (e & Hr1 & (i & Hi & ->)%Hin).
    assert (Hot : targets engines i <> []).
    { intros Ht. assert (Hx : (if decide (i = 0) then 1 else 0) ∈ targets engines i) by (apply targets_spec; case_decide; lia).
      rewrite Ht in Hx. by apply elem_of_nil in Hx. }
    destruct (random_ok p2 _ H2 Hot) as (t & Hr2 & [Ht Hti]%targets_spec).
    assert (Hte : bench !! Z.to_nat t = Some (mkBenchEngine t (bench_actor rnd t <$> indices actorsPerEngine) (targets engines t))).
    { unfold bench, spawn_benchmark. rewrite list_lookup_fmap, indices_lookup, decide_True by lia. cbn. by rewrite Z2Nat.id by lia. }
    destruct (random_ok p3 (bench_actor rnd t <$> indices actorsPerEngine) H3) as (a & Hr3 & (j & -> & Hj)%list_elem_of_fmap).
    { intros Ha. apply fmap_nil_inv, fmap_nil_inv in Ha. apply (f_equal length) in Ha. rewrite length_seq in Ha. simpl in Ha. lia. }
    exists i, t, j. unfold bench_message. rewrite Hr1. cbn [obind targetEngines]. rewrite Hr2. cbn [obind]. rewrite Hte. cbn [actors].
    rewrite Hr3. cbn [obind engineID]. unfold indices in Hj. apply list_elem_of_fmap in Hj as (k & -> & Hk%elem_of_seq).
    split_and!; try done; lia.
  - subst engines. destruct (random_ok p1 bench H1 (Hne ltac:(lia))) as (e & Hr1 & (i & Hi & ->)%Hin).
    unfold bench_message. rewrite Hr1. cbn [obind targetEngines]. replace i with 0 by lia. done.
Qed.
