(* ===== verification/Mdns.v ===== *)
(** * Discovery by multicast DNS ([examples/mdns])

    The discovery actor with its announcer ([discovery/mdns.go],
    [discovery/announcer.go]) as the receiver of a process, and the chat actor that
    greets what is discovered ([chat/actor.go]).  What zeroconf answers is a
    parameter: whether a resolver and a registration succeed, the entries it finds,
    and what the [Shutdown] of a server does. *)

From stdpp Require Import countable.
From S2P Require Import Prelude Net Pid Messages Process Opts Engine OnEngine Examples.

Section discovery.
(** [zeroconf.NewResolver] and [zeroconf.RegisterProxy]: the error there is, or the server. *)
Variable NewResolver : option pvalue.
Variable RegisterProxy : Z + pvalue.
(** [server.Shutdown()] does not panic on a server; this is what it does on nil. *)
Variable Shutdown_nil : option pvalue.

(** The announcer is shared by the receivers of the producer; with one receiver it
    is part of it.  Contexts are named by numbers: the one of [NewMdnsDiscovery] is 0,
    and [Initialized] makes another one. *)
Record announcer := mkAnnouncer { ann_id : string; ann_ip : list string; ann_port : Z; server : option Z }.
Record mdns := mkMdns {
  mdns_id : string; mdns_announcer : announcer; resolver : bool; engine : bool; ctx : Z; cancelled : list Z; browsing : list Z
}.

Definition newAnnouncer (cfg : mdns_options) : announcer := mkAnnouncer (mo_id cfg) (mo_ip cfg) (mo_port cfg) None.
Definition start (a : announcer) : announcer * option pvalue :=
  match RegisterProxy with
  | inr err => (a, Some err)
  | inl s => (mkAnnouncer (ann_id a) (ann_ip a) (ann_port a) (Some s), None)
  end.

Definition NewMdnsDiscovery (cfg : mdns_options) : mdns := mkMdns (mo_id cfg) (newAnnouncer cfg) false false 0 [] [].

Definition with_announcer a d := mkMdns (mdns_id d) a (resolver d) (engine d) (ctx d) (cancelled d) (browsing d).
Definition cancelFn (d : mdns) : mdns :=
  mkMdns (mdns_id d) (mdns_announcer d) (resolver d) (engine d) (ctx d) (cancelled d ++ [ctx d]) (browsing d).
Definition initialize (d : mdns) : mdns :=
  mkMdns (mdns_id d) (mdns_announcer d) (resolver d) true (ctx d + 1) (cancelled d) (browsing d).
Definition createResolver (d : mdns) : mdns * option pvalue :=
  match NewResolver with
  | Some err => (d, Some err)
  | None => (mkMdns (mdns_id d) (mdns_announcer d) true (engine d) (ctx d) (cancelled d) (browsing d), None)
  end.
Definition browse (d : mdns) : mdns :=
  mkMdns (mdns_id d) (mdns_announcer d) (resolver d) (engine d) (ctx d) (cancelled d) (browsing d ++ [ctx d]).
Definition shutdown (d : mdns) : mdns * option pvalue :=
  match server (mdns_announcer d), Shutdown_nil with
  | None, Some v => (d, Some v)
  | _, _ => (cancelFn d, None)
  end.

Definition mdns_Receive : ReceiveFunc mdns := fun d m _ =>
  match m with
  | AInitialized => let '(d, v) := createResolver (initialize d) in (d, [], v)
  | AStarted => let d := browse d in let '(a, v) := start (mdns_announcer d) in (with_announcer a d, [], v)
  | AStopped =>
      let '(d, v) := shutdown d in
      match v with Some _ => (d, [], v) | None => (cancelFn d, [], None) end
  | _ => (d, [], None)
  end.

Definition mdns_opts (cfg : mdns_options) (pid : PID) : Process.Opts mdns :=
  Process.mkOpts (fun _ => inl (NewMdnsDiscovery cfg)) mdns_Receive defaultMaxRestarts [] pid None.
End discovery.

(** The events of a browse, in the order of its entries, and the panic of the
    goroutine if browsing fails. *)
Definition startDiscovery (id : string) (entries : list ServiceEntry) (err : option pvalue) : list DiscoveryEvent * outcome unit :=
  (omap (sendDiscoveryEvent id) entries, match err with Some v => Panics v | None => Returns tt end).

(** ** Its life *)

(** If the resolver and the registration succeed the actor comes up, and the pill
    that stops it shuts the server down and ends the browsing.  If one of them fails
    the actor does not restart: it is told to stop, there is no server to shut down,
    and if shutting down nothing panics, that panic ends the program. *)
Theorem discovery_life (NewResolver : option pvalue) (RegisterProxy : Z + pvalue) (v : pvalue)
    (cfg : mdns_options) (pid : PID) (fuel : nat) (c : Z) :
  let opts := mdns_opts NewResolver RegisterProxy (Some v) cfg pid in
  let start := Process.Start opts (fun _ => []) (fun _ => true) (S fuel) in
  match NewResolver, RegisterProxy with
  | None, inl s =>
      exists p q, start Process.newProcess = (p, Returns tt) /\ inbox_status p = Inbox.running /\
        receiver p = Some (mkMdns (mo_id cfg) (mkAnnouncer (mo_id cfg) (mo_ip cfg) (mo_port cfg) (Some s)) true true 1 [] [1]) /\
        Invoke opts (fun _ => []) (fun _ => true) start [mkEnvelope (APoisonPill true (Some c)) None] p = (q, Returns tt) /\
        exists d, receiver q = Some d /\ incl (browsing d) (cancelled d)
  | _, _ => exists p, start Process.newProcess = (p, Panics v) /\ restarts p = 0
  end.
Proof.
  destruct NewResolver as [err|]; [|destruct RegisterProxy as [s|err]]; cbv zeta.
  - eexists. split; [vm_compute; reflexivity|reflexivity].
  - eexists _, _. split; [vm_compute; reflexivity|]. split; [reflexivity|]. split; [reflexivity|].
    split; [vm_compute; reflexivity|]. eexists. split; [reflexivity|]. by intros x [<-|[]]; left.
  - eexists. split; [vm_compute; reflexivity|reflexivity].
Qed.

(** ** The chat actor *)

#[export] Instance discovery_event_eq_dec : EqDecision DiscoveryEvent.
Proof. solve_decision. Defined.
#[export] Instance discovery_event_countable : Countable DiscoveryEvent.
Proof.
  refine (inj_countable' (fun ev => (dis_ID ev, dis_Addr ev)) (fun '(i, a) => mkDiscovery i a) _). by intros [].
Defined.

(** The message of a chat, and the event as a value of the event stream. *)
Definition hello : any := as_user "*types.Message" "hello there"%string.
Definition discovered (ev : DiscoveryEvent) : any := as_user "*discovery.DiscoveryEvent" ev.

(** [server.Receive]: messages are only logged, and so is what is unknown, by the
    name of its type, which nil has not. *)
Definition server_Receive (fuel : nat) (self : pid_ptr) (m : any) (e : Engine) : outcome Engine :=
  match m with
  | AInitialized => Subscribe fuel self e
  | AStopped => Unsubscribe fuel self e
  | AUser ty _ =>
      if String.eqb ty "*discovery.DiscoveryEvent" then
        match of_user m : option DiscoveryEvent with
        | Some ev =>
            match chat_discovered ev with
            | Ok pid => SendWithSender fuel (Some pid) hello (Some (deref self)) e
            | Panic p => Panics (PVRuntime p)
            end
        | None => Returns e
        end
      else Returns e
  | ANil => Panics (PVRuntime NilDeref)
  | _ => Returns e
  end%string.

(** An entry that zeroconf finds and that is not the node's own makes its chat actor
    say hello, over the remote, to the chat actor at the first address of the entry,
    and to no other of its addresses; an entry without an IPv4 address makes it
    panic. *)
Theorem chat_greets (fuel : nat) (id : string) (self : pid_ptr) (entry : ServiceEntry) (e : Engine)
    (Hother : Instance_ entry <> id) (Hremote : remote e = true)
    (Haway : forall a, a ∈ AddrIPv4 entry -> (a +:+ ":" +:+ Itoa (Port entry))%string <> address e) :
  exists ev, startDiscovery id [entry] None = ([ev], Returns tt) /\
    server_Receive fuel self (discovered ev) e =
      match AddrIPv4 entry with
      | a :: _ => Returns (to_remote (mkRemoteSend false (NewPID (a +:+ ":" +:+ Itoa (Port entry)) "chat/chat") hello (Some (deref self))) e)
      | [] => Panics (PVRuntime IndexOutOfRange)
      end.
Proof.
  unfold startDiscovery, sendDiscoveryEvent. cbn [omap list_omap]. destruct (String.eqb_spec (Instance_ entry) id) as [|_]; [done|].
  eexists. split; [done|]. unfold server_Receive, discovered, as_user. cbn [String.eqb].
  set (ev := mkDiscovery _ _). assert (Hof : @of_user DiscoveryEvent _ _ (as_user "*discovery.DiscoveryEvent" ev) = Some ev) by apply of_as_user.
  unfold as_user in Hof. cbn [of_user] in *. rewrite Hof. unfold chat_discovered, ev. cbn [dis_Addr].
  destruct (AddrIPv4 entry) as [|a l]; [done|].
  transitivity (SendWithSender fuel (Some (NewPID (a +:+ ":" +:+ Itoa (Port entry)) "chat/chat")) hello (Some (deref self)) e); [done|].
  unfold SendWithSender, send, send_with, isLocalMessage. rewrite bool_decide_false, Hremote; [done|].
  cbn [Address NewPID]. intros Heq. by apply (Haway a); [left|].
Qed.
