(* ===== verification/Samples.v ===== *)
(** * The small example programs ([examples/])

    One module per program: the metrics middleware ([metrics]), the first program
    of the README ([helloworld]), the restarting actor ([restarts]), the name
    service ([request]), the parent of [childprocs], the event stream
    ([eventstream]), the main functions of the trade engine, and the client and
    server of [remote].  What a program prints is part of what its definitions
    return. *)

From S2P Require Import Prelude Net Pid Messages Process Opts Repeater Engine EventStream OnEngine Trade MemberSet Agent Examples.

(** ** Metrics *)

Module Metrics.
(** Calls on the counter and the histogram of the Prometheus library. *)
Inductive metric := Inc | Observe (seconds : Z).

Section metrics.
Context {R : Type}.

(** A receiver, the clock and the calls so far; a receive function may panic. *)
Record world := mkWorld { receiver : R; now : Z; metrics : list metric }.
Definition ReceiveFunc : Type := any -> world -> world * option pvalue.
Definition record (c : metric) (w : world) : world := mkWorld (receiver w) (now w) (metrics w ++ [c]).

Definition WithMetrics (next : ReceiveFunc) : ReceiveFunc := fun m w =>
  let start := now w in
  match next m (record Inc w) with
  | (w, None) => (record (Observe (now w - start)) w, None)
  | r => r
  end.

(** The receive function of an actor, which takes [cost m] for a message. *)
Definition base (receive : any -> R -> R * option pvalue) (cost : any -> Z) : ReceiveFunc := fun m w =>
  let '(r, v) := receive m (receiver w) in (mkWorld r (now w + cost m) (metrics w), v).

(** The messages an actor is given: whether a call panics or not, the next one
    finds the same counter and histogram. *)
Fixpoint calls (f : ReceiveFunc) (ms : list any) (w : world) : world * list bool :=
  match ms with
  | [] => (w, [])
  | m :: ms => let '(w, v) := f m w in let '(w, oks) := calls f ms w in (w, bool_decide (v = None) :: oks)
  end.

(** What is recorded for a call. *)
Definition footprint (cost : any -> Z) (m : any) (ok : bool) : list metric := if ok then [Inc; Observe (cost m)] else [Inc].

Definition counter (l : list metric) : Z := zlen (List.filter (fun c => match c with Inc => true | _ => false end) l).
Definition samples (l : list metric) : list Z := omap (fun c => match c with Observe d => Some d | _ => None end) l.

Lemma calls_footprints receive cost ms w :
  let '(w', oks) := calls (WithMetrics (base receive cost)) ms w in let '(plain, oks') := calls (base receive cost) ms w in
  oks = oks' /\ length oks = length ms /\ receiver w' = receiver plain /\ now w' = now plain /\
  metrics w' = metrics w ++ concat (zip_with (footprint cost) ms oks).
Proof.
  assert (Hg : forall w1 w2, receiver w1 = receiver w2 -> now w1 = now w2 ->
    let '(w', oks) := calls (WithMetrics (base receive cost)) ms w1 in let '(plain, oks') := calls (base receive cost) ms w2 in
    oks = oks' /\ length oks = length ms /\ receiver w' = receiver plain /\ now w' = now plain /\
    metrics w' = metrics w1 ++ concat (zip_with (footprint cost) ms oks)); [|by apply Hg].
  induction ms as [|m ms IH]; intros w1 w2 Hr Hn; [cbn; by rewrite app_nil_r|].
  destruct (receive m (receiver w2)) as [r v] eqn:Hm. set (l := metrics w1 ++ footprint cost m (bool_decide (v = None))).
  assert (H1 : WithMetrics (base receive cost) m w1 = (mkWorld r (now w1 + cost m) l, v)).
  { unfold WithMetrics, base. cbn [record receiver now metrics]. rewrite Hr, Hm. destruct v; [done|].
    unfold l, record. cbn [receiver now metrics]. do 2 f_equal. rewrite <-app_assoc, bool_decide_true by done. cbn. do 4 f_equal. lia. }
  assert (H2 : base receive cost m w2 = (mkWorld r (now w2 + cost m) (metrics w2), v)) by (unfold base; by rewrite Hm).
  cbn [calls]. rewrite H1, H2. specialize (IH (mkWorld r (now w1 + cost m) l) (mkWorld r (now w2 + cost m) (metrics w2)) eq_refl ltac:(cbn; lia)).
  destruct (calls _ ms _) as [w' oks], (calls _ ms _) as [plain oks']. destruct IH as (-> & Hlen & E1 & E2 & E3).
  cbn [zip_with concat length]. split_and!; [done|by rewrite Hlen|done|done|]. rewrite E3. unfold l. cbn [metrics]. by rewrite <-app_assoc.
Qed.

(** The middleware changes nothing of what the receiver does.  Its counter counts
    the calls, lifecycle messages and panicking calls included; its histogram has a
    sample for each call that returned, in order, which says how long it took. *)
Theorem metrics_count (receive : any -> R -> R * option pvalue) (cost : any -> Z) (ms : list any) (r : R) (start : Z) :
  let '(w, oks) := calls (WithMetrics (base receive cost)) ms (mkWorld r start []) in
  let '(plain, oks') := calls (base receive cost) ms (mkWorld r start []) in
  oks = oks' /\ receiver w = receiver plain /\ now w = now plain /\
  counter (metrics w) = zlen ms /\ samples (metrics w) = omap (fun '(m, ok) => if ok : bool then Some (cost m) else None) (zip ms oks).
Proof.
  pose proof (calls_footprints receive cost ms (mkWorld r start [])) as H.
  destruct (calls _ ms _) as [w oks], (calls _ ms _) as [plain oks']. destruct H as (-> & Hlen & H2 & H3 & H4). rewrite H4. cbn [metrics app].
  split_and!; [done..| |]; clear H2 H3 H4; revert ms Hlen; induction oks' as [|ok oks IH]; intros [|m ms] Hlen; try done; cbn [zip_with concat].
  - injection Hlen as Hlen. specialize (IH ms Hlen). unfold counter, zlen in *. rewrite List.filter_app, length_app.
    destruct ok; cbn [footprint List.filter length]; lia.
  - injection Hlen as Hlen. specialize (IH ms Hlen). unfold samples in *. rewrite omap_app, IH. by destruct ok.
Qed.
End metrics.
Arguments world : clear implicits.
Arguments ReceiveFunc : clear implicits.

(** The actors of the example print what they receive. *)
Definition print_message (who : string) (m : any) : list string :=
  match m with
  | AStarted => if String.eqb who "foo" then ["foo started"%string] else []
  | AUser "Message" _ => ["received: message to " +:+ who]%string
  | _ => []
  end.

(** What an actor is given until [main] returns: ten messages after its start. *)
Definition main_calls : list any := [AInitialized; AStarted] ++ replicate 10 (AUser "Message" []).

(** So both counters stand at twelve in the end. *)
Example main_counts (who : string) (cost : any -> Z) :
  let '(w, _) := calls (WithMetrics (base (fun m out => (out ++ print_message who m, None)) cost)) main_calls (mkWorld [] 0 []) in
  counter (metrics w) = 12 /\ length (samples (metrics w)) = 12%nat.
Proof. by vm_compute. Qed.
End Metrics.

(** ** Batches *)

(** The ways to cut a list into batches. *)
Fixpoint splits {A} (l : list A) : list (list (list A)) :=
  match l with
  | [] => [[]]
  | x :: l => List.flat_map (fun bs => match bs with [] => [[[x]]] | b :: bs => [(x :: b) :: bs; [x] :: b :: bs] end) (splits l)
  end.

Lemma splits_complete {A} (bs : list (list A)) : Forall (fun b => b <> []) bs -> In bs (splits (concat bs)).
Proof.
  induction bs as [|b bs IH]; intros Hne; [by left|]. apply Forall_cons in Hne as [Hb Hne]. specialize (IH Hne). cbn [concat].
  destruct b as [|x b]; [done|]. clear Hb. revert x. induction b as [|y b IHb]; intros x; cbn [app splits]; apply List.in_flat_map.
  - exists bs. split; [exact IH|]. destruct bs; [by left|]. by right; left.
  - exists ((y :: b) :: bs). split; [apply (IHb y)|]. by left.
Qed.

(** A process on several batches, one after the other. *)
Fixpoint invoke_batches {R} (opts : Process.Opts R) (fuel : nat) (bs : list (list Envelope)) : M R :=
  match bs with
  | [] => ret
  | b :: bs => Process.seq (Invoke opts (fun _ => []) (fun _ => true) (Start opts (fun _ => []) (fun _ => true) fuel) b) (invoke_batches opts fuel bs)
  end.

Definition live_run {R} (opts : Process.Opts R) (fuel : nat) (bs : list (list Envelope)) : process R * outcome unit :=
  Process.seq (Start opts (fun _ => []) (fun _ => true) fuel) (invoke_batches opts fuel bs) Process.newProcess.

(** The messages the receiver was called with. *)
Definition given {R} (p : process R) : list any := omap (fun e => match e with TReceive m _ => Some m | _ => None end) (trace p).

(** What holds of every way to cut is computed once. *)
Lemma every_split {A B} (f : list (list A) -> B) (l : list A) (r : B) :
  Forall (fun x => x = r) (f <$> splits l) -> forall bs, concat bs = l -> Forall (fun b => b <> []) bs -> f bs = r.
Proof.
  intros Hall bs <- Hne. rewrite Forall_forall in Hall. apply Hall. apply list_elem_of_fmap. exists bs. split; [done|].
  apply list_elem_of_In. by apply splits_complete.
Qed.

(** ** The first program *)

Module HelloWorld.
Definition foo_receive : ReceiveFunc unit := fun r m _ => (r, [], None).
Definition foo_prints (m : any) : list string :=
  match m with
  | AStarted => ["actor started"]
  | AStopped => ["actor stopped"]
  | AUser "*message" _ => ["actor has received hello world!"]
  | _ => []
  end%string.
Definition foo_opts (pid : PID) : Process.Opts unit := Process.mkOpts (fun _ => inl tt) foo_receive defaultMaxRestarts [] pid None.

(** What [main] sends: five messages and the pill of [PoisonCtx] with its context. *)
Definition sent (c : Z) : list Envelope :=
  replicate 5 (mkEnvelope (AUser "*message" []) None) ++ [mkEnvelope (APoisonPill true (Some c)) None].

(** What is printed, how the process ends, and the contexts it cancels. *)
Definition main (fuel : nat) (pid : PID) (batches : list (list Envelope)) : list string * outcome unit * list Z :=
  let r := live_run (foo_opts pid) fuel batches in
  (given r.1 ≫= foo_prints, r.2, omap (fun e => match e with TCancel c => Some c | _ => None end) (trace r.1)).

(** However the inbox batches the messages, the program prints them between the
    start and the stop of the actor, and [main] does not wait in vain. *)
Theorem hello_world (fuel : nat) (pid : PID) (c : Z) (batches : list (list Envelope))
    (Hsent : concat batches = sent c) (Hne : Forall (fun b => b <> []) batches) :
  main (S fuel) pid batches =
    (["actor started"%string] ++ replicate 5 "actor has received hello world!"%string ++ ["actor stopped"%string], Returns tt, [c]).
Proof. revert batches Hsent Hne. apply every_split. vm_compute. repeat constructor. Qed.

Lemma hello_world_witness :
  main 1 (NewPID "local" "my_actor/1") [sent 3] =
    (["actor started"%string] ++ replicate 5 "actor has received hello world!"%string ++ ["actor stopped"%string], Returns tt, [3]).
Proof. apply (hello_world 0 (NewPID "local" "my_actor/1") 3 [sent 3]); [reflexivity|]. repeat constructor. discriminate. Defined.
End HelloWorld.

(** ** A restart *)

Module Restarts.
(** A receiver knows how often it called [done]. *)
Definition foo_receive : ReceiveFunc Z := fun calls m _ =>
  match m with
  | AUser "*message" _ =>
      match of_user m : option string with
      | Some data => if String.eqb data "failed" then (calls, [], Some (PVUser "string" [])) else (calls + 1, [], None)
      | None => (calls, [], None)
      end
  | _ => (calls, [], None)
  end%string.
Definition foo_opts (pid : PID) : Process.Opts Z := Process.mkOpts (fun _ => inl 0) foo_receive 3 [] pid None.
Definition message (data : string) : Envelope := mkEnvelope (as_user "*message" data) None.

(** The message that fails is not tried again, the one after it is handled by the
    new receiver, whether it was in the same batch or not, and calls [done]: the
    group [main] waits for is finished. *)
Theorem restart_goes_on (fuel : nat) (pid : PID) (batches : list (list Envelope))
    (Hsent : concat batches = [message "failed"; message "hello world!"]) (Hne : Forall (fun b => b <> []) batches) :
  let r := live_run (foo_opts pid) (S (S fuel)) batches in
  (r.2, receiver r.1, restarts r.1, given r.1) =
    (Returns tt, Some 1, 1, [AInitialized; AStarted; as_user "*message" "failed"%string; AStopped;
       AInitialized; AStarted; as_user "*message" "hello world!"%string]).
Proof.
  revert batches Hsent Hne.
  apply (every_split (fun bs => let r := live_run (foo_opts pid) (S (S fuel)) bs in (r.2, receiver r.1, restarts r.1, given r.1))).
  vm_compute. repeat constructor.
Qed.

Lemma restart_goes_on_witness :
  receiver (live_run (foo_opts (NewPID "local" "foo/1")) 2 [[message "failed"]; [message "hello world!"]]).1 = Some 1.
Proof.
  pose proof (restart_goes_on 0 (NewPID "local" "foo/1") [[message "failed"]; [message "hello world!"]] eq_refl) as H.
  specialize (H ltac:(repeat constructor; discriminate)). exact (f_equal (fun x => x.1.1.2) H).
Defined.
End Restarts.

(** ** The name service *)

Module NameService.
Definition nameRequest : any := AUser "*nameRequest" [].
Definition nameResponse (name : string) : any := as_user "*nameResponse" name.

(** The type assertion of [main]. *)
Definition name_of (m : any) : option string :=
  match m with AUser "*nameResponse" _ => of_user m | _ => None end%string.

(** The responder handles one message of its mailbox. *)
Definition nameResponder_Receive (fuel : nat) (name : string) (env : Envelope) (e : Engine) : outcome Engine :=
  match Msg env with
  | AUser "*nameRequest" _ => Respond fuel (Sender env) (nameResponse name) e
  | _ => Returns e
  end%string.
Definition responder_step (fuel : nat) (t : PID) (name : string) (e : Engine) : outcome Engine :=
  match pop_mailbox (ID t) e with None => Blocks | Some (env, e) => nameResponder_Receive fuel name env e end.

(** [main] prints names until it ends, with [log.Fatal] if a request times out. *)
Inductive run := Ran (e : Engine) (names : list string) | Fatal (names : list string).

(** One of the two parts of [main]: a request, the responder in the meantime unless
    it is slow, and the result. *)
Definition ask (fuel : nat) (t : PID) (name rnd : string) (slow : bool) (printed : list string) (e : Engine) : outcome run :=
  obind (Request fuel (Some t) nameRequest rnd e) (fun '(e, resp) =>
  obind (if slow then Returns e else responder_step fuel t name e) (fun e =>
  match resp with
  | PResponse rp c =>
      obind (Result rp c slow false e) (fun '(e, res) =>
      match res with
      | None => Returns (Fatal printed)
      | Some m => Returns (Ran e (printed ++ match name_of m with Some n => [n] | None => [] end))
      end)
  | PMailbox _ _ => Panics (PVRuntime NilDeref)
  end)).

Definition main (fuel : nat) (custom : string) (rnd1 rnd2 rnd3 rnd4 : string) (slow1 slow2 : bool) (e : Engine) : outcome run :=
  obind (Spawn fuel "responder" "" rnd1 Returns e) (fun '(e, pid) =>
  obind (ask fuel pid "noname" rnd2 slow1 [] e) (fun r =>
  match r with
  | Fatal names => Returns (Fatal names)
  | Ran e names =>
      obind (Spawn fuel "custom_responder" "" rnd3 Returns e) (fun '(e, pid) => ask fuel pid custom rnd4 slow2 names e)
  end)).

(** A request to an idle responder. *)
Lemma ask_ok fuel t name rnd (slow : bool) printed e :
  wf e -> Address t = address e -> mailbox e (ID t) = Some [] -> registry e !! ("response" +:+ pidSeparator +:+ rnd) = None ->
  if slow then ask (S fuel) t name rnd slow printed e = Returns (Fatal printed)
  else exists e', ask (S fuel) t name rnd slow printed e = Returns (Ran e' (printed ++ [name])) /\ wf e' /\ address e' = address e /\
    forall id, registry e !! id = None -> registry e' !! id = None.
Proof.
  intros Hwf Ha Hq Hfree. destruct (Request_ok fuel t [] nameRequest rnd e Hwf Ha Hq Hfree)
    as (e1 & Hreq & Hwf1 & Hm & Hl & Hr & Ha1 & Hes & _ & Hother). set (rp := NewPID _ _) in *. set (c := next_ref e) in *.
  unfold ask. rewrite Hreq. destruct slow; cbn [obind].
  { unfold Result. by rewrite Hr. }
  destruct (pop_mailbox_ok _ _ _ e1 Hwf1 Hm) as (e2 & Hpop & [(Ha2 & _) Hwf2] & _ & Hother2 & Hr2 & _).
  unfold responder_step. rewrite Hpop. assert (Hne : ID rp <> ID t) by (intros Heq; unfold mailbox in Hm; rewrite <-Heq, Hl in Hm; done).
  assert (Hl2 : registry e2 !! ID rp = Some (PResponse rp c)) by by rewrite Hother2.
  cbn [nameResponder_Receive Msg nameRequest Sender].
  unfold Respond, Send, send, send_with, isLocalMessage, send_local. rewrite Ha2, Ha1.
  rewrite bool_decide_true by done. cbn [get]. rewrite Hl2. cbn [proc_send]. rewrite Hr2, Hr. cbn [default id obind].
  set (e3 := set_results _ e2). unfold Result. assert (results e3 !! c = Some [nameResponse name]) as -> by (simpl; by rewrite lookup_insert_eq).
  cbn [default id obind].
  change (name_of (nameResponse name)) with (@of_user string _ _ (as_user "*nameResponse" name)). rewrite of_as_user.
  eexists. split; [done|]. cbn [Remove set_registry set_results address registry]. split; [|split; [exact (eq_trans Ha2 Ha1)|]].
  - pose proof (wf_set_results (<[c := []]> (results e3)) e3 (proj2 (wf_set_results (<[c := [nameResponse name]]> (results e1)) e2 Hwf2))) as [_ Hw].
    apply (wf_Remove rp _ Hw). intros es He Heq. destruct (proj2 Hwf2 es He) as [_ Hs]. unfold mailbox in Hs. rewrite <-Heq, Hl2 in Hs. by destruct Hs.
  - intros id Hn. apply lookup_delete_None. destruct (decide (ID rp = id)) as [|Hrp]; [by left|right].
    destruct (decide (id = ID t)) as [->|Ht]; [unfold mailbox in Hq; by rewrite Hn in Hq|].
    cbn [e3 set_results registry]. by rewrite Hother2, Hother.
Qed.

(** [main] prints the default name and then the custom one, or ends at the first
    request whose responder is too slow. *)
Theorem names_printed (fuel : nat) (custom rnd1 rnd2 rnd3 rnd4 : string) (slow1 slow2 : bool) (e : Engine) (Hwf : wf e)
    (Hfree : Forall (fun id => registry e !! id = None)
       ["responder" +:+ pidSeparator +:+ rnd1; "response" +:+ pidSeparator +:+ rnd2;
        "custom_responder" +:+ pidSeparator +:+ rnd3; "response" +:+ pidSeparator +:+ rnd4]) :
  let r := main (S fuel) custom rnd1 rnd2 rnd3 rnd4 slow1 slow2 e in
  if slow1 then r = Returns (Fatal []) else if slow2 then r = Returns (Fatal ["noname"%string])
  else exists e', r = Returns (Ran e' ["noname"%string; custom]).
Proof.
  apply Forall_cons in Hfree as [F1 Hfree]. apply Forall_cons in Hfree as [F2 Hfree]. apply Forall_cons in Hfree as [F3 Hfree].
  apply Forall_cons in Hfree as [F4 _].
  assert (Hspawn : forall kind rnd e, wf e -> registry e !! (kind +:+ pidSeparator +:+ rnd) = None ->
    let pid := NewPID (address e) (kind +:+ pidSeparator +:+ rnd) in let e' := set_registry (<[ID pid := PMailbox pid []]> (registry e)) e in
    Spawn (S fuel) kind "" rnd Returns e = Returns (e', pid) /\ wf e' /\ mailbox e' (ID pid) = Some []).
  { intros kind rnd e0 Hwf0 Hf pid e'. unfold Spawn, SpawnProc, add. cbn [String.length Nat.eqb proc_PID]. fold pid.
    change (registry e0 !! ID pid = None) in Hf. rewrite Hf. split; [done|]. split; [|unfold mailbox; simpl; by rewrite lookup_insert_eq].
    pose proof (add_fine 0 (PMailbox pid []) e0 Hwf0 eq_refl) as H. unfold add in H. cbn [proc_PID] in H. rewrite Hf in H. apply H. }
  unfold main. destruct (Hspawn "responder"%string rnd1 e Hwf F1) as (-> & Hwf1 & Hm1). cbn [obind].
  set (e1 := set_registry _ e) in *.
  pose proof (ask_ok fuel (NewPID (address e) ("responder" +:+ pidSeparator +:+ rnd1)) "noname" rnd2 slow1 [] e1 Hwf1 eq_refl Hm1) as Hask.
  specialize (Hask ltac:(unfold e1; cbn [set_registry registry]; by rewrite lookup_insert_ne by discriminate)).
  destruct slow1; [by rewrite Hask|]. destruct Hask as (e2 & -> & Hwf2 & Ha2 & Hn2). cbn [obind app].
  destruct (Hspawn "custom_responder"%string rnd3 e2 Hwf2) as (-> & Hwf3 & Hm3).
  { apply Hn2. unfold e1. cbn [set_registry registry]. by rewrite lookup_insert_ne by discriminate. }
  cbn [obind]. set (e3 := set_registry _ e2) in *.
  pose proof (ask_ok fuel (NewPID (address e2) ("custom_responder" +:+ pidSeparator +:+ rnd3)) custom rnd4 slow2 ["noname"%string] e3 Hwf3 eq_refl Hm3) as Hask.
  specialize (Hask ltac:(unfold e3; cbn [set_registry registry]; rewrite lookup_insert_ne by discriminate;
    apply Hn2; unfold e1; cbn [set_registry registry]; by rewrite lookup_insert_ne by discriminate)).
  destruct slow2; [by rewrite Hask|]. destruct Hask as (e4 & -> & _). by exists e4.
Qed.
End NameService.

(** ** The parent of a child that restarts *)

Module Parent.
(** [fooReceiver], for the pointer [barPID]; [child_start] is the start of a [bar]
    with the data it is given. *)
Definition foo_receive (fuel : nat) (child_start : string -> Engine -> outcome Engine) (self : PID) (rnd : string)
    (m : any) (barPID : option PID) (children : gmap string PID) (e : Engine) : outcome (option PID * gmap string PID * Engine) :=
  match m with
  | AUser "message" _ =>
      match of_user m : option string with
      | Some data => obind (SpawnChild fuel self children "bar" data rnd (child_start data) e)
                       (fun '(e, pid, children) => Returns (Some pid, children, e))
      | None => Returns (barPID, children, e)
      end
  | _ => Returns (barPID, children, e)
  end%string.

(** A message with text starts a child under that text as its id; a second one with
    the same text finds the id taken: nothing is started, and the child that is
    there stays the one [foo] knows. *)
Theorem parent_spawns (fuel : nat) (child_start : string -> Engine -> outcome Engine) (self : PID) (rnd data : string)
    (barPID : option PID) (e : Engine) (Hwf : wf e) (Hdata : data <> EmptyString) :
  let pid := NewPID (address e) (ID self +:+ pidSeparator +:+ "bar" +:+ pidSeparator +:+ data) in
  let receive := foo_receive (S fuel) child_start self rnd (as_user "message" data) in
  (registry e !! ID pid = None ->
     receive barPID ∅ e = obind (child_start data (set_registry (<[ID pid := PMailbox pid []]> (registry e)) e))
       (fun e' => Returns (Some pid, {[ID pid := pid]}, e'))) /\
  (is_Some (registry e !! ID pid) ->
     exists e', receive (Some pid) {[ID pid := pid]} e = Returns (Some pid, {[ID pid := pid]}, e') /\
       published (AActorDuplicateIdEvent pid) e e').
Proof.
  intros pid receive. unfold receive, foo_receive.
  assert (Hof : @of_user string _ _ (as_user "message" data) = Some data) by apply of_as_user. unfold as_user in *. cbn [of_user] in *. rewrite Hof.
  assert (Hlen : (String.length data =? 0)%nat = false) by by destruct data.
  unfold SpawnChild, Spawn, SpawnProc, add. rewrite Hlen. cbn [proc_PID].
  assert (Hp : NewPID (address e) ((ID self +:+ pidSeparator +:+ "bar") +:+ pidSeparator +:+ data) = pid)
    by (unfold pid; by rewrite !string_app_assoc).
  rewrite Hp. split.
  - intros ->. destruct (child_start data _); [|done..]. cbn [obind]. by rewrite insert_empty.
  - intros [p ->]. destruct (BroadcastEvent_ok fuel (AActorDuplicateIdEvent pid) e Hwf) as (e' & -> & Hpub). cbn [obind].
    exists e'. split; [|done]. by rewrite insert_singleton_eq.
Qed.
End Parent.

(** ** The event stream *)

Module Events.
Definition MyCustomEvent : any := as_user "MyCustomEvent" "Hello World!"%string.

(** What the two actors print. *)
Definition actor_a (m : any) : list string :=
  match m with
  | AStarted => ["actor A started"]
  | AActorStartedEvent p => ["another actor started => " +:+ PID_String p]
  | AUser "MyCustomEvent" _ => match of_user m : option string with Some s => ["actorA: event => " +:+ s] | None => [] end
  | _ => []
  end%string.
Definition actor_b (m : any) : list string :=
  match m with
  | AStarted => ["actor B started"]
  | AUser "MyCustomEvent" _ => match of_user m : option string with Some s => ["actorB: event => " +:+ s] | None => [] end
  | _ => []
  end%string.

(** The calls of [main] and the starts of the actors on the engine: actor A is
    subscribed from outside, actor B by its own start. *)
Definition main (fuel : nat) (rnd_a rnd_b : string) (ptr_a ptr_b : Z) (e : Engine) : outcome (PID * PID * Engine) :=
  let pid_a := NewPID (address e) ("actor_a" +:+ pidSeparator +:+ rnd_a) in
  let pid_b := NewPID (address e) ("actor_b" +:+ pidSeparator +:+ rnd_b) in
  obind (SpawnFunc fuel "actor_a" "" rnd_a (start_child fuel pid_a Returns) e) (fun '(e, a) =>
  obind (Subscribe fuel (mkPtr ptr_a a) e) (fun e =>
  obind (SpawnFunc fuel "actor_b" "" rnd_b (start_child fuel pid_b (fun e => Subscribe fuel (mkPtr ptr_b pid_b) e)) e) (fun '(e, b) =>
  obind (BroadcastEvent fuel MyCustomEvent e) (fun e => Returns (a, b, e))))).

(** The subscribers, in map order or the other way round: with two there is no
    other order. *)
Definition visit (backwards : bool) (subs : gmap Z PID) : list PID :=
  (if backwards then @reverse PID else id) (map_to_list subs).*2.

(** What the actors print: on their starts, and for the events the event stream has
    forwarded once it has worked off its seven messages. *)
Definition printed (fuel : nat) (backwards : bool) (rnd_a rnd_b : string) (e : Engine) (es : PID) : outcome (list string * list string) :=
  obind (main fuel rnd_a rnd_b 1 2 e) (fun '(a, b, e) =>
  obind (stream_steps (visit backwards) es 7 fuel newEventStream e) (fun '(_, e) =>
    let inbox p := Msg <$> default [] (mailbox e (ID p)) in
    Returns ((AStarted :: inbox a) ≫= actor_a, (AStarted :: inbox b) ≫= actor_b))).

(** Both actors are told of the custom event, and actor A that B has started, but
    nobody that A has: A was not subscribed yet. *)
Example events_reach_both (backwards : bool) :
  printed 1 backwards "11" "22" (set_registry (<["eventstream/7" := PMailbox demo_stream []]> ∅) demo_engine) demo_stream =
    Returns (["actor A started"; "another actor started => local/actor_b/22"; "actorA: event => Hello World!"],
             ["actor B started"; "actorB: event => Hello World!"])%string.
Proof. by destruct backwards; vm_compute. Qed.
End Events.

(** ** Client and server of two nodes *)

Module Pair.
(** What the server prints; for other messages it only logs. *)
Definition server_Receive (m : any) : list string :=
  match m with
  | AStarted => ["server has started"]
  | _ => []
  end%string.

(** The PID of the client's [main], and the spawn of the server's. *)
Definition serverPID : PID := NewPID "127.0.0.1:4000" "server/primary".
Definition server_spawn (fuel : nat) (rnd : string) (start : Engine -> outcome Engine) (e : Engine) : outcome (Engine * PID) :=
  Spawn fuel "server" "primary" rnd start e.

(** The client's PID is the one the server was spawned with. *)
Example pair_meets (fuel : nat) (rnd : string) (e : Engine) :
  address e = "127.0.0.1:4000"%string -> registry e !! "server/primary" = None ->
  server_spawn fuel rnd Returns e = Returns (set_registry (<["server/primary" := PMailbox serverPID []]> (registry e)) e, serverPID).
Proof.
  intros Ha Hf. unfold server_spawn, Spawn, SpawnProc, add. cbn [String.length Nat.eqb proc_PID]. rewrite Ha.
  change (ID (NewPID _ _)) with "server/primary"%string. by rewrite Hf.
Qed.
End Pair.

(** ** The main function of the trade engine *)

Module TradeMain.
Definition hex_digit (n : Z) : Ascii.ascii := Ascii.ascii_of_N (Z.to_N (if n <? 10 then 48 + n else 87 + n)).

(** [hex.EncodeToString] *)
Fixpoint hex_of (bytes : list Byte.byte) : string :=
  match bytes with
  | [] => EmptyString
  | b :: bytes => let n := Z.of_N (Byte.to_N b) in String (hex_digit (n / 16)) (String (hex_digit (n mod 16)) (hex_of bytes))
  end.

(** [GenID], for the random bytes. *)
Definition GenID (id : list Byte.byte) : string := hex_of id.

Lemma hex_code n : 0 <= n < 16 -> Z.of_N (Ascii.N_of_ascii (hex_digit n)) = if n <? 10 then 48 + n else 87 + n.
Proof. intros Hn. unfold hex_digit. rewrite Ascii.N_ascii_embedding; destruct (Z.ltb_spec n 10); lia. Qed.

Lemma hex_digit_inj m n : 0 <= m < 16 -> 0 <= n < 16 -> hex_digit m = hex_digit n -> m = n.
Proof.
  intros Hm Hn H. apply (f_equal (fun a => Z.of_N (Ascii.N_of_ascii a))) in H. rewrite !hex_code in H by done.
  destruct (Z.ltb_spec m 10), (Z.ltb_spec n 10); lia.
Qed.

Lemma hex_digit_slash n : 0 <= n < 16 -> Ascii.ascii_of_N 47 <> hex_digit n.
Proof.
  intros Hn H. apply (f_equal (fun a => Z.of_N (Ascii.N_of_ascii a))) in H. rewrite hex_code in H by done. cbn in H.
  destruct (Z.ltb_spec n 10); lia.
Qed.

Lemma nibbles (b : Byte.byte) : let n := Z.of_N (Byte.to_N b) in 0 <= n / 16 < 16 /\ 0 <= n mod 16 < 16 /\ n = 16 * (n / 16) + n mod 16.
Proof.
  intros n. assert (0 <= n < 256) by (unfold n; pose proof (Byte.to_N_bounded b); lia).
  split; [split; [apply Z.div_pos; lia|apply Z.div_lt_upper_bound; lia]|]. split; [by apply Z.mod_pos_bound|by apply Z.div_mod].
Qed.

(** The id of 16 random bytes has 32 characters, no slash among them, and differs
    from that of other bytes. *)
Theorem gen_id (id id' : list Byte.byte) (Hlen : length id = 16%nat) :
  String.length (GenID id) = 32%nat /\ slashless (GenID id) /\ (GenID id' = GenID id -> id' = id).
Proof.
  unfold GenID, slashless. split; [|split].
  - assert (H : forall l, String.length (hex_of l) = (2 * length l)%nat) by (induction l as [|b l IH]; cbn [hex_of String.length length]; lia).
    by rewrite H, Hlen.
  - clear Hlen. induction id as [|b l IH]; [by apply not_elem_of_nil|]. cbn [hex_of String.list_ascii_of_string].
    destruct (nibbles b) as (? & ? & _). rewrite !not_elem_of_cons. split_and!; [by apply hex_digit_slash..|exact IH].
  - clear Hlen. revert id'. induction id as [|b l IH]; intros [|b' l'] H; try done. cbn [hex_of] in H.
    injection H as H1 H2 H3. f_equal; [|by apply IH]. destruct (nibbles b) as (? & ? & E), (nibbles b') as (? & ? & E').
    apply hex_digit_inj in H1; [|done..]. apply hex_digit_inj in H2; [|done..].
    assert (Heq : Byte.to_N b' = Byte.to_N b) by (apply N2Z.inj; rewrite E, E'; congruence).
    assert (Some b' = Some b) as [= ->]; [|done]. by rewrite <-!Byte.of_to_N, Heq.
Qed.

(** How [main] ends. *)
Inductive exit := Failed | Done (info : option trade_msg).

(** The trade engine handles the next message of its mailbox. *)
Definition trade_step (fuel : nat) (env : call_env) (children : gmap string PID) (e : Engine) : outcome (gmap string PID * Engine) :=
  match pop_mailbox (ID (ce_self env)) e with
  | None => Blocks
  | Some (m, e) =>
      trade_receive fuel (mkEnv (ce_self env) (Sender m) (ce_rnd_watcher env) (ce_rnd_executor env) (ce_rnd_response env)
        (ce_loc env) (ce_meanwhile env) (ce_expired env) (ce_prefer_ctx env)) (Msg m) children e
  end.

(** [main] up to the response or its time limit; the trade engine works in the
    meantime. *)
Definition main (fuel : nat) (rnd1 rnd2 : string) (tradeID : string) (env : PID -> call_env) (e : Engine) : outcome exit :=
  obind (Spawn fuel "trade-engine" "" rnd1 Returns e) (fun '(e, pid) =>
  let order := mkOrder tradeID "token0" "token1" "ETH" "wallet6" "privateKey" None in
  obind (Send fuel (Some pid) (Trade.msg (MTradeOrderRequest order)) e) (fun e =>
  obind (Request fuel (Some pid) (Trade.msg (MTradeInfoRequest tradeID)) rnd2 e) (fun '(e, resp) =>
  obind (trade_step fuel (env pid) ∅ e) (fun '(children, e) =>
  obind (trade_step fuel (env pid) children e) (fun '(children, e) =>
  match resp with
  | PResponse rp c =>
      match default [] (results e !! c) with
      | [] => obind (Result rp c true false e) (fun _ => Returns Failed)
      | _ => obind (Result rp c false false e) (fun '(_, res) =>
               Returns (match (m ← res; of_user m : option trade_msg) with
                        | Some (MTradeInfoResponse a b d) => Done (Some (MTradeInfoResponse a b d))
                        | _ => Failed
                        end))
      end
  | PMailbox _ _ => Panics (PVRuntime NilDeref)
  end))))).

(** The example gets no trade info, although the order has been placed: it ends with
    a failure before it cancels anything. *)
Example trade_main_fails :
  main 1 "4242" "77" (GenID (replicate 16 Byte.xab)) (fun pid => mkEnv pid None "101" "201" "301" 5 (fun e => e) true false) demo_engine
    = Returns Failed.
Proof. vm_compute. reflexivity. Qed.
End TradeMain.

(** ** The monitored actor that crashes *)

Module Unstable.
Definition second : Z := 1000.

(** [unstableActor]: the state is [spawnTime]; [now] is the clock, in milliseconds. *)
Definition unstable_receive (now : Z) (m : any) (spawnTime : Z) : Z * option pvalue :=
  match m with
  | AInitialized => (now, None)
  | AUser "customMessage" _ => (spawnTime, if (second <? now - spawnTime)%Z then Some (PVUser "string" []) else None)
  | _ => (spawnTime, None)
  end%string.

(** The repeated message at the times it is handled; a restart, [delay] later, hands
    the new receiver [Initialized].  The result counts the crashes. *)
Fixpoint ticks (delay : Z) (times : list Z) (spawnTime : Z) : Z :=
  match times with
  | [] => 0
  | t :: times =>
      match unstable_receive t (AUser "customMessage" []) spawnTime with
      | (s, None) => ticks delay times s
      | (s, Some _) => 1 + ticks delay times (unstable_receive (t + delay) AInitialized s).1
      end
  end.

(** It crashes at most once per second: the crashes up to a time [limit] fit in the
    seconds since it was spawned. *)
Theorem crashes_once_per_second (delay limit spawnTime : Z) (times : list Z)
    (Hdelay : 0 <= delay) (Hlimit : Forall (fun t => t <= limit) times) :
  0 <= ticks delay times spawnTime /\ (0 < ticks delay times spawnTime -> ticks delay times spawnTime * second < limit - spawnTime).
Proof.
  revert spawnTime. induction Hlimit as [|t times Ht _ IH]; intros s; [by cbn|]. cbn [ticks unstable_receive].
  destruct (Z.ltb_spec second (t - s)) as [Hc|Hc]; [|apply IH]. cbn [fst].
  destruct (IH (t + delay)) as [H0 H1]. unfold second in *.
  destruct (Z.eq_dec (ticks delay times (t + delay)) 0) as [->|Hne]; [lia|]. specialize (H1 ltac:(lia)). lia.
Qed.

(** The last part of [main]: the answer to the query, or nothing in time, and the
    type assertion on it. *)
Definition observed (res : option any) : outcome (list Z) :=
  match res with
  | Some (AUser "query" counts) => Returns counts
  | _ => Panics (PVRuntime TypeAssertion)
  end%string.

(** What the monitor answers is printed; without an answer the error is printed and
    then [main] panics. *)
Example observed_outcomes (m : monitor) :
  observed (Some (query m)) = Returns [crashes m; starts m; stops m; deadletters m] /\ observed None = Panics (PVRuntime TypeAssertion).
Proof. done. Qed.
End Unstable.

(** ** The benchmark's counters *)

Module Counters.
Record counters := mkCounters { sendCount : Z; receiveCount : Z; deadLetters : Z }.
Definition Add (n : Z) : Z := i64 (n + 1).

(** [benchMarkActor] and the monitor of an engine on one message: the counters, the
    actor's own count, and whether it answers a [Ping]. *)
Definition benchMarkActor_Receive (m : any) (own : Z) (c : counters) : Z * counters * bool :=
  match m with
  | AUser "*Message" _ => (i64 (own + 1)%Z, mkCounters (sendCount c) (Add (receiveCount c)) (deadLetters c), false)
  | AUser "*Ping" _ => (own, c, true)
  | _ => (own, c, false)
  end%string.
Definition monitor_Receive (m : any) (c : counters) : counters :=
  match m with ADeadLetterEvent _ _ _ => mkCounters (sendCount c) (receiveCount c) (Add (deadLetters c)) | _ => c end.

(** The senders: how many are between the send and the count; and the messages on
    their way, and those that went nowhere. *)
Record state := mkState { counts : counters; sending : nat; flying : nat; lost : nat }.
Definition init : state := mkState (mkCounters 0 0 0) 0 0 0.

Inductive step : state -> state -> Prop :=
  | step_send c s f l : step (mkState c s f l) (mkState c (S s) (S f) l)
  | step_count c s f l :
      step (mkState c (S s) f l) (mkState (mkCounters (Add (sendCount c)) (receiveCount c) (deadLetters c)) s f l)
  | step_receive c s f l own data :
      step (mkState c s (S f) l) (mkState (benchMarkActor_Receive (AUser "*Message" data) own c).1.2 s f l)
  | step_lost c s f l : step (mkState c s (S f) l) (mkState c s f (S l))
  | step_dead c s f l t m sender : step (mkState c s f l) (mkState (monitor_Receive (ADeadLetterEvent t m sender) c) s f l).

(** [sendMessages] compares when the senders are through; [None] is no error. *)
Definition verdict (s : state) : option (Z * Z) :=
  if sendCount (counts s) =? receiveCount (counts s) then None else Some (sendCount (counts s), receiveCount (counts s)).

(** [benchmark]: its error, for what [runtime.GOMAXPROCS] returned, which is the
    setting there was before, how starting the engines went, and the counters in the
    end; and the rate it prints, over ten seconds. *)
Definition benchmark (previous : Z) (spawn_err : option string) (s : state) : option string :=
  if previous =? 1 then Some "GOMAXPROCS must be greater than 1"%string else
  match spawn_err with
  | Some err => Some ("failed to spawn engines: " +:+ err)%string
  | None =>
      match verdict s with
      | Some (a, b) => Some ("failed to send messages: send count and receive count does not match: " +:+
                             Net.Itoa a +:+ " != " +:+ Net.Itoa b)%string
      | None => None
      end
  end.
Definition per_second (s : state) : Z := Z.quot (receiveCount (counts s)) 10.

(** What was sent is counted, on its way, or lost, up to the width of the counters. *)
Definition balanced (s : state) : Prop :=
  i64 (sendCount (counts s) + Z.of_nat (sending s)) = i64 (receiveCount (counts s) + Z.of_nat (flying s) + Z.of_nat (lost s)) /\
  - two63 <= sendCount (counts s) < two63 /\ - two63 <= receiveCount (counts s) < two63.

Lemma step_balanced s s' : step s s' -> balanced s -> balanced s'.
Proof.
  intros Hs (H1 & H2 & H3). destruct Hs; unfold balanced in *; cbn [counts sending flying lost benchMarkActor_Receive monitor_Receive
    fst snd sendCount receiveCount] in *;
    unfold Add; (split; [try exact H1|split; (done || apply i64_range)]).
  - replace (sendCount c + Z.of_nat (S s)) with ((sendCount c + Z.of_nat s) - (-1)) by lia.
    replace (receiveCount c + Z.of_nat (S f) + Z.of_nat l) with ((receiveCount c + Z.of_nat f + Z.of_nat l) - (-1)) by lia.
    rewrite <-(i64_sub (sendCount c + _)), H1, i64_sub. done.
  - rewrite i64_add_l, <-H1. f_equal. lia.
  - rewrite <-Z.add_assoc, i64_add_l, H1. f_equal. lia.
  - rewrite H1. f_equal. lia.
Qed.

(** Once the senders are through, the benchmark reports no error exactly if no
    message is still on its way and none was lost (fewer than 2^63 of them); dead
    letters it only prints. *)
Theorem benchmark_verdict (s : state) (Hrun : rtc step init s) (Hdone : sending s = 0%nat)
    (Hfew : Z.of_nat (flying s) + Z.of_nat (lost s) < two63) :
  verdict s = None <-> flying s = 0%nat /\ lost s = 0%nat.
Proof.
  assert (Hb : balanced s).
  { revert Hrun. apply (rtc_ind_r balanced); [by vm_compute|]. intros x y _ Hxy Hx. by eapply step_balanced. }
  destruct Hb as (H1 & H2 & H3). rewrite Hdone, Z.add_0_r, (i64_id (sendCount _)) in H1 by done.
  unfold verdict. destruct (Z.eqb_spec (sendCount (counts s)) (receiveCount (counts s))) as [Heq|Hne].
  - split; [|done]. intros _. rewrite Heq in H1. set (d := Z.of_nat (flying s) + Z.of_nat (lost s)) in *. assert (0 <= d) by lia.
    rewrite <-Z.add_assoc in H1. fold d in H1. unfold i64 in H1.
    assert (d mod two64 = 0) as Hd.
    { apply (mod_add_inj (receiveCount (counts s) + two63) _ _ two64); [by apply Z.mod_pos_bound|done|].
      rewrite Z.add_mod_idemp_r, Z.add_0_r by done. rewrite (Z.mod_small (_ + two63)) by (unfold two63, two64 in *; lia).
      replace (receiveCount (counts s) + two63 + d) with (receiveCount (counts s) + d + two63) by lia. lia. }
    rewrite Z.mod_small in Hd by (unfold two63, two64 in *; lia). lia.
  - split; [done|]. intros [Hf Hl]. rewrite Hf, Hl in H1. rewrite !Z.add_0_r, i64_id in H1 by done. done.
Qed.
End Counters.

(** ** Two members of a cluster *)

Module ClusterPair.
Import MemberSet Agent.

(** The configuration that member 1 asks for, and what its event actor does: when
    member [B] joins it activates a player, and greets it. *)
Definition bob (rnd_id : string) (rnd : Z) : ActivationConfig :=
  Agent.WithRegion "us-west" (Agent.WithID "bob" (NewActivationConfig rnd_id rnd)).
Definition event_Receive (rnd_id : string) (rnd : Z) (m : Member) : option (string * ActivationConfig * list Byte.byte) :=
  if String.eqb (MID m) "B" then Some ("playerSession"%string, bob rnd_id rnd, String.list_byte_of_string "hello from member 1") else None.

(** [Player.Receive] prints the data of a test message. *)
Definition Player_Receive (data : option (list Byte.byte)) : list string :=
  match data with Some d => [String.string_of_list_byte d] | None => [] end.

(** The region of a configuration has no say in where the actor goes unless the
    configuration also selects by region: whatever region is asked for, the default
    picks the same member, at random among all those with the kind. *)
Theorem region_has_no_say `{Range} (self kind rnd_id region : string) (rnd : Z) (random : draws) (resp : option cmsg) (a : Agent) :
  activate self kind (Agent.WithRegion region (Agent.WithID "bob" (NewActivationConfig rnd_id rnd))) random resp a =
  activate self kind (Agent.WithID "bob" (NewActivationConfig rnd_id rnd)) random resp a /\
  selected kind (Agent.WithRegion region (Agent.WithID "bob" (NewActivationConfig rnd_id rnd))) random a =
    FilterByKind kind (a_members a) !! Z.to_nat rnd.
Proof. done. Qed.

(** So the player of the example may well be spawned on member 1 itself, whatever
    its region is, although member 2 is there. *)
Example bob_at_home `{Range} (me other : Member) (a : Agent)
    (Hfree : activated a !! "playerSession/bob" = None) (Hkind : hasKindLocal "playerSession" a = true)
    (Hmembers : FilterByKind "playerSession" (a_members a) = [me; other]) (random : draws) :
  (activate (Host me) "playerSession" (bob "1" 0) random None a).1 = Some (NewPID (Host me) "playerSession/bob").
Proof.
  unfold activate, bob. cbn [Agent.WithRegion Agent.WithID NewActivationConfig cfg_id cfg_region selectMember default id].
  change ("playerSession" +:+ "/" +:+ "bob")%string with "playerSession/bob"%string. rewrite Hfree, Hmembers.
  cbn [length Nat.eqb]. change (SelectRandomMember 0 (mkDetails "us-west" [me; other] "playerSession")) with (Some me). cbv iota beta.
  destruct (String.eqb_spec (Host me) (Host me)); [|done]. unfold handleActivationRequest. by rewrite Hkind.
Qed.
End ClusterPair.
